(* ===== verification/_CoqProject ===== *)
-Q . S2P
Prelude.v
GoStrings.v
Digest.v
Encoding.v
Sha256.v
OciRef.v
World.v
Settled.v
State.v
Complypack.v
Sync.v
Progress.v
Config.v
Workspace.v
Provider.v
Generation.v
Resolver.v
Evaluator.v
Terminal.v
Report.v
Scan.v
Lifecycle.v
Get.v
ProgressPacks.v
PackProgress.v
Liveness.v
Fallback.v
Scannable.v
Time.v
Diagnostics.v
DoctorVars.v
DoctorPacks.v
Doctor.v
DoctorVerbose.v
DoctorFrame.v
Verify.v
Init.v
MockSource.v
MockRegistry.v
Cli.v
Logging.v
Plugin.v
Processes.v
BehavioralReport.v
Demo.v
Witnesses.v
Witnesses2.v
Witnesses3.v
Witnesses4.v
Witnesses5.v
