(* ===== verification/Prelude.v ===== *)
(** * A verification development for complyctl

    complyctl fetches compliance policies (Gemara artifacts in OCI registries)
    and the content bundles of providers (complypacks) into a local cache, lets
    provider plugins generate their artifacts from them, scans targets through
    the plugins, and writes evaluation logs and reports.  This library models
    the Go code of that program, under src/, as executable definitions and
    proves what makes it correct.

    ** The files, and the code they model

    - Prelude: Go errors as a tree that [errors.Is] walks, the error monad and
      its notations, list lemmas.  GoStrings: the part of package strings the
      code uses, on bytes.
    - Encoding (packages encoding/hex, base64, unicode/utf8), Sha256
      (crypto/sha256, executable, with the test vectors of the standard).
    - Digest (internal/cache/state.go ValidateDigest, sync.go classifyVersion,
      vendored go-digest), OciRef (internal/registry/client.go, the vendored
      reference grammar of oras-go).
    - World: the operating system.  A file system is a tree of directories and
      files with contents and modes; a path is a list of components; the world
      adds a clock, an environment, a source of random names and a schedule of
      faults, which decides at every system call whether it fails and how.  A
      theorem about all worlds therefore covers every combination of failing
      calls; [no_faults] is the hypothesis that none fails.
    - State (internal/cache/{state,retention}.go), Complypack
      (internal/cache/complypack.go), Sync (internal/cache/{cache,source,sync,
      complypack_source,complypack_sync}.go): the cache and what fills it.
    - Config (internal/complytime/config.go), Workspace (internal/complytime/
      {consts,workspace,legacy}.go): the configuration and where things are.
    - Provider (pkg/provider/{client,server,manager,discovery}.go): the
      protocol between complyctl and a plugin, discovery and routing.
    - Generation (internal/policy/{assessment,generation_state}.go), Resolver
      (internal/policy/{loader,resolver}.go): from a cached policy to provider
      configurations, and the record of what artifacts were generated from.
    - Terminal (internal/terminal/{table,spinner}.go): the plain table that
      commands print, and the plain side of the spinner.
    - Evaluator (internal/output/{evaluator,filename}.go, the conversions of
      sarif.go), Report (internal/output/{scan_summary,markdown,oscal,sarif,
      execution_plan}.go): from assessments to logs and reports.
    - Scan (cmd/complyctl/cli/{scan,generate}.go), Get (cmd/complyctl/cli/
      {get,list}.go): the commands.
    - Lifecycle: what get leaves in a store and what the loader of generate and
      scan finds there, across Sync and Resolver.
    - Settled (worlds in which no call fails any more), Progress (SaveState and
      SyncPolicy in them), ProgressPacks (what complypacks write, and where),
      PackProgress (Store and SyncComplypack), Liveness (the get command): no code of
      their own, but what the program needs to find in order to succeed, that no
      failure takes it away, and that it then succeeds.  Fallback: what the lookup of
      complypacks makes of a lost version.  Scannable: what the state on disk says of
      the tags in the stores, through all runs of get.
    - Time (package time and its RFC 3339 layouts), Diagnostics, DoctorVars,
      DoctorPacks (internal/doctor/doctor.go: the checks on the installation;
      on variables; on timelines, complypacks and the size of the cache),
      Doctor (its Run, and cmd/complyctl/cli/doctor.go: summary, rendering,
      the command).  DoctorVerbose and DoctorFrame hold theorems on the whole
      run: what verbosity changes, and what is written to disk.
    - Verify (internal/cache/verify.go): the bundle of a cosign signature and the
      verifiers Get and Sync are given.
    - Init (cmd/complyctl/cli/{init,providers}.go): the prompts as functions of
      the standard input, the new workspace, the listing of providers.
    - Cli (cmd/complyctl/cli/{root,options,list,get,generate,scan,version}.go,
      internal/version/version.go): the commands from their flags on.
    - Logging (pkg/log/log.go, the writer and hooks of root.go): the logger given
      to go-plugin, the lazily opened log file, the tee of debug mode.
    - Plugin (Describe in pkg/provider/{client,server}.go, cmd/test-provider),
      Processes (pkg/provider/{initialization,plugin,manager}.go and the commands'
      use of them): a provider behind the wire, and the processes of providers.
    - MockRegistry (cmd/mock-oci-registry), MockSource (internal/cache/cachetest/
      mock_source.go), BehavioralReport (cmd/behavioral-report): what the tests run
      against, and the report they make.
    - Demo, Witnesses, Witnesses2 to Witnesses5: a concrete instance of
      every parameter and the theorems with hypotheses applied at concrete inputs,
      evaluated.

    The commands call Config and Workspace, then Resolver on the stores that
    Sync filled, Generation and Provider, and hand the answers to Evaluator and
    Report.  Get invalidates, through Generation, what Scan would reuse.
    Doctor reads what all of them keep, through the same definitions: the state,
    the stores, the loader and resolver of policies, the provider manager.  Sync
    calls a verifier; Get chooses it from the configuration; Verify builds it.
    Processes refines the loading of providers that Scan, Generate, Doctor and
    Init take from Provider, with the processes that it starts and ends.  The
    client of OciRef is run against the registry of MockRegistry, and Sync against
    the sources of MockSource.

    ** How code is rendered

    A Go struct is a record, a map a [gmap] (a nil map is the empty one, except
    where nil decides: the verifier cache and the complypack cache's state are
    options), an error return a [result], an effectful function an [io]
    action, which returns its answer and the next world.  State the code
    mutates through a pointer is passed in and returned, also with an error,
    since the code keeps using it.  Loops are structural recursion; where the
    code's condition is in the middle of a loop the loop is a definition of
    its own.  [%q] in messages is rendered without its quotation marks, and a
    path that is printed by its clean absolute form; the other texts of errors
    are kept, as some decide control flow or are reported.  [sort.Slice] and
    [sort.Strings] are a stable merge sort: where ties could be told apart no
    theorem fixes their order.
    Where Go iterates a map in random order the definition takes the order of
    [map_to_list]; the theorems on such loops state results that do not depend
    on the order, and [EvaluatorIDToVersion_any_order] says so of the one that
    can err.

    Fuel and bounds: directory walks take the number of nodes of the tree as
    fuel ([node_size]; that this is enough is part of the exactness of the
    listing of policies and of invalidation); os.CreateTemp and os.MkdirTemp try 10000
    names as in the standard library ([temp_tries]).  The walk that
    adds up the cache takes [node_size] too, the loop over PEM blocks one more
    than the length of the text, and the loop of the policy prompt one more
    than that of the standard input: each is proved to be enough.  Retention
    counts and numbers of controls are Z; the size of the cache is an int64
    with its wrap-around.

    Parameters, as type classes, stand for code that is not the program's:
    [Codec] (JSON and YAML of a type), [HostSyntax] (net/url on a host),
    [RegistryNetwork], [Oras] and [StoreReader] (the OCI libraries),
    [GemaraYAML], [Verifiers] (what builds a verifier; Verify has the
    program's instance), [ContainerRegistry] (go-containerregistry),
    [Sigstore], [Pem] (encoding/pem and crypto/x509), [Launcher] (starting a plugin),
    [LogEncoders], [Oscal], [Sarif], [TimeText], [LineFormat] and [Sprintf] (the text of
    a log line), [Programs] (what an executable does when it is started; from it
    Processes makes a [Launcher]), [Archive], [Embed] and [Codec] of documents (the
    registry of the tests), [TagLaws] and [TagsStay] (the tags of a local store), [OciStore] with
    its laws and [Unicode] (the sources of the tests), [ReportEncoders].
    [PolicyLoader] is the program's own interface between loader and resolver,
    with its instance [Loader] in Resolver.

    ** What is proved

    - Verification fails closed: a rejecting verifier means no fetch, no switch
      of versions, no change of state or files; an entry configured to be
      verified records the verdict of a verifier built from its own
      configuration (Sync, Get).  Its limit is proved as well: in a workspace
      without a verification block of its own, entries' blocks are ignored.
    - Signatures: no verdict without one of sigstore's, on a bundle built from
      the signature layer of the artifact's digest, under exactly the trust that
      is configured; the bundle holds what the annotations say; the certificate
      chain is read to its end.  What sigstore is asked does not depend on the
      artifact otherwise, and this is proved as well.
    - Doctor: everything found is counted and shown and only a blocking failure
      fails the command; verbosity adds details only; nothing is written but the
      stores the resolver opens; the verdict on variables, the orphaned versions
      and the size of the cache are exact; a registry that does not answer is
      not asked again.
    - Processes: no plugin outlives the command that started it, whatever fails;
      while a command works exactly the registered providers run.
    - What get fetched, scan finds (Lifecycle): the recorded version resolves.  Two
      limits are proved: a policy fetched before verification was configured is never
      verified, whatever the verifier (Sync), and a second tag of cached content is
      never cached, so that get is up to date and scan asks for get (Lifecycle).
    - get succeeds eventually (Liveness): when the schedule of faults ends, every run
      after its end leaves each policy that the registry serves recorded and on disk,
      whatever earlier runs have left behind and whatever becomes of other policies and
      of all the complypacks.  The number of runs is bounded by the tick at which the
      faults end, since each run takes at least one step; parties that only have to
      answer once nothing fails are a [service], [spare_names] says that random names
      do not repeat, and [Places] that the directories of a workspace lie apart.
      No run, however it fails, leaves a record under the registry's digest without its
      tag in the store, so that generate and scan can resolve what get has cached
      (Scannable).  A complypack that the registry serves is synchronised whenever
      nothing fails (PackProgress).
    - A version of a complypack that is lost from the cache is not fetched again while
      another version of its evaluator is there, and the other one is served (Fallback).
    - Options are settled before a scan touches anything (Cli); the log holds
      exactly the lines of the run, in its place (Logging); tables are aligned
      (Terminal).
    - The registry of the tests serves content under its own SHA-256 digest; what is
      pushed is pulled; a directory is seeded exactly; the client of complyctl finds
      what was pushed and reports the rest as missing (MockRegistry).  A copy of the
      mock source is published whole, and synchronising from it records what was
      seeded (MockSource).  The report speaks once of each requirement that was run
      (BehavioralReport).
    - Init: the prompt ends on every input and its references are valid and
      distinct; a configuration is never overwritten.
    - The cache is consistent: state.json is replaced atomically under every
      fault; digests in memory are well formed after any sequence of updates;
      what is stored is found again; failed stores change nothing else; names
      stay inside the cache; eviction keeps the configured number; the state
      names content that is on disk.
    - Scans are honest: the exit status, attribution of results to targets,
      completeness of logs, summaries, reports and merged references, the
      worst result winning, identifiers resolved, the pass rate.
    - Generation: all or nothing, reuse exactly when nothing changed, exact
      invalidation; where a complypack of another provider changes the policy's
      digests, reuse is lost.
    - Configuration: validation accepts exactly the well-formed, loading
      establishes what the rest relies on, references and templates are parsed
      as documented.
    - Providers: exact discovery, routing that loses nothing, a wire that is
      faithful up to what the protocol carries.

    ** What is not modelled

    Console output other than the texts named above (progress and log lines of the
    commands, the texts of prompts, colours), symbolic links and the Unix
    permission check on access, deadlines of network calls, what sigstore
    computes, white space outside ASCII, and what plugins do to files while they
    generate or scan: a provider here is the answer it gives.  The policy's
    timeout is the boolean [deadline] of a scan.  Metadata constants of logs that
    nothing reads are left out.  The construction of cobra commands, the exit status of main,
    the credential store of Docker, generated protocol code, gRPC and TLS, the
    animation of the spinner, the styles of the log and the steps of the
    behavioural tests are not the program's own logic and are not modelled; HTTP is
    modelled as far as the handlers of the test registry write to it.

    Planned next: progress of all the complypacks of a workspace, which may evict each
    other's versions; further theorems that cross components, from an artifact pushed
    to the registry of the tests, through get, to the content that scan evaluates. *)
From stdpp Require Export base tactics list gmap strings sorting pretty.
From Stdlib Require Export ZArith Lia.

#[global] Open Scope string_scope.
#[global] Open Scope list_scope.
#[global] Set Default Proof Using "Type".
#[global] Arguments String.append !_ _ / : simpl nomatch.

(** ** Go errors

    [fmt.Errorf] without [%w] is [Errorf]; with one [%w] it is [Wrapf] (text
    before, cause, text after); [errors.Join] is [Joined]; package-level
    sentinel errors are [Sentinel]s.  [errors.Is] walks this tree. *)

Inductive sentinel : Set :=
  | ErrVersionNotFound   (* internal/registry.ErrVersionNotFound *)
  | ErrNotExist          (* os.ErrNotExist *)
  | ErrExist             (* os.ErrExist *)
  | ErrNotDir            (* syscall.ENOTDIR *)
  | ErrIsDir             (* syscall.EISDIR *)
  | ErrRefNotFound       (* oras errdef.ErrNotFound *)
  | ErrAlreadyExists     (* oras errdef.ErrAlreadyExists *)
  | ErrIO (code : Z).    (* any other operating-system failure *)

Inductive error : Set :=
  | Errorf (msg : string)
  | Sentinel (s : sentinel)
  | Wrapf (pre : string) (cause : error) (post : string)
  | Joined (e1 e2 : error).

#[export] Instance sentinel_eq_dec : EqDecision sentinel.
Proof. solve_decision. Defined.
#[export] Instance error_eq_dec : EqDecision error.
Proof. solve_decision. Defined.

(** [errors.Is e s]. *)
Fixpoint error_is (e : error) (s : sentinel) : bool :=
  match e with
  | Errorf _ => false
  | Sentinel s' => bool_decide (s = s')
  | Wrapf _ c _ => error_is c s
  | Joined e1 e2 => error_is e1 s || error_is e2 s
  end.

(** [errors.Join] of a list: [nil] when there is no error. *)
Fixpoint errors_join (es : list error) : option error :=
  match es with
  | [] => None
  | e :: es' => Some (match errors_join es' with
                      | None => e
                      | Some e' => Joined e e'
                      end)
  end.

(** A Go [(T, error)] result whose value is meaningless when the error is set. *)
Inductive result (A : Type) : Type :=
  | Ok (a : A)
  | Err (e : error).
Arguments Ok {A} a.
Arguments Err {A} e.

Definition is_ok {A} (r : result A) : bool :=
  match r with Ok _ => true | Err _ => false end.

Definition wrap_err {A} (f : error -> error) (r : result A) : result A :=
  match r with Ok a => Ok a | Err e => Err (f e) end.

Definition result_bind {A B} (r : result A) (k : A -> result B) : result B :=
  match r with Ok a => k a | Err e => Err e end.

(** [guard c e]: [if c { return e }]. *)
Definition guard_err (c : bool) (e : error) : result unit :=
  if c then Err e else Ok tt.

Declare Scope go_scope.
Delimit Scope go_scope with go.
Notation "'try' x ':=' m 'in' k" := (result_bind m (fun x => k))
  (at level 10, x pattern, m at level 100, k at level 200,
   format "'[v' 'try'  x  ':='  m  'in'  '/' k ']'") : go_scope.
Notation "'try' x ':=' m 'orelse' h 'in' k" := (result_bind (wrap_err h m) (fun x => k))
  (at level 10, x pattern, m at level 100, h at level 100, k at level 200,
   format "'[v' 'try'  x  ':='  m  'orelse'  h  'in'  '/' k ']'") : go_scope.
Notation "'check' m 'in' k" := (result_bind m (fun _ : unit => k))
  (at level 10, m at level 100, k at level 200,
   format "'[v' 'check'  m  'in'  '/' k ']'") : go_scope.
#[global] Open Scope go_scope.

(** ** Result lemmas *)

Lemma result_bind_ok {A B} (r : result A) (k : A -> result B) b :
  result_bind r k = Ok b <-> exists a, r = Ok a /\ k a = Ok b.
Proof. destruct r; simpl; naive_solver. Qed.

Lemma wrap_err_ok {A} f (r : result A) a : wrap_err f r = Ok a <-> r = Ok a.
Proof. destruct r; simpl; naive_solver. Qed.

Lemma guard_err_ok c e u : guard_err c e = Ok u <-> c = false.
Proof. unfold guard_err. destruct c, u; naive_solver. Qed.

Create HintDb golib.
#[export] Hint Resolve -> wrap_err_ok : golib.
#[export] Hint Resolve <- wrap_err_ok : golib.

(** [go_inv H] takes a successful result apart, one early return at a time. *)
Ltac go_inv H :=
  repeat first
    [ rewrite result_bind_ok in H
    | rewrite wrap_err_ok in H
    | rewrite guard_err_ok in H
    | progress (destruct_and? H)
    | match type of H with
      | exists _, _ => destruct H as [? H]
      | _ /\ _ => let H1 := fresh H in destruct H as [H1 H]; go_inv H1
      end
    | progress simplify_eq/= ].

(** [case_matches] splits every [match] and [if] of the goal. *)
Ltac case_matches := repeat (case_match; simplify_eq/=).

(** ** Generic list lemmas *)

Section lists.
Context {A B : Type}.
Implicit Types l : list A.

(** [slices.Contains] *)
Definition contains `{!EqDecision A} (x : A) l : bool := bool_decide (x ∈ l).

Lemma contains_spec `{!EqDecision A} (x : A) l : contains x l = true <-> x ∈ l.
Proof. apply bool_decide_eq_true. Qed.

(** Go's [for _, x := range l { if p(x) { return x } }]. *)
Fixpoint find_first (p : A -> bool) l : option A :=
  match l with
  | [] => None
  | x :: l' => if p x then Some x else find_first p l'
  end.

Lemma find_first_Some p l x :
  find_first p l = Some x ->
  exists l1 l2, l = l1 ++ x :: l2 /\ p x = true /\ Forall (fun y => p y = false) l1.
Proof.
  induction l as [|y l IH]; simpl; [done|].
  destruct (p y) eqn:E; intros H; simplify_eq.
  - exists [], l. split_and!; auto.
  - destruct (IH H) as (l1 & l2 & -> & Hp & Hall).
    exists (y :: l1), l2. split_and!; auto.
Qed.

Lemma find_first_None p l :
  find_first p l = None <-> Forall (fun y => p y = false) l.
Proof.
  induction l as [|y l IH]; simpl; [naive_solver|].
  rewrite Forall_cons. destruct (p y) eqn:E; naive_solver.
Qed.

Lemma fold_left_inv (P : B -> Prop) (f : B -> A -> B) l b :
  P b -> (forall b x, x ∈ l -> P b -> P (f b x)) -> P (fold_left f l b).
Proof.
  revert b. induction l as [|x l IH]; intros b Hb Hf; simpl; [done|].
  apply IH; [apply Hf; [left|done]|]. intros. apply Hf; [by right|done].
Qed.

Lemma foldl_inv (P : B -> Prop) (f : B -> A -> B) l b :
  P b -> (forall b x, x ∈ l -> P b -> P (f b x)) -> P (foldl f b l).
Proof.
  revert b. induction l as [|x l IH]; intros b Hb Hf; simpl; [done|].
  apply IH; [apply Hf; [left|done]|]. intros. apply Hf; [by right|done].
Qed.

Lemma filter_all (p : A -> Prop) `{!forall x, Decision (p x)} l :
  Forall p l -> filter p l = l.
Proof. induction 1; [done|]. rewrite filter_cons_True by done. by f_equal. Qed.

Lemma filter_none (p : A -> Prop) `{!forall x, Decision (p x)} l :
  Forall (fun x => ~ p x) l -> filter p l = [].
Proof. induction 1; [done|]. by rewrite filter_cons_False. Qed.
End lists.

(** Integers and booleans as text ([%d], [%v]). *)
Definition itoa (z : Z) : string := pretty z.
