(* ===== verification/GoStrings.v ===== *)
(** * The parts of Go's [strings] package the program uses

    Go strings are byte strings; here they are [string]s of [ascii] bytes.
    Every function below is structural, so it evaluates. *)
From S2P Require Import Prelude.
From Stdlib Require Export Ascii.

Definition byte_of (c : ascii) : nat := nat_of_ascii c.

Definition byte_between (lo hi : ascii) (c : ascii) : bool :=
  (byte_of lo <=? byte_of c)%nat && (byte_of c <=? byte_of hi)%nat.

Definition is_digit (c : ascii) : bool := byte_between "0" "9" c.
Definition is_lower (c : ascii) : bool := byte_between "a" "z" c.
Definition is_upper (c : ascii) : bool := byte_between "A" "Z" c.
Definition is_alnum (c : ascii) : bool := is_lower c || is_upper c || is_digit c.

(** [p] holds of every byte / of some byte. *)
Fixpoint str_forall (p : ascii -> bool) (s : string) : bool :=
  match s with
  | EmptyString => true
  | String c s' => p c && str_forall p s'
  end.

Fixpoint str_exists (p : ascii -> bool) (s : string) : bool :=
  match s with
  | EmptyString => false
  | String c s' => p c || str_exists p s'
  end.

(** One of the bytes of [set]. *)
Definition in_set (set : string) (c : ascii) : bool := str_exists (Ascii.eqb c) set.

(** [strings.HasPrefix], [strings.TrimPrefix], [strings.CutPrefix] *)
Fixpoint cut_prefix (s p : string) : option string :=
  match p, s with
  | EmptyString, _ => Some s
  | String a p', String b s' => if Ascii.eqb a b then cut_prefix s' p' else None
  | String _ _, EmptyString => None
  end.

Definition has_prefix (s p : string) : bool :=
  match cut_prefix s p with Some _ => true | None => false end.

Definition trim_prefix (s p : string) : string :=
  default s (cut_prefix s p).

(** [strings.HasSuffix], [strings.TrimSuffix] *)
Fixpoint cut_suffix (s p : string) : option string :=
  if bool_decide (s = p) then Some EmptyString
  else match s with
       | EmptyString => None
       | String c s' => String c <$> cut_suffix s' p
       end.

Definition has_suffix (s p : string) : bool :=
  match cut_suffix s p with Some _ => true | None => false end.

Definition trim_suffix (s p : string) : string :=
  default s (cut_suffix s p).

(** [strings.TrimRight(s, "c")] for a one-byte cutset. *)
Fixpoint trim_right (s : string) (c : ascii) : string :=
  match s with
  | EmptyString => EmptyString
  | String a s' =>
      match trim_right s' c with
      | EmptyString => if Ascii.eqb a c then EmptyString else String a EmptyString
      | r => String a r
      end
  end.

(** [strings.Cut(s, "c")]: the text before and after the first [c]. *)
Fixpoint cut (s : string) (c : ascii) : option (string * string) :=
  match s with
  | EmptyString => None
  | String a s' =>
      if Ascii.eqb a c then Some (EmptyString, s')
      else match cut s' c with
           | Some (l, r) => Some (String a l, r)
           | None => None
           end
  end.

(** The text before and after the last [c] ([strings.LastIndex]). *)
Fixpoint cut_last (s : string) (c : ascii) : option (string * string) :=
  match s with
  | EmptyString => None
  | String a s' =>
      match cut_last s' c with
      | Some (l, r) => Some (String a l, r)
      | None => if Ascii.eqb a c then Some (EmptyString, s') else None
      end
  end.

(** [strings.Contains] of a one-byte string, and of any string. *)
Definition contains_byte (s : string) (c : ascii) : bool := str_exists (Ascii.eqb c) s.

Fixpoint contains_str (s p : string) : bool :=
  has_prefix s p ||
  match s with
  | EmptyString => false
  | String _ s' => contains_str s' p
  end.

(** [strings.Split(s, "c")]; never empty. *)
Fixpoint str_split (s : string) (c : ascii) : list string :=
  match s with
  | EmptyString => [EmptyString]
  | String a s' =>
      if Ascii.eqb a c then EmptyString :: str_split s' c
      else match str_split s' c with
           | [] => [String a EmptyString]
           | w :: ws => String a w :: ws
           end
  end.

(** [strings.Join] *)
Fixpoint join (sep : string) (l : list string) : string :=
  match l with
  | [] => EmptyString
  | [x] => x
  | x :: l' => x +:+ sep +:+ join sep l'
  end.

(** [strings.ReplaceAll(s, "a", "b")] for one-byte strings. *)
Fixpoint replace_byte (a b : ascii) (s : string) : string :=
  match s with
  | EmptyString => EmptyString
  | String c s' => String (if Ascii.eqb c a then b else c) (replace_byte a b s')
  end.

(** [strings.TrimSpace] on the ASCII white space. *)
Definition is_space (c : ascii) : bool :=
  (byte_of c =? 32)%nat || ((9 <=? byte_of c)%nat && (byte_of c <=? 13)%nat).

Fixpoint trim_left_space (s : string) : string :=
  match s with
  | EmptyString => EmptyString
  | String c s' => if is_space c then trim_left_space s' else s
  end.

Fixpoint trim_right_space (s : string) : string :=
  match s with
  | EmptyString => EmptyString
  | String c s' =>
      match trim_right_space s' with
      | EmptyString => if is_space c then EmptyString else String c EmptyString
      | r => String c r
      end
  end.

Definition trim_space (s : string) : string := trim_right_space (trim_left_space s).

(** [s[:n]] *)
Fixpoint str_take (n : nat) (s : string) : string :=
  match n, s with
  | S n', String c s' => String c (str_take n' s')
  | _, _ => EmptyString
  end.

(** Byte-wise lexicographic order, as Go's [<] on strings. *)
Fixpoint str_leb (a b : string) : bool :=
  match a, b with
  | EmptyString, _ => true
  | String _ _, EmptyString => false
  | String x a', String y b' =>
      if Ascii.eqb x y then str_leb a' b' else (byte_of x <? byte_of y)%nat
  end.

Definition str_le (a b : string) : Prop := str_leb a b = true.
#[export] Instance str_le_dec : RelDecision str_le.
Proof. intros a b. unfold str_le. apply _. Defined.

(** [sort.Strings] / [slices.Sort] on strings. *)
Definition sort_strings (l : list string) : list string := merge_sort str_le l.

(** ** Lemmas *)

Lemma append_nil_r (s : string) : s +:+ "" = s.
Proof. induction s; simpl; congruence. Qed.

Lemma append_assoc (a b c : string) : (a +:+ b) +:+ c = a +:+ b +:+ c.
Proof. induction a; simpl; congruence. Qed.

Lemma append_inj_l (p a b : string) : p +:+ a = p +:+ b -> a = b.
Proof. induction p; simpl; intros H; simplify_eq; auto. Qed.

Lemma length_append (a b : string) : String.length (a +:+ b) = String.length a + String.length b.
Proof. induction a; simpl; congruence. Qed.

Lemma append_inj_r (a b s : string) : a +:+ s = b +:+ s -> a = b.
Proof.
  revert b. induction a as [|c a IH]; intros [|c' b]; cbn; intros H; [done| | |].
  - apply (f_equal String.length) in H. cbn in H. rewrite length_append in H. lia.
  - apply (f_equal String.length) in H. cbn in H. rewrite length_append in H. lia.
  - injection H as -> H. by rewrite (IH b).
Qed.

Lemma str_forall_app p a b : str_forall p (a +:+ b) = str_forall p a && str_forall p b.
Proof. induction a; simpl; [done|]. by rewrite IHa, andb_assoc. Qed.

Lemma str_exists_app p a b : str_exists p (a +:+ b) = str_exists p a || str_exists p b.
Proof. induction a; simpl; [done|]. by rewrite IHa, orb_assoc. Qed.

Lemma str_forall_exists p s : str_forall p s = negb (str_exists (fun c => negb (p c)) s).
Proof. induction s; simpl; [done|]. rewrite IHs. destruct (p a); done. Qed.

Lemma str_forall_impl (p q : ascii -> bool) s :
  (forall c, p c = true -> q c = true) -> str_forall p s = true -> str_forall q s = true.
Proof.
  intros Hpq. induction s; simpl; [done|]. rewrite !andb_true_iff.
  intros [? ?]; auto.
Qed.

Lemma str_forall_disjoint (p : ascii -> bool) c s :
  p c = false -> str_forall p s = true -> contains_byte s c = false.
Proof.
  intros Hc. unfold contains_byte. induction s as [|a s IH]; simpl; [done|].
  rewrite andb_true_iff. intros [Ha Hs].
  destruct (Ascii.eqb_spec c a) as [->|]; [congruence|]. auto.
Qed.

Lemma cut_prefix_Some s p r : cut_prefix s p = Some r <-> s = p +:+ r.
Proof.
  revert s. induction p as [|a p IH]; intros s; simpl.
  - destruct s; naive_solver.
  - destruct s as [|b s]; simpl; [naive_solver|].
    destruct (Ascii.eqb_spec a b) as [->|]; simpl; [rewrite IH|]; naive_solver.
Qed.

Lemma cut_prefix_app p r : cut_prefix (p +:+ r) p = Some r.
Proof. by apply cut_prefix_Some. Qed.

Lemma has_prefix_spec s p : has_prefix s p = true <-> exists r, s = p +:+ r.
Proof.
  unfold has_prefix. destruct (cut_prefix s p) as [r|] eqn:E.
  - apply cut_prefix_Some in E. naive_solver.
  - split; [done|]. intros [r ->]. by rewrite cut_prefix_app in E.
Qed.

Lemma trim_prefix_app p r : trim_prefix (p +:+ r) p = r.
Proof. unfold trim_prefix. by rewrite cut_prefix_app. Qed.

Lemma trim_prefix_no s p : has_prefix s p = false -> trim_prefix s p = s.
Proof. unfold has_prefix, trim_prefix. by destruct (cut_prefix s p). Qed.

Lemma cut_None s c : cut s c = None <-> contains_byte s c = false.
Proof.
  unfold contains_byte. induction s as [|a s IH]; simpl; [done|].
  rewrite (Ascii.eqb_sym c a). destruct (Ascii.eqb a c); simpl; [done|].
  rewrite <-IH. destruct (cut s c) as [[]|]; naive_solver.
Qed.

Lemma cut_Some s c l r :
  cut s c = Some (l, r) <-> s = l +:+ String c r /\ contains_byte l c = false.
Proof.
  unfold contains_byte. revert l. induction s as [|a s IH]; intros l; simpl.
  - split; [done|]. by intros [H _]; destruct l.
  - destruct (Ascii.eqb_spec a c) as [->|Hne].
    + split; [intros; by simplify_eq|]. intros [H1 H2].
      destruct l as [|b l]; simpl in *; simplify_eq; [done|].
      by rewrite Ascii.eqb_refl in H2.
    + destruct l as [|b l]; simpl.
      * split; [|naive_solver]. by destruct (cut s c) as [[]|].
      * specialize (IH l). destruct (Ascii.eqb_spec c b) as [->|Hcb]; simpl.
        -- split; [|naive_solver]. destruct (cut s b) as [[]|]; naive_solver.
        -- destruct (cut s c) as [[l' r']|]; naive_solver.
Qed.

Lemma cut_app l c r : contains_byte l c = false -> cut (l +:+ String c r) c = Some (l, r).
Proof. intros. by apply cut_Some. Qed.

Lemma cut_last_None s c : cut_last s c = None <-> contains_byte s c = false.
Proof.
  unfold contains_byte. induction s as [|a s IH]; simpl; [done|].
  rewrite (Ascii.eqb_sym c a).
  destruct (cut_last s c) as [[]|]; destruct (Ascii.eqb a c); simpl; naive_solver.
Qed.

Lemma cut_last_Some s c l r :
  cut_last s c = Some (l, r) <-> s = l +:+ String c r /\ contains_byte r c = false.
Proof.
  revert l r. induction s as [|a s IH]; intros l r; simpl.
  - split; [done|]. by intros [H _]; destruct l.
  - destruct (cut_last s c) as [[l' r']|] eqn:E.
    + destruct (proj1 (IH l' r') eq_refl) as [-> Hr'].
      split; [intros; by simplify_eq/=|]. intros [H1 H2].
      destruct l as [|b l]; simpl in *; simplify_eq.
      * exfalso. unfold contains_byte in H2. rewrite str_exists_app in H2. simpl in H2.
        rewrite Ascii.eqb_refl in H2. by rewrite orb_true_r in H2.
      * assert (Some (l', r') = Some (l, r)) as ?; [|by simplify_eq].
        by apply IH.
    + apply cut_last_None in E. destruct (Ascii.eqb_spec a c) as [->|Hne].
      * split; [intros; by simplify_eq/=|]. intros [H1 H2].
        destruct l as [|b l]; simpl in *; simplify_eq; [done|].
        unfold contains_byte in E. rewrite str_exists_app in E. simpl in E.
        rewrite Ascii.eqb_refl in E. by rewrite orb_true_r in E.
      * split; [done|]. intros [H1 H2].
        destruct l as [|b l]; simpl in *; simplify_eq.
        unfold contains_byte in E. rewrite str_exists_app in E. simpl in E.
        rewrite Ascii.eqb_refl in E. by rewrite orb_true_r in E.
Qed.

Lemma split_nonempty s c : str_split s c <> [].
Proof. destruct s; simpl; [done|]. case_match; [done|]. by case_match. Qed.

Lemma split_no s c : contains_byte s c = false -> str_split s c = [s].
Proof.
  unfold contains_byte. induction s as [|a s IH]; simpl; [done|].
  rewrite (Ascii.eqb_sym c a). destruct (Ascii.eqb a c); simpl; [done|].
  intros H. by rewrite IH.
Qed.

(** [strings.Join(strings.Split(s, c), c)] is [s]. *)
Lemma join_split s c : join (String c "") (str_split s c) = s.
Proof.
  induction s as [|a s IH]; simpl; [done|].
  destruct (Ascii.eqb_spec a c) as [->|]; simpl.
  - destruct (str_split s c) eqn:E; [by apply split_nonempty in E|]. by rewrite IH.
  - destruct (str_split s c) as [|w [|w' ws]] eqn:E; [by apply split_nonempty in E|..];
      simpl in *; by rewrite IH.
Qed.

Lemma replace_byte_gone a b s : a <> b -> contains_byte (replace_byte a b s) a = false.
Proof.
  intros Hab. unfold contains_byte. induction s as [|c s IH]; simpl; [done|].
  rewrite IH, orb_false_r. destruct (Ascii.eqb_spec c a) as [->|].
  - by apply Ascii.eqb_neq.
  - apply Ascii.eqb_neq. congruence.
Qed.

Lemma trim_suffix_spec s p : s = trim_suffix s p \/ s = trim_suffix s p +:+ p.
Proof.
  unfold trim_suffix. induction s as [|c s IH]; simpl; case_bool_decide; simpl; auto.
  destruct (cut_suffix s p); simpl in *; [|by left].
  destruct IH as [IH|IH]; [left|right]; congruence.
Qed.

Lemma sort_strings_perm l : sort_strings l ≡ₚ l.
Proof. apply merge_sort_Permutation. Qed.
