(* ===== verification/Digest.v ===== *)
(** * OCI content digests

    [digest.Parse] of the vendored go-digest package, the validation wrapper
    of internal/cache/state.go, the tag/digest classification of
    internal/cache/sync.go and the abbreviation of cmd/complyctl/cli/list.go. *)
From S2P Require Import Prelude GoStrings.

(** Go's hash registry: the three algorithms go-digest knows, with the length
    of their hex encoding ([Size() * 2]). *)
Definition hex_length (algorithm : string) : option nat :=
  if bool_decide (algorithm = "sha256") then Some 64%nat
  else if bool_decide (algorithm = "sha384") then Some 96%nat
  else if bool_decide (algorithm = "sha512") then Some 128%nat
  else None.

Definition is_lower_hex (c : ascii) : bool := byte_between "a" "f" c || is_digit c.

(** The algorithm part of [DigestRegexpAnchored]:
    [[a-z0-9]+(?:[.+_-][a-z0-9]+)*]. *)
Fixpoint algorithm_syntax (started : bool) (s : string) : bool :=
  match s with
  | EmptyString => started
  | String c s' =>
      if is_lower c || is_digit c then algorithm_syntax true s'
      else started && in_set ".+_-" c && algorithm_syntax false s'
  end.

Definition encoded_syntax (s : string) : bool :=
  negb (bool_decide (s = "")) && str_forall (fun c => is_alnum c || in_set "=_-" c) s.

Definition ErrDigestInvalidFormat : error := Errorf "invalid checksum digest format".
Definition ErrDigestInvalidLength : error := Errorf "invalid checksum digest length".
Definition ErrDigestUnsupported : error := Errorf "unsupported digest algorithm".

(** [Algorithm.Validate] *)
Definition algorithm_Validate (n : nat) (encoded : string) : option error :=
  if negb (bool_decide (String.length encoded = n)) then Some ErrDigestInvalidLength
  else if str_forall is_lower_hex encoded then None
  else Some ErrDigestInvalidFormat.

(** [Digest.Validate]: [None] is Go's [nil]. *)
Definition digest_Validate (s : string) : option error :=
  match cut s ":" with
  | None => Some ErrDigestInvalidFormat
  | Some (algorithm, encoded) =>
      if bool_decide (algorithm = "") || bool_decide (encoded = "")
      then Some ErrDigestInvalidFormat
      else match hex_length algorithm with
           | None => if algorithm_syntax false algorithm && encoded_syntax encoded
                     then Some ErrDigestUnsupported
                     else Some ErrDigestInvalidFormat
           | Some n => algorithm_Validate n encoded
           end
  end.

(** [digest.Parse] *)
Definition digest_Parse (s : string) : result string :=
  match digest_Validate s with None => Ok s | Some e => Err e end.

Definition is_digest (s : string) : bool := is_ok (digest_Parse s).

(** [cache.ValidateDigest]: an empty digest is an entry not yet synced. *)
Definition ValidateDigest (s : string) : option error :=
  if bool_decide (s = "") then None
  else match digest_Parse s with
       | Ok _ => None
       | Err e => Some (Wrapf ("invalid digest " +:+ s +:+ ": ") e "")
       end.

(** [cache.classifyVersion]: (tag, digest). *)
Definition classifyVersion (version : string) : string * string :=
  match digest_Parse version with
  | Ok _ => ("", version)
  | Err _ => (version, "")
  end.

(** [cli.abbreviateDigest] *)
Definition abbreviateDigest (dgst : string) : string :=
  if bool_decide (dgst = "") then "-"
  else match cut dgst ":" with
       | None => dgst
       | Some (alg, hex) =>
           let hex := if (12 <? String.length hex)%nat then str_take 12 hex else hex in
           alg +:+ ":" +:+ hex
       end.

(** ** What a digest looks like *)

(** The reference description: a supported algorithm, a colon and exactly the
    number of lower-case hex digits of that algorithm. *)
Definition well_formed_digest (s : string) : Prop :=
  exists alg enc n,
    s = alg +:+ ":" +:+ enc /\ hex_length alg = Some n /\
    String.length enc = n /\ str_forall is_lower_hex enc = true.

Lemma hex_length_cases alg n :
  hex_length alg = Some n ->
  (alg = "sha256" /\ n = 64%nat) \/ (alg = "sha384" /\ n = 96%nat) \/
  (alg = "sha512" /\ n = 128%nat).
Proof. unfold hex_length. repeat case_bool_decide; intros; simplify_eq; auto. Qed.

Lemma hex_length_no_colon alg n : hex_length alg = Some n -> contains_byte alg ":" = false.
Proof. by intros [[-> _]|[[-> _]|[-> _]]]%hex_length_cases. Qed.

Lemma is_digest_spec s : is_digest s = true <-> well_formed_digest s.
Proof.
  unfold is_digest, digest_Parse, digest_Validate, well_formed_digest. split.
  - destruct (cut s ":") as [[alg enc]|] eqn:Ec; [|done].
    apply cut_Some in Ec as [-> _]. destruct (_ || _); [done|].
    destruct (hex_length alg) as [n|] eqn:Eh; [|by destruct (_ && _)].
    unfold algorithm_Validate. case_bool_decide; [|done]. simpl.
    destruct (str_forall is_lower_hex enc) eqn:Ef; [|done].
    intros _. by exists alg, enc, n.
  - intros (alg & enc & n & -> & Hh & Hlen & Hhex).
    change (":" +:+ enc) with (String ":" enc).
    rewrite cut_app by by eapply hex_length_no_colon.
    apply hex_length_cases in Hh as Hc.
    assert (alg <> "") by (intros ->; naive_solver).
    assert (enc <> "") by (intros ->; simpl in *; lia).
    rewrite !bool_decide_eq_false_2 by done. simpl.
    rewrite Hh. unfold algorithm_Validate.
    rewrite bool_decide_eq_true_2 by done. simpl. by rewrite Hhex.
Qed.

Lemma is_digest_empty : is_digest "" = false.
Proof. reflexivity. Qed.

Lemma ValidateDigest_None s : ValidateDigest s = None <-> s = "" \/ is_digest s = true.
Proof.
  unfold ValidateDigest, is_digest. case_bool_decide; [naive_solver|].
  destruct (digest_Parse s); naive_solver.
Qed.

Lemma ValidateDigest_spec s : ValidateDigest s = None <-> s = "" \/ well_formed_digest s.
Proof. by rewrite ValidateDigest_None, is_digest_spec. Qed.

(** [cache.ValidateDigest] accepts exactly the empty string and
    the strings [algorithm:hex] with a supported algorithm (sha256, sha384 or
    sha512) and exactly that algorithm's number of lower-case hex digits. *)
Theorem ValidateDigest_accepts s :
  ValidateDigest s = None <-> s = "" \/ well_formed_digest s.
Proof. apply ValidateDigest_spec. Qed.

Lemma classifyVersion_spec v :
  classifyVersion v = if is_digest v then ("", v) else (v, "").
Proof. unfold classifyVersion, is_digest. by destruct (digest_Parse v). Qed.

Example digest_ok_example : is_digest
  "sha256:9f86d081884c7d659a2feaa0c55ad015a3bf4f1b2b0b822cd15d6c15b0f00a08" = true.
Proof. reflexivity. Qed.
Example digest_bad_example : digest_Parse "sha256:abc" = Err ErrDigestInvalidLength.
Proof. reflexivity. Qed.
