(* ===== verification/Encoding.v ===== *)
(** * Base64, hexadecimal and UTF-8 (encoding/base64 StdEncoding, encoding/hex, unicode/utf8)

    What internal/cache/verify.go and internal/output/evaluator.go use of the
    packages, on bytes, with the encoders cosign and Rekor write with, and the
    round trips.  The position an
    error message names is not modelled. *)
From S2P Require Import Prelude GoStrings.

Open Scope Z_scope.

Definition byte_val (c : ascii) : Z := Z.of_nat (byte_of c).
Definition byte_chr (z : Z) : ascii := ascii_of_nat (Z.to_nat z).

Lemma byte_val_range c : 0 <= byte_val c < 256.
Proof. unfold byte_val, byte_of. pose proof (nat_ascii_bounded c). lia. Qed.

Lemma byte_chr_val c : byte_chr (byte_val c) = c.
Proof. unfold byte_chr, byte_val, byte_of. by rewrite Nat2Z.id, ascii_nat_embedding. Qed.

Lemma byte_val_chr z : 0 <= z < 256 -> byte_val (byte_chr z) = z.
Proof. intros Hz. unfold byte_chr, byte_val, byte_of. rewrite nat_ascii_embedding; lia. Qed.

(** ** Hexadecimal *)

Definition hex_digit (n : Z) : ascii := byte_chr (if n <? 10 then 48 + n else 87 + n).

(** [fromHexChar]: both cases are read. *)
Definition from_hex (c : ascii) : option Z :=
  if byte_between "0" "9" c then Some (byte_val c - 48)
  else if byte_between "a" "f" c then Some (byte_val c - 87)
  else if byte_between "A" "F" c then Some (byte_val c - 55)
  else None.

Fixpoint hex_EncodeToString (s : string) : string :=
  match s with
  | EmptyString => EmptyString
  | String c s' => String (hex_digit (byte_val c / 16)) (String (hex_digit (byte_val c mod 16)) (hex_EncodeToString s'))
  end.

Fixpoint hex_decode (s : string) : option string :=
  match s with
  | EmptyString => Some EmptyString
  | String a (String b s') =>
      match from_hex a, from_hex b, hex_decode s' with
      | Some x, Some y, Some r => Some (String (byte_chr (16 * x + y)) r)
      | _, _, _ => None
      end
  | String _ EmptyString => None
  end.

Definition hex_DecodeString (s : string) : result string :=
  match hex_decode s with
  | Some r => Ok r
  | None => Err (Errorf "encoding/hex: invalid byte or odd length")
  end.

(** ** Base64 *)

Definition b64_digit (n : Z) : ascii :=
  byte_chr (if n <? 26 then 65 + n else if n <? 52 then 71 + n else if n <? 62 then n - 4
            else if n =? 62 then 43 else 47).

Definition from_b64 (c : ascii) : option Z :=
  let v := byte_val c in
  if byte_between "A" "Z" c then Some (v - 65)
  else if byte_between "a" "z" c then Some (v - 71)
  else if byte_between "0" "9" c then Some (v + 4)
  else if Ascii.eqb c "+" then Some 62
  else if Ascii.eqb c "/" then Some 63
  else None.

Definition b64_pad : ascii := "=".

(** The quanta of four digits; padding ends the last. *)
Fixpoint b64_quanta (s : string) : option string :=
  match s with
  | EmptyString => Some EmptyString
  | String a (String b (String c (String d rest))) =>
      match from_b64 a, from_b64 b with
      | Some x, Some y =>
          let first := byte_chr (4 * x + y / 16) in
          match from_b64 c with
          | Some z =>
              let second := byte_chr (16 * (y mod 16) + z / 4) in
              match from_b64 d with
              | Some w =>
                  match b64_quanta rest with
                  | Some r => Some (String first (String second (String (byte_chr (64 * (z mod 4) + w)) r)))
                  | None => None
                  end
              | None =>
                  if Ascii.eqb d b64_pad && bool_decide (rest = EmptyString)
                  then Some (String first (String second EmptyString)) else None
              end
          | None =>
              if Ascii.eqb c b64_pad && Ascii.eqb d b64_pad && bool_decide (rest = EmptyString)
              then Some (String first EmptyString) else None
          end
      | _, _ => None
      end
  | _ => None
  end.

(** Line breaks are ignored wherever they are. *)
Definition line_break (c : ascii) : bool := Ascii.eqb c "010" || Ascii.eqb c "013".

Fixpoint strip (p : ascii -> bool) (s : string) : string :=
  match s with
  | EmptyString => EmptyString
  | String c s' => if p c then strip p s' else String c (strip p s')
  end.

Definition base64_DecodeString (s : string) : result string :=
  match b64_quanta (strip line_break s) with
  | Some r => Ok r
  | None => Err (Errorf "illegal base64 data")
  end.

Fixpoint base64_EncodeToString (s : string) : string :=
  match s with
  | EmptyString => EmptyString
  | String a EmptyString =>
      let x := byte_val a in
      String (b64_digit (x / 4)) (String (b64_digit (16 * (x mod 4)))
        (String b64_pad (String b64_pad EmptyString)))
  | String a (String b EmptyString) =>
      let x := byte_val a in
      let y := byte_val b in
      String (b64_digit (x / 4)) (String (b64_digit (16 * (x mod 4) + y / 16))
        (String (b64_digit (4 * (y mod 16))) (String b64_pad EmptyString)))
  | String a (String b (String c rest)) =>
      let x := byte_val a in
      let y := byte_val b in
      let z := byte_val c in
      String (b64_digit (x / 4)) (String (b64_digit (16 * (x mod 4) + y / 16))
        (String (b64_digit (4 * (y mod 16) + z / 64)) (String (b64_digit (z mod 64))
          (base64_EncodeToString rest))))
  end.

(** ** UTF-8: [utf8.Valid]

    No overlong form, no surrogate, nothing above U+10FFFF. *)
Definition byte_in (lo hi : Z) (c : ascii) : bool := (lo <=? byte_val c) && (byte_val c <=? hi).
Definition continuation : ascii -> bool := byte_in 128 191.

(** The second byte a first byte of three or four allows. *)
Definition second_of_three (a : ascii) : ascii -> bool :=
  byte_in (if byte_val a =? 224 then 160 else 128) (if byte_val a =? 237 then 159 else 191).
Definition second_of_four (a : ascii) : ascii -> bool :=
  byte_in (if byte_val a =? 240 then 144 else 128) (if byte_val a =? 244 then 143 else 191).

Fixpoint utf8_Valid (s : string) : bool :=
  match s with
  | EmptyString => true
  | String a s1 =>
      if byte_val a <? 128 then utf8_Valid s1
      else match s1 with
           | EmptyString => false
           | String b s2 =>
               if byte_in 194 223 a then continuation b && utf8_Valid s2
               else match s2 with
                    | EmptyString => false
                    | String c s3 =>
                        if byte_in 224 239 a then second_of_three a b && continuation c && utf8_Valid s3
                        else match s3 with
                             | EmptyString => false
                             | String d s4 =>
                                 byte_in 240 244 a && second_of_four a b && continuation c &&
                                 continuation d && utf8_Valid s4
                             end
                    end
           end
  end.

Definition of_bytes (l : list Z) : string := fold_right (fun z s => String (byte_chr z) s) "" l.

Example utf8_text : utf8_Valid "a ✅ é 𝄞" = true.
Proof. reflexivity. Qed.
Example utf8_overlong : utf8_Valid (of_bytes [192; 128]) = false.
Proof. reflexivity. Qed.
Example utf8_surrogate : utf8_Valid (of_bytes [237; 160; 128]) = false.
Proof. reflexivity. Qed.
Example utf8_too_high : utf8_Valid (of_bytes [244; 144; 128; 128]) = false.
Proof. reflexivity. Qed.
Example utf8_cut : utf8_Valid (of_bytes [226; 156]) = false.
Proof. reflexivity. Qed.

Example base64_ManyHands : base64_EncodeToString "Many" = "TWFueQ==".
Proof. reflexivity. Qed.
Example base64_line_breaks : base64_DecodeString (String "010" "TWFu" +:+ String "013" "eQ==") = Ok "Many".
Proof. reflexivity. Qed.
Example base64_needs_padding : is_ok (base64_DecodeString "TWFueQ") = false.
Proof. reflexivity. Qed.
Example base64_padding_ends : is_ok (base64_DecodeString "TQ==TQ==") = false.
Proof. reflexivity. Qed.
Example hex_upper : hex_DecodeString "4D61" = Ok "Ma".
Proof. reflexivity. Qed.
Example hex_odd : is_ok (hex_DecodeString "4D6") = false.
Proof. reflexivity. Qed.

(** ** Round trips *)

(** A fact about a digit, tried on each. *)
Lemma digits_all (P : Z -> bool) n :
  forallb P (map Z.of_nat (seq 0 (Z.to_nat n))) = true -> forall k, 0 <= k < n -> P k = true.
Proof.
  intros H k Hk. rewrite forallb_forall in H. apply H, in_map_iff. exists (Z.to_nat k).
  split; [lia|]. apply in_seq. lia.
Qed.

Lemma from_hex_digit n : 0 <= n < 16 -> from_hex (hex_digit n) = Some n.
Proof.
  intros Hn. pose proof (digits_all (fun k => bool_decide (from_hex (hex_digit k) = Some k)) 16) as H.
  apply (bool_decide_eq_true_1 _), H; [by vm_compute|done].
Qed.

Lemma from_b64_digit n : 0 <= n < 64 -> from_b64 (b64_digit n) = Some n.
Proof.
  intros Hn. pose proof (digits_all (fun k => bool_decide (from_b64 (b64_digit k) = Some k)) 64) as H.
  apply (bool_decide_eq_true_1 _), H; [by vm_compute|done].
Qed.

Lemma b64_digit_no_break n : 0 <= n < 64 -> line_break (b64_digit n) = false.
Proof.
  intros Hn. apply negb_true_iff.
  apply (digits_all (fun k => negb (line_break (b64_digit k))) 64); [by vm_compute|done].
Qed.

Lemma div_mod_range x n : 0 < n -> 0 <= x < 256 -> 0 <= x / n /\ n * (x / n) + x mod n = x /\ 0 <= x mod n < n.
Proof. intros Hn Hx. pose proof (Z.div_mod x n). pose proof (Z.mod_pos_bound x n). pose proof (Z.div_pos x n). lia. Qed.

(** Decoding what was encoded is the identity. *)
Lemma hex_roundtrip s : hex_DecodeString (hex_EncodeToString s) = Ok s.
Proof.
  unfold hex_DecodeString. enough (hex_decode (hex_EncodeToString s) = Some s) as -> by done.
  induction s as [|c s IH]; [done|]. cbn [hex_EncodeToString hex_decode]. rewrite IH.
  pose proof (byte_val_range c) as Hc. destruct (div_mod_range (byte_val c) 16) as (? & ? & ?); [lia..|].
  rewrite !from_hex_digit by lia. f_equal. f_equal. rewrite <-(byte_chr_val c) at 3. f_equal. lia.
Qed.

(** Induction three bytes at a time. *)
Lemma string_ind3 (P : string -> Prop) :
  P EmptyString -> (forall a, P (String a EmptyString)) -> (forall a b, P (String a (String b EmptyString))) ->
  (forall a b c s, P s -> P (String a (String b (String c s)))) -> forall s, P s.
Proof.
  intros H0 H1 H2 H3.
  enough (forall s, P s /\ (forall a, P (String a s)) /\ forall a b, P (String a (String b s))) as H by apply H.
  induction s as [|c s (IH1 & IH2 & IH3)]; [by auto|]. split_and!; auto.
Qed.

Ltac Zify.zify_post_hook ::= Z.to_euclidean_division_equations.

(** The digits of the encoding are in range, and the bytes come back. *)
Ltac b64_step :=
  repeat match goal with
  | c : ascii |- _ =>
      lazymatch goal with H : 0 <= byte_val c < 256 |- _ => fail | _ => pose proof (byte_val_range c) end
  end;
  rewrite ?from_b64_digit by lia.

Lemma byte_chr_eq z c : z = byte_val c -> byte_chr z = c.
Proof. intros ->. apply byte_chr_val. Qed.

Lemma b64_quanta_encode s : b64_quanta (base64_EncodeToString s) = Some s.
Proof.
  induction s as [|a|a b|a b c s IH] using string_ind3; [done|..];
    cbn [base64_EncodeToString b64_quanta]; b64_step; rewrite ?IH;
    change (from_b64 b64_pad) with (@None Z); change (Ascii.eqb b64_pad b64_pad) with true;
    rewrite ?bool_decide_eq_true_2 by done; cbn [andb]; f_equal;
    repeat (f_equal; [apply byte_chr_eq; lia|]); f_equal; apply byte_chr_eq; lia.
Qed.

Lemma base64_no_break s : strip line_break (base64_EncodeToString s) = base64_EncodeToString s.
Proof.
  induction s as [|a|a b|a b c s IH] using string_ind3; [done|..];
    cbn [base64_EncodeToString strip]; b64_step; rewrite !b64_digit_no_break by lia; cbn [strip];
    rewrite ?IH; done.
Qed.

(** Decoding what was encoded is the identity, however the text was broken into
    lines. *)
Lemma base64_roundtrip s text :
  strip line_break text = base64_EncodeToString s -> base64_DecodeString text = Ok s.
Proof. intros H. unfold base64_DecodeString. by rewrite H, b64_quanta_encode. Qed.

Lemma base64_decode_encode s : base64_DecodeString (base64_EncodeToString s) = Ok s.
Proof. apply base64_roundtrip, base64_no_break. Qed.
