(* ===== verification/Sha256.v ===== *)
(** * SHA-256 (crypto/sha256)

    The digest of the standard library, on 32-bit words, as it is computed: a
    message is padded, and each block of 64 bytes updates eight words.  Digests
    are what content is addressed by; the tools of the tests compute them. *)
From S2P Require Import Prelude GoStrings Digest Encoding.

Open Scope Z_scope.

(** ** Words *)

Definition word_mask : Z := 4294967295.
Definition word (z : Z) : Z := Z.land z word_mask.
Definition add (x y : Z) : Z := word (x + y).
Definition rotr (x n : Z) : Z := Z.lor (Z.shiftr x n) (word (Z.shiftl x (32 - n))).
Definition xor3 (x y z : Z) : Z := Z.lxor x (Z.lxor y z).

Definition small_sigma (r1 r2 s x : Z) : Z := xor3 (rotr x r1) (rotr x r2) (Z.shiftr x s).
Definition big_sigma (r1 r2 r3 x : Z) : Z := xor3 (rotr x r1) (rotr x r2) (rotr x r3).
Definition choose (e f g : Z) : Z := Z.lxor (Z.land e f) (Z.land (Z.lxor e word_mask) g).
Definition majority (a b c : Z) : Z := xor3 (Z.land a b) (Z.land a c) (Z.land b c).

(** The constants, as decimal words. *)
Definition round_constants : list Z :=
  [1116352408; 1899447441; 3049323471; 3921009573; 961987163; 1508970993; 2453635748; 2870763221;
   3624381080; 310598401; 607225278; 1426881987; 1925078388; 2162078206; 2614888103; 3248222580;
   3835390401; 4022224774; 264347078; 604807628; 770255983; 1249150122; 1555081692; 1996064986;
   2554220882; 2821834349; 2952996808; 3210313671; 3336571891; 3584528711; 113926993; 338241895;
   666307205; 773529912; 1294757372; 1396182291; 1695183700; 1986661051; 2177026350; 2456956037;
   2730485921; 2820302411; 3259730800; 3345764771; 3516065817; 3600352804; 4094571909; 275423344;
   430227734; 506948616; 659060556; 883997877; 958139571; 1322822218; 1537002063; 1747873779;
   1955562222; 2024104815; 2227730452; 2361852424; 2428436474; 2756734187; 3204031479; 3329325298].

(** ** One block *)

Record hash := MkHash { h_a : Z; h_b : Z; h_c : Z; h_d : Z; h_e : Z; h_f : Z; h_g : Z; h_h : Z }.

Definition initial_hash : hash :=
  MkHash 1779033703 3144134277 1013904242 2773480762 1359893119 2600822924 528734635 1541459225.

Definition round (s : hash) (kw : Z * Z) : hash :=
  let t1 := add (add (h_h s) (big_sigma 6 11 25 (h_e s)))
                (add (choose (h_e s) (h_f s) (h_g s)) (add kw.1 kw.2)) in
  let t2 := add (big_sigma 2 13 22 (h_a s)) (majority (h_a s) (h_b s) (h_c s)) in
  MkHash (add t1 t2) (h_a s) (h_b s) (h_c s) (add (h_d s) t1) (h_e s) (h_f s) (h_g s).

(** The schedule: [window] holds the sixteen words before the next one. *)
Fixpoint schedule (n : nat) (window : list Z) : list Z :=
  match n with
  | O => window
  | S n' =>
      match window with
      | w0 :: rest =>
          let at_ i := nth i window 0 in
          let next := add (add (small_sigma 17 19 10 (at_ 14%nat)) (at_ 9%nat))
                          (add (small_sigma 7 18 3 (at_ 1%nat)) w0) in
          w0 :: schedule n' (rest ++ [next])
      | [] => []
      end
  end.

Definition add_hash (s t : hash) : hash :=
  MkHash (add (h_a s) (h_a t)) (add (h_b s) (h_b t)) (add (h_c s) (h_c t)) (add (h_d s) (h_d t))
         (add (h_e s) (h_e t)) (add (h_f s) (h_f t)) (add (h_g s) (h_g t)) (add (h_h s) (h_h t)).

Definition block (s : hash) (words : list Z) : hash :=
  add_hash s (fold_left round (zip round_constants (schedule 48 words)) s).

(** ** Messages *)

(** Big-endian words; what does not fill a word is dropped (a padded message
    fills them all). *)
Fixpoint words_of (l : list Z) : list Z :=
  match l with
  | a :: b :: c :: d :: rest => (16777216 * a + 65536 * b + 256 * c + d) :: words_of rest
  | _ => []
  end.

Definition be_bytes (n : nat) (z : Z) : list Z :=
  rev ((fun i => Z.land (Z.shiftr z (8 * Z.of_nat i)) 255) <$> seq 0 n).

(** The mark, zeros up to eight bytes short of a block, the length in bits. *)
Definition pad (message : list Z) : list Z :=
  let n := Z.of_nat (length message) in
  message ++ [128] ++ replicate (Z.to_nat ((55 - n) mod 64)) 0 ++ be_bytes 8 (8 * n).

Fixpoint blocks_loop (n : nat) (words : list Z) (s : hash) : hash :=
  match n with
  | O => s
  | S n' => blocks_loop n' (drop 16 words) (block s (take 16 words))
  end.

Fixpoint bytes_of (s : string) : list Z :=
  match s with
  | EmptyString => []
  | String c s' => byte_val c :: bytes_of s'
  end.

Fixpoint string_of (l : list Z) : string :=
  match l with
  | [] => EmptyString
  | z :: l' => String (byte_chr z) (string_of l')
  end.

Definition hash_words (s : hash) : list Z :=
  [h_a s; h_b s; h_c s; h_d s; h_e s; h_f s; h_g s; h_h s].

(** [sha256.Sum256] *)
Definition Sum256 (data : string) : string :=
  let words := words_of (pad (bytes_of data)) in
  string_of (flat_map (be_bytes 4) (hash_words (blocks_loop (Nat.div (length words) 16) words initial_hash))).

(** [fmt.Sprintf("sha256:%x", sum)] *)
Definition digest_text (data : string) : string := "sha256:" +:+ hex_EncodeToString (Sum256 data).

(** ** Test vectors *)

Example digest_of_nothing :
  digest_text "" = "sha256:e3b0c44298fc1c149afbf4c8996fb92427ae41e4649b934ca495991b7852b855".
Proof. vm_compute. reflexivity. Qed.
Example digest_of_abc :
  digest_text "abc" = "sha256:ba7816bf8f01cfea414140de5dae2223b00361a396177a9cb410ff61f20015ad".
Proof. vm_compute. reflexivity. Qed.
(** Two blocks. *)
Example digest_of_two_blocks :
  digest_text "abcdbcdecdefdefgefghfghighijhijkijkljklmklmnlmnomnopnopq" =
  "sha256:248d6a61d20638b8e5c026930c3e6039a33ce45964ff2167f6ecedd419db06c1".
Proof. vm_compute. reflexivity. Qed.

(** ** The text of a digest *)

Lemma string_of_length l : String.length (string_of l) = length l.
Proof. induction l as [|z l IH]; cbn; [done|by rewrite IH]. Qed.

Lemma Sum256_length data : String.length (Sum256 data) = 32%nat.
Proof. apply string_of_length. Qed.

Lemma hex_length_twice s : String.length (hex_EncodeToString s) = (2 * String.length s)%nat.
Proof. induction s as [|c s IH]; cbn -[Nat.mul]; [done|]. rewrite IH. lia. Qed.

Lemma hex_digit_lower n : 0 <= n < 16 -> is_lower_hex (hex_digit n) = true.
Proof. apply (digits_all (fun n => is_lower_hex (hex_digit n)) 16). vm_compute. reflexivity. Qed.

Lemma hex_text_lower s : str_forall is_lower_hex (hex_EncodeToString s) = true.
Proof.
  induction s as [|c s IH]; [done|]. cbn [hex_EncodeToString str_forall].
  destruct (div_mod_range (byte_val c) 16 ltac:(lia) (byte_val_range c)) as (H1 & H2 & H3).
  pose proof (byte_val_range c). rewrite !hex_digit_lower, IH; [done|lia|lia].
Qed.

(** What is computed is always an OCI digest. *)
Lemma digest_text_well_formed data : well_formed_digest (digest_text data).
Proof.
  exists "sha256", (hex_EncodeToString (Sum256 data)), 64%nat.
  by rewrite hex_length_twice, Sum256_length, hex_text_lower.
Qed.

Lemma is_digest_text data : is_digest (digest_text data) = true.
Proof. apply is_digest_spec, digest_text_well_formed. Qed.

Lemma digest_text_nonempty data : digest_text data <> "".
Proof. done. Qed.

(** Proofs use these lemmas only; the hash is not to be unfolded in them. *)
#[global] Opaque Sum256.
