(* ===== verification/OciRef.v ===== *)
(** * OCI references and the registry client

    [registry.ParseReference] of the vendored oras-go package and
    internal/registry/client.go.  Two things are outside the model and enter as
    parameters: the URL grammar of Go's [net/url] for the registry part
    ([HostSyntax]) and the network round trip of [repo.Resolve]. *)
From S2P Require Import Prelude GoStrings Digest.

(** [valid_host r]: [url.ParseRequestURI("dummy://" + r)] succeeds with a
    non-empty [Host] equal to [r]. *)
Class HostSyntax := valid_host : string -> bool.

(** A concrete grammar for examples: letters, digits, dots, dashes and colons. *)
Definition plain_host (r : string) : bool :=
  negb (bool_decide (r = "")) && str_forall (fun c => is_alnum c || in_set ".-:" c) r.

(** ** The regular expressions of reference.go, as automata *)

(** [tagRegexp]: [^[\w][\w.-]{0,127}$] *)
Definition is_word (c : ascii) : bool := is_alnum c || Ascii.eqb c "_".

Definition tag_syntax (s : string) : bool :=
  match s with
  | EmptyString => false
  | String c s' =>
      is_word c && str_forall (fun c => is_word c || in_set ".-" c) s' &&
      (String.length s' <=? 127)%nat
  end.

(** [repositoryRegexp]: path components [[a-z0-9]+] joined inside by one of
    [.], [_], [__] or dashes, and to each other by slashes. *)
Inductive repo_state : Set :=
  | RStart          (* an alphanumeric byte must follow *)
  | RIn             (* after an alphanumeric byte: accepting *)
  | RDot            (* after [.] or [__] *)
  | RUnderscore     (* after one [_] *)
  | RDash.          (* after one or more [-] *)

Definition repo_step (st : repo_state) (c : ascii) : option repo_state :=
  if is_lower c || is_digit c then Some RIn
  else match st with
       | RIn => if Ascii.eqb c "." then Some RDot
                else if Ascii.eqb c "_" then Some RUnderscore
                else if Ascii.eqb c "-" then Some RDash
                else if Ascii.eqb c "/" then Some RStart
                else None
       | RUnderscore => if Ascii.eqb c "_" then Some RDot else None
       | RDash => if Ascii.eqb c "-" then Some RDash else None
       | RStart | RDot => None
       end.

Fixpoint repo_run (st : repo_state) (s : string) : bool :=
  match s with
  | EmptyString => match st with RIn => true | _ => false end
  | String c s' => match repo_step st c with
                   | Some st' => repo_run st' s'
                   | None => false
                   end
  end.

Definition repository_syntax (s : string) : bool := repo_run RStart s.

(** ** [registry.Reference] *)

Record Reference := MkReference {
  Ref_Registry : string;
  Ref_Repository : string;
  Ref_Reference : string;
}.

Section parse_reference.
  Context {hs : HostSyntax}.

Definition ValidateRegistry (r : Reference) : result unit :=
  guard_err (negb (valid_host (Ref_Registry r)))
    (Errorf ("invalid reference: invalid registry " +:+ Ref_Registry r)).

Definition ValidateRepository (r : Reference) : result unit :=
  guard_err (negb (repository_syntax (Ref_Repository r)))
    (Errorf ("invalid reference: invalid repository " +:+ Ref_Repository r)).

Definition ValidateReferenceAsTag (r : Reference) : result unit :=
  guard_err (negb (tag_syntax (Ref_Reference r)))
    (Errorf ("invalid reference: invalid tag " +:+ Ref_Reference r)).

Definition ValidateReferenceAsDigest (r : Reference) : result unit :=
  match digest_Parse (Ref_Reference r) with
  | Ok _ => Ok tt
  | Err e => Err (Wrapf ("invalid reference: invalid digest " +:+ Ref_Reference r) e "")
  end.

(** The decomposition of the path part: (is tag, repository, reference). *)
Definition split_path (path : string) : bool * string * string :=
  match cut path "@" with
  | Some (repository, reference) =>
      match cut repository ":" with
      | Some (repository', _) => (false, repository', reference)
      | None => (false, repository, reference)
      end
  | None =>
      match cut path ":" with
      | Some (repository, reference) => (true, repository, reference)
      | None => (false, path, "")
      end
  end.

Definition ParseReference (artifact : string) : result Reference :=
  match cut artifact "/" with
  | None => Err (Errorf "invalid reference: missing registry or repository")
  | Some (registry, path) =>
      let '(isTag, repository, reference) := split_path path in
      let ref := MkReference registry repository reference in
      check ValidateRegistry ref in
      check ValidateRepository ref in
      if bool_decide (reference = "") then Ok ref
      else
        check (if (isTag : bool) then ValidateReferenceAsTag ref
               else ValidateReferenceAsDigest ref) in
        Ok ref
  end.

(** ** Lemmas *)

Lemma repo_run_no_byte st s c :
  (is_lower c || is_digit c || in_set "._-/" c) = false ->
  repo_run st s = true -> contains_byte s c = false.
Proof.
  intros Hc. revert st. unfold contains_byte. induction s as [|a s IH]; intros st; simpl; [done|].
  destruct (repo_step st a) as [st'|] eqn:E; [|done]. intros H.
  rewrite (IH _ H), orb_false_r. apply Ascii.eqb_neq. intros <-.
  unfold repo_step in E. unfold in_set in Hc. simpl in Hc.
  rewrite !orb_false_iff in Hc. destruct Hc as [[H1 H2] (H3 & H4 & H5 & H6 & _)].
  rewrite H1, H2, H3, H4, H5, H6 in E. by destruct st.
Qed.

Lemma repository_no_byte s c :
  (is_lower c || is_digit c || in_set "._-/" c) = false ->
  repository_syntax s = true -> contains_byte s c = false.
Proof. apply repo_run_no_byte. Qed.

Lemma tag_no_byte s c :
  (is_word c || in_set ".-" c) = false -> tag_syntax s = true -> contains_byte s c = false.
Proof.
  intros Hc. destruct s as [|a s]; simpl; [done|].
  rewrite !andb_true_iff. intros [[Ha Hs] _]. unfold contains_byte. simpl.
  assert (Ascii.eqb c a = false) as ->.
  { apply Ascii.eqb_neq. intros ->. by rewrite Ha in Hc. }
  by eapply str_forall_disjoint in Hs.
Qed.

Lemma tag_nonempty s : tag_syntax s = true -> s <> "".
Proof. by intros H ->. Qed.

Lemma is_digest_nonempty s : is_digest s = true -> s <> "".
Proof. by intros H ->. Qed.

(** A tag is never a digest: it contains no colon. *)
Lemma tag_not_digest s : tag_syntax s = true -> is_digest s = false.
Proof.
  intros H. apply not_true_is_false. intros (alg & enc & n & -> & _)%is_digest_spec.
  apply (tag_no_byte _ ":") in H; [|done].
  unfold contains_byte in H. rewrite str_exists_app in H. simpl in H.
  by rewrite orb_true_r in H.
Qed.

Lemma ParseReference_inv a r :
  ParseReference a = Ok r ->
  valid_host (Ref_Registry r) = true /\ repository_syntax (Ref_Repository r) = true /\
  (Ref_Reference r = "" \/ tag_syntax (Ref_Reference r) = true \/
   is_digest (Ref_Reference r) = true).
Proof.
  unfold ParseReference. destruct (cut a "/") as [[reg path]|]; [|done].
  destruct (split_path path) as [[isTag repo] ref].
  unfold ValidateRegistry, ValidateRepository, guard_err. simpl.
  destruct (valid_host reg) eqn:E1; simpl; [|done].
  destruct (repository_syntax repo) eqn:E2; simpl; [|done].
  case_bool_decide; [intros; by simplify_eq/=; auto|].
  unfold ValidateReferenceAsTag, ValidateReferenceAsDigest, guard_err, is_digest. simpl.
  destruct isTag; [destruct (tag_syntax ref) eqn:E3 | destruct (digest_Parse ref) eqn:E3];
    simpl; intros; simplify_eq/=; split_and!; auto; right; right; by rewrite E3.
Qed.

Lemma ParseReference_tag reg repo tag :
  valid_host reg = true -> contains_byte reg "/" = false ->
  repository_syntax repo = true -> tag_syntax tag = true ->
  ParseReference (reg +:+ "/" +:+ repo +:+ ":" +:+ tag) = Ok (MkReference reg repo tag).
Proof.
  intros Hh Hr Hrepo Htag. unfold ParseReference.
  change ("/" +:+ ?x) with (String "/" x). rewrite cut_app by done.
  change (":" +:+ tag) with (String ":" tag). unfold split_path.
  assert (cut (repo +:+ String ":" tag) "@" = None) as ->.
  { apply cut_None. unfold contains_byte. rewrite str_exists_app. simpl.
    pose proof (repository_no_byte _ "@" eq_refl Hrepo) as H1.
    pose proof (tag_no_byte _ "@" eq_refl Htag) as H2.
    unfold contains_byte in H1, H2. by rewrite H1, H2. }
  rewrite cut_app by by apply repository_no_byte.
  unfold ValidateRegistry, ValidateRepository, ValidateReferenceAsTag, guard_err. simpl.
  rewrite Hh, Hrepo. simpl.
  rewrite bool_decide_eq_false_2 by by apply tag_nonempty. simpl. by rewrite Htag.
Qed.

Lemma ParseReference_digest reg repo d :
  valid_host reg = true -> contains_byte reg "/" = false ->
  repository_syntax repo = true -> is_digest d = true ->
  ParseReference (reg +:+ "/" +:+ repo +:+ "@" +:+ d) = Ok (MkReference reg repo d).
Proof.
  intros Hh Hr Hrepo Hd. unfold ParseReference.
  change ("/" +:+ ?x) with (String "/" x). rewrite cut_app by done.
  change ("@" +:+ d) with (String "@" d). unfold split_path.
  rewrite cut_app by by apply repository_no_byte.
  rewrite (proj2 (cut_None repo ":")) by by apply repository_no_byte.
  unfold ValidateRegistry, ValidateRepository, ValidateReferenceAsDigest, guard_err. simpl.
  rewrite Hh, Hrepo. simpl.
  rewrite bool_decide_eq_false_2 by by apply is_digest_nonempty.
  unfold is_digest in Hd. by destruct (digest_Parse d).
Qed.

Lemma ParseReference_bare reg repo :
  valid_host reg = true -> contains_byte reg "/" = false ->
  repository_syntax repo = true ->
  ParseReference (reg +:+ "/" +:+ repo) = Ok (MkReference reg repo "").
Proof.
  intros Hh Hr Hrepo. unfold ParseReference.
  change ("/" +:+ ?x) with (String "/" x). rewrite cut_app by done. unfold split_path.
  rewrite (proj2 (cut_None repo "@")), (proj2 (cut_None repo ":"))
    by by apply repository_no_byte.
  unfold ValidateRegistry, ValidateRepository, guard_err. simpl. by rewrite Hh, Hrepo.
Qed.
End parse_reference.

(** ** Host handling ([NormalizeHost], [SplitHostScheme], [buildRef]) *)

Definition NormalizeHost (host : string) : string :=
  let host := trim_prefix host "http://" in
  let host := trim_prefix host "https://" in
  trim_suffix host "/".

Definition SplitHostScheme (host : string) : string * bool :=
  (NormalizeHost host, has_prefix host "http://").

Definition buildRef (registryHost modulePath : string) : string :=
  let ref := registryHost +:+ "/" +:+ modulePath in
  if negb (contains_byte modulePath ":") && negb (contains_byte modulePath "@")
  then ref +:+ ":latest" else ref.

(** ** The registry client *)

(** The network: [remote_resolve plainHTTP repoName tag] is [repo.Resolve] on a
    repository client for [repoName]; it yields a manifest digest. *)
Class RegistryNetwork := remote_resolve : bool -> string -> string -> result string.

Record Client := MkClient {
  registryURL : string;
  fetcher : option (string -> result (string * string));
  plainHTTP : bool;
}.

Definition NewClient (url : string) : Client :=
  MkClient url None (has_prefix url "http://").

Definition NewClientWithFetcher (url : string) (f : string -> result (string * string)) : Client :=
  MkClient url (Some f) (has_prefix url "http://").

Definition registryHost (c : Client) : string := NormalizeHost (registryURL c).

Section client.
  Context {hs : HostSyntax} {net : RegistryNetwork}.

(** [newRepository]: [remote.NewRepository] fails when the name does not parse. *)
Definition newRepository (repoName : string) : result string :=
  try _ := ParseReference repoName
    orelse (fun e => Wrapf ("failed to create OCI repository client for " +:+ repoName +:+ ": ") e "") in
  Ok repoName.

Definition NewRemoteRepository (c : Client) (policyID : string) : result string :=
  newRepository (registryHost c +:+ "/" +:+ policyID).

Definition fetchVersion (c : Client) (ref : string) : result (string * string) :=
  try parsedRef := ParseReference ref
    orelse (fun e => Wrapf ("invalid OCI reference " +:+ ref +:+ ": ") e "") in
  try repo := newRepository (Ref_Registry parsedRef +:+ "/" +:+ Ref_Repository parsedRef) in
  let tag := if bool_decide (Ref_Reference parsedRef = "") then "latest"
             else Ref_Reference parsedRef in
  match remote_resolve (plainHTTP c) repo tag with
  | Err e =>
      if error_is e ErrRefNotFound
      then Err (Wrapf "" (Sentinel ErrVersionNotFound) (": " +:+ ref +:+ " tag " +:+ tag))
      else Err (Wrapf ("registry communication failed for " +:+ ref +:+ ": ") e "")
  | Ok digest => Ok (digest, tag)
  end.

Definition DefinitionVersion (c : Client) (modulePath : string) : result (string * string) :=
  if bool_decide (modulePath = "") then Err (Errorf "module path cannot be empty")
  else match fetcher c with
       | Some f => f modulePath
       | None =>
           match fetchVersion c (buildRef (registryHost c) modulePath) with
           | Ok v => Ok v
           | Err e => if error_is e ErrVersionNotFound then Err e
                      else Err (Wrapf ("failed to fetch version for " +:+ modulePath +:+ ": ") e "")
           end
       end.
End client.

(** ** What the client guarantees *)

Section client_facts.
  Context {hs : HostSyntax} {net : RegistryNetwork}.

(** A missing tag is reported as [ErrVersionNotFound] through every wrapper. *)
Lemma fetchVersion_not_found c ref r e :
  ParseReference ref = Ok r ->
  ParseReference (Ref_Registry r +:+ "/" +:+ Ref_Repository r) =
    Ok (MkReference (Ref_Registry r) (Ref_Repository r) "") ->
  remote_resolve (plainHTTP c) (Ref_Registry r +:+ "/" +:+ Ref_Repository r)
    (if bool_decide (Ref_Reference r = "") then "latest" else Ref_Reference r) = Err e ->
  error_is e ErrRefNotFound = true ->
  exists e', fetchVersion c ref = Err e' /\ error_is e' ErrVersionNotFound = true.
Proof.
  intros H1 H2 H3 H4. unfold fetchVersion, newRepository. rewrite H1. simpl in *.
  rewrite H2. simpl. rewrite H3, H4. eauto.
Qed.

Lemma fetchVersion_ok c ref d v :
  fetchVersion c ref = Ok (d, v) ->
  exists r, ParseReference ref = Ok r /\
    v = (if bool_decide (Ref_Reference r = "") then "latest" else Ref_Reference r) /\
    remote_resolve (plainHTTP c) (Ref_Registry r +:+ "/" +:+ Ref_Repository r) v = Ok d.
Proof.
  unfold fetchVersion, newRepository.
  destruct (ParseReference ref) as [r|] eqn:E; simpl; [|done].
  destruct (ParseReference (_ +:+ _)) eqn:E2; simpl; [|done].
  destruct (remote_resolve _ _ _) as [d'|e'] eqn:E3;
    [|by destruct (error_is e' ErrRefNotFound)].
  intros; simplify_eq. eauto.
Qed.
End client_facts.
