(* ===== verification/World.v ===== *)
(** * The operating system as the program sees it

    A world is a file tree, an environment, a clock, a source of random file
    name suffixes and a fault oracle.  Every call of package [os] is one step
    of the oracle: it either fails with the oracle's error and leaves the tree
    unchanged, or has the effect documented for the call.  Paths are absolute
    and lexically clean, as [filepath.Join] produces them: lists of components
    from the root.  Symbolic links are not modelled. *)
From S2P Require Import Prelude GoStrings.
From stdpp Require Import gmap.

Abbreviation path := (list string).

(** ** [filepath.Join] *)

Definition path_push (base : path) (seg : string) : path :=
  if bool_decide (seg = "") || bool_decide (seg = ".") then base
  else if bool_decide (seg = "..") then removelast base
  else base ++ [seg].

(** [filepath.Join(base, elem)]: [elem] may itself contain slashes. *)
Definition path_join (base : path) (elem : string) : path :=
  fold_left path_push (str_split elem "/") base.

(** A path as text. *)
Definition path_text (p : path) : string := "/" +:+ GoStrings.join "/" p.

(** [filepath.Dir] and [filepath.Base] at once. *)
Fixpoint split_last (p : path) : option (path * string) :=
  match p with
  | [] => None
  | x :: p' => match split_last p' with
               | None => Some ([], x)
               | Some (d, b) => Some (x :: d, b)
               end
  end.

Lemma split_last_snoc p x : split_last (p ++ [x]) = Some (p, x).
Proof. induction p as [|y p IH]; simpl; [done|]. by rewrite IH. Qed.

Lemma split_last_Some p d b : split_last p = Some (d, b) <-> p = d ++ [b].
Proof.
  split; [|intros ->; apply split_last_snoc].
  revert d. induction p as [|x p IH]; intros d; simpl; [done|].
  destruct (split_last p) as [[d' b']|] eqn:E; intros; simplify_eq/=.
  - by rewrite (IH d').
  - destruct p; [done|]. simpl in E. by destruct (split_last p) as [[]|].
Qed.

(** ** File trees *)

Inductive node : Type :=
  | File (data : string) (perm : Z)
  | Dir (entries : gmap string node).

Definition is_dir (n : option node) : bool :=
  match n with Some (Dir _) => true | _ => false end.

Fixpoint get (p : path) (n : node) : option node :=
  match p with
  | [] => Some n
  | x :: p' => match n with
               | Dir m => match m !! x with Some c => get p' c | None => None end
               | File _ _ => None
               end
  end.

(** Change the entries of the directory [p]; [None] when there is none or when
    [f] refuses. *)
Fixpoint alter_at (f : gmap string node -> option (gmap string node)) (p : path) (n : node)
    : option node :=
  match n with
  | File _ _ => None
  | Dir m =>
      match p with
      | [] => Dir <$> f m
      | x :: p' => match m !! x with
                   | Some c => (fun c' => Dir (<[x := c']> m)) <$> alter_at f p' c
                   | None => None
                   end
      end
  end.

Fixpoint mkdir_all (p : path) (n : node) : option node :=
  match n with
  | File _ _ => None
  | Dir m =>
      match p with
      | [] => Some (Dir m)
      | x :: p' => (fun c' => Dir (<[x := c']> m)) <$>
                     mkdir_all p' (default (Dir ∅) (m !! x))
      end
  end.

Definition diverges (p q : path) : Prop := ~ p `prefix_of` q /\ ~ q `prefix_of` p.

Lemma diverges_sym p q : diverges p q -> diverges q p.
Proof. unfold diverges. tauto. Qed.

Lemma diverges_cons x p q : diverges (x :: p) (x :: q) <-> diverges p q.
Proof.
  unfold diverges. split; intros [H1 H2]; split; intros H;
    try (by apply H1, prefix_cons); try (by apply H2, prefix_cons);
    apply prefix_cons_inv_2 in H; auto.
Qed.

Lemma diverges_app p q r : diverges p q -> diverges p (q ++ r).
Proof.
  intros [H1 H2]. split; intros H.
  - destruct (prefix_weak_total p q (q ++ r)); auto. by apply prefix_app_r.
  - apply H2. etrans; [|done]. by apply prefix_app_r.
Qed.

Lemma diverges_snoc p x y r : x <> y -> diverges (p ++ [x]) (p ++ y :: r).
Proof.
  intros Hxy. induction p as [|z p IH]; simpl.
  - split; intros H; by apply prefix_cons_inv_1 in H.
  - by apply diverges_cons.
Qed.

Lemma snoc_not_prefix (p : path) x : ~ (p ++ [x]) `prefix_of` p.
Proof. intros H%prefix_length. rewrite length_app in H. simpl in H. lia. Qed.

Lemma get_app p q n : get (p ++ q) n = get p n ≫= get q.
Proof.
  revert n. induction p as [|x p IH]; intros n; simpl; [done|].
  destruct n as [|m]; [done|]. by destruct (m !! x); simpl.
Qed.

Lemma alter_at_get f p n n' :
  alter_at f p n = Some n' ->
  exists m m', get p n = Some (Dir m) /\ f m = Some m' /\ get p n' = Some (Dir m').
Proof.
  revert n n'. induction p as [|x p IH]; intros [|m] n'; simpl; [done| |done|].
  - intros (m' & Hf & ->)%fmap_Some. eauto.
  - destruct (m !! x) as [c|]; [|done].
    intros (c' & Hc & ->)%fmap_Some. rewrite lookup_insert_eq. eauto.
Qed.

Lemma alter_at_is_Some f p n m m' :
  get p n = Some (Dir m) -> f m = Some m' -> is_Some (alter_at f p n).
Proof.
  revert n. induction p as [|x p IH]; intros [|m0]; simpl; intros H Hf; simplify_eq.
  - by rewrite Hf.
  - destruct (m0 !! x) as [c|]; [|done]. destruct (IH c H Hf) as [c' ->]. by eexists.
Qed.

Lemma alter_at_diverges f p q n n' :
  alter_at f p n = Some n' -> diverges p q -> get q n' = get q n.
Proof.
  revert q n n'. induction p as [|x p IH]; intros q [|m] n'; simpl; [done| |done|].
  - intros _ [H _]. destruct H. apply prefix_nil.
  - destruct (m !! x) as [c|] eqn:E; [|done]. intros (c' & Hc & ->)%fmap_Some Hd.
    destruct q as [|y q]; [destruct Hd as [_ H]; destruct H; apply prefix_nil|]. simpl.
    destruct (decide (x = y)) as [->|Hxy].
    + rewrite lookup_insert_eq, E. apply diverges_cons in Hd. eauto.
    + by rewrite lookup_insert_ne.
Qed.

Lemma mkdir_all_get p n n' :
  mkdir_all p n = Some n' ->
  get p n' = Some (match get p n with Some d => d | None => Dir ∅ end) /\
  is_dir (get p n') = true.
Proof.
  revert n n'. induction p as [|x p IH]; intros [|m] n'; simpl; [done| |done|].
  - intros; by simplify_eq.
  - intros (c' & Hc & ->)%fmap_Some. rewrite lookup_insert_eq.
    apply IH in Hc as [H1 H2]. rewrite H1 in *. split; [|done].
    destruct (m !! x) as [c|]; simpl in *; [done|]. destruct p; simpl in *; [done|].
    by rewrite lookup_empty in *.
Qed.

Lemma mkdir_all_id p n : is_dir (get p n) = true -> mkdir_all p n = Some n.
Proof.
  revert n. induction p as [|x p IH]; intros [|m]; simpl; [done..|].
  destruct (m !! x) as [c|] eqn:E; [|done]. intros H. simpl. rewrite (IH _ H). simpl.
  by rewrite insert_id.
Qed.

Lemma get_empty_dir p : p <> [] -> get p (Dir ∅) = None.
Proof. destruct p; simpl; [done|]. by rewrite lookup_empty. Qed.

Lemma mkdir_all_other p q n n' :
  mkdir_all p n = Some n' -> ~ q `prefix_of` p -> get q n' = get q n.
Proof.
  revert q n n'. induction p as [|x p IH]; intros q [|m] n'; simpl; [done| |done|].
  - intros; by simplify_eq.
  - intros (c' & Hc & ->)%fmap_Some Hq.
    destruct q as [|y q]; [destruct Hq; apply prefix_nil|]. simpl.
    destruct (decide (x = y)) as [->|Hxy]; [|by rewrite lookup_insert_ne].
    rewrite lookup_insert_eq.
    assert (~ q `prefix_of` p) by (intros ?; apply Hq; by apply prefix_cons).
    rewrite (IH q _ _ Hc) by done.
    destruct (m !! y); simpl; [done|]. apply get_empty_dir. intros ->. apply H, prefix_nil.
Qed.

(** ** Worlds and programs *)

Record world := MkWorld {
  w_fs : node;
  w_tick : nat;
  w_fault : nat -> option error;
  w_clock : nat -> Z;
  w_rand : nat -> nat -> string;
  w_env : gmap string string;
}.

Definition tick (w : world) : world :=
  MkWorld (w_fs w) (S (w_tick w)) (w_fault w) (w_clock w) (w_rand w) (w_env w).
Definition set_fs (n : node) (w : world) : world :=
  MkWorld n (w_tick w) (w_fault w) (w_clock w) (w_rand w) (w_env w).

(** A program of type [A]: runs in a world, answers, leaves a world. *)
Definition io (A : Type) : Type := world -> A * world.

Definition io_ret {A} (a : A) : io A := fun w => (a, w).
Definition io_bind {A B} (m : io A) (k : A -> io B) : io B :=
  fun w => let '(a, w') := m w in k a w'.
Definition io_lift {A} (r : result A) : io (result A) := io_ret r.
(** Run [m]; on an error return it, reshaped by [h]. *)
Definition io_try {A B} (m : io (result A)) (h : error -> error)
    (k : A -> io (result B)) : io (result B) :=
  io_bind m (fun r => match r with Ok a => k a | Err e => io_ret (Err (h e)) end).

Notation "'let!' x ':=' m 'in' k" := (io_bind m (fun x => k))
  (at level 10, x pattern, m at level 100, k at level 200,
   format "'[v' 'let!'  x  ':='  m  'in'  '/' k ']'") : go_scope.
Notation "'do!' x ':=' m 'orelse' h 'in' k" := (io_try m h (fun x => k))
  (at level 10, x pattern, m at level 100, h at level 100, k at level 200,
   format "'[v' 'do!'  x  ':='  m  'orelse'  h  'in'  '/' k ']'") : go_scope.

(** One operating-system call. *)
Definition os_call {A} (op : node -> result (A * node)) : io (result A) := fun w =>
  match w_fault w (w_tick w) with
  | Some e => (Err e, tick w)
  | None => match op (w_fs w) with
            | Ok (a, n) => (Ok a, tick (set_fs n w))
            | Err e => (Err e, tick w)
            end
  end.

Definition not_exist {A} : result A := Err (Sentinel ErrNotExist).

Definition os_Stat (p : path) : io (result node) := os_call (fun n =>
  match get p n with Some x => Ok (x, n) | None => not_exist end).

Definition os_ReadFile (p : path) : io (result string) := os_call (fun n =>
  match get p n with
  | Some (File d _) => Ok (d, n)
  | Some (Dir _) => Err (Sentinel ErrIsDir)
  | None => not_exist
  end).

(** Entries of a directory, sorted by name. *)
Definition name_le (a b : string * node) : Prop := str_le a.1 b.1.
#[export] Instance name_le_dec : RelDecision name_le.
Proof. intros a b. unfold name_le. apply _. Defined.
Definition dir_list (m : gmap string node) : list (string * node) :=
  merge_sort name_le (map_to_list m).

Definition os_ReadDir (p : path) : io (result (list (string * node))) := os_call (fun n =>
  match get p n with
  | Some (Dir m) => Ok (dir_list m, n)
  | Some (File _ _) => Err (Sentinel ErrNotDir)
  | None => not_exist
  end).

Definition os_MkdirAll (p : path) : io (result unit) := os_call (fun n =>
  match mkdir_all p n with Some n' => Ok (tt, n') | None => Err (Sentinel ErrNotDir) end).

(** [os.WriteFile]: creates or truncates; the permission is for a new file. *)
Definition write_entry (name data : string) (perm : Z) (m : gmap string node)
    : option (gmap string node) :=
  match m !! name with
  | Some (Dir _) => None
  | Some (File _ old) => Some (<[name := File data old]> m)
  | None => Some (<[name := File data perm]> m)
  end.

Definition os_WriteFile (p : path) (data : string) (perm : Z) : io (result unit) :=
  os_call (fun n =>
    match split_last p with
    | None => Err (Sentinel ErrIsDir)
    | Some (d, name) =>
        match alter_at (write_entry name data perm) d n with
        | Some n' => Ok (tt, n')
        | None => if is_dir (get p n) then Err (Sentinel ErrIsDir) else not_exist
        end
    end).

Definition delete_entry (name : string) (m : gmap string node) : option (gmap string node) :=
  Some (delete name m).

(** [os.RemoveAll]: no error when the path does not exist. *)
Definition os_RemoveAll (p : path) : io (result unit) := os_call (fun n =>
  match split_last p with
  | None => Err (Sentinel (ErrIO 16))
  | Some (d, name) =>
      match alter_at (delete_entry name) d n with
      | Some n' => Ok (tt, n')
      | None => Ok (tt, n)
      end
  end).

(** [os.MkdirTemp] and [os.CreateTemp]: up to 10000 random names are tried. *)
Definition temp_tries : nat := N.to_nat 10000.
Lemma temp_tries_pos : (0 < temp_tries)%nat.
Proof. unfold temp_tries. lia. Qed.
#[global] Opaque temp_tries.

Definition fresh_name (prefix suffix : string) (rand : nat -> string)
    (m : gmap string node) : option string :=
  find_first (fun name => negb (bool_decide (is_Some (m !! name))))
    ((fun k => prefix +:+ rand k +:+ suffix) <$> seq 0 temp_tries).

Definition add_entry (name : string) (x : node) (m : gmap string node)
    : option (gmap string node) := Some (<[name := x]> m).

Definition os_create_temp (parent : path) (prefix suffix : string) (x : node)
    : io (result string) := fun w =>
  os_call (fun n =>
    match get parent n with
    | Some (Dir m) =>
        match fresh_name prefix suffix (w_rand w (w_tick w)) m with
        | None => Err (Sentinel ErrExist)
        | Some name =>
            match alter_at (add_entry name x) parent n with
            | Some n' => Ok (name, n')
            | None => not_exist
            end
        end
    | _ => not_exist
    end) w.

Definition os_MkdirTemp (parent : path) (prefix : string) : io (result string) :=
  os_create_temp parent prefix "" (Dir ∅).
Definition os_CreateTemp (parent : path) (prefix suffix : string) : io (result string) :=
  os_create_temp parent prefix suffix (File "" 384).

(** [f.Chmod] and [f.Close]. *)
Definition chmod_entry (name : string) (perm : Z) (m : gmap string node)
    : option (gmap string node) :=
  match m !! name with
  | Some (File d _) => Some (<[name := File d perm]> m)
  | _ => None
  end.
Definition os_Chmod (p : path) (perm : Z) : io (result unit) := os_call (fun n =>
  match split_last p with
  | None => Err (Sentinel ErrIsDir)
  | Some (d, name) => match alter_at (chmod_entry name perm) d n with
                      | Some n' => Ok (tt, n')
                      | None => not_exist
                      end
  end).
Definition os_Close : io (result unit) := os_call (fun n => Ok (tt, n)).

(** [os.Rename]: refuses an existing directory as target. *)
Definition os_Rename (src dst : path) : io (result unit) := os_call (fun n =>
  match split_last src, split_last dst, get src n with
  | Some (sd, sn), Some (dd, dn), Some x =>
      if is_dir (get dst n) then Err (Sentinel ErrExist)
      else if is_dir (Some x) && bool_decide (is_Some (get dst n)) then Err (Sentinel ErrNotDir)
      else match alter_at (delete_entry sn) sd n with
           | None => not_exist
           | Some n1 =>
               match alter_at (add_entry dn x) dd n1 with
               | Some n2 => Ok (tt, n2)
               | None => not_exist
               end
           end
  | _, _, _ => not_exist
  end).

(** [os.Remove] of a file or an empty directory. *)
Definition os_Remove (p : path) : io (result unit) := os_call (fun n =>
  match split_last p, get p n with
  | Some (d, name), Some x =>
      if (match x with Dir m => negb (bool_decide (map_to_list m = [])) | _ => false end)
      then Err (Sentinel ErrExist)
      else match alter_at (delete_entry name) d n with
           | Some n' => Ok (tt, n')
           | None => not_exist
           end
  | _, _ => not_exist
  end).

Definition time_Now : io Z := fun w => (w_clock w (w_tick w), tick w).
Definition os_LookupEnv (name : string) : io (option string) := fun w => (w_env w !! name, w).
Definition os_Getenv (name : string) : io string := fun w => (default "" (w_env w !! name), w).

(** ** What a program leaves alone *)

(** [m] changes no node at a path satisfying [P], whatever the oracle does. *)
Definition preserves {A} (P : path -> Prop) (m : io A) : Prop :=
  forall w q, P q -> get q (w_fs (m w).2) = get q (w_fs w).

Lemma preserves_ret {A} P (a : A) : preserves P (io_ret a).
Proof. done. Qed.

Lemma preserves_bind {A B} P (m : io A) (k : A -> io B) :
  preserves P m -> (forall a, preserves P (k a)) -> preserves P (io_bind m k).
Proof.
  intros Hm Hk w q Hq. unfold io_bind. specialize (Hm w q Hq).
  destruct (m w) as [a w']. simpl in *. rewrite <-Hm. by apply Hk.
Qed.

Lemma preserves_try {A B} P (m : io (result A)) h (k : A -> io (result B)) :
  preserves P m -> (forall a, preserves P (k a)) -> preserves P (io_try m h k).
Proof. intros Hm Hk. apply preserves_bind; [done|]. intros [a|e]; [apply Hk|done]. Qed.

Lemma preserves_call {A} P (op : node -> result (A * node)) :
  (forall n a n', op n = Ok (a, n') -> forall q, P q -> get q n' = get q n) ->
  preserves P (os_call op).
Proof.
  intros Hop w q Hq. unfold os_call. destruct (w_fault _ _); simpl; [done|].
  destruct (op (w_fs w)) as [[a n]|e] eqn:E; simpl; [|done]. by eapply Hop.
Qed.

Lemma preserves_weaken {A} (P Q : path -> Prop) (m : io A) :
  preserves P m -> (forall q, Q q -> P q) -> preserves Q m.
Proof. intros H HQ w q Hq. auto. Qed.

Ltac read_only := apply preserves_call; intros n a n' Hop q _;
  repeat case_match; simplify_eq/=; done.

Lemma preserves_Stat P p : preserves P (os_Stat p).
Proof. unfold os_Stat. read_only. Qed.
Lemma preserves_ReadFile P p : preserves P (os_ReadFile p).
Proof. unfold os_ReadFile. read_only. Qed.
Lemma preserves_ReadDir P p : preserves P (os_ReadDir p).
Proof. unfold os_ReadDir. read_only. Qed.
Lemma preserves_Now P : preserves P time_Now.
Proof. done. Qed.

Lemma preserves_MkdirAll p : preserves (fun q => ~ q `prefix_of` p) (os_MkdirAll p).
Proof.
  apply preserves_call. intros n a n' Hop q Hq.
  destruct (mkdir_all p n) eqn:E; simplify_eq. by eapply mkdir_all_other.
Qed.

(** A change of the entry [name] of [d] is invisible off the line through it. *)
Lemma alter_entry_diverges f d name n n' q :
  alter_at f d n = Some n' ->
  (forall m m' x, f m = Some m' -> x <> name -> m' !! x = m !! x) ->
  diverges (d ++ [name]) q -> get q n' = get q n.
Proof.
  intros Ha Hf Hd. destruct (decide (d `prefix_of` q)) as [[r ->]|Hn].
  - apply alter_at_get in Ha as (m & m' & Hm & Hfm & Hm').
    rewrite !get_app, Hm, Hm'. simpl. destruct r as [|x r].
    + destruct Hd as [_ []]. rewrite app_nil_r. by apply prefix_app_r.
    + simpl. rewrite (Hf _ _ _ Hfm); [done|]. intros ->. destruct Hd as [[] _].
      change (name :: r) with ([name] ++ r). rewrite app_assoc. by apply prefix_app_r.
  - eapply alter_at_diverges; [done|]. split; [done|]. intros Hq. destruct Hd as [_ []].
    etrans; [done|]. by apply prefix_app_r.
Qed.

Lemma write_entry_other name data perm m m' x :
  write_entry name data perm m = Some m' -> x <> name -> m' !! x = m !! x.
Proof.
  unfold write_entry. intros H Hx. repeat case_match; simplify_eq; by rewrite lookup_insert_ne.
Qed.

Lemma preserves_WriteFile d name data perm :
  preserves (diverges (d ++ [name])) (os_WriteFile (d ++ [name]) data perm).
Proof.
  apply preserves_call. intros n a n' Hop q Hq. rewrite split_last_snoc in Hop.
  destruct (alter_at _ d n) eqn:E; [|by destruct (is_dir _)]. simplify_eq.
  eapply alter_entry_diverges; [done| |done]. intros *. apply write_entry_other.
Qed.

Lemma preserves_RemoveAll d name :
  preserves (diverges (d ++ [name])) (os_RemoveAll (d ++ [name])).
Proof.
  apply preserves_call. intros n a n' Hop q Hq. rewrite split_last_snoc in Hop.
  destruct (alter_at _ d n) eqn:E; simplify_eq; [|done].
  eapply alter_entry_diverges; [done| |done]. unfold delete_entry. intros; simplify_eq.
  by rewrite lookup_delete_ne.
Qed.

Lemma preserves_Close P : preserves P os_Close.
Proof. unfold os_Close. read_only. Qed.

Lemma preserves_Chmod d name perm :
  preserves (diverges (d ++ [name])) (os_Chmod (d ++ [name]) perm).
Proof.
  apply preserves_call. intros n a n' Hop q Hq. rewrite split_last_snoc in Hop.
  destruct (alter_at _ d n) eqn:E; simplify_eq.
  eapply alter_entry_diverges; [done| |done]. unfold chmod_entry.
  intros; repeat case_match; simplify_eq; by rewrite lookup_insert_ne.
Qed.

Lemma preserves_Remove d name :
  preserves (diverges (d ++ [name])) (os_Remove (d ++ [name])).
Proof.
  apply preserves_call. intros n a n' Hop q Hq. rewrite split_last_snoc in Hop.
  destruct (get _ n) as [x|]; [|done]. destruct (match x with Dir _ => _ | _ => _ end); [done|].
  destruct (alter_at _ d n) eqn:E; simplify_eq.
  eapply alter_entry_diverges; [done| |done]. unfold delete_entry. intros; simplify_eq.
  by rewrite lookup_delete_ne.
Qed.

Lemma fresh_name_Some prefix suffix rand m name :
  fresh_name prefix suffix rand m = Some name ->
  m !! name = None /\ exists k, name = prefix +:+ rand k +:+ suffix.
Proof.
  intros (l1 & l2 & Hl & Hp & _)%find_first_Some. split.
  - apply negb_true_iff, bool_decide_eq_false, eq_None_not_Some in Hp. done.
  - assert (name ∈ (fun k => prefix +:+ rand k +:+ suffix) <$> seq 0 temp_tries) as Hin.
    { rewrite Hl. apply elem_of_app. right. left. }
    apply list_elem_of_fmap in Hin as (k & -> & _). eauto.
Qed.

(** A temporary entry has one of the names of its pattern. *)
Lemma os_create_temp_spec parent prefix suffix x w name w' :
  os_create_temp parent prefix suffix x w = (Ok name, w') ->
  (exists r, name = prefix +:+ r +:+ suffix) /\
  get (parent ++ [name]) (w_fs w) = None /\
  get (parent ++ [name]) (w_fs w') = Some x /\
  is_dir (get parent (w_fs w)) = true.
Proof.
  unfold os_create_temp, os_call. destruct (w_fault _ _); [done|].
  destruct (get parent (w_fs w)) as [[|m]|] eqn:Eg; try done.
  destruct (fresh_name _ _ _ m) as [nm|] eqn:Ef; [|done].
  destruct (alter_at _ parent _) as [n'|] eqn:Ea; [|done]. intros; simplify_eq.
  apply fresh_name_Some in Ef as [Hm [k ->]].
  apply alter_at_get in Ea as (m1 & m2 & H1 & H2 & H3). unfold add_entry in H2. simplify_eq.
  split_and!; [by eexists| | |done].
  - rewrite get_app, Eg. cbn [mbind option_bind get]. by rewrite Hm.
  - cbn [w_fs tick set_fs]. rewrite get_app, H3. cbn [mbind option_bind get].
    by rewrite lookup_insert_eq.
Qed.

(** A successful rename moves the node. *)
Lemma os_Rename_spec d1 x1 d2 x2 w w' :
  os_Rename (d1 ++ [x1]) (d2 ++ [x2]) w = (Ok tt, w') ->
  exists x, get (d1 ++ [x1]) (w_fs w) = Some x /\ get (d2 ++ [x2]) (w_fs w') = Some x /\
    (forall q, diverges (d1 ++ [x1]) q -> diverges (d2 ++ [x2]) q ->
      get q (w_fs w') = get q (w_fs w)).
Proof.
  unfold os_Rename, os_call. rewrite !split_last_snoc. destruct (w_fault _ _); [done|].
  destruct (get (d1 ++ [x1]) _) as [x|] eqn:Eg; [|done].
  destruct (is_dir (get (d2 ++ [x2]) _)); [done|]. destruct (_ && _); [done|].
  destruct (alter_at _ d1 _) as [n1|] eqn:E1; [|done].
  destruct (alter_at _ d2 n1) as [n2|] eqn:E2; [|done]. intros; simplify_eq.
  exists x. split_and!; [done| |].
  - apply alter_at_get in E2 as (m & m' & H1 & H2 & H3). unfold add_entry in H2. simplify_eq.
    cbn [w_fs tick set_fs]. rewrite get_app, H3. cbn [mbind option_bind get]. by rewrite lookup_insert_eq.
  - intros q Hq1 Hq2. simpl.
    rewrite (alter_entry_diverges _ d2 x2 n1 n2 q) by
      (done || (unfold add_entry; intros; simplify_eq; by rewrite lookup_insert_ne)).
    eapply alter_entry_diverges; [done| |done]. unfold delete_entry.
    intros; simplify_eq. by rewrite lookup_delete_ne.
Qed.

Lemma preserves_create_temp parent prefix suffix x :
  preserves (fun q => forall r, diverges (parent ++ [prefix +:+ r +:+ suffix]) q)
    (os_create_temp parent prefix suffix x).
Proof.
  intros w q Hq. unfold os_create_temp. revert w q Hq.
  enough (forall rand, preserves (fun q => forall r, diverges (parent ++ [prefix +:+ r +:+ suffix]) q)
    (os_call (fun n => match get parent n with
      | Some (Dir m) => match fresh_name prefix suffix rand m with
          | Some name => match alter_at (add_entry name x) parent n with
                         | Some n' => Ok (name, n') | None => not_exist end
          | None => Err (Sentinel ErrExist) end
      | _ => not_exist end))) as H by (intros w q Hq; by apply H).
  intros rand. apply preserves_call. intros n a n' Hop q Hq.
  destruct (get parent n) as [[|m]|]; [done| |done].
  destruct (fresh_name _ _ _ m) as [nm|] eqn:Ef; [|done].
  apply fresh_name_Some in Ef as [_ [k ->]].
  destruct (alter_at _ parent n) eqn:E; simplify_eq.
  eapply alter_entry_diverges; [done| |by apply Hq]. unfold add_entry.
  intros; simplify_eq; by rewrite lookup_insert_ne.
Qed.

Lemma os_WriteFile_ok d name data perm w w' :
  os_WriteFile (d ++ [name]) data perm w = (Ok tt, w') ->
  exists perm', get (d ++ [name]) (w_fs w') = Some (File data perm') /\
    (get (d ++ [name]) (w_fs w) = None -> perm' = perm).
Proof.
  unfold os_WriteFile, os_call. rewrite split_last_snoc. destruct (w_fault _ _); [done|].
  destruct (alter_at _ d _) as [n'|] eqn:Ea; [|by destruct (is_dir _)]. intros; simplify_eq.
  apply alter_at_get in Ea as (m & m' & H1 & H2 & H3). cbn [w_fs tick set_fs].
  rewrite !get_app, H1, H3. cbn [mbind option_bind get]. unfold write_entry in H2.
  destruct (m !! name) as [[old p|]|]; simplify_eq; rewrite lookup_insert_eq;
    by eexists.
Qed.

Lemma os_Chmod_ok d name perm w w' :
  os_Chmod (d ++ [name]) perm w = (Ok tt, w') ->
  exists data p, get (d ++ [name]) (w_fs w) = Some (File data p) /\
    get (d ++ [name]) (w_fs w') = Some (File data perm).
Proof.
  unfold os_Chmod, os_call. rewrite split_last_snoc. destruct (w_fault _ _); [done|].
  destruct (alter_at _ d _) as [n'|] eqn:Ea; [|done]. intros; simplify_eq.
  apply alter_at_get in Ea as (m & m' & H1 & H2 & H3). cbn [w_fs tick set_fs].
  rewrite !get_app, H1, H3. cbn [mbind option_bind get]. unfold chmod_entry in H2.
  destruct (m !! name) as [[dt p|]|] eqn:E; simplify_eq. rewrite lookup_insert_eq. eauto.
Qed.

Lemma os_Close_ok r w w' : os_Close w = (r, w') -> w_fs w' = w_fs w.
Proof. unfold os_Close, os_call. destruct (w_fault _ _); intros; by simplify_eq. Qed.

(** A failed call leaves the tree as it was. *)
Lemma os_call_Err {A} (op : node -> result (A * node)) w e w' :
  os_call op w = (Err e, w') -> w_fs w' = w_fs w.
Proof.
  unfold os_call. destruct (w_fault _ _); [intros; by simplify_eq|].
  destruct (op _) as [[]|]; intros; by simplify_eq.
Qed.

Create HintDb preserves.
#[export] Hint Resolve preserves_ret preserves_Stat preserves_ReadFile preserves_ReadDir
  preserves_Now preserves_Close
  preserves_WriteFile preserves_RemoveAll preserves_Chmod preserves_Remove : preserves.

(** [os.OpenFile] with [O_CREATE|O_WRONLY|O_EXCL]. *)
Definition create_entry (name : string) (perm : Z) (m : gmap string node)
    : option (gmap string node) :=
  match m !! name with Some _ => None | None => Some (<[name := File "" perm]> m) end.

Definition os_CreateExcl (p : path) (perm : Z) : io (result unit) := os_call (fun n =>
  match split_last p with
  | None => Err (Sentinel ErrIsDir)
  | Some (d, name) =>
      match alter_at (create_entry name perm) d n with
      | Some n' => Ok (tt, n')
      | None => if bool_decide (is_Some (get p n)) then Err (Sentinel ErrExist) else not_exist
      end
  end).

Lemma preserves_CreateExcl d name perm :
  preserves (diverges (d ++ [name])) (os_CreateExcl (d ++ [name]) perm).
Proof.
  apply preserves_call. intros n a n' Hop q Hq. rewrite split_last_snoc in Hop.
  destruct (alter_at _ d n) eqn:E; [|by destruct (bool_decide _)]. simplify_eq.
  eapply alter_entry_diverges; [done| |done]. unfold create_entry.
  intros; repeat case_match; simplify_eq; by rewrite lookup_insert_ne.
Qed.

Lemma os_CreateExcl_ok d name perm w w' :
  os_CreateExcl (d ++ [name]) perm w = (Ok tt, w') ->
  get (d ++ [name]) (w_fs w') = Some (File "" perm).
Proof.
  unfold os_CreateExcl, os_call. rewrite split_last_snoc. destruct (w_fault _ _); [done|].
  destruct (alter_at _ d _) as [n'|] eqn:Ea; [|by destruct (bool_decide _)]. intros; simplify_eq.
  apply alter_at_get in Ea as (m & m' & H1 & H2 & H3). cbn [w_fs tick set_fs].
  rewrite get_app, H3. cbn [mbind option_bind get]. unfold create_entry in H2.
  destruct (m !! name); simplify_eq. by rewrite lookup_insert_eq.
Qed.

Lemma os_RemoveAll_ok d name w w' :
  os_RemoveAll (d ++ [name]) w = (Ok tt, w') -> get (d ++ [name]) (w_fs w') = None.
Proof.
  unfold os_RemoveAll, os_call. rewrite split_last_snoc. destruct (w_fault _ _); [done|].
  destruct (alter_at _ d _) as [n'|] eqn:Ea; intros; simplify_eq; cbn [w_fs tick set_fs].
  - apply alter_at_get in Ea as (m & m' & H1 & H2 & H3). unfold delete_entry in H2. simplify_eq.
    rewrite get_app, H3. cbn [mbind option_bind get]. by rewrite lookup_delete_eq.
  - rewrite get_app. destruct (get d (w_fs w)) as [[|m]|] eqn:Eg; [done| |done].
    destruct (alter_at_is_Some (delete_entry name) _ _ _ _ Eg eq_refl). congruence.
Qed.

Lemma preserves_Rename d1 x1 d2 x2 :
  preserves (fun q => diverges (d1 ++ [x1]) q /\ diverges (d2 ++ [x2]) q)
    (os_Rename (d1 ++ [x1]) (d2 ++ [x2])).
Proof.
  intros w q [H1 H2]. destruct (os_Rename _ _ w) as [[[]|e] w'] eqn:E; simpl.
  - apply os_Rename_spec in E as (x & _ & _ & H). by apply H.
  - by apply os_call_Err in E as ->.
Qed.

(** ** Removing several entries, ignoring failures *)

Fixpoint remove_each (d : path) (names : list string) : io unit :=
  match names with
  | [] => io_ret tt
  | x :: names' => let! _ := os_RemoveAll (d ++ [x]) in remove_each d names'
  end.

Definition no_faults (w : world) : Prop := forall t, w_fault w t = None.

Lemma preserves_remove_each d names :
  preserves (fun q => forall x, x ∈ names -> diverges (d ++ [x]) q) (remove_each d names).
Proof.
  induction names as [|x names IH]; simpl; [done|]. apply preserves_bind.
  - eapply preserves_weaken; [apply preserves_RemoveAll|]. intros q Hq. apply Hq. left.
  - intros _. eapply preserves_weaken; [done|]. intros q Hq y Hy. apply Hq. by right.
Qed.

Lemma os_RemoveAll_run d x w m :
  no_faults w -> get d (w_fs w) = Some (Dir m) ->
  exists w', os_RemoveAll (d ++ [x]) w = (Ok tt, w') /\ no_faults w' /\
    get d (w_fs w') = Some (Dir (delete x m)).
Proof.
  intros Hf Hd. unfold os_RemoveAll, os_call. rewrite (Hf _), split_last_snoc.
  destruct (alter_at_is_Some (delete_entry x) d (w_fs w) m (delete x m) Hd eq_refl) as [n' Ha].
  rewrite Ha. eexists. split_and!; [done|done|].
  apply alter_at_get in Ha as (m1 & m2 & H1 & H2 & H3). unfold delete_entry in H2. simpl.
  by simplify_eq.
Qed.

Lemma remove_each_run d names w m :
  no_faults w -> get d (w_fs w) = Some (Dir m) ->
  exists w', remove_each d names w = (tt, w') /\ no_faults w' /\
    get d (w_fs w') = Some (Dir (filter (fun kv => kv.1 ∉ names) m)).
Proof.
  revert w m. induction names as [|x names IH]; intros w m Hf Hd; simpl.
  - exists w. split_and!; [done|done|]. rewrite map_filter_id; [done|]. intros; set_solver.
  - unfold io_bind. destruct (os_RemoveAll_run d x w m Hf Hd) as (w1 & -> & Hf1 & Hd1).
    destruct (IH w1 _ Hf1 Hd1) as (w2 & -> & Hf2 & Hd2). exists w2. split_and!; [done|done|].
    rewrite Hd2. do 2 f_equal. apply map_eq. intros y. apply option_eq. intros v.
    rewrite !map_lookup_filter_Some, lookup_delete_Some. set_solver.
Qed.
