(* ===== verification/Settled.v ===== *)
(** * Worlds in which nothing fails any more

    Progress needs three things of the operating system: that it stops refusing
    calls ([settled]), that no plain file lies where the program wants a directory
    ([room]), and that a temporary name can still be drawn ([spare_names]).  The
    lemmas say which programs keep these and which calls then succeed. *)
From stdpp Require Import gmap.
From S2P Require Import Prelude GoStrings World.

(** From here on no call fails. *)
Definition settled (w : world) : Prop := forall t, w_tick w <= t -> w_fault w t = None.

(** A program neither turns back the clock of the oracles nor changes them. *)
Definition onward {A} (m : io A) : Prop := forall w,
  w_fault (m w).2 = w_fault w /\ w_rand (m w).2 = w_rand w /\ w_tick w <= w_tick (m w).2.

Lemma onward_ret {A} (a : A) : onward (io_ret a).
Proof. intros w. cbn. auto. Qed.

Lemma onward_bind {A B} (m : io A) (k : A -> io B) :
  onward m -> (forall a, onward (k a)) -> onward (io_bind m k).
Proof.
  intros Hm Hk w. unfold io_bind. pose proof (Hm w) as (H1 & H2 & H3).
  destruct (m w) as [a w1]. pose proof (Hk a w1) as (G1 & G2 & G3). cbn in *.
  split_and!; [congruence|congruence|lia].
Qed.

Lemma onward_try {A B} (m : io (result A)) h (k : A -> io (result B)) :
  onward m -> (forall a, onward (k a)) -> onward (io_try m h k).
Proof. intros. apply onward_bind; [done|]. intros [a|e]; [auto|apply onward_ret]. Qed.

Lemma onward_call {A} (op : node -> result (A * node)) : onward (os_call op).
Proof.
  intros w. unfold os_call. repeat case_match; simplify_eq/=; split_and!; auto with lia.
Qed.

Lemma onward_create_temp p a b x : onward (os_create_temp p a b x).
Proof. intros w. apply onward_call. Qed.

Lemma onward_Now : onward time_Now.
Proof. intros w. cbn. auto with lia. Qed.

Create HintDb onward.
#[export] Hint Resolve onward_ret onward_call onward_create_temp onward_Now : onward.

(** Follows the binds of a program, splitting its branches. *)
Ltac go_onward := repeat first
  [ progress eauto with onward
  | apply onward_bind; [|intros ?]
  | apply onward_try; [|intros ?]
  | progress unfold io_lift
  | case_match ].

Lemma settled_onward {A} (m : io A) w a w' : onward m -> m w = (a, w') -> settled w -> settled w'.
Proof.
  intros Hm E Hc t Ht. pose proof (Hm w) as (H1 & _ & H3). rewrite E in *. cbn in *.
  rewrite H1. apply Hc. lia.
Qed.

(** A finite schedule of faults is over once it has been gone through. *)
Lemma settled_after T w : (forall t, T <= t -> w_fault w t = None) -> T <= w_tick w -> settled w.
Proof. intros H HT t Ht. apply H. lia. Qed.

Lemma os_call_settled {A} (op : node -> result (A * node)) w a n :
  settled w -> op (w_fs w) = Ok (a, n) -> os_call op w = (Ok a, tick (set_fs n w)).
Proof. intros Hc Hop. unfold os_call. by rewrite Hc, Hop. Qed.

(** ** Room for a directory *)

(** No plain file at [p] or above it. *)
Definition room (p : path) (n : node) : Prop :=
  forall q d perm, q `prefix_of` p -> get q n <> Some (File d perm).

Lemma is_dir_prefix q p n : q `prefix_of` p -> is_dir (get p n) = true -> is_dir (get q n) = true.
Proof.
  intros [k ->] H. rewrite get_app in H. destruct (get q n) as [[d pm|m]|]; [|done|done].
  by destruct k.
Qed.

Lemma room_of_dir p n : is_dir (get p n) = true -> room p n.
Proof. intros H q d pm Hq E. pose proof (is_dir_prefix q p n Hq H) as G. by rewrite E in G. Qed.

Lemma room_mkdir_all p n : room p n -> is_Some (mkdir_all p n).
Proof.
  revert n. induction p as [|x p IH]; intros [d pm|m] Hr; cbn.
  - by destruct (Hr [] d pm (prefix_nil _)).
  - done.
  - by destruct (Hr [] d pm (prefix_nil _)).
  - destruct (IH (default (Dir ∅) (m !! x))) as [c ->]; [|done].
    intros q d pm Hq E. destruct (m !! x) as [c|] eqn:Ex; cbn in E.
    + apply (Hr (x :: q) d pm); [by apply prefix_cons|]. cbn. by rewrite Ex.
    + destruct q; [done|]. by rewrite get_empty_dir in E.
Qed.

(** A change of the tree that is confined to [p] and below: nothing changes off the
    line through [p], and no plain file appears at [p] or above it. *)
Definition confined (p : path) (n n' : node) : Prop :=
  (forall q, diverges p q -> get q n' = get q n) /\
  (forall q d perm, q `prefix_of` p -> get q n' = Some (File d perm) -> get q n = Some (File d perm)).

Lemma room_confined p q n n' :
  confined p n n' -> diverges p q \/ p = q -> room q n -> room q n'.
Proof.
  intros [Hf Hd] Hpq Hr r d pm Hrq E. destruct (decide (r `prefix_of` p)) as [Hrp|Hrp].
  - apply (Hr r d pm); auto.
  - destruct Hpq as [[Hpq _]| ->]; [|done].
    rewrite Hf in E; [by apply (Hr r d pm)|]. split; [|done]. intros Hpr. apply Hpq. by trans r.
Qed.

Lemma confined_refl p n : confined p n n.
Proof. by split. Qed.

Lemma confined_trans p n1 n2 n3 : confined p n1 n2 -> confined p n2 n3 -> confined p n1 n3.
Proof. intros [F1 D1] [F2 D2]. split; [intros q Hq; by rewrite F2, F1|auto]. Qed.

(** What is confined to a place is confined to every place above it. *)
Lemma confined_above p q n n' : p `prefix_of` q -> confined q n n' -> confined p n n'.
Proof.
  intros Hpq [Hf Hd]. split.
  - intros r [Hr1 Hr2]. apply Hf. split; intros Hr; [apply Hr1; by trans q|].
    destruct Hpq as [k ->]. destruct (prefix_weak_total r p (p ++ k) Hr) as [?|?]; [by eexists|done|done].
  - intros r d pm Hr. apply Hd. by trans p.
Qed.

(** Leaving a directory at [p] is enough. *)
Lemma confined_dir p n n' :
  (forall q, diverges p q -> get q n' = get q n) -> is_dir (get p n') = true -> confined p n n'.
Proof.
  intros Hf Hd. split; [done|]. intros q d pm Hq E.
  pose proof (is_dir_prefix q p n' Hq Hd) as G. by rewrite E in G.
Qed.

Lemma confined_mkdir_all p n n' : mkdir_all p n = Some n' -> confined p n n'.
Proof.
  intros H. apply confined_dir; [|by apply (mkdir_all_get p n n')].
  intros q [_ Hq]. by apply (mkdir_all_other p q).
Qed.

Lemma confined_alter_at f p n n' : alter_at f p n = Some n' -> confined p n n'.
Proof.
  intros H. apply confined_dir; [intros q Hq; by apply (alter_at_diverges f p)|].
  by apply alter_at_get in H as (m & m' & _ & _ & ->).
Qed.

Lemma get_snoc d x n : get (d ++ [x]) n = match get d n with Some (Dir m) => m !! x | _ => None end.
Proof.
  rewrite get_app. destruct (get d n) as [[]|]; cbn; [done| |done]. by destruct (_ !! x).
Qed.

Lemma delete_entry_other name m m' x : delete_entry name m = Some m' -> x <> name -> m' !! x = m !! x.
Proof. intros [= <-] H. by rewrite lookup_delete_ne. Qed.

(** Removing [p] itself. *)
Lemma confined_delete d x n n' : alter_at (delete_entry x) d n = Some n' -> confined (d ++ [x]) n n'.
Proof.
  intros H. split.
  - intros q Hq. refine (alter_entry_diverges _ _ _ _ _ _ H _ Hq). intros ???. apply delete_entry_other.
  - intros q e pm [k Hk] E. apply alter_at_get in H as (m & m' & G1 & G2 & G3). unfold delete_entry in G2.
    destruct k as [|k0 k _] using rev_ind.
    + rewrite app_nil_r in Hk. subst q. rewrite get_snoc, G3 in E. simplify_eq. by rewrite lookup_delete_eq in E.
    + rewrite app_assoc in Hk. apply app_inj_tail in Hk as [-> ->].
      rewrite get_app in G3. by rewrite E in G3; destruct k.
Qed.

(** ** Temporary names *)

(** At every tick one of the suffixes that are tried was never drawn before. *)
Definition spare_names (rand : nat -> nat -> string) (pick : nat -> nat) : Prop :=
  (forall t, pick t < temp_tries) /\
  forall t t' k, t' < t -> rand t' k <> rand t (pick t).

(** None of these names is taken, from now on. *)
Definition unused (dir : path) (prefix suffix : string) (pick : nat -> nat) (w : world) : Prop :=
  forall t, w_tick w <= t ->
    get (dir ++ [prefix +:+ w_rand w t (pick t) +:+ suffix]) (w_fs w) = None.

Lemma fresh_name_spare prefix suffix rand m k :
  k < temp_tries -> m !! (prefix +:+ rand k +:+ suffix) = None ->
  is_Some (fresh_name prefix suffix rand m).
Proof.
  intros Hk Hm. unfold fresh_name. destruct (find_first _ _) as [x|] eqn:E; [done|].
  apply find_first_None in E. rewrite Forall_forall in E.
  specialize (E (prefix +:+ rand k +:+ suffix)).
  rewrite Hm in E. cbn in E. discriminate E. apply list_elem_of_fmap.
  exists k. split; [done|]. apply elem_of_seq. lia.
Qed.

Lemma create_temp_settled parent prefix suffix x w pick :
  settled w -> (forall t, pick t < temp_tries) -> unused parent prefix suffix pick w ->
  is_dir (get parent (w_fs w)) = true ->
  exists name w', os_create_temp parent prefix suffix x w = (Ok name, w').
Proof.
  intros Hc Hp Hu Hd. destruct (get parent (w_fs w)) as [[|m]|] eqn:Ed; [done| |done].
  pose proof (Hu (w_tick w) (Nat.le_refl _)) as Hn. rewrite get_snoc, Ed in Hn.
  destruct (fresh_name_spare _ _ _ _ _ (Hp (w_tick w)) Hn) as [name En].
  destruct (alter_at_is_Some (add_entry name x) parent (w_fs w) m _ Ed eq_refl) as [n' En'].
  exists name, (tick (set_fs n' w)). unfold os_create_temp. apply os_call_settled; [done|].
  by rewrite Ed, En, En'.
Qed.

(** The names drawn at one tick. *)
Lemma create_temp_frame parent prefix suffix x w name w' :
  os_create_temp parent prefix suffix x w = (Ok name, w') ->
  w_tick w' = S (w_tick w) /\
  (exists k, name = prefix +:+ w_rand w (w_tick w) k +:+ suffix) /\
  confined parent (w_fs w) (w_fs w') /\
  (forall y, y <> name -> get (parent ++ [y]) (w_fs w') = get (parent ++ [y]) (w_fs w)).
Proof.
  unfold os_create_temp, os_call. intros E. destruct (w_fault _ _); [done|].
  destruct (get parent (w_fs w)) as [[|m]|] eqn:Ed; [done| |done].
  destruct (fresh_name _ _ _ m) as [nm|] eqn:En; [|done].
  destruct (alter_at _ parent _) as [n'|] eqn:Ea; [|done]. simplify_eq/=.
  apply fresh_name_Some in En as [_ Hk]. split_and!; [done|done|by eapply confined_alter_at|].
  intros y Hy. apply alter_at_get in Ea as (m1 & m2 & G1 & G2 & G3). rewrite !get_snoc, G1, G3.
  unfold add_entry in G2. simplify_eq. by rewrite lookup_insert_ne.
Qed.

(** ** File calls that then succeed *)

Lemma alter_at_run f d n m m' :
  get d n = Some (Dir m) -> f m = Some m' ->
  exists n', alter_at f d n = Some n' /\ get d n' = Some (Dir m').
Proof.
  intros Hg Hf. destruct (alter_at_is_Some f d n m m' Hg Hf) as [n' E]. exists n'. split; [done|].
  apply alter_at_get in E as (m1 & m2 & G1 & G2 & G3). naive_solver.
Qed.

(** A file lies in a directory. *)
Lemma get_file_dir d x n y :
  get (d ++ [x]) n = Some y -> exists m, get d n = Some (Dir m) /\ m !! x = Some y.
Proof. rewrite get_snoc. destruct (get d n) as [[|m]|]; [done| |done]. by exists m. Qed.

Lemma write_file_settled d name data perm old pm w :
  settled w -> get (d ++ [name]) (w_fs w) = Some (File old pm) ->
  exists w', os_WriteFile (d ++ [name]) data perm w = (Ok tt, w') /\ get (d ++ [name]) (w_fs w') = Some (File data pm).
Proof.
  intros Hc (m & Ed & Hm)%get_file_dir.
  destruct (alter_at_run (write_entry name data perm) d (w_fs w) m (<[name := File data pm]> m))
    as (n' & En & Ed'); [done|by unfold write_entry; rewrite Hm|].
  exists (tick (set_fs n' w)). split.
  - apply os_call_settled; [done|]. by rewrite split_last_snoc, En.
  - cbn. rewrite get_snoc, Ed'. by rewrite lookup_insert, decide_True.
Qed.

Lemma chmod_settled d name perm data pm w :
  settled w -> get (d ++ [name]) (w_fs w) = Some (File data pm) ->
  exists w', os_Chmod (d ++ [name]) perm w = (Ok tt, w') /\ get (d ++ [name]) (w_fs w') = Some (File data perm).
Proof.
  intros Hc (m & Ed & Hm)%get_file_dir.
  destruct (alter_at_run (chmod_entry name perm) d (w_fs w) m (<[name := File data perm]> m))
    as (n' & En & Ed'); [done|by unfold chmod_entry; rewrite Hm|].
  exists (tick (set_fs n' w)). split.
  - apply os_call_settled; [done|]. by rewrite split_last_snoc, En.
  - cbn. rewrite get_snoc, Ed'. by rewrite lookup_insert, decide_True.
Qed.

Lemma rename_settled d a b data pm w :
  settled w -> get (d ++ [a]) (w_fs w) = Some (File data pm) -> is_dir (get (d ++ [b]) (w_fs w)) = false ->
  exists w', os_Rename (d ++ [a]) (d ++ [b]) w = (Ok tt, w').
Proof.
  intros Hc Hg Hb. pose proof Hg as (m & Ed & Hm)%get_file_dir.
  destruct (alter_at_run (delete_entry a) d (w_fs w) m (delete a m)) as (n1 & E1 & Ed1); [done|done|].
  destruct (alter_at_run (add_entry b (File data pm)) d n1 _ _ Ed1 eq_refl) as (n2 & E2 & _).
  exists (tick (set_fs n2 w)). apply os_call_settled; [done|].
  rewrite !split_last_snoc, Hg, Hb. cbn [is_dir andb]. by rewrite E1, E2.
Qed.

(** ** What a program touches in a directory *)

(** At most the entries [names] of [d] differ. *)
Definition entries_only (d : path) (names : list string) (n n' : node) : Prop :=
  confined d n n' /\ forall y, y ∉ names -> get (d ++ [y]) n' = get (d ++ [y]) n.

Definition touches {A} (d : path) (names : list string) (m : io A) : Prop :=
  forall w, entries_only d names (w_fs w) (w_fs (m w).2).

Lemma entries_only_refl d names n : entries_only d names n n.
Proof. split; [apply confined_refl|done]. Qed.

Lemma entries_only_trans d names n1 n2 n3 :
  entries_only d names n1 n2 -> entries_only d names n2 n3 -> entries_only d names n1 n3.
Proof.
  intros [C1 E1] [C2 E2]. split; [by eapply confined_trans|]. intros y Hy. by rewrite E2, E1.
Qed.

Lemma entries_only_weaken d l l' n n' : l ⊆ l' -> entries_only d l n n' -> entries_only d l' n n'.
Proof. intros Hl [C E]. split; [done|]. intros y Hy. apply E. set_solver. Qed.

Lemma entries_only_alter f d name n n' :
  alter_at f d n = Some n' ->
  (forall m m' x, f m = Some m' -> x <> name -> m' !! x = m !! x) ->
  entries_only d [name] n n'.
Proof.
  intros Ha Hf. split; [by eapply confined_alter_at|]. intros y Hy.
  apply alter_at_get in Ha as (m & m' & G1 & G2 & G3). rewrite !get_snoc, G1, G3.
  apply (Hf m m' y G2). set_solver.
Qed.

Lemma touches_ret {A} d l (a : A) : touches d l (io_ret a).
Proof. intros w. apply entries_only_refl. Qed.

Lemma touches_bind {A B} d l (m : io A) (k : A -> io B) :
  touches d l m -> (forall a, touches d l (k a)) -> touches d l (io_bind m k).
Proof.
  intros Hm Hk w. unfold io_bind. pose proof (Hm w) as H1. destruct (m w) as [a w1].
  eapply entries_only_trans; [exact H1|apply Hk].
Qed.

Lemma touches_weaken {A} d l l' (m : io A) : l ⊆ l' -> touches d l m -> touches d l' m.
Proof. intros Hl Hm w. by eapply entries_only_weaken. Qed.

Lemma touches_call {A} d l (op : node -> result (A * node)) :
  (forall n a n', op n = Ok (a, n') -> entries_only d l n n') -> touches d l (os_call op).
Proof.
  intros H w. unfold os_call. repeat case_match; simplify_eq/=; try apply entries_only_refl. eauto.
Qed.

Lemma add_entry_other name y m m' x : add_entry name y m = Some m' -> x <> name -> m' !! x = m !! x.
Proof. intros [= <-] H. by rewrite lookup_insert_ne. Qed.

Lemma chmod_entry_other name perm m m' x :
  chmod_entry name perm m = Some m' -> x <> name -> m' !! x = m !! x.
Proof. unfold chmod_entry. intros H Hx. repeat case_match; simplify_eq. by rewrite lookup_insert_ne. Qed.

(** One call on the entry [name]: its alteration of the directory, and the frame
    of that alteration. *)
Ltac touches_entry frame := apply touches_call; intros n a n' Hop;
  rewrite ?split_last_snoc in Hop; repeat case_match; simplify_eq/=;
  solve [apply entries_only_refl
        | eapply entries_only_alter; [eassumption|intros ???; apply frame]].

Lemma touches_WriteFile d name data perm : touches d [name] (os_WriteFile (d ++ [name]) data perm).
Proof. touches_entry write_entry_other. Qed.
Lemma touches_Chmod d name perm : touches d [name] (os_Chmod (d ++ [name]) perm).
Proof. touches_entry chmod_entry_other. Qed.
Lemma touches_Remove d name : touches d [name] (os_Remove (d ++ [name])).
Proof. touches_entry delete_entry_other. Qed.
Lemma touches_Close d l : touches d l os_Close.
Proof. apply touches_call. intros. simplify_eq. apply entries_only_refl. Qed.

Lemma touches_Rename d a b : touches d [a; b] (os_Rename (d ++ [a]) (d ++ [b])).
Proof.
  apply touches_call. intros n r n' Hop. rewrite !split_last_snoc in Hop.
  repeat case_match; simplify_eq/=.
  match goal with
  | H1 : alter_at (delete_entry a) d n = Some _, H2 : alter_at (add_entry b _) d _ = Some _ |- _ =>
      apply (entries_only_alter _ _ a) in H1; [|intros ???; apply delete_entry_other];
      apply (entries_only_alter _ _ b) in H2; [|intros ???; apply add_entry_other];
      apply (entries_only_weaken _ _ [a; b]) in H1; [|set_solver];
      apply (entries_only_weaken _ _ [a; b]) in H2; [|set_solver];
      exact (entries_only_trans _ _ _ _ _ H1 H2)
  end.
Qed.

Lemma touches_MkdirAll d l : touches d l (os_MkdirAll d).
Proof.
  apply touches_call. intros n r n' Hop. case_match; simplify_eq.
  split; [by eapply confined_mkdir_all|]. intros y _. eapply mkdir_all_other; [done|apply snoc_not_prefix].
Qed.

Lemma touches_create_temp parent prefix suffix x w name w' :
  os_create_temp parent prefix suffix x w = (Ok name, w') ->
  entries_only parent [name] (w_fs w) (w_fs w').
Proof.
  intros (_ & _ & Hc & Hf)%create_temp_frame. split; [done|]. intros y Hy. apply Hf. set_solver.
Qed.

Create HintDb touches.
#[export] Hint Resolve touches_ret touches_WriteFile touches_Chmod touches_Remove touches_Close
  touches_Rename touches_MkdirAll : touches.

(** Nothing but reading. *)
Lemma room_reads {A} p (m : io A) w a w' :
  preserves (fun _ => True) m -> m w = (a, w') -> room p (w_fs w) -> room p (w_fs w').
Proof.
  intros Hm E Hr q d pm Hq Hg. pose proof (Hm w q I) as Hp. rewrite E in Hp. cbn in Hp.
  rewrite Hp in Hg. by apply (Hr q d pm).
Qed.

Lemma unused_touched d prefix suffix pick (w w' : world) (names : list string) :
  (forall y, y ∉ names -> get (d ++ [y]) (w_fs w') = get (d ++ [y]) (w_fs w)) ->
  w_rand w' = w_rand w -> w_tick w <= w_tick w' ->
  (forall t, w_tick w' <= t -> prefix +:+ w_rand w t (pick t) +:+ suffix ∉ names) ->
  unused d prefix suffix pick w -> unused d prefix suffix pick w'.
Proof.
  intros Hf Hr Ht Hn Hu t Hge. rewrite Hr, Hf by auto. apply Hu. lia.
Qed.
