(* ===== verification/State.v ===== *)
(** * Cache state (internal/cache/state.go, retention.go)

    The sync metadata persisted as state.json.  A nil Go map and an empty one
    are both the empty [gmap]: the code reads them alike and allocates before
    it writes.  Serialisation by encoding/json is a parameter ([Codec]). *)
From S2P Require Import Prelude GoStrings Digest World.
From stdpp Require Import gmap.

(** [json.MarshalIndent] and [json.Unmarshal] at one type. *)
Class Codec (A : Type) := {
  marshal : A -> result string;
  unmarshal : string -> result A;
}.

Definition StateFileName : string := "state.json".

Record VerificationResult := MkVerificationResult {
  VR_Verified : bool;
  VR_SignerIdentity : string;
  VR_Issuer : string;
  VR_VerifiedAt : Z;
}.

Record PolicyState := MkPolicyState {
  Version : string;
  Digest : string;
  EvaluatorID : string;
  LastUpdated : Z;
  Verified : bool;
  SignerIdentity : string;
  Issuer : string;
  VerifiedAt : Z;
  PolicyTitle : string;
  PolicyEvaluator : string;
  ControlCount : Z;
  AssessmentCount : Z;
}.

(** The zero value of the Go struct; times are nanoseconds, zero the zero time. *)
Definition PolicyState_zero : PolicyState :=
  MkPolicyState "" "" "" 0 false "" "" 0 "" "" 0 0.

Record State := MkState {
  LastSync : Z;
  Policies : gmap string PolicyState;
  Complypacks : gmap string PolicyState;
}.

Definition State_fresh : State := MkState 0 ∅ ∅.

(** [excludeMalformedDigests]: drops entries with a malformed digest. *)
Definition digest_ok (ps : PolicyState) : Prop := ValidateDigest (Digest ps) = None.
#[export] Instance digest_ok_dec ps : Decision (digest_ok ps).
Proof. unfold digest_ok. apply _. Defined.

Definition excludeMalformedDigests (s : State) : State :=
  MkState (LastSync s)
    (filter (fun kv => digest_ok kv.2) (Policies s))
    (filter (fun kv => digest_ok kv.2) (Complypacks s)).

(** The part shared by the two Update functions. *)
Definition mk_entry (version dgst evaluatorID : string) (now : Z)
    (vr : option VerificationResult) : PolicyState :=
  match vr with
  | None => MkPolicyState version dgst evaluatorID now false "" "" 0 "" "" 0 0
  | Some v => MkPolicyState version dgst evaluatorID now (VR_Verified v)
                (VR_SignerIdentity v) (VR_Issuer v) (VR_VerifiedAt v) "" "" 0 0
  end.

(** [UpdatePolicyStateWithVerification]; [now1] and [now2] are its two readings
    of the clock. *)
Definition UpdatePolicyStateWithVerification (s : State) (policyID version dgst : string)
    (vr : option VerificationResult) (now1 now2 : Z) : result State :=
  match ValidateDigest dgst with
  | Some e => Err (Wrapf ("policy " +:+ policyID +:+ ": ") e "")
  | None => Ok (MkState now2 (<[policyID := mk_entry version dgst "" now1 vr]> (Policies s))
                  (Complypacks s))
  end.

Definition UpdateComplypackStateWithVerification (s : State)
    (repository version dgst evaluatorID : string)
    (vr : option VerificationResult) (now1 now2 : Z) : result State :=
  match ValidateDigest dgst with
  | Some e => Err (Wrapf ("complypack " +:+ repository +:+ ": ") e "")
  | None => Ok (MkState now2 (Policies s)
                  (<[repository := mk_entry version dgst evaluatorID now1 vr]> (Complypacks s)))
  end.

Definition GetPolicyState (s : State) (policyID : string) : option PolicyState :=
  Policies s !! policyID.
Definition GetComplypackState (s : State) (repository : string) : option PolicyState :=
  Complypacks s !! repository.

(** The loop of [EvaluatorIDToVersion] over the entries in the order Go's map
    iteration happens to deliver them. *)
Fixpoint version_loop (evaluatorID : string) (entries : list (string * PolicyState))
    (found : bool) (version : string) : result (string * bool) :=
  match entries with
  | [] => Ok (version, found)
  | (_, ps) :: rest =>
      if bool_decide (EvaluatorID ps = evaluatorID) then
        if found then
          Err (Errorf ("duplicate evaluator-id " +:+ evaluatorID +:+ " in state: " +:+
                       "multiple repositories reference the same evaluator"))
        else version_loop evaluatorID rest true (Version ps)
      else version_loop evaluatorID rest found version
  end.

(** [EvaluatorIDToVersion] on an optional (possibly nil) state. *)
Definition EvaluatorIDToVersion (s : option State) (evaluatorID : string)
    : result (string * bool) :=
  match s with
  | None => Ok ("", false)
  | Some s => version_loop evaluatorID (map_to_list (Complypacks s)) false ""
  end.

(** [SetPolicyMetadata] *)
Definition with_metadata (title evaluator : string) (controls assessments : Z)
    (ps : PolicyState) : PolicyState :=
  MkPolicyState (Version ps) (Digest ps) (EvaluatorID ps) (LastUpdated ps) (Verified ps)
    (SignerIdentity ps) (Issuer ps) (VerifiedAt ps) title evaluator controls assessments.

Definition SetPolicyMetadata (s : State) (repository title evaluator : string)
    (controls assessments : Z) : State :=
  match Policies s !! repository with
  | None => s
  | Some ps => MkState (LastSync s)
                 (<[repository := with_metadata title evaluator controls assessments ps]>
                    (Policies s))
                 (Complypacks s)
  end.

(** ** Persistence *)

Definition LoadState `{!Codec State} (baseDir : path) : io (result State) :=
  let statePath := baseDir ++ [StateFileName] in
  let! r := os_ReadFile statePath in
  match r with
  | Err e =>
      if error_is e ErrNotExist then io_ret (Ok State_fresh)
      else io_ret (Err (Wrapf ("failed to read state file " +:+ path_text statePath +:+ ": ") e ""))
  | Ok data =>
      io_ret (match unmarshal data with
              | Err e => Err (Wrapf ("failed to parse state file " +:+ path_text statePath +:+ ": ") e "")
              | Ok state => Ok (excludeMalformedDigests state)
              end)
  end.

(** On a failure the temporary file is closed (errors ignored) and removed. *)
Definition discard_temp {A} (tmp : path) (close : bool) (e : error) : io (result A) :=
  let! _ := (if close then os_Close else io_ret (Ok tt)) in
  let! _ := os_Remove tmp in
  io_ret (Err e).

(** [SaveState] once the temporary file [name] exists. *)
Definition save_tail (baseDir : path) (name data : string) : io (result unit) :=
  let tmp := baseDir ++ [name] in
  let statePath := baseDir ++ [StateFileName] in
  let! r := os_WriteFile tmp data 384 in
  match r with
  | Err e => discard_temp tmp true (Wrapf ("failed to write temp state file " +:+ path_text tmp +:+ ": ") e "")
  | Ok _ =>
  let! r := os_Chmod tmp 384 in
  match r with
  | Err e => discard_temp tmp true (Wrapf "failed to set permissions on temp state file: " e "")
  | Ok _ =>
  let! r := os_Close in
  match r with
  | Err e => discard_temp tmp false (Wrapf "failed to close temp state file: " e "")
  | Ok _ =>
  let! r := os_Rename tmp statePath in
  match r with
  | Err e => discard_temp tmp false (Wrapf ("failed to write state file " +:+ path_text statePath +:+ ": ") e "")
  | Ok _ => io_ret (Ok tt)
  end end end end.

Definition SaveState `{!Codec State} (state : State) (baseDir : path) : io (result unit) :=
  do! _ := os_MkdirAll baseDir
    orelse (fun e => Wrapf "failed to create data directory: " e "") in
  do! data := io_lift (marshal state)
    orelse (fun e => Wrapf "failed to marshal state: " e "") in
  do! name := os_CreateTemp baseDir ".state-" ".json.tmp"
    orelse (fun e => Wrapf "failed to create temp state file: " e "") in
  save_tail baseDir name data.

(** ** Retention count (retention.go) *)

Definition CacheVersionsEnvVar : string := "COMPLYTIME_CACHE_VERSIONS".
Definition defaultRetentionCount : Z := 1.

(** [strconv.Atoi] of a decimal integer with optional sign, in int64 range. *)
Fixpoint digits_value (s : string) (acc : Z) : option Z :=
  match s with
  | EmptyString => Some acc
  | String c s' => if is_digit c
                   then digits_value s' (acc * 10 + Z.of_nat (byte_of c - byte_of "0"))
                   else None
  end.
Definition atoi_unsigned (s : string) : option Z :=
  if bool_decide (s = "") then None else digits_value s 0.
Definition Atoi (s : string) : option Z :=
  let v := match s with
           | String "-" s' => Z.opp <$> atoi_unsigned s'
           | String "+" s' => atoi_unsigned s'
           | _ => atoi_unsigned s
           end in
  match v with
  | Some z => if (-(2 ^ 63) <=? z)%Z && (z <? 2 ^ 63)%Z then Some z else None
  | None => None
  end.

Definition CacheRetentionCount (env : gmap string string) : Z :=
  let raw := default "" (env !! CacheVersionsEnvVar) in
  if bool_decide (raw = "") then defaultRetentionCount
  else match Atoi raw with
       | None => defaultRetentionCount
       | Some n => if (n <? 1)%Z then 1 else n
       end.

Lemma CacheRetentionCount_ge_1 env : (1 <= CacheRetentionCount env)%Z.
Proof.
  unfold CacheRetentionCount, defaultRetentionCount. case_bool_decide; [lia|].
  destruct (Atoi _); [|lia]. destruct (Z.ltb_spec z 1); lia.
Qed.

(** ** The digest invariant *)

(** Every digest in the state is empty or well formed. *)
Definition state_ok (s : State) : Prop :=
  map_Forall (fun _ ps => digest_ok ps) (Policies s) /\
  map_Forall (fun _ ps => digest_ok ps) (Complypacks s).

(** What the program does to a state after loading it. *)
Inductive state_step : State -> State -> Prop :=
  | step_policy s id v d vr n1 n2 s' :
      UpdatePolicyStateWithVerification s id v d vr n1 n2 = Ok s' -> state_step s s'
  | step_complypack s r v d ev vr n1 n2 s' :
      UpdateComplypackStateWithVerification s r v d ev vr n1 n2 = Ok s' -> state_step s s'
  | step_metadata s r t e c a : state_step s (SetPolicyMetadata s r t e c a).

Lemma mk_entry_digest v d ev now vr : Digest (mk_entry v d ev now vr) = d.
Proof. by destruct vr. Qed.

Lemma excludeMalformedDigests_ok s : state_ok (excludeMalformedDigests s).
Proof. split; intros k ps; simpl; by intros [_ ?]%map_lookup_filter_Some. Qed.

Lemma excludeMalformedDigests_id s : state_ok s -> excludeMalformedDigests s = s.
Proof.
  destruct s as [t p c]. intros [Hp Hc]. unfold excludeMalformedDigests. simpl in *.
  rewrite !map_filter_id; eauto.
Qed.

Lemma State_fresh_ok : state_ok State_fresh.
Proof. split; apply map_Forall_empty. Qed.

Lemma state_step_ok s s' : state_step s s' -> state_ok s -> state_ok s'.
Proof.
  intros Hstep [Hp Hc]. destruct Hstep as [s id v d vr n1 n2 s' H|s r v d ev vr n1 n2 s' H|s r t e c a].
  - unfold UpdatePolicyStateWithVerification in H. destruct (ValidateDigest d) eqn:E; [done|].
    simplify_eq. split; [|done]. apply map_Forall_insert_2; [|done].
    unfold digest_ok. by rewrite mk_entry_digest.
  - unfold UpdateComplypackStateWithVerification in H. destruct (ValidateDigest d) eqn:E; [done|].
    simplify_eq. split; [done|]. apply map_Forall_insert_2; [|done].
    unfold digest_ok. by rewrite mk_entry_digest.
  - unfold SetPolicyMetadata. destruct (Policies s !! r) as [ps|] eqn:E; [|done].
    split; [|done]. apply map_Forall_insert_2; [|done].
    exact (Hp r ps E).
Qed.

Section load_save.
  Context `{!Codec State}.

Lemma LoadState_ok baseDir w s w' : LoadState baseDir w = (Ok s, w') -> state_ok s.
Proof.
  unfold LoadState, io_bind. destruct (os_ReadFile _ w) as [[data|e] w1].
  - unfold io_ret. destruct (unmarshal data); intros; simplify_eq.
    apply excludeMalformedDigests_ok.
  - unfold io_ret. destruct (error_is e ErrNotExist); intros; simplify_eq. apply State_fresh_ok.
Qed.

(** C14: every digest held in memory is either empty or a well-formed
    OCI digest: it holds of what [LoadState] returns from any file, and sync and
    metadata updates keep it along any sequence of them. *)
Theorem digests_valid_reachable baseDir w s0 w' s k ps :
  LoadState baseDir w = (Ok s0, w') -> rtc state_step s0 s ->
  (Policies s !! k = Some ps \/ Complypacks s !! k = Some ps) ->
  Digest ps = "" \/ well_formed_digest (Digest ps).
Proof.
  intros Hload Hsteps Hk. apply ValidateDigest_spec.
  assert (state_ok s) as [Hp Hc].
  { apply LoadState_ok in Hload. induction Hsteps; eauto using state_step_ok. }
  destruct Hk; [by eapply Hp|by eapply Hc].
Qed.

(** ** Saving is atomic *)

Lemma temp_name_ne r : ".state-" +:+ r +:+ ".json.tmp" <> StateFileName.
Proof. done. Qed.

Lemma preserves_discard {A} d name close e :
  preserves (diverges (d ++ [name])) (discard_temp (A:=A) (d ++ [name]) close e).
Proof.
  apply preserves_bind; [destruct close; auto with preserves|intros _].
  apply preserves_bind; auto with preserves.
Qed.

Lemma discard_temp_Err {A} tmp close e w r w' :
  discard_temp (A:=A) tmp close e w = (r, w') -> r = Err e.
Proof.
  unfold discard_temp, io_bind, io_ret.
  destruct close; [destruct (os_Close w) as [a w1]|]; destruct (os_Remove tmp _); naive_solver.
Qed.

(** From the creation of the temporary file on, the target keeps its content
    unless the rename succeeds. *)
Lemma preserves_temp_steps d name p :
  diverges (d ++ [name]) p ->
  forall data perm, preserves (eq p) (os_WriteFile (d ++ [name]) data perm) /\
    preserves (eq p) (os_Chmod (d ++ [name]) perm) /\ preserves (eq p) os_Close /\
    (forall A close e, preserves (eq p) (discard_temp (A:=A) (d ++ [name]) close e)).
Proof.
  intros Hd data perm. split_and!; intros;
    (eapply preserves_weaken; [auto using preserves_discard with preserves|by intros ? <-]).
Qed.

(** The frame [HD] of a clean-up that ended the call. *)
Ltac discard_frame HD :=
  match goal with
  | H : @discard_temp ?A _ ?c ?e ?w = _ |- _ =>
      let Q := fresh in pose proof (HD A c e w _ eq_refl) as Q; by rewrite H in Q
  end.

Lemma SaveState_tail baseDir name data w r w' p :
  p = baseDir ++ [StateFileName] -> diverges (baseDir ++ [name]) p ->
  save_tail baseDir name data w = (r, w') ->
  match r with
  | Ok _ => get p (w_fs w') = Some (File data 384)
  | Err _ => get p (w_fs w') = get p (w_fs w)
  end.
Proof.
  intros -> Hd. destruct (preserves_temp_steps baseDir name _ Hd data 384) as (HW & HCh & HCl & HD).
  unfold save_tail, io_bind.
  pose proof (HW w _ eq_refl) as P1. destruct (os_WriteFile _ _ _ w) as [[[]|e] w1] eqn:E1; simpl in P1.
  2:{ intros H. apply discard_temp_Err in H as Hr. subst. rewrite <-P1.
      discard_frame HD. }
  apply os_WriteFile_ok in E1 as (pm & G1 & _).
  pose proof (HCh w1 _ eq_refl) as P2. destruct (os_Chmod _ _ w1) as [[[]|e] w2] eqn:E2; simpl in P2.
  2:{ intros H. apply discard_temp_Err in H as Hr. subst. rewrite <-P1, <-P2.
      discard_frame HD. }
  apply os_Chmod_ok in E2 as (dt & pm' & G2 & G3). simplify_eq.
  destruct (os_Close w2) as [[[]|e] w3] eqn:E3; apply os_Close_ok in E3.
  2:{ intros H. apply discard_temp_Err in H as Hr. subst. rewrite <-P1, <-P2, <-E3.
      discard_frame HD. }
  destruct (os_Rename _ _ w3) as [[[]|e] w4] eqn:E4.
  - unfold io_ret. intros; simplify_eq. apply os_Rename_spec in E4 as (x & H1 & H2 & _).
    rewrite E3 in H1. by simplify_eq.
  - apply os_call_Err in E4. intros H. apply discard_temp_Err in H as Hr. subst.
    rewrite <-P1, <-P2, <-E3, <-E4.
    discard_frame HD.
Qed.

Lemma SaveState_outcome state baseDir w :
  let '(r, w') := SaveState state baseDir w in
  let p := baseDir ++ [StateFileName] in
  match r with
  | Ok _ => exists data, marshal state = Ok data /\ get p (w_fs w') = Some (File data 384)
  | Err _ => get p (w_fs w') = get p (w_fs w)
  end.
Proof.
  set (p := baseDir ++ [StateFileName]).
  destruct (SaveState state baseDir w) as [r w'] eqn:Hrun. unfold SaveState in Hrun.
  unfold io_try at 1 in Hrun. unfold io_bind at 1 in Hrun.
  pose proof (preserves_MkdirAll baseDir w p) as HM.
  destruct (os_MkdirAll baseDir w) as [[[]|e] w1]; simpl in HM.
  all: specialize (HM (snoc_not_prefix _ _)).
  2:{ unfold io_ret in Hrun; by simplify_eq. }
  unfold io_try at 1 in Hrun. unfold io_bind at 1 in Hrun. unfold io_lift, io_ret at 1 in Hrun.
  destruct (marshal state) as [data|e] eqn:Em; [|unfold io_ret in Hrun; by simplify_eq].
  unfold io_try at 1 in Hrun. unfold io_bind at 1 in Hrun.
  assert (Hdiv : forall r, diverges (baseDir ++ [".state-" +:+ r +:+ ".json.tmp"]) p).
  { intros r0. apply diverges_snoc, temp_name_ne. }
  pose proof (preserves_create_temp baseDir ".state-" ".json.tmp" (File "" 384) w1 p Hdiv) as HC.
  fold (os_CreateTemp baseDir ".state-" ".json.tmp") in HC.
  destruct (os_CreateTemp baseDir ".state-" ".json.tmp" w1) as [[name|e] w2] eqn:EC;
    simpl in HC;
    [|unfold io_ret in Hrun; simplify_eq; simpl; congruence].
  apply os_create_temp_spec in EC as ([r0 ->] & _ & _ & _). specialize (Hdiv r0).
  eapply SaveState_tail in Hrun; [|done|done].
  fold p in Hrun. simpl in *. destruct r; [eauto|]. congruence.
Qed.

(** Saving touches nothing off the line of its directory. *)
Lemma preserves_SaveState state d : preserves (diverges d) (SaveState state d).
Proof.
  assert (Hsub : forall x q, diverges d q -> diverges (d ++ [x]) q).
  { intros. by apply diverges_sym, diverges_app, diverges_sym. }
  unfold SaveState. apply preserves_try.
  { eapply preserves_weaken; [apply preserves_MkdirAll|]. by intros q [_ ?]. }
  intros _. apply preserves_try; [done|]. intros data. apply preserves_try.
  { eapply preserves_weaken; [apply preserves_create_temp|]. intros q Hq r; by apply Hsub. }
  intros name. unfold save_tail.
  assert (HD : forall A c e, preserves (diverges d) (discard_temp (A:=A) (d ++ [name]) c e)).
  { intros. eapply preserves_weaken; [apply preserves_discard|auto]. }
  apply preserves_bind; [eapply preserves_weaken; [apply preserves_WriteFile|]; intros q Hq; by apply Hsub|].
  intros [_|e]; [|apply HD].
  apply preserves_bind; [eapply preserves_weaken; [apply preserves_Chmod|]; intros q Hq; by apply Hsub|].
  intros [_|e]; [|apply HD].
  apply preserves_bind; [apply preserves_Close|]. intros [_|e]; [|apply HD].
  apply preserves_bind; [eapply preserves_weaken; [apply preserves_Rename|]; intros q Hq; split; by apply Hsub|].
  intros [_|e]; [apply preserves_ret|apply HD].
Qed.

(** C13: [SaveState] is atomic.  Whatever operating-system call fails,
    state.json afterwards holds either exactly what it held before, and the call
    reports an error, or the complete new state with mode 0600, and the call
    succeeds; no outcome leaves a truncated or partial file. *)
Theorem SaveState_atomic state baseDir w :
  let '(r, w') := SaveState state baseDir w in
  let p := baseDir ++ [StateFileName] in
  match r with
  | Ok _ => exists data, marshal state = Ok data /\ get p (w_fs w') = Some (File data 384)
  | Err _ => get p (w_fs w') = get p (w_fs w)
  end.
Proof. apply SaveState_outcome. Qed.
End load_save.

(** ** Map iteration order *)

Definition duplicate_evaluator (evaluatorID : string) : error :=
  Errorf ("duplicate evaluator-id " +:+ evaluatorID +:+ " in state: " +:+
          "multiple repositories reference the same evaluator").

Definition serves (evaluatorID : string) (kv : string * PolicyState) : Prop :=
  EvaluatorID kv.2 = evaluatorID.
#[export] Instance serves_dec ev kv : Decision (serves ev kv).
Proof. unfold serves. apply _. Defined.

Lemma version_loop_true ev entries v :
  version_loop ev entries true v =
    match filter (serves ev) entries with
    | [] => Ok (v, true)
    | _ => Err (duplicate_evaluator ev)
    end.
Proof.
  induction entries as [|[k ps] entries IH]; simpl; [done|]. case_bool_decide.
  - by rewrite filter_cons_True.
  - by rewrite filter_cons_False.
Qed.

Lemma version_loop_spec ev entries :
  version_loop ev entries false "" =
    match filter (serves ev) entries with
    | [] => Ok ("", false)
    | [kv] => Ok (Version kv.2, true)
    | _ => Err (duplicate_evaluator ev)
    end.
Proof.
  induction entries as [|[k ps] entries IH]; simpl; [done|]. case_bool_decide.
  - rewrite version_loop_true, filter_cons_True by done.
    by destruct (filter (serves ev) entries).
  - by rewrite IH, filter_cons_False.
Qed.

(** [EvaluatorIDToVersion] gives the same answer for every order in
    which Go may iterate over the map.  It answers a version exactly when one
    repository only is recorded for the evaluator, "not found" exactly when none
    is, and the duplicate error exactly when several are. *)
Theorem EvaluatorIDToVersion_any_order s ev entries :
  entries ≡ₚ map_to_list (Complypacks s) ->
  version_loop ev entries false "" = EvaluatorIDToVersion (Some s) ev /\
  match EvaluatorIDToVersion (Some s) ev with
  | Ok (v, true) => exists r ps, Complypacks s !! r = Some ps /\ EvaluatorID ps = ev /\
      Version ps = v /\
      forall r' ps', Complypacks s !! r' = Some ps' -> EvaluatorID ps' = ev -> r' = r
  | Ok (v, false) => v = "" /\ forall r ps, Complypacks s !! r = Some ps -> EvaluatorID ps <> ev
  | Err e => e = duplicate_evaluator ev /\ exists r1 r2 ps1 ps2, r1 <> r2 /\
      Complypacks s !! r1 = Some ps1 /\ Complypacks s !! r2 = Some ps2 /\
      EvaluatorID ps1 = ev /\ EvaluatorID ps2 = ev
  end.
Proof.
  intros Hperm. simpl. rewrite !version_loop_spec. split.
  - assert (filter (serves ev) entries ≡ₚ filter (serves ev) (map_to_list (Complypacks s)))
      as HP by by rewrite Hperm.
    destruct (filter (serves ev) (map_to_list _)) as [|a [|b l]].
    + apply Permutation_nil_r in HP. by rewrite HP.
    + apply Permutation_singleton_r in HP. by rewrite HP.
    + apply Permutation_length in HP. by destruct (filter _ entries) as [|? [|? ?]].
  - assert (Hin : forall r ps, (r, ps) ∈ filter (serves ev) (map_to_list (Complypacks s)) <->
                   EvaluatorID ps = ev /\ Complypacks s !! r = Some ps).
    { intros. by rewrite list_elem_of_filter, elem_of_map_to_list. }
    assert (Hnd : NoDup (filter (serves ev) (map_to_list (Complypacks s)))).
    { apply NoDup_filter, NoDup_map_to_list. }
    destruct (filter (serves ev) (map_to_list _)) as [|[r ps] [|[r2 ps2] l]]; simpl.
    + split; [done|]. intros r ps H1 H2. assert ((r, ps) ∈ []) by by apply Hin.
      by apply not_elem_of_nil in H.
    + destruct (proj1 (Hin r ps)) as [? ?]; [left|]. exists r, ps. split_and!; auto.
      intros r' ps' H1 H2. assert ((r', ps') ∈ [(r, ps)]) as He by by apply Hin.
      apply list_elem_of_singleton in He. by simplify_eq.
    + split; [done|]. destruct (proj1 (Hin r ps)) as [? ?]; [left|].
      destruct (proj1 (Hin r2 ps2)) as [? ?]; [right; left|]. exists r, r2, ps, ps2.
      split_and!; auto. intros ->. simplify_eq. apply NoDup_cons in Hnd as [Hn _].
      apply Hn. left.
Qed.

(** ** Round trip *)

(** what [SaveState] wrote, [LoadState] reads back: after a successful
    save of a state whose digests are valid, a load that meets no read failure
    returns that state, provided decoding inverts encoding at it. *)
Theorem LoadState_SaveState `{!Codec State} s baseDir w w' data :
  state_ok s -> SaveState s baseDir w = (Ok tt, w') ->
  marshal s = Ok data -> unmarshal data = Ok s ->
  w_fault w' (w_tick w') = None ->
  (LoadState baseDir w').1 = Ok s.
Proof.
  intros Hok Hsave Hm Hu Hf. pose proof (SaveState_outcome s baseDir w) as Ha.
  rewrite Hsave in Ha. destruct Ha as (data' & Hm' & Hget). simplify_eq.
  unfold LoadState, io_bind, os_ReadFile, os_call. rewrite Hf, Hget.
  cbn beta iota zeta. assert (data' = data) as -> by congruence. rewrite Hu. simpl. by rewrite excludeMalformedDigests_id.
Qed.
