(* ===== verification/Complypack.v ===== *)
(** * The complypack cache (internal/cache/complypack.go)

    Unpacked complypacks live in [{cacheDir}/complypacks/{evaluator}/{version}].
    The state pointer a [ComplypackCache] holds is shared with the sync code
    that updates it, so every operation takes the state current at the call. *)
From S2P Require Import Prelude GoStrings Digest World State.
From stdpp Require Import gmap.

Definition ComplypacksSubdir : string := "complypacks".
Definition complypackContentFile : string := "content.tar.gz".
Definition complypackConfigFile : string := "config.json".

(** [complypack.Config] of the complypack module. *)
Record GemaraRef := MkGemaraRef { GR_URI : string; GR_Version : string; GR_ReferenceID : string }.
Record Provenance := MkProvenance { PV_PolicyID : string; PV_GemaraContent : list GemaraRef }.
Record PackConfig := MkPackConfig {
  Pack_ID : string;
  Pack_EvaluatorID : string;
  Pack_Version : string;
  Pack_Source : list Provenance;
}.

Record ComplypackCache := MkComplypackCache {
  cacheDir : path;
  retentionCount : Z;
}.

(** [NewComplypackCache]: reads the retention count once. *)
Definition NewComplypackCache (dir : path) (env : gmap string string) : ComplypackCache :=
  MkComplypackCache dir (CacheRetentionCount env).

(** [validPathComponent]: [^[a-zA-Z0-9._-]+$] *)
Definition path_component_byte (c : ascii) : bool := is_alnum c || in_set "._-" c.

Definition ValidatePathComponent (value : string) : option error :=
  if bool_decide (value = "") then Some (Errorf "path component must not be empty")
  else if contains_byte value "000" then
    Some (Errorf ("path component must not contain null bytes: " +:+ value))
  else if contains_byte value "/" || contains_byte value "\" then
    Some (Errorf ("path component must not contain path separators: " +:+ value))
  else if contains_str value ".." then
    Some (Errorf ("path component must not contain parent directory reference: " +:+ value))
  else if negb (str_forall path_component_byte value) then
    Some (Errorf ("path component contains invalid characters (allowed: a-zA-Z0-9._-): " +:+ value))
  else None.

Definition validate_component (what value : string) : result unit :=
  match ValidatePathComponent value with
  | None => Ok tt
  | Some e => Err (Wrapf ("invalid " +:+ what +:+ ": ") e "")
  end.

(** The directory of all versions of an evaluator, and of one version. *)
Definition evaluatorDir (c : ComplypackCache) (evaluatorID : string) : path :=
  path_join (cacheDir c ++ [ComplypacksSubdir]) evaluatorID.
Definition complypackDir (c : ComplypackCache) (evaluatorID version : string) : path :=
  path_join (evaluatorDir c evaluatorID) version.

(** ** Eviction *)

(** [buildTrackedVersionSet]: versions the state records for the evaluator. *)
Definition tracks (evaluatorID version : string) (ps : PolicyState) : Prop :=
  EvaluatorID ps = evaluatorID /\ Version ps <> "" /\ Version ps = version.
#[export] Instance tracks_dec ev v ps : Decision (tracks ev v ps).
Proof. unfold tracks. apply _. Defined.

Definition buildTrackedVersionSet (state : State) (evaluatorID : string) : list string :=
  flat_map (fun kv => if bool_decide (EvaluatorID kv.2 = evaluatorID /\ Version kv.2 <> "")
                      then [Version kv.2] else [])
           (map_to_list (Complypacks state)).

(** The version-to-timestamp map of [sortByLastUpdated]; a missing version has
    the zero time. *)
Definition version_timestamps (state : State) (evaluatorID : string) : gmap string Z :=
  fold_left (fun m kv =>
      if bool_decide (EvaluatorID kv.2 = evaluatorID /\ Version kv.2 <> "")
      then <[Version kv.2 := LastUpdated kv.2]> m else m)
    (map_to_list (Complypacks state)) ∅.

Definition last_updated (ts : gmap string Z) (version : string) : Z := default 0%Z (ts !! version).

Definition older (ts : gmap string Z) (a b : string) : Prop :=
  (last_updated ts a <= last_updated ts b)%Z.
#[export] Instance older_dec ts : RelDecision (older ts).
Proof. intros a b. unfold older. apply _. Defined.

Definition sortByLastUpdated (versions : list string) (state : State) (evaluatorID : string)
    : list string :=
  merge_sort (older (version_timestamps state evaluatorID)) versions.

(** Non-hidden subdirectories. *)
Definition visible_version (e : string * node) : Prop :=
  is_dir (Some e.2) = true /\ has_prefix e.1 "." = false.
#[export] Instance visible_version_dec e : Decision (visible_version e).
Proof. unfold visible_version. apply _. Defined.

Definition eviction_candidates (entries : list (string * node)) (targetVersion : string)
    : list string :=
  fst <$> filter (fun e => visible_version e /\ e.1 <> targetVersion) entries.

(** The directories eviction removes, in the order of removal. *)
Definition eviction_list (candidates : list string) (retention : Z) (evaluatorID : string)
    (state : option State) : list string :=
  match state with
  | None => candidates
  | Some st =>
      let trackedSet := buildTrackedVersionSet st evaluatorID in
      let tracked := filter (fun v => v ∈ trackedSet) candidates in
      let orphaned := filter (fun v => v ∉ trackedSet) candidates in
      let slotsForOld := Z.to_nat (retention - 1) in
      if bool_decide (length tracked <= slotsForOld)%nat then orphaned
      else orphaned ++ take (length tracked - slotsForOld)
                         (sortByLastUpdated tracked st evaluatorID)
  end.

(** [filepath.Base]: the last component. *)
Definition path_base (p : path) : string :=
  match split_last p with Some (_, b) => b | None => "/" end.

(** [evictOldVersions]: failures are logged and skipped. *)
Definition evictOldVersions (evaluatorDir : path) (targetVersion : string) (retention : Z)
    (state : option State) : io unit :=
  let! r := os_ReadDir evaluatorDir in
  match r with
  | Err _ => io_ret tt
  | Ok entries =>
      remove_each evaluatorDir
        (eviction_list (eviction_candidates entries targetVersion) retention
           (path_base evaluatorDir) state)
  end.

(** ** Store *)

Section cache.
  Context {cfgCodec : Codec PackConfig}.

(** [defer os.RemoveAll(tmpDir)] on an error path. *)
Definition abandon {A} (tmpDir : path) (e : error) : io (result A) :=
  let! _ := os_RemoveAll tmpDir in io_ret (Err e).

(** The calls of [Store] from the existence of the temporary directory to the
    atomic rename. *)
Definition store_publish (config : PackConfig) (content : result string)
    (finalDir tmpDir : path) : io (result unit) :=
  let! r := os_CreateExcl (tmpDir ++ [complypackContentFile]) 384 in
  match r with
  | Err e => abandon tmpDir (Wrapf "failed to create content file: " e "")
  | Ok _ =>
  let! r := (match content with
             | Err e => io_ret (Err e)
             | Ok data => os_WriteFile (tmpDir ++ [complypackContentFile]) data 384
             end) in
  match r with
  | Err e => let! _ := os_Close in abandon tmpDir (Wrapf "failed to write content file: " e "")
  | Ok _ =>
  let! r := os_Close in
  match r with
  | Err e => abandon tmpDir (Wrapf "failed to close content file: " e "")
  | Ok _ =>
  match marshal config with
  | Err e => abandon tmpDir (Wrapf "failed to marshal complypack config: " e "")
  | Ok configData =>
  let! r := os_WriteFile (tmpDir ++ [complypackConfigFile]) configData 384 in
  match r with
  | Err e => abandon tmpDir (Wrapf "failed to write config file: " e "")
  | Ok _ =>
  let! r := os_RemoveAll finalDir in
  match r with
  | Err e => abandon tmpDir (Wrapf ("failed to remove existing cache directory " +:+ path_text finalDir +:+ ": ") e "")
  | Ok _ =>
  let! r := os_Rename tmpDir finalDir in
  match r with
  | Err e => abandon tmpDir (Wrapf ("failed to rename temporary directory to " +:+ path_text finalDir +:+ ": ") e "")
  | Ok _ => io_ret (Ok tt)
  end end end end end end end.

(** Publication, then eviction of the versions beyond the retention count. *)
Definition store_tail (c : ComplypackCache) (state : option State) (config : PackConfig)
    (content : result string) (finalDir parentDir tmpDir : path) : io (result path) :=
  do! _ := store_publish config content finalDir tmpDir orelse (fun e => e) in
  let! _ := evictOldVersions parentDir (Pack_Version config) (retentionCount c) state in
  io_ret (Ok (finalDir ++ [complypackContentFile])).

Definition Store (c : ComplypackCache) (state : option State) (config : PackConfig)
    (content : result string) : io (result path) :=
  do! _ := io_lift (validate_component "evaluator-id" (Pack_EvaluatorID config))
    orelse (fun e => e) in
  do! _ := io_lift (validate_component "version" (Pack_Version config)) orelse (fun e => e) in
  let finalDir := complypackDir c (Pack_EvaluatorID config) (Pack_Version config) in
  let parentDir := removelast finalDir in
  do! _ := os_MkdirAll parentDir
    orelse (fun e => Wrapf ("failed to create complypack parent directory " +:+ path_text parentDir +:+ ": ") e "") in
  do! name := os_MkdirTemp parentDir ".complypack-tmp-"
    orelse (fun e => Wrapf "failed to create temporary directory: " e "") in
  store_tail c state config content finalDir parentDir (parentDir ++ [name]).

(** ** Lookup *)

Definition Lookup (c : ComplypackCache) (evaluatorID version : string)
    : io (result (path * PackConfig)) :=
  do! _ := io_lift (validate_component "evaluator-id" evaluatorID) orelse (fun e => e) in
  do! _ := io_lift (validate_component "version" version) orelse (fun e => e) in
  let dir := complypackDir c evaluatorID version in
  let contentPath := dir ++ [complypackContentFile] in
  do! _ := os_Stat contentPath
    orelse (fun e => Wrapf ("complypack content not found for " +:+ evaluatorID +:+ "@" +:+
                            version +:+ ": ") e "") in
  do! configData := os_ReadFile (dir ++ [complypackConfigFile])
    orelse (fun e => Wrapf ("failed to read complypack config for " +:+ evaluatorID +:+ "@" +:+
                            version +:+ ": ") e "") in
  do! cfg := io_lift (unmarshal configData)
    orelse (fun e => Wrapf ("failed to parse complypack config for " +:+ evaluatorID +:+ "@" +:+
                            version +:+ ": ") e "") in
  io_ret (Ok (contentPath, cfg)).

(** The loop of [lookupByDirScan]; [None] is Go's [("", nil, nil)]. *)
Fixpoint scan_entries (evalDir : path) (evaluatorID : string) (entries : list (string * node))
    : io (result (option (path * PackConfig))) :=
  match entries with
  | [] => io_ret (Ok None)
  | (name, x) :: rest =>
      if negb (is_dir (Some x)) then scan_entries evalDir evaluatorID rest
      else if has_prefix name "." then scan_entries evalDir evaluatorID rest
      else
        let contentPath := evalDir ++ [name; complypackContentFile] in
        let! st := os_Stat contentPath in
        match st with
        | Err _ => scan_entries evalDir evaluatorID rest
        | Ok _ =>
            do! configData := os_ReadFile (evalDir ++ [name; complypackConfigFile])
              orelse (fun e => Wrapf ("failed to read complypack config for " +:+
                                      evaluatorID +:+ ": ") e "") in
            do! cfg := io_lift (unmarshal configData)
              orelse (fun e => Wrapf ("failed to parse complypack config for " +:+
                                      evaluatorID +:+ ": ") e "") in
            io_ret (Ok (Some (contentPath, cfg)))
        end
  end.

Definition lookupByDirScan (c : ComplypackCache) (evaluatorID : string)
    : io (result (option (path * PackConfig))) :=
  let evalDir := evaluatorDir c evaluatorID in
  let! r := os_ReadDir evalDir in
  match r with
  | Err e => if error_is e ErrNotExist then io_ret (Ok None)
             else io_ret (Err (Wrapf ("failed to read complypack cache directory for " +:+
                                      evaluatorID +:+ ": ") e ""))
  | Ok entries => scan_entries evalDir evaluatorID entries
  end.

Definition LookupByEvaluatorID (c : ComplypackCache) (state : option State)
    (evaluatorID : string) : io (result (option (path * PackConfig))) :=
  do! _ := io_lift (validate_component "evaluator-id" evaluatorID) orelse (fun e => e) in
  match state with
  | None => lookupByDirScan c evaluatorID
  | Some _ =>
      match EvaluatorIDToVersion state evaluatorID with
      | Err e => io_ret (Err (Wrapf ("state lookup failed for evaluator " +:+ evaluatorID +:+ ": ")
                                    e ""))
      | Ok (version, ok) =>
          if (ok : bool) then
            let! r := Lookup c evaluatorID version in
            match r with
            | Ok hit => io_ret (Ok (Some hit))
            | Err _ => lookupByDirScan c evaluatorID
            end
          else lookupByDirScan c evaluatorID
      end
  end.
End cache.

(** ** Path components stay where they are put *)

Lemma ValidatePathComponent_accepts v :
  ValidatePathComponent v = None ->
  v <> "" /\ v <> ".." /\ contains_byte v "/" = false /\ str_forall path_component_byte v = true.
Proof.
  unfold ValidatePathComponent. case_bool_decide as Hv; [done|].
  destruct (contains_byte v "000"); [done|].
  destruct (contains_byte v "/") eqn:E1; [done|]. destruct (contains_byte v "\"); [done|]. simpl.
  destruct (contains_str v "..") eqn:E2; [done|].
  destruct (str_forall path_component_byte v); [|done]. intros _. split_and!; auto.
  by intros ->.
Qed.

Lemma path_join_component base v :
  ValidatePathComponent v = None -> v <> "." -> path_join base v = base ++ [v].
Proof.
  intros (Hv & Hdd & Hs & _)%ValidatePathComponent_accepts Hd.
  unfold path_join. rewrite split_no by done. simpl. unfold path_push.
  by rewrite !bool_decide_eq_false_2.
Qed.

Lemma validate_component_ok what v u : validate_component what v = Ok u -> ValidatePathComponent v = None.
Proof. unfold validate_component. by destruct (ValidatePathComponent v). Qed.

(** C11: an evaluator id and a version accepted by
    [ValidatePathComponent], other than the single dot, name a directory exactly
    two levels below the complypack root: nothing they contain can move the path
    elsewhere, and distinct pairs get distinct directories. *)
Theorem complypackDir_contained c ev v :
  ValidatePathComponent ev = None -> ValidatePathComponent v = None -> ev <> "." -> v <> "." ->
  complypackDir c ev v = cacheDir c ++ [ComplypacksSubdir; ev; v] /\
  forall ev' v', ValidatePathComponent ev' = None -> ValidatePathComponent v' = None ->
    ev' <> "." -> v' <> "." -> complypackDir c ev' v' = complypackDir c ev v -> ev' = ev /\ v' = v.
Proof.
  intros H1 H2 H3 H4. unfold complypackDir, evaluatorDir.
  rewrite !path_join_component by done. split; [by rewrite <-!app_assoc|].
  intros ev' v' ? ? ? ? He. rewrite !path_join_component in He by done.
  apply app_inj_tail in He as [He ->]. by apply app_inj_tail in He as [_ ->].
Qed.

(** ** Eviction spares the target and hidden directories *)

Lemma eviction_candidates_spec entries target x :
  x ∈ eviction_candidates entries target ->
  x <> target /\ has_prefix x "." = false /\ exists n, (x, n) ∈ entries /\ is_dir (Some n) = true.
Proof.
  unfold eviction_candidates. intros ([y n] & -> & [[[? ?] ?] ?]%list_elem_of_filter)%list_elem_of_fmap.
  simpl in *. eauto.
Qed.

Lemma sortByLastUpdated_perm vs st ev : sortByLastUpdated vs st ev ≡ₚ vs.
Proof. apply merge_sort_Permutation. Qed.

Lemma eviction_list_subset cands N ev st x : x ∈ eviction_list cands N ev st -> x ∈ cands.
Proof.
  unfold eviction_list. destruct st as [st|]; [|done].
  case_bool_decide; [by intros [_ ?]%list_elem_of_filter|].
  rewrite elem_of_app. intros [[_ ?]%list_elem_of_filter|Hx]; [done|].
  apply elem_of_take in Hx as (i & Hi & _). apply list_elem_of_lookup_2 in Hi.
  rewrite sortByLastUpdated_perm in Hi. by apply list_elem_of_filter in Hi as [_ ?].
Qed.

(** Eviction touches only non-hidden entries other than the target. *)
Lemma preserves_evict d target N st :
  preserves (fun q => forall x, x <> target -> has_prefix x "." = false -> diverges (d ++ [x]) q)
    (evictOldVersions d target N st).
Proof.
  apply preserves_bind; [apply preserves_ReadDir|]. intros [entries|e]; [|done].
  eapply preserves_weaken; [apply preserves_remove_each|]. intros q Hq x Hx.
  apply eviction_list_subset, eviction_candidates_spec in Hx as (? & ? & _). by apply Hq.
Qed.

(** An accepted component never leaves its base. *)
Lemma path_join_prefix base v : ValidatePathComponent v = None -> base `prefix_of` path_join base v.
Proof.
  intros Hv. destruct (decide (v = ".")) as [->|]; [done|].
  rewrite path_join_component by done. by apply prefix_app_r.
Qed.

Lemma complypackDir_prefix c ev v :
  ValidatePathComponent ev = None -> ValidatePathComponent v = None ->
  cacheDir c `prefix_of` complypackDir c ev v.
Proof.
  intros H1 H2. unfold complypackDir, evaluatorDir.
  etrans; [|by apply path_join_prefix]. etrans; [|by apply path_join_prefix].
  by apply prefix_app_r.
Qed.

Section store_facts.
  Context {cfgCodec : Codec PackConfig}.

Lemma preserves_abandon {A} d name e :
  preserves (diverges (d ++ [name])) (abandon (A:=A) (d ++ [name]) e).
Proof. apply preserves_bind; auto with preserves. Qed.

Lemma abandon_not_Ok {A} t e w (a : A) w' : abandon t e w <> (Ok a, w').
Proof. unfold abandon, io_bind. destruct (os_RemoveAll t w). unfold io_ret. congruence. Qed.

(** What a successful publication went through. *)
Lemma store_publish_ok cfg content d v name w w1 :
  store_publish cfg content (d ++ [v]) (d ++ [name]) w = (Ok tt, w1) ->
  exists data configData pd pc,
    content = Ok data /\ marshal cfg = Ok configData /\
    get (d ++ [v; complypackContentFile]) (w_fs w1) = Some (File data pd) /\
    get (d ++ [v; complypackConfigFile]) (w_fs w1) = Some (File configData pc).
Proof.
  unfold store_publish, io_bind.
  destruct (os_CreateExcl _ _ w) as [[[]|e] w1'] eqn:E1; [|by intros ?%abandon_not_Ok].
  destruct content as [data|e]; [|unfold io_ret; destruct (os_Close w1'); by intros ?%abandon_not_Ok].
  destruct (os_WriteFile _ data _ w1') as [[[]|e] w2] eqn:E2;
    [|destruct (os_Close w2); by intros ?%abandon_not_Ok].
  destruct (os_Close w2) as [[[]|e] w3] eqn:E3; [|by intros ?%abandon_not_Ok].
  destruct (marshal cfg) as [configData|e] eqn:Em; [|by intros ?%abandon_not_Ok].
  destruct (os_WriteFile _ configData _ w3) as [[[]|e] w4] eqn:E4; [|by intros ?%abandon_not_Ok].
  destruct (os_RemoveAll _ w4) as [[[]|e] w5] eqn:E5; [|by intros ?%abandon_not_Ok].
  destruct (os_Rename _ _ w5) as [[[]|e] w6] eqn:E6; [|by intros ?%abandon_not_Ok].
  unfold io_ret. intros; simplify_eq.
  apply os_WriteFile_ok in E2 as (pd & G2 & _). apply os_Close_ok in E3.
  pose proof (preserves_WriteFile (d ++ [name]) complypackConfigFile configData 384 w3
    ((d ++ [name]) ++ [complypackContentFile])) as P4. rewrite E4 in P4. simpl in P4.
  rewrite E3, G2 in P4. specialize (P4 ltac:(by apply diverges_snoc)).
  apply os_WriteFile_ok in E4 as (pc & G4 & _).
  apply os_Rename_spec in E6 as (x & R1 & R2 & _).
  assert (v <> name) as Hne. { intros ->. apply os_RemoveAll_ok in E5. congruence. }
  pose proof (preserves_RemoveAll d v w4) as P5. rewrite E5 in P5. simpl in P5.
  assert (Hsub : forall f, get (d ++ [v; f]) (w_fs w1) = get ((d ++ [name]) ++ [f]) (w_fs w4)).
  { intros f. rewrite <-(P5 ((d ++ [name]) ++ [f])) by
      (rewrite <-app_assoc; by apply diverges_snoc).
    change [v; f] with ([v] ++ [f]). rewrite app_assoc, (get_app (d ++ [v])), R2.
    by rewrite (get_app (d ++ [name])), R1. }
  exists data, configData, pd, pc. by rewrite !Hsub.
Qed.

(** Publication stays inside the temporary and the final directory. *)
Lemma preserves_publish cfg content d v name :
  preserves (fun q => diverges (d ++ [name]) q /\ diverges (d ++ [v]) q)
    (store_publish cfg content (d ++ [v]) (d ++ [name])).
Proof.
  assert (Hab : forall A e, preserves (fun q => diverges (d ++ [name]) q /\ diverges (d ++ [v]) q)
    (abandon (A:=A) (d ++ [name]) e)).
  { intros. eapply preserves_weaken; [apply preserves_abandon|]. tauto. }
  assert (Hin : forall f q, diverges (d ++ [name]) q -> diverges ((d ++ [name]) ++ [f]) q).
  { intros. by apply diverges_sym, diverges_app, diverges_sym. }
  assert (Hw : forall f dt, preserves (fun q => diverges (d ++ [name]) q /\ diverges (d ++ [v]) q)
    (os_WriteFile ((d ++ [name]) ++ [f]) dt 384)).
  { intros. eapply preserves_weaken; [apply preserves_WriteFile|]. intros q [? _]. auto. }
  unfold store_publish. apply preserves_bind.
  { eapply preserves_weaken; [apply preserves_CreateExcl|]. intros q [? _]. auto. }
  intros [[]|e]; [|apply Hab]. apply preserves_bind; [by destruct content|].
  intros [[]|e]; [|apply preserves_bind; [apply preserves_Close|intros; apply Hab]].
  apply preserves_bind; [apply preserves_Close|]. intros [[]|e]; [|apply Hab].
  destruct (marshal cfg); [|apply Hab]. apply preserves_bind; [apply Hw|].
  intros [[]|e]; [|apply Hab]. apply preserves_bind.
  { eapply preserves_weaken; [apply preserves_RemoveAll|]. tauto. }
  intros [[]|e]; [|apply Hab]. apply preserves_bind; [apply preserves_Rename|].
  intros [[]|e]; [apply preserves_ret|apply Hab].
Qed.

(** The shape of a run of [Store] on admissible names. *)
Lemma Store_run c st cfg content r w w' :
  Store c st cfg content w = (r, w') ->
  Pack_EvaluatorID cfg <> "." -> Pack_Version cfg <> "." ->
  let d := evaluatorDir c (Pack_EvaluatorID cfg) in
  (exists e, r = Err e /\ forall q, ~ q `prefix_of` d ->
     (forall s, diverges (d ++ [".complypack-tmp-" +:+ s]) q) -> get q (w_fs w') = get q (w_fs w)) \/
  (exists s w1 w2,
     complypackDir c (Pack_EvaluatorID cfg) (Pack_Version cfg) = d ++ [Pack_Version cfg] /\
     ValidatePathComponent (Pack_EvaluatorID cfg) = None /\
     ValidatePathComponent (Pack_Version cfg) = None /\
     (forall q, ~ q `prefix_of` d -> (forall s, diverges (d ++ [".complypack-tmp-" +:+ s]) q) ->
        get q (w_fs w1) = get q (w_fs w)) /\
     ((exists e, store_publish cfg content (d ++ [Pack_Version cfg])
                   (d ++ [".complypack-tmp-" +:+ s]) w1 = (Err e, w2) /\ r = Err e /\ w' = w2) \/
      (store_publish cfg content (d ++ [Pack_Version cfg])
         (d ++ [".complypack-tmp-" +:+ s]) w1 = (Ok tt, w2) /\
       r = Ok (d ++ [Pack_Version cfg; complypackContentFile]) /\
       evictOldVersions d (Pack_Version cfg) (retentionCount c) st w2 = (tt, w')))).
Proof.
  set (ev := Pack_EvaluatorID cfg). set (v := Pack_Version cfg). intros Hstore Hev Hv d.
  unfold Store in Hstore. fold ev v in Hstore. unfold io_try, io_bind, io_lift, io_ret in Hstore.
  destruct (validate_component _ ev) as [[]|] eqn:V1; [|simplify_eq; left; eexists; split; done].
  destruct (validate_component _ v) as [[]|] eqn:V2; [|simplify_eq; left; eexists; split; done].
  apply validate_component_ok in V1, V2.
  assert (Hdir : complypackDir c ev v = d ++ [v]) by by apply path_join_component.
  rewrite Hdir, removelast_last in Hstore.
  pose proof (preserves_MkdirAll d w) as P1. destruct (os_MkdirAll d w) as [[[]|] w1].
  2:{ simplify_eq. left. eexists. split; [done|]. intros q Hq _. by apply P1. }
  pose proof (preserves_create_temp d ".complypack-tmp-" "" (Dir ∅) w1) as P2.
  fold (os_MkdirTemp d ".complypack-tmp-") in P2.
  assert (Htmp : forall q, (forall s, diverges (d ++ [".complypack-tmp-" +:+ s]) q) ->
    forall s, diverges (d ++ [".complypack-tmp-" +:+ s +:+ ""]) q) by (intros q Hq s; apply Hq).
  destruct (os_MkdirTemp d _ w1) as [[name|] w2] eqn:E2.
  2:{ simplify_eq. left. eexists. split; [done|]. intros q Hq1 Hq2. simpl in *.
      rewrite P2 by by apply Htmp. by apply P1. }
  apply os_create_temp_spec in E2 as ([s ->] & _). rewrite append_nil_r in Hstore.
  right. unfold store_tail, io_try, io_bind in Hstore. simpl in P1, P2.
  destruct (store_publish _ _ _ _ w2) as [[[]|e] w3] eqn:E3; exists s, w2, w3.
  - destruct (evictOldVersions _ _ _ _ w3) as [[] w4] eqn:E4. unfold io_ret in Hstore. simplify_eq.
    split_and!; auto.
    + intros q Hq1 Hq2. rewrite P2 by by apply Htmp. by apply P1.
    + right. split_and!; [done| |done]. by rewrite <-app_assoc.
  - unfold io_ret in Hstore. simplify_eq. split_and!; auto; [|left; eauto].
    intros q Hq1 Hq2. rewrite P2 by by apply Htmp. by apply P1.
Qed.

(** C10: a [Store] that reports an error, whichever operating-system
    call failed, has changed nothing outside its temporary directory and the one
    version directory it was to replace: every other version of the evaluator,
    every other evaluator and every other file keeps its content, and no
    eviction has taken place. *)
Theorem Store_error_preserves c st cfg content e w w' q :
  Store c st cfg content w = (Err e, w') ->
  Pack_EvaluatorID cfg <> "." -> Pack_Version cfg <> "." ->
  let d := evaluatorDir c (Pack_EvaluatorID cfg) in
  ~ q `prefix_of` d -> diverges (d ++ [Pack_Version cfg]) q ->
  (forall s, diverges (d ++ [".complypack-tmp-" +:+ s]) q) ->
  get q (w_fs w') = get q (w_fs w).
Proof.
  intros Hs Hev Hv d Hq1 Hq2 Hq3. apply Store_run in Hs; [|done..].
  destruct Hs as [(e' & _ & H)|(s & w1 & w2 & _ & _ & _ & H & [(e' & Hp & _ & ->)|(_ & ? & _)])];
    [by apply H| |done].
  pose proof (preserves_publish cfg content d (Pack_Version cfg) (".complypack-tmp-" +:+ s) w1 q) as P.
  unfold d in *. rewrite Hp in P. simpl in P. rewrite P by (split; [apply Hq3|done]). by apply H.
Qed.

(** The files a successful [Store] leaves, evictions included. *)
Lemma Store_files c st cfg content p w w' :
  Store c st cfg content w = (Ok p, w') ->
  Pack_EvaluatorID cfg <> "." -> Pack_Version cfg <> "." ->
  let dir := complypackDir c (Pack_EvaluatorID cfg) (Pack_Version cfg) in
  ValidatePathComponent (Pack_EvaluatorID cfg) = None /\
  ValidatePathComponent (Pack_Version cfg) = None /\
  p = dir ++ [complypackContentFile] /\
  exists data configData pd pc, content = Ok data /\ marshal cfg = Ok configData /\
    get p (w_fs w') = Some (File data pd) /\
    get (dir ++ [complypackConfigFile]) (w_fs w') = Some (File configData pc).
Proof.
  intros Hstore Hev Hv. apply Store_run in Hstore; [|done..].
  set (ev := Pack_EvaluatorID cfg) in *. set (v := Pack_Version cfg) in *.
  destruct Hstore as [(? & ? & _)|(s & w1 & w2 & Hdir & V1 & V2 & _ & [(? & ? & ? & _)|(Hp & Hr & Hevict)])];
    [done|done|]. set (d := evaluatorDir c ev) in *.
  apply store_publish_ok in Hp as (dt & configData & pd & pc & ? & Hm & G1 & G2). simplify_eq.
  pose proof (preserves_evict d v (retentionCount c) st w2) as Pev.
  rewrite Hevict in Pev. simpl in Pev.
  assert (Hkeep : forall f, get (d ++ [v; f]) (w_fs w') = get (d ++ [v; f]) (w_fs w2)).
  { intros f. apply Pev. intros x Hx _. by apply diverges_snoc. }
  intros dir. unfold dir. rewrite Hdir, <-!app_assoc. simpl app.
  rewrite <-Hkeep in G1, G2. split_and!; [done..|]. eauto 10.
Qed.

(** C9: after a successful [Store], [Lookup] of the stored evaluator
    and version finds the entry: it returns the path [Store] returned and the
    stored configuration, and that path holds exactly the stored content, even
    when evictions of other versions failed. *)
Theorem Store_Lookup c st cfg data p w w' :
  Store c st cfg (Ok data) w = (Ok p, w') ->
  Pack_EvaluatorID cfg <> "." -> Pack_Version cfg <> "." ->
  (forall d, marshal cfg = Ok d -> unmarshal d = Ok cfg) ->
  w_fault w' (w_tick w') = None -> w_fault w' (S (w_tick w')) = None ->
  (Lookup c (Pack_EvaluatorID cfg) (Pack_Version cfg) w').1 = Ok (p, cfg) /\
  exists perm, get p (w_fs w') = Some (File data perm).
Proof.
  intros Hstore Hev Hv Hcodec Hf1 Hf2. apply Store_files in Hstore; [|done..].
  destruct Hstore as (V1 & V2 & -> & data' & configData & pd & pc & ? & Hm & G1 & G2). simplify_eq.
  split; [|eauto]. unfold Lookup, validate_component. rewrite V1, V2.
  unfold io_try, io_bind, io_lift, io_ret, os_Stat, os_ReadFile, os_call. rewrite Hf1, G1.
  cbn [w_fault tick set_fs w_tick w_fs]. rewrite Hf2, G2. by rewrite (Hcodec _ Hm).
Qed.

(** Looking up only reads. *)
Lemma preserves_Lookup P c ev v : preserves P (Lookup c ev v).
Proof.
  unfold Lookup. repeat (apply preserves_try; [done|intros _]).
  apply preserves_try; [apply preserves_Stat|intros _].
  apply preserves_try; [apply preserves_ReadFile|intros d].
  by apply preserves_try.
Qed.

Lemma preserves_scan_entries P d ev entries : preserves P (scan_entries d ev entries).
Proof.
  induction entries as [|[name x] rest IH]; simpl; [done|].
  destruct x as [|m]; [done|]. simpl. destruct (has_prefix name "."); [done|].
  apply preserves_bind; [apply preserves_Stat|intros [|]; [|done]].
  apply preserves_try; [apply preserves_ReadFile|intros d']. by apply preserves_try.
Qed.

Lemma preserves_lookupByDirScan P c ev : preserves P (lookupByDirScan c ev).
Proof.
  apply preserves_bind; [apply preserves_ReadDir|intros [|e]; [apply preserves_scan_entries|]].
  by destruct (error_is e ErrNotExist).
Qed.

Lemma preserves_LookupByEvaluatorID P c st ev : preserves P (LookupByEvaluatorID c st ev).
Proof.
  apply preserves_try; [done|intros _]. destruct st as [st|]; [|apply preserves_lookupByDirScan].
  destruct (EvaluatorIDToVersion _ _) as [[v [|]]|]; [|apply preserves_lookupByDirScan|done].
  apply preserves_bind; [apply preserves_Lookup|intros [|]; [done|apply preserves_lookupByDirScan]].
Qed.

(** What a successful [Lookup] saw on disk. *)
Lemma Lookup_files c ev v hit w w' :
  Lookup c ev v w = (Ok hit, w') ->
  cacheDir c `prefix_of` complypackDir c ev v /\
  is_Some (get (complypackDir c ev v ++ [complypackContentFile]) (w_fs w)) /\
  exists d perm, get (complypackDir c ev v ++ [complypackConfigFile]) (w_fs w) = Some (File d perm).
Proof.
  unfold Lookup, io_try, io_bind, io_lift, io_ret.
  destruct (validate_component _ ev) eqn:V1; [|done].
  destruct (validate_component _ v) eqn:V2; [|done]. apply validate_component_ok in V1, V2.
  unfold os_Stat, os_call. destruct (w_fault w (w_tick w)); [done|].
  destruct (get _ (w_fs w)) eqn:E1; [|done]. unfold os_ReadFile, os_call.
  destruct (w_fault _ _); [done|]. simpl w_fs.
  destruct (get (complypackDir c ev v ++ [complypackConfigFile]) (w_fs w)) as [[d perm|]|] eqn:E2;
    [|done|done]. intros _. split_and!; [by apply complypackDir_prefix|by eexists|eauto].
Qed.
End store_facts.

(** ** The retention bound *)

Definition visible_names (m : gmap string node) : list string :=
  fst <$> filter visible_version (dir_list m).

Lemma dir_list_elem m x n : (x, n) ∈ dir_list m <-> m !! x = Some n.
Proof. unfold dir_list. by rewrite merge_sort_Permutation, elem_of_map_to_list. Qed.

Lemma visible_names_elem m x :
  x ∈ visible_names m <->
  has_prefix x "." = false /\ exists n, m !! x = Some n /\ is_dir (Some n) = true.
Proof.
  unfold visible_names. rewrite list_elem_of_fmap. split.
  - intros ([y n] & -> & [[? ?] Hin]%list_elem_of_filter). apply dir_list_elem in Hin. eauto.
  - intros (Hp & n & Hm & Hd). exists (x, n). split; [done|].
    apply list_elem_of_filter. split; [done|]. by apply dir_list_elem.
Qed.

Lemma visible_names_NoDup m : NoDup (visible_names m).
Proof.
  unfold visible_names, dir_list. set (l := merge_sort _ _).
  apply (sublist_NoDup _ l.*1); [|apply fmap_sublist, sublist_filter].
  unfold l. rewrite merge_sort_Permutation. apply NoDup_fst_map_to_list.
Qed.

#[export] Instance older_total ts : Total (older ts).
Proof. intros a b. unfold older. lia. Qed.
#[export] Instance older_trans ts : Transitive (older ts).
Proof. intros a b c. unfold older. lia. Qed.

(** What eviction leaves of the candidates: at most [retention - 1] of them, all
    recorded by the state, none older than a recorded one it removes. *)
Lemma eviction_list_kept cands N ev st :
  exists kept, (length kept <= Z.to_nat (N - 1))%nat /\
    (forall x, x ∈ cands -> x ∉ eviction_list cands N ev (Some st) -> x ∈ kept) /\
    (forall x, x ∈ kept -> x ∈ buildTrackedVersionSet st ev) /\
    (forall x y, x ∈ kept -> y ∈ eviction_list cands N ev (Some st) ->
       y ∈ buildTrackedVersionSet st ev -> older (version_timestamps st ev) y x).
Proof.
  unfold eviction_list. set (T := buildTrackedVersionSet st ev).
  set (tr := filter (fun v => v ∈ T) cands). set (slots := Z.to_nat (N - 1)).
  assert (Htr : forall x, x ∈ tr <-> x ∈ T /\ x ∈ cands) by (intros; unfold tr; by rewrite list_elem_of_filter).
  case_bool_decide as Hlen.
  - exists tr. split_and!; [done| | |].
    + intros x Hx Hn. apply Htr. split; [|done]. destruct (decide (x ∈ T)); [done|].
      destruct Hn. by apply list_elem_of_filter.
    + intros x Hx. by apply Htr in Hx as [? _].
    + intros x y _ [Hy _]%list_elem_of_filter. done.
  - set (k := (length tr - slots)%nat). set (srt := sortByLastUpdated tr st ev).
    assert (Hp : srt ≡ₚ tr) by apply sortByLastUpdated_perm.
    assert (Hs : StronglySorted (older (version_timestamps st ev)) (take k srt ++ drop k srt)).
    { rewrite take_drop. apply (StronglySorted_merge_sort _). }
    exists (drop k srt). split_and!.
    + rewrite length_drop, Hp. lia.
    + intros x Hx Hn. rewrite not_elem_of_app in Hn. destruct Hn as [Hn1 Hn2].
      assert (x ∈ T) as HT. { destruct (decide (x ∈ T)); [done|]. destruct Hn1.
        by apply list_elem_of_filter. }
      assert (x ∈ srt) as Hin by (rewrite Hp; by apply Htr).
      rewrite <-(take_drop k srt) in Hin. apply elem_of_app in Hin as [?|?]; done.
    + intros x Hx. assert (x ∈ srt) as Hin.
      { rewrite <-(take_drop k srt). apply elem_of_app. by right. }
      rewrite Hp in Hin. by apply Htr in Hin as [? _].
    + intros x y Hx [[Hy _]%list_elem_of_filter|Hy]%elem_of_app HyT; [done|].
      by apply (StronglySorted_app_1_elem_of _ _ _ _ _ Hs Hy Hx).
Qed.


(** ** The single dot

    [ValidatePathComponent] accepts ["."], which [filepath.Join] drops: the
    version directory of the version ["."] is the evaluator's directory itself,
    and the directory that eviction then cleans is the root of the cache. *)
Theorem ValidatePathComponent_accepts_dot c ev :
  ValidatePathComponent "." = None /\ complypackDir c ev "." = evaluatorDir c ev /\
  evaluatorDir c "." = cacheDir c ++ [ComplypacksSubdir].
Proof. done. Qed.
