(* ===== verification/Sync.v ===== *)
(** * Synchronisation (internal/cache/{cache,source,sync,complypack_source,complypack_sync}.go)

    [SyncPolicy] and [SyncComplypack] bring a policy or a complypack from the
    registry into the local cache.  The oras library, the unpacking of a
    complypack and signature verification are parameters ([Oras], [VerifyFunc]);
    the state is threaded explicitly, since the code updates it in memory before
    it saves it. *)
From stdpp Require Import gmap.
From S2P Require Import Prelude GoStrings Digest OciRef World State Complypack.

(** ** References for lookup and verification *)

Definition BuildLookupRef (registryHost repository tag digest : string) : string :=
  let ref := if bool_decide (registryHost = "") then repository
             else trim_right registryHost "/" +:+ "/" +:+ repository in
  if negb (bool_decide (digest = "")) then ref +:+ "@" +:+ digest
  else if bool_decide (tag = "") || bool_decide (tag = "latest") then ref
  else ref +:+ ":" +:+ tag.

(** ** Per-policy stores (cache.go) *)

Definition PoliciesSubdir : string := "policies".
Definition oci_layout : string := "oci-layout".

(** [ocispec.Descriptor], as far as the code looks at it. *)
Record Descriptor := MkDescriptor {
  Desc_Digest : string;
  Desc_ArtifactType : string;
}.

(** The oras library: opening an OCI Layout store, [oras.Copy] from a remote
    repository (plain HTTP or not) at a tag into a store, reading a blob of a
    store, the artifactType of a manifest, and [complypack.Unpack]; the content
    stream of an unpacked complypack may fail. *)
Class Oras := {
  oci_New : path -> io (result unit);
  oras_Copy : bool -> string -> string -> path -> io (result Descriptor);
  store_Fetch : path -> Descriptor -> io (result string);
  decode_artifactType : string -> result string;
  complypack_Unpack : path -> Descriptor -> io (result (PackConfig * result string));
}.

(** The library writes only below the store it is given. *)
Class OrasLaws `{Oras} := {
  oci_New_frame p : preserves (diverges p) (oci_New p);
  oras_Copy_frame h r t p : preserves (diverges p) (oras_Copy h r t p);
  store_Fetch_frame p d : preserves (fun _ => True) (store_Fetch p d);
  Unpack_frame p d : preserves (fun _ => True) (complypack_Unpack p d);
}.

Section policy_store.
  Context `{Oras}.

Definition PolicyStorePath (cache : path) (policyID : string) : path :=
  path_join (cache ++ [PoliciesSubdir]) policyID.

Definition NewPolicyStore (cache : path) (policyID : string) : io (result path) :=
  let storePath := PolicyStorePath cache policyID in
  do! _ := os_MkdirAll storePath
    orelse (fun e => Wrapf ("failed to create policy store directory " +:+
                            path_text storePath +:+ ": ") e "") in
  do! _ := oci_New storePath
    orelse (fun e => Wrapf ("failed to open OCI Layout store for policy " +:+ policyID +:+ ": ")
                           e "") in
  io_ret (Ok storePath).

Definition PolicyStoreExists (cache : path) (policyID : string) : io bool :=
  let! r := os_Stat (PolicyStorePath cache policyID ++ [oci_layout]) in
  io_ret (is_ok r).
End policy_store.

(** [filepath.WalkDir] as [ListPolicies] uses it: directories in lexical order,
    each read once it is visited; the result is the directories, relative to
    the root, that hold a plain file oci-layout.  A read error ends the walk. *)
Definition walk_entry (visit : path -> io (result (list path))) (rel : path) (name : string)
    (x : node) : io (result (list path)) :=
  if is_dir (Some x) then visit (rel ++ [name])
  else io_ret (Ok (if bool_decide (name = oci_layout) then [rel] else [])).

Fixpoint walk_entries (visit : path -> io (result (list path))) (rel : path)
    (entries : list (string * node)) : io (result (list path)) :=
  match entries with
  | [] => io_ret (Ok [])
  | (name, x) :: rest =>
      do! here := walk_entry visit rel name x orelse (fun e => e) in
      do! more := walk_entries visit rel rest orelse (fun e => e) in
      io_ret (Ok (here ++ more))
  end.

Fixpoint walk (fuel : nat) (root rel : path) : io (result (list path)) :=
  match fuel with
  | O => io_ret (Err (Errorf "walk: out of fuel"))
  | S fuel' =>
      do! entries := os_ReadDir (root ++ rel) orelse (fun e => e) in
      walk_entries (walk fuel' root) rel entries
  end.

(** The number of nodes of a tree bounds its height: enough fuel for the walk. *)
Fixpoint node_size (n : node) : nat :=
  match n with
  | File _ _ => 1
  | Dir m => S (map_fold (fun _ c acc => node_size c + acc)%nat O m)
  end.

Definition ListPolicies (cache : path) : io (result (list path)) := fun w =>
  let policiesDir := cache ++ [PoliciesSubdir] in
  (let! r := os_Stat policiesDir in
   match r with
   | Err e => if error_is e ErrNotExist then io_ret (Ok [])
              else do! l := walk (node_size (w_fs w)) policiesDir []
                     orelse (fun e => Wrapf "failed to walk policies directory: " e "") in
                   io_ret (Ok l)
   | Ok _ => do! l := walk (node_size (w_fs w)) policiesDir []
               orelse (fun e => Wrapf "failed to walk policies directory: " e "") in
             io_ret (Ok l)
   end) w.

(** The walk, when no call fails. *)
Lemma node_size_child m x c : m !! x = Some c -> (node_size c < node_size (Dir m))%nat.
Proof.
  intros Hx. simpl. rewrite (map_fold_delete_L _ O x c m); [lia| |done]. intros; lia.
Qed.

Lemma node_size_get q n x : get q n = Some x -> (node_size x <= node_size n)%nat.
Proof.
  revert n. induction q as [|y q IH]; intros n Hq; simpl in Hq; [by simplify_eq|].
  destruct n as [|m']; [done|]. destruct (m' !! y) as [c|] eqn:Ex; [|done].
  apply IH in Hq. apply node_size_child in Ex. lia.
Qed.

(** Relative directories below [t] that hold a plain file oci-layout. *)
Definition holds_layout (n : node) (t : path) : Prop :=
  exists d perm, get (t ++ [oci_layout]) n = Some (File d perm).

Definition walked (n : node) (rel : path) (l : list path) : Prop :=
  forall p, p ∈ l <-> exists t, p = rel ++ t /\ holds_layout n t.

Lemma holds_layout_dir m t :
  holds_layout (Dir m) t <->
  (t = [] /\ exists d perm, m !! oci_layout = Some (File d perm)) \/
  exists x t' c, t = x :: t' /\ m !! x = Some c /\ holds_layout c t'.
Proof.
  unfold holds_layout. destruct t as [|x t']; simpl; split.
  - intros (d & perm & H). left. split; [done|]. destruct (m !! oci_layout); naive_solver.
  - intros [(_ & d & perm & ->)|(? & ? & ? & ? & _)]; [eauto|done].
  - intros (d & perm & H). right. destruct (m !! x) eqn:E; [|done]. naive_solver.
  - intros [(? & _)|(x' & t'' & c & ? & Hm & d & perm & H)]; [done|]. simplify_eq.
    rewrite Hm. eauto.
Qed.

Lemma walk_entries_spec visit rel entries w :
  no_faults w ->
  (forall name x w1, (name, x) ∈ entries -> is_dir (Some x) = true ->
     no_faults w1 -> w_fs w1 = w_fs w ->
     exists l w2, visit (rel ++ [name]) w1 = (Ok l, w2) /\ no_faults w2 /\
       w_fs w2 = w_fs w /\ walked x (rel ++ [name]) l) ->
  exists l w', walk_entries visit rel entries w = (Ok l, w') /\ no_faults w' /\
    w_fs w' = w_fs w /\
    forall p, p ∈ l <-> exists name x, (name, x) ∈ entries /\
      ((is_dir (Some x) = true /\ exists t, p = rel ++ name :: t /\ holds_layout x t) \/
       (is_dir (Some x) = false /\ name = oci_layout /\ p = rel)).
Proof.
  remember (w_fs w) as n eqn:Hn. revert w Hn.
  induction entries as [|[name x] rest IH]; intros w Hn Hf Hvisit; cbn [walk_entries].
  { exists [], w. split_and!; [done..|]. intros p. rewrite elem_of_nil.
    split; [done|]. intros (? & ? & H & _). by apply elem_of_nil in H. }
  assert (exists l w1, walk_entry visit rel name x w = (Ok l, w1) /\
    no_faults w1 /\ w_fs w1 = n /\
    forall p, p ∈ l <->
      (is_dir (Some x) = true /\ exists t, p = rel ++ name :: t /\ holds_layout x t) \/
       (is_dir (Some x) = false /\ name = oci_layout /\ p = rel)) as (l & w1 & Hl & Hf1 & Hfs & Hin).
  { unfold walk_entry. destruct (is_dir (Some x)) eqn:Ex.
    - destruct (Hvisit name x w) as (l & w1 & ? & ? & ? & Hl); [left|done..|].
      exists l, w1. split_and!; [done..|]. intros p. rewrite (Hl p). split.
      + intros (t & -> & ?). left. split; [done|]. exists t. by rewrite <-app_assoc.
      + intros [(_ & t & -> & ?)|(? & _)]; [|done]. exists t. by rewrite <-app_assoc.
    - eexists _, w. split_and!; [done..|]. intros p.
      case_bool_decide; set_solver. }
  destruct (IH w1 (eq_sym Hfs) Hf1) as (l2 & w2 & H2 & Hf2 & Hfs2 & Hin2).
  { intros name' x' w3 Hx'. apply Hvisit. by right. }
  exists (l ++ l2), w2. unfold io_try, io_bind. rewrite Hl, H2.
  split_and!; [done..|]. intros p. rewrite elem_of_app, Hin, Hin2. split.
  - intros [?|(name' & x' & ? & ?)]; [exists name, x|exists name', x']; (split; [|done]); set_solver.
  - intros (name' & x' & [?|?]%elem_of_cons & H3); [simplify_eq; by left|right; eauto].
Qed.

Lemma walk_spec fuel root rel w m :
  no_faults w -> get (root ++ rel) (w_fs w) = Some (Dir m) -> (node_size (Dir m) <= fuel)%nat ->
  exists l w', walk fuel root rel w = (Ok l, w') /\ no_faults w' /\ w_fs w' = w_fs w /\
    walked (Dir m) rel l.
Proof.
  revert rel w m. induction fuel as [|fuel IH]; intros rel w m Hf Hg Hfuel; [simpl in Hfuel; lia|].
  cbn [walk]. unfold io_try at 1, io_bind, os_ReadDir, os_call. rewrite (Hf _), Hg.
  destruct (walk_entries_spec (walk fuel root) rel (dir_list m) (tick (set_fs (w_fs w) w)))
    as (l & w' & Hw & Hf' & Hfs & Hin); [done| |].
  { intros name x w1 Hx Hd Hf1 Hfs. destruct x as [|m']; [done|].
    unfold dir_list in Hx. rewrite merge_sort_Permutation in Hx. apply elem_of_map_to_list in Hx.
    assert (get (root ++ rel ++ [name]) (w_fs w1) = Some (Dir m')).
    { rewrite Hfs. simpl. rewrite app_assoc, get_app, Hg. simpl. by rewrite Hx. }
    destruct (IH (rel ++ [name]) w1 m') as (l & w2 & ? & ? & Hfs2 & ?); [done|done| |].
    { apply node_size_child in Hx. simpl in *; lia. }
    exists l, w2. split_and!; [done..| |done]. by rewrite Hfs2. }
  exists l, w'. split_and!; [done..|]. intros p. rewrite Hin.
  assert (Hdl : forall name x, (name, x) ∈ dir_list m <-> m !! name = Some x).
  { intros. unfold dir_list. by rewrite merge_sort_Permutation, elem_of_map_to_list. }
  setoid_rewrite Hdl. setoid_rewrite holds_layout_dir. split.
  - intros (name & x & Hx & [(_ & t & -> & Ht)|(Hd & -> & ->)]).
    + exists (name :: t). split; [done|]. right. by exists name, t, x.
    + exists []. rewrite app_nil_r. split; [done|]. left. destruct x; [eauto|done].
  - intros (t & -> & [(-> & d & perm & Hm)|(x & t' & c & -> & Hm & Ht)]).
    + exists oci_layout, (File d perm). rewrite app_nil_r. split; [done|]. by right.
    + exists x, c. split; [done|]. left. split; [|eauto]. destruct c; [|done].
      destruct Ht as (? & ? & Ht). by destruct t'.
Qed.

(** [ListPolicies] lists exactly the policy stores.  When no call
    fails it returns each directory below the policies directory, at any depth,
    that holds a plain file oci-layout, and nothing else; a missing policies
    directory is an empty list. *)
Theorem ListPolicies_exact cache w :
  no_faults w -> (forall d perm, get (cache ++ [PoliciesSubdir]) (w_fs w) <> Some (File d perm)) ->
  exists l, (ListPolicies cache w).1 = Ok l /\
    forall p, p ∈ l <-> exists d perm,
      get (cache ++ [PoliciesSubdir] ++ p ++ [oci_layout]) (w_fs w) = Some (File d perm).
Proof.
  intros Hf Hfile. unfold ListPolicies, io_bind, os_Stat, os_call. rewrite (Hf _).
  destruct (get (cache ++ [PoliciesSubdir]) (w_fs w)) as [[d perm|m]|] eqn:Eg.
  - by destruct (Hfile d perm).
  - assert (Hsize : (node_size (Dir m) <= node_size (w_fs w))%nat) by by eapply node_size_get.
    destruct (walk_spec (node_size (w_fs w)) (cache ++ [PoliciesSubdir]) []
      (tick (set_fs (w_fs w) w)) m) as (l & w' & Hw & _ & _ & Hl);
      [done|by rewrite app_nil_r|done|].
    exists l. unfold io_try, io_bind. rewrite Hw. split; [done|]. intros p. rewrite (Hl p).
    setoid_rewrite app_assoc. setoid_rewrite (get_app (cache ++ [PoliciesSubdir])).
    rewrite Eg. simpl. unfold holds_layout. naive_solver.
  - exists []. split; [done|]. intros p. split; [by intros ?%elem_of_nil|].
    intros (d & perm & H). rewrite app_assoc, get_app, Eg in H. done.
Qed.

(** ** Sources *)

(** [PolicySource] and [ComplypackSource]: the interface sync is written
    against; [Src_Copy] is [CopyPolicy] or [CopyComplypack]. *)
Record Source := MkSource {
  Src_DefinitionVersion : string -> io (result (string * string));
  Src_Copy : string -> string -> path -> io (result Descriptor);
}.

(** [complypack.MediaTypeArtifact] *)
Definition MediaTypeArtifact : string := "application/vnd.complypack.artifact.v1".

Section sources.
  Context `{Oras} {hs : HostSyntax} {net : RegistryNetwork}.

Definition CopyPolicy (c : Client) (policyID tag : string) (dst : path)
    : io (result Descriptor) :=
  do! repo := io_lift (NewRemoteRepository c policyID)
    orelse (fun e => Wrapf "failed to create remote repository: " e "") in
  oras_Copy (plainHTTP c) repo tag dst.

Definition RegistrySource (c : Client) : Source :=
  MkSource (fun id => io_lift (DefinitionVersion c id)) (CopyPolicy c).

Definition VerifyComplypackArtifactType (desc : Descriptor) (store : path)
    : io (result Descriptor) :=
  do! artifactType :=
    (if bool_decide (Desc_ArtifactType desc = "") then
       do! data := store_Fetch store desc
         orelse (fun e => Wrapf "failed to read manifest from local store: " e "") in
       do! at_ := io_lift (decode_artifactType data)
         orelse (fun e => Wrapf "failed to parse manifest: " e "") in
       io_ret (Ok at_)
     else io_ret (Ok (Desc_ArtifactType desc)))
    orelse (fun e => e) in
  if negb (bool_decide (artifactType = MediaTypeArtifact)) then
    io_ret (Err (Errorf ("artifact type mismatch: got " +:+ artifactType +:+ ", want " +:+ MediaTypeArtifact)))
  else io_ret (Ok (MkDescriptor (Desc_Digest desc) artifactType)).

Definition CopyComplypack (c : Client) (repository tag : string) (dst : path)
    : io (result Descriptor) :=
  do! repo := io_lift (NewRemoteRepository c repository)
    orelse (fun e => Wrapf "failed to create remote repository: " e "") in
  do! desc := oras_Copy (plainHTTP c) repo tag dst
    orelse (fun e => Wrapf "failed to copy complypack artifact: " e "") in
  VerifyComplypackArtifactType desc dst.

Definition RegistryComplypackSource (c : Client) : Source :=
  MkSource (fun id => io_lift (DefinitionVersion c id)) (CopyComplypack c).
End sources.

(** ** Policy synchronisation (sync.go) *)

(** [VerifyFunc]: a registry reference and whether plain HTTP is allowed. *)
Definition VerifyFunc : Type := string -> bool -> io (result VerificationResult).

Record Sync := MkSync {
  sync_cache : path;
  sync_source : Source;
  sync_verifier : option VerifyFunc;
  sync_registryHost : string;
  sync_insecure : bool;
  sync_dataDir : path;
}.

Definition NewSync (cache : path) (source : Source) (dataDir : path) (registryHost : string)
    (verifier : option VerifyFunc) : Sync :=
  let '(host, insecure) := SplitHostScheme registryHost in
  MkSync cache source verifier host insecure dataDir.

(** A step that may verify: nothing to do without a verifier. *)
Definition run_verifier (verifier : option VerifyFunc) (ref : string) (insecure : bool)
    : io (result (option VerificationResult)) :=
  match verifier with
  | None => io_ret (Ok None)
  | Some vf => do! vr := vf ref insecure orelse (fun e => e) in io_ret (Ok (Some vr))
  end.

Definition version_or (version remoteVersion : string) : string :=
  if bool_decide (version = "") || bool_decide (version = "latest") then remoteVersion
  else version.

Definition host_required (what id : string) : error :=
  Errorf (what +:+ " " +:+ id +:+ ": registry host is required for signature verification; " +:+
          "include the registry host in the policy URL or use --skip-verify").

Section sync.
  Context `{Oras} {stCodec : Codec State}.

(** The answer of a sync: whether a fetch occurred, with the state in memory. *)
Definition sync_fail (st : State) (e : error) : io (result bool * State) := io_ret (Err e, st).

(** [SyncPolicy] from the copy on. *)
Definition sync_copy (s : Sync) (st : State) (policyID version remoteDigest : string)
    (vr : option VerificationResult) : io (result bool * State) :=
  let! r := NewPolicyStore (sync_cache s) policyID in
  match r with
  | Err e => sync_fail st (Wrapf ("failed to open local store for policy " +:+ policyID +:+ ": ") e "")
  | Ok localStore =>
  let! r := Src_Copy (sync_source s) policyID version localStore in
  match r with
  | Err e => sync_fail st (Wrapf ("policy " +:+ policyID +:+ "@" +:+ version +:+ ": copy failed: ") e "")
  | Ok _ =>
  let! now1 := time_Now in
  let! now2 := time_Now in
  match UpdatePolicyStateWithVerification st policyID version remoteDigest vr now1 now2 with
  | Err e => sync_fail st e
  | Ok st' =>
  let! r := SaveState st' (sync_dataDir s) in
  match r with
  | Err e => sync_fail st' (Wrapf "failed to save state after sync: " e " (policy blobs are valid)")
  | Ok _ => io_ret (Ok true, st')
  end end end end.

(** The incremental check: the recorded digest and the store on disk. *)
Definition policy_up_to_date (s : Sync) (st : State) (policyID remoteDigest : string) : io bool :=
  match GetPolicyState st policyID with
  | Some ps => if bool_decide (Digest ps = remoteDigest)
               then PolicyStoreExists (sync_cache s) policyID else io_ret false
  | None => io_ret false
  end.

Definition SyncPolicy (s : Sync) (st : State) (policyID version : string)
    : io (result bool * State) :=
  if bool_decide (policyID = "") then sync_fail st (Errorf "policy ID cannot be empty")
  else if bool_decide (is_Some (sync_verifier s)) && bool_decide (sync_registryHost s = "")
  then sync_fail st (host_required "policy" policyID)
  else
  let '(tag, digest) := classifyVersion version in
  let lookupRef := BuildLookupRef "" policyID tag digest in
  let! r := Src_DefinitionVersion (sync_source s) lookupRef in
  match r with
  | Err e =>
      if error_is e ErrVersionNotFound then sync_fail st (Wrapf ("policy " +:+ policyID +:+ ": ") e "")
      else sync_fail st (Wrapf ("policy " +:+ policyID +:+ ": registry unreachable: ") e "")
  | Ok (remoteDigest, remoteVersion) =>
  let version := version_or version remoteVersion in
  let! uptodate := policy_up_to_date s st policyID remoteDigest in
  if (uptodate : bool) then io_ret (Ok false, st)
  else
  let! r := run_verifier (sync_verifier s)
              (BuildLookupRef (sync_registryHost s) policyID tag digest) (sync_insecure s) in
  match r with
  | Err e => sync_fail st (Wrapf ("policy " +:+ policyID +:+ ": verification failed: ") e "")
  | Ok vr => sync_copy s st policyID version remoteDigest vr
  end end.

(** ** Complypack synchronisation (complypack_sync.go) *)

Context {cfgCodec : Codec PackConfig}.

Record ComplypackSync := MkComplypackSync {
  csync_cache : ComplypackCache;
  csync_source : Source;
  csync_verifier : option VerifyFunc;
  csync_registryHost : string;
  csync_insecure : bool;
  csync_dataDir : path;
}.

Definition NewComplypackSync (cache : ComplypackCache) (source : Source) (dataDir : path)
    (registryHost : string) (verifier : option VerifyFunc) : ComplypackSync :=
  let '(host, insecure) := SplitHostScheme registryHost in
  MkComplypackSync cache source verifier host insecure dataDir.

Definition cacheExistsForState (s : ComplypackSync) (st : State) (ps : PolicyState) : io bool :=
  if bool_decide (EvaluatorID ps = "") then io_ret false
  else let! r := LookupByEvaluatorID (csync_cache s) (Some st) (EvaluatorID ps) in
       io_ret (match r with Ok (Some _) => true | _ => false end).

(** A state update followed by its persistence. *)
Definition update_and_save (s : ComplypackSync) (st : State)
    (repository version dgst evaluatorID : string) (vr : option VerificationResult)
    (on_save : error -> error) : io (result bool * State) :=
  let! now1 := time_Now in
  let! now2 := time_Now in
  match UpdateComplypackStateWithVerification st repository version dgst evaluatorID vr now1 now2 with
  | Err e => sync_fail st e
  | Ok st' =>
  let! r := SaveState st' (csync_dataDir s) in
  match r with
  | Err e => sync_fail st' (on_save e)
  | Ok _ => io_ret (Ok true, st')
  end end.

Definition tryLocalCacheHit (s : ComplypackSync) (st : State)
    (repository version remoteDigest : string) (localState : PolicyState) (tag digest : string)
    : io (result bool * State) :=
  let! r := Lookup (csync_cache s) (EvaluatorID localState) version in
  match r with
  | Err e => sync_fail st e
  | Ok _ =>
  let! r := run_verifier (csync_verifier s)
              (BuildLookupRef (csync_registryHost s) repository tag digest) (csync_insecure s) in
  match r with
  | Err e => sync_fail st e
  | Ok vr => update_and_save s st repository version remoteDigest (EvaluatorID localState) vr
               (fun e => e)
  end end.

(** [os.TempDir()]: fixed for the process. *)
Context (os_TempDir : path).

(** The fetch once the temporary OCI store directory exists. *)
Definition fetch_into (s : ComplypackSync) (st : State) (repository version remoteDigest : string)
    (vr : option VerificationResult) (tmpDir : path) : io (result bool * State) :=
  let! r := oci_New tmpDir in
  match r with
  | Err e => sync_fail st (Wrapf "failed to open temporary OCI store: " e "")
  | Ok _ =>
  let! r := Src_Copy (csync_source s) repository version tmpDir in
  match r with
  | Err e => sync_fail st (Wrapf ("complypack " +:+ repository +:+ "@" +:+ version +:+
                                  ": registry unreachable: ") e " (local cache unchanged)")
  | Ok desc =>
  let! r := complypack_Unpack tmpDir desc in
  match r with
  | Err e => sync_fail st (Wrapf ("failed to unpack complypack " +:+ repository +:+ "@" +:+
                                  version +:+ ": ") e "")
  | Ok (config, content) =>
  let! r := Store (csync_cache s) (Some st) config content in
  match r with
  | Err e => sync_fail st (Wrapf ("failed to store complypack " +:+ repository +:+ "@" +:+
                                  version +:+ ": ") e "")
  | Ok _ =>
      update_and_save s st repository (Pack_Version config) remoteDigest (Pack_EvaluatorID config)
        vr (fun e => Wrapf "failed to save state after complypack sync: " e
                           " (complypack blobs are valid)")
  end end end end.

(** [SyncComplypack] from the verification on; the temporary store is removed
    whatever happens. *)
Definition fetch_complypack (s : ComplypackSync) (st : State)
    (repository version remoteDigest tag digest : string) : io (result bool * State) :=
  let! r := run_verifier (csync_verifier s)
              (BuildLookupRef (csync_registryHost s) repository tag digest) (csync_insecure s) in
  match r with
  | Err e => sync_fail st (Wrapf ("complypack " +:+ repository +:+ ": verification failed: ") e "")
  | Ok vr =>
  let! r := os_MkdirTemp os_TempDir "complypack-oci-" in
  match r with
  | Err e => sync_fail st (Wrapf "failed to create temporary OCI store directory: " e "")
  | Ok name =>
  let! res := fetch_into s st repository version remoteDigest vr (os_TempDir ++ [name]) in
  let! _ := os_RemoveAll (os_TempDir ++ [name]) in
  io_ret res
  end end.

Definition complypack_up_to_date (s : ComplypackSync) (st : State)
    (repository remoteDigest : string) : io bool :=
  match GetComplypackState st repository with
  | Some ps => if bool_decide (Digest ps = remoteDigest) then cacheExistsForState s st ps
               else io_ret false
  | None => io_ret false
  end.

(** A version switch is served from the cache when it can be. *)
Definition switch_version (s : ComplypackSync) (st : State)
    (repository version remoteDigest tag digest : string) : io (result bool * State) :=
  match GetComplypackState st repository with
  | Some ps =>
      if negb (bool_decide (EvaluatorID ps = "")) && negb (bool_decide (Version ps = version))
      then tryLocalCacheHit s st repository version remoteDigest ps tag digest
      else io_ret (Ok false, st)
  | None => io_ret (Ok false, st)
  end.

Definition SyncComplypack (s : ComplypackSync) (st : State) (repository version : string)
    : io (result bool * State) :=
  if bool_decide (repository = "") then sync_fail st (Errorf "complypack repository cannot be empty")
  else if bool_decide (is_Some (csync_verifier s)) && bool_decide (csync_registryHost s = "")
  then sync_fail st (host_required "complypack" repository)
  else
  let '(tag, digest) := classifyVersion version in
  let! r := Src_DefinitionVersion (csync_source s) (BuildLookupRef "" repository tag digest) in
  match r with
  | Err e =>
      let! cached := (match GetComplypackState st repository with
                      | Some ps => cacheExistsForState s st ps
                      | None => io_ret false
                      end) in
      if (cached : bool) then io_ret (Ok false, st)
      else sync_fail st (Wrapf ("complypack " +:+ repository +:+ ": registry unreachable: ") e "")
  | Ok (remoteDigest, remoteVersion) =>
  let version := version_or version remoteVersion in
  let! uptodate := complypack_up_to_date s st repository remoteDigest in
  if (uptodate : bool) then io_ret (Ok false, st)
  else
  let! hit := switch_version s st repository version remoteDigest tag digest in
  match hit with
  | (Ok true, st') => io_ret (Ok true, st')
  | (_, st') => fetch_complypack s st' repository version remoteDigest tag digest
  end end.
End sync.

(** ** What synchronisation guarantees *)

(** A program that only reads. *)
Definition reads {A} (m : io A) : Prop := preserves (fun _ => True) m.

Lemma reads_fs {A} (m : io A) w a w' q : reads m -> m w = (a, w') -> get q (w_fs w') = get q (w_fs w).
Proof. intros Hm Hw. pose proof (Hm w q I) as H. by rewrite Hw in H. Qed.

Lemma run_verifier_reads v ref i : (forall vf, v = Some vf -> reads (vf ref i)) -> reads (run_verifier v ref i).
Proof.
  intros Hv. destruct v as [vf|]; [|done]. apply preserves_try; [by apply Hv|done].
Qed.

Lemma run_verifier_ok vf ref i w vr w' :
  run_verifier (Some vf) ref i w = (Ok vr, w') -> exists r, vr = Some r /\ vf ref i w = (Ok r, w').
Proof.
  unfold run_verifier, io_try, io_bind. destruct (vf ref i w) as [[r|e] w1]; [|done].
  unfold io_ret. intros; simplify_eq. eauto.
Qed.

(** A verifier that never accepts [ref]. *)
Definition rejects (vf : VerifyFunc) (ref : string) (i : bool) : Prop :=
  forall w, is_ok (vf ref i w).1 = false.

Lemma run_verifier_rejects vf ref i w r w' :
  rejects vf ref i -> run_verifier (Some vf) ref i w = (r, w') -> exists e, r = Err e.
Proof.
  intros Hr. specialize (Hr w). unfold run_verifier, io_try, io_bind.
  destruct (vf ref i w) as [[x|e] w1]; [done|]. unfold io_ret. intros; simplify_eq. eauto.
Qed.

(** The entry a verified sync records. *)
Definition records (ps : PolicyState) (version dgst : string) (vr : option VerificationResult) : Prop :=
  Version ps = version /\ Digest ps = dgst /\
  match vr with
  | None => Verified ps = false
  | Some r => Verified ps = VR_Verified r /\ SignerIdentity ps = VR_SignerIdentity r /\
              Issuer ps = VR_Issuer r /\ VerifiedAt ps = VR_VerifiedAt r
  end.

Lemma mk_entry_records v d ev now vr : records (mk_entry v d ev now vr) v d vr.
Proof. by destruct vr. Qed.

Section sync_facts.
  Context `{Oras} {stCodec : Codec State} {cfgCodec : Codec PackConfig}.

Lemma PolicyStoreExists_reads c id : reads (PolicyStoreExists c id).
Proof. apply preserves_bind; [apply preserves_Stat|done]. Qed.

Lemma policy_up_to_date_reads s st id d : reads (policy_up_to_date s st id d).
Proof.
  unfold policy_up_to_date. destruct (GetPolicyState st id); [|done].
  case_bool_decide; [apply PolicyStoreExists_reads|done].
Qed.

Lemma sync_copy_Ok s st id v d vr w b st' w' :
  sync_copy s st id v d vr w = ((Ok b, st'), w') ->
  b = true /\ exists n1 n2 w1, UpdatePolicyStateWithVerification st id v d vr n1 n2 = Ok st' /\
    SaveState st' (sync_dataDir s) w1 = (Ok tt, w').
Proof.
  unfold sync_copy, sync_fail, io_bind. destruct (NewPolicyStore _ _ w) as [[p|e] w1]; [|done].
  destruct (Src_Copy _ _ _ _ w1) as [[ds|e] w2]; [|done].
  destruct (time_Now w2) as [n1 w3], (time_Now w3) as [n2 w4].
  destruct (UpdatePolicyStateWithVerification _ _ _ _ _ _ _) as [st1|e] eqn:E; [|done].
  destruct (SaveState _ _ w4) as [[[]|e] w5] eqn:E5; [|done]. unfold io_ret.
  intros; simplify_eq. eauto 10.
Qed.

(** The run of [SyncPolicy] up to the copy. *)
Lemma SyncPolicy_run s st id v w r st' w' :
  SyncPolicy s st id v w = ((r, st'), w') ->
  let '(tag, dg) := classifyVersion v in
  let ref := BuildLookupRef (sync_registryHost s) id tag dg in
  (st' = st /\ r <> Ok true /\
   ((forall x, reads (Src_DefinitionVersion (sync_source s) x)) ->
    (forall vf, sync_verifier s = Some vf -> reads (vf ref (sync_insecure s))) ->
    forall q, get q (w_fs w') = get q (w_fs w))) \/
  (exists w1 d rv w2 w3 vr w4,
     (sync_verifier s = None \/ sync_registryHost s <> "") /\
     Src_DefinitionVersion (sync_source s) (BuildLookupRef "" id tag dg) w1 = (Ok (d, rv), w2) /\
     run_verifier (sync_verifier s) ref (sync_insecure s) w3 = (Ok vr, w4) /\
     sync_copy s st id (version_or v rv) d vr w4 = ((r, st'), w')).
Proof.
  unfold SyncPolicy. destruct (classifyVersion v) as [tag dg] eqn:Ev. intros Hrun. simpl.
  case_bool_decide; [unfold sync_fail, io_ret in Hrun; simplify_eq; left; naive_solver|].
  destruct (bool_decide _ && bool_decide _) eqn:Eg;
    [unfold sync_fail, io_ret in Hrun; simplify_eq; left; naive_solver|].
  unfold io_bind, sync_fail, io_ret in Hrun.
  destruct (Src_DefinitionVersion _ _ w) as [[[d rv]|e] w1] eqn:E1.
  2:{ left. destruct (error_is e _); simplify_eq; split_and!; try done;
      intros HD _ q; by eapply reads_fs. }
  pose proof (policy_up_to_date_reads s st id d) as Hu.
  destruct (policy_up_to_date _ _ _ _ w1) as [u w2] eqn:E2.
  destruct u.
  { simplify_eq. left. split_and!; [done|done|]. intros HD _ q.
    by rewrite (reads_fs _ _ _ _ q Hu E2), (reads_fs _ _ _ _ q (HD _) E1). }
  destruct (run_verifier _ _ _ w2) as [[vr|e] w3] eqn:E3.
  - right. exists w, d, rv, w1, w2, vr, w3. split_and!; try done.
    apply andb_false_iff in Eg as [Eg|Eg]; apply bool_decide_eq_false in Eg; [left|by right].
    by destruct (sync_verifier s); [destruct Eg|].
  - simplify_eq. left. split_and!; [done|done|]. intros HD HV q.
    rewrite (reads_fs _ _ _ _ q (run_verifier_reads _ _ _ HV) E3).
    by rewrite (reads_fs _ _ _ _ q Hu E2), (reads_fs _ _ _ _ q (HD _) E1).
Qed.

(** C1: [SyncPolicy] fails closed.  When signature verification is
    configured and the verifier does not accept the reference qualified with the
    registry host, no policy is fetched: the call never reports a fetch, the
    state in memory is unchanged and so is every file. *)
Theorem SyncPolicy_fail_closed s st id v w vf :
  sync_verifier s = Some vf ->
  (let '(tag, dg) := classifyVersion v in
   rejects vf (BuildLookupRef (sync_registryHost s) id tag dg) (sync_insecure s)) ->
  (forall x, reads (Src_DefinitionVersion (sync_source s) x)) ->
  (forall x i, reads (vf x i)) ->
  let '((r, st'), w') := SyncPolicy s st id v w in
  st' = st /\ r <> Ok true /\ forall q, get q (w_fs w') = get q (w_fs w).
Proof.
  intros Hvf Hrej HD HV. destruct (SyncPolicy s st id v w) as [[r st'] w'] eqn:Hrun.
  apply SyncPolicy_run in Hrun. destruct (classifyVersion v) as [tag dg].
  destruct Hrun as [(-> & Hr & Hq)|(w1 & d & rv & w2 & w3 & vr & w4 & _ & _ & Hv & _)].
  - split_and!; [done|done|]. apply Hq; [done|]. intros; simplify_eq. apply HV.
  - rewrite Hvf in Hv. by apply run_verifier_rejects in Hv as [? ?].
Qed.

(** C5: what a successful fetch leaves.  The recorded digest is the
    one the registry resolved for the requested reference, the recorded version
    the requested one (or the one the registry reports for an empty version or
    latest); with a verifier the reference it accepted carries a registry host
    and the entry records exactly its verdict and signer; without one the entry
    is not verified.  state.json holds the new state. *)
Theorem SyncPolicy_records s st id v w st' w' :
  SyncPolicy s st id v w = ((Ok true, st'), w') ->
  let '(tag, dg) := classifyVersion v in
  exists w1 w2 d rv vr ps,
    Src_DefinitionVersion (sync_source s) (BuildLookupRef "" id tag dg) w1 = (Ok (d, rv), w2) /\
    GetPolicyState st' id = Some ps /\ records ps (version_or v rv) d vr /\
    (forall id', id' <> id -> GetPolicyState st' id' = GetPolicyState st id') /\
    Complypacks st' = Complypacks st /\
    match sync_verifier s with
    | None => vr = None
    | Some vf => sync_registryHost s <> "" /\ exists x w3 w4, vr = Some x /\
        vf (BuildLookupRef (sync_registryHost s) id tag dg) (sync_insecure s) w3 = (Ok x, w4)
    end /\
    exists data, marshal st' = Ok data /\
      get (sync_dataDir s ++ [StateFileName]) (w_fs w') = Some (File data 384).
Proof.
  intros Hrun. apply SyncPolicy_run in Hrun. destruct (classifyVersion v) as [tag dg].
  destruct Hrun as [(-> & Hr & Hq)|(w1 & d & rv & w2 & w3 & vr & w4 & Hh & Hd & Hv & Hc)]; [done|].
  apply sync_copy_Ok in Hc as (_ & n1 & n2 & w5 & Hu & Hs).
  pose proof (SaveState_outcome st' (sync_dataDir s) w5) as Hsave. rewrite Hs in Hsave.
  unfold UpdatePolicyStateWithVerification in Hu. destruct (ValidateDigest d); [done|]. simplify_eq.
  exists w1, w2, d, rv, vr, (mk_entry (version_or v rv) d "" n1 vr). split_and!; [done| | | |done| |done].
  - apply lookup_insert_eq.
  - apply mk_entry_records.
  - intros id' Hid. by apply lookup_insert_ne.
  - destruct (sync_verifier s) as [vf|].
    + destruct Hh as [?|Hh]; [done|]. split; [done|].
      apply run_verifier_ok in Hv as (x & -> & ?). eauto.
    + unfold run_verifier, io_ret in Hv. by simplify_eq.
Qed.

(** ** Repeating a synchronisation *)

Lemma sync_copy_marker s st id v d vr w st' w' :
  sync_copy s st id v d vr w = ((Ok true, st'), w') ->
  (forall t p w1 ds w2, Src_Copy (sync_source s) id t p w1 = (Ok ds, w2) ->
     is_Some (get (p ++ [oci_layout]) (w_fs w2))) ->
  diverges (sync_dataDir s) (PolicyStorePath (sync_cache s) id) ->
  is_Some (get (PolicyStorePath (sync_cache s) id ++ [oci_layout]) (w_fs w')).
Proof.
  unfold sync_copy, sync_fail, io_bind. intros Hc Hl Hd.
  destruct (NewPolicyStore _ _ w) as [[p|e] w1] eqn:E1; [|done].
  assert (p = PolicyStorePath (sync_cache s) id) as ->.
  { unfold NewPolicyStore, io_try, io_bind in E1. destruct (os_MkdirAll _ w) as [[]]; [|done].
    destruct (oci_New _ _) as [[]]; [|done]. unfold io_ret in E1. by simplify_eq. }
  destruct (Src_Copy _ _ _ _ w1) as [[ds|e] w2] eqn:E2; [|done]. apply Hl in E2.
  destruct (time_Now w2) as [n1 w3] eqn:E3, (time_Now w3) as [n2 w4] eqn:E4.
  assert (w_fs w4 = w_fs w2) as Hfs by (unfold time_Now in *; by simplify_eq).
  destruct (UpdatePolicyStateWithVerification _ _ _ _ _ _ _) as [st1|e]; [|done].
  pose proof (preserves_SaveState st1 (sync_dataDir s) w4
    (PolicyStorePath (sync_cache s) id ++ [oci_layout])) as HS.
  destruct (SaveState _ _ w4) as [[[]|e] w5]; [|done]. unfold io_ret in Hc. simplify_eq.
  simpl in HS. rewrite HS by by apply diverges_app. by rewrite Hfs.
Qed.

(** A policy that is recorded under the digest the registry resolves, and whose
    store is on disk, is up to date: no verifier is asked. *)
Lemma SyncPolicy_up_to_date s st id v d rv ps w :
  id <> "" -> sync_registryHost s <> "" \/ sync_verifier s = None ->
  (let '(tag, dg) := classifyVersion v in
   Src_DefinitionVersion (sync_source s) (BuildLookupRef "" id tag dg) = io_ret (Ok (d, rv))) ->
  GetPolicyState st id = Some ps -> Digest ps = d ->
  is_Some (get (PolicyStorePath (sync_cache s) id ++ [oci_layout]) (w_fs w)) ->
  w_fault w (w_tick w) = None ->
  exists w', SyncPolicy s st id v w = ((Ok false, st), w') /\ w_fs w' = w_fs w /\ w_fault w' = w_fault w.
Proof.
  intros Hid Hhost Hreg Hps Hd [x Hx] Hfault. unfold SyncPolicy. rewrite bool_decide_eq_false_2 by done.
  replace (bool_decide (is_Some (sync_verifier s)) && bool_decide (sync_registryHost s = "")) with false.
  2:{ symmetry. apply andb_false_iff. destruct Hhost as [?| ->]; [right|left]; apply bool_decide_eq_false_2; [done|].
      by intros [? ?]. }
  destruct (classifyVersion v) as [tag dg]. unfold io_bind. rewrite Hreg. unfold io_ret at 1.
  unfold policy_up_to_date. rewrite Hps, bool_decide_eq_true_2 by done.
  unfold PolicyStoreExists, io_bind, os_Stat, os_call. rewrite Hfault, Hx. by eexists.
Qed.

(** However often it is asked for. *)
Lemma SyncPolicy_stays s st id v d rv ps w :
  id <> "" -> sync_registryHost s <> "" \/ sync_verifier s = None ->
  (let '(tag, dg) := classifyVersion v in
   Src_DefinitionVersion (sync_source s) (BuildLookupRef "" id tag dg) = io_ret (Ok (d, rv))) ->
  GetPolicyState st id = Some ps -> Digest ps = d ->
  is_Some (get (PolicyStorePath (sync_cache s) id ++ [oci_layout]) (w_fs w)) -> no_faults w ->
  forall n, exists w',
    Nat.iter n (fun r => SyncPolicy s r.1.2 id v r.2) ((Ok false, st), w) = ((Ok false, st), w') /\
    w_fs w' = w_fs w /\ no_faults w'.
Proof.
  intros Hid Hh Hreg Hps Hd Hm Hf. induction n as [|n (w1 & IH & Hfs & Hf1)]; [by exists w|].
  simpl. rewrite IH. simpl. rewrite <- Hfs in Hm.
  destruct (SyncPolicy_up_to_date s st id v d rv ps w1 Hid Hh Hreg Hps Hd Hm (Hf1 _)) as (w2 & -> & Hfs2 & Hf2).
  exists w2. split; [done|]. split; [congruence|]. intros k. by rewrite Hf2.
Qed.

(** The entry of a policy just fetched. *)
Lemma SyncPolicy_entry s st id v w st' w' d rv :
  SyncPolicy s st id v w = ((Ok true, st'), w') ->
  (let '(tag, dg) := classifyVersion v in
   Src_DefinitionVersion (sync_source s) (BuildLookupRef "" id tag dg) = io_ret (Ok (d, rv))) ->
  exists ps vr, GetPolicyState st' id = Some ps /\ records ps (version_or v rv) d vr /\
    (sync_verifier s = None -> vr = None).
Proof.
  intros Hrun Hreg. apply SyncPolicy_run in Hrun. destruct (classifyVersion v) as [tag dg].
  destruct Hrun as [(_ & ? & _)|(w1 & d' & rv' & w2 & w3 & vr & w4 & Hh & Hd & Hv & Hc)]; [done|].
  rewrite Hreg in Hd. unfold io_ret in Hd. simplify_eq.
  apply sync_copy_Ok in Hc as (_ & n1 & n2 & w5 & Hu & _).
  unfold UpdatePolicyStateWithVerification in Hu. destruct (ValidateDigest d'); [done|]. simplify_eq.
  eexists _, vr. split; [apply lookup_insert_eq|]. split; [apply mk_entry_records|].
  intros Hn. rewrite Hn in Hv. unfold run_verifier, io_ret in Hv. by simplify_eq.
Qed.

(** A policy just fetched is up to date. *)
Lemma SyncPolicy_fetched s st id v w st' w' :
  SyncPolicy s st id v w = ((Ok true, st'), w') ->
  (forall t p w1 ds w2, Src_Copy (sync_source s) id t p w1 = (Ok ds, w2) ->
     is_Some (get (p ++ [oci_layout]) (w_fs w2))) ->
  diverges (sync_dataDir s) (PolicyStorePath (sync_cache s) id) ->
  id <> "" /\ (sync_registryHost s <> "" \/ sync_verifier s = None) /\
  is_Some (get (PolicyStorePath (sync_cache s) id ++ [oci_layout]) (w_fs w')).
Proof.
  intros Hrun Hcopy Hdir.
  assert (id <> "") as Hid.
  { intros ->. unfold SyncPolicy, sync_fail in Hrun. by case_bool_decide. }
  apply SyncPolicy_run in Hrun. destruct (classifyVersion v) as [tag dg].
  destruct Hrun as [(_ & ? & _)|(w1 & d' & rv' & w2 & w3 & vr & w4 & Hh & Hd & Hv & Hc)]; [done|].
  split_and!; [done| |by eapply sync_copy_marker].
  destruct (sync_verifier s); [|by right]. destruct Hh; [done|by left].
Qed.

(** synchronisation is incremental.  A second [SyncPolicy] of the
    same policy, while the registry still resolves the reference to the same
    digest, fetches nothing: it reports an up-to-date cache and leaves the state
    and every file as they are. *)
Theorem SyncPolicy_incremental s st id v w st' w' d rv :
  SyncPolicy s st id v w = ((Ok true, st'), w') ->
  (let '(tag, dg) := classifyVersion v in
   Src_DefinitionVersion (sync_source s) (BuildLookupRef "" id tag dg) = io_ret (Ok (d, rv))) ->
  (forall t p w1 ds w2, Src_Copy (sync_source s) id t p w1 = (Ok ds, w2) ->
     is_Some (get (p ++ [oci_layout]) (w_fs w2))) ->
  diverges (sync_dataDir s) (PolicyStorePath (sync_cache s) id) ->
  w_fault w' (w_tick w') = None ->
  exists w'', SyncPolicy s st' id v w' = ((Ok false, st'), w'') /\
    forall q, get q (w_fs w'') = get q (w_fs w').
Proof.
  intros Hrun Hreg Hcopy Hdir Hfault.
  destruct (SyncPolicy_fetched _ _ _ _ _ _ _ Hrun Hcopy Hdir) as (Hid & Hh & Hm).
  destruct (SyncPolicy_entry _ _ _ _ _ _ _ _ _ Hrun Hreg) as (ps & vr & Hps & (_ & Hdg & _) & _).
  destruct (SyncPolicy_up_to_date _ _ _ _ _ _ _ _ Hid Hh Hreg Hps Hdg Hm Hfault) as (w'' & -> & Hfs & _).
  exists w''. split; [done|]. by rewrite Hfs.
Qed.

(** The same sync with a verifier. *)
Definition with_verifier (s : Sync) (vf : VerifyFunc) : Sync :=
  MkSync (sync_cache s) (sync_source s) (Some vf) (sync_registryHost s) (sync_insecure s) (sync_dataDir s).

(** C32: Verification configured late is not done.  A policy fetched without
    a verifier is recorded as not verified; when a verifier is configured after that,
    whichever it is, and the registry still resolves the reference to the same digest,
    synchronising the policy again reports an up-to-date cache, asks the verifier
    nothing and leaves the policy recorded as not verified, any number of times. *)
Theorem late_verifier_not_run s st id v w st' w' d rv vf :
  SyncPolicy s st id v w = ((Ok true, st'), w') ->
  sync_verifier s = None -> sync_registryHost s <> "" ->
  (let '(tag, dg) := classifyVersion v in
   Src_DefinitionVersion (sync_source s) (BuildLookupRef "" id tag dg) = io_ret (Ok (d, rv))) ->
  (forall t p w1 ds w2, Src_Copy (sync_source s) id t p w1 = (Ok ds, w2) ->
     is_Some (get (p ++ [oci_layout]) (w_fs w2))) ->
  diverges (sync_dataDir s) (PolicyStorePath (sync_cache s) id) ->
  no_faults w' ->
  (exists ps, GetPolicyState st' id = Some ps /\ Verified ps = false) /\
  forall n, exists w'',
    Nat.iter n (fun r => SyncPolicy (with_verifier s vf) r.1.2 id v r.2) ((Ok false, st'), w') =
    ((Ok false, st'), w'') /\ w_fs w'' = w_fs w' /\ no_faults w''.
Proof.
  intros Hrun Hnone Hhost Hreg Hcopy Hdir Hfault.
  destruct (SyncPolicy_fetched _ _ _ _ _ _ _ Hrun Hcopy Hdir) as (Hid & Hh & Hm).
  destruct (SyncPolicy_entry _ _ _ _ _ _ _ _ _ Hrun Hreg) as (ps & vr & Hps & (_ & Hdg & Hrec) & Hvr).
  split; [exists ps; split; [done|]; rewrite Hvr in Hrec by done; apply Hrec|].
  by apply (SyncPolicy_stays (with_verifier s vf) st' id v d rv ps w' Hid (or_introl Hhost)).
Qed.

(** ** Complypacks *)

Lemma cacheExistsForState_reads s st ps : reads (cacheExistsForState s st ps).
Proof.
  unfold cacheExistsForState. case_bool_decide; [done|].
  apply preserves_bind; [apply preserves_LookupByEvaluatorID|done].
Qed.

Lemma complypack_up_to_date_reads s st r d : reads (complypack_up_to_date s st r d).
Proof.
  unfold complypack_up_to_date. destruct (GetComplypackState st r); [|done].
  case_bool_decide; [apply cacheExistsForState_reads|done].
Qed.

(** With a rejecting verifier neither path to the cache is taken. *)
Lemma switch_version_rejected s st r v d tag dg vf w res st' w' :
  csync_verifier s = Some vf ->
  rejects vf (BuildLookupRef (csync_registryHost s) r tag dg) (csync_insecure s) ->
  (forall x i, reads (vf x i)) ->
  switch_version s st r v d tag dg w = ((res, st'), w') ->
  st' = st /\ res <> Ok true /\ forall q, get q (w_fs w') = get q (w_fs w).
Proof.
  intros Hvf Hrej HV. unfold switch_version.
  destruct (GetComplypackState st r) as [ps|]; [|unfold io_ret; intros; by simplify_eq].
  destruct (_ && _); [|unfold io_ret; intros; by simplify_eq].
  unfold tryLocalCacheHit, sync_fail, io_bind, io_ret.
  pose proof (preserves_Lookup (fun _ => True) (csync_cache s) (EvaluatorID ps) v w) as PL.
  destruct (Lookup _ _ _ w) as [[hit|e] w1]; simpl in PL;
    [|intros; simplify_eq; split_and!; [done|done|auto]].
  rewrite Hvf. destruct (run_verifier _ _ _ w1) as [[vr|e] w2] eqn:E2.
  - by apply run_verifier_rejects in E2 as [? ?].
  - intros; simplify_eq. split_and!; [done|done|]. intros q.
    assert (Hr : reads (run_verifier (Some vf) (BuildLookupRef (csync_registryHost s) r tag dg)
      (csync_insecure s))) by (apply run_verifier_reads; intros; simplify_eq; apply HV).
    rewrite (reads_fs _ _ _ _ q Hr E2). auto.
Qed.

Context (os_TempDir : path).

Lemma fetch_rejected s st r v d tag dg vf w res st' w' :
  csync_verifier s = Some vf ->
  rejects vf (BuildLookupRef (csync_registryHost s) r tag dg) (csync_insecure s) ->
  (forall x i, reads (vf x i)) ->
  fetch_complypack os_TempDir s st r v d tag dg w = ((res, st'), w') ->
  st' = st /\ res <> Ok true /\ forall q, get q (w_fs w') = get q (w_fs w).
Proof.
  intros Hvf Hrej HV. unfold fetch_complypack, sync_fail, io_bind, io_ret. rewrite Hvf.
  destruct (run_verifier _ _ _ w) as [[vr|e] w2] eqn:E2.
  - by apply run_verifier_rejects in E2 as [? ?].
  - intros; simplify_eq. split_and!; [done|done|]. intros q.
    assert (Hr : reads (run_verifier (Some vf) (BuildLookupRef (csync_registryHost s) r tag dg)
      (csync_insecure s))) by (apply run_verifier_reads; intros; simplify_eq; apply HV).
    by rewrite (reads_fs _ _ _ _ q Hr E2).
Qed.

(** C4: [SyncComplypack] fails closed on both of its paths.  When the
    verifier does not accept the host-qualified reference, neither a fetch nor a
    switch to a version already in the cache takes place: the call does not
    report a change, and the state in memory and every file are as before. *)
Theorem SyncComplypack_fail_closed s st r v w vf :
  csync_verifier s = Some vf ->
  (let '(tag, dg) := classifyVersion v in
   rejects vf (BuildLookupRef (csync_registryHost s) r tag dg) (csync_insecure s)) ->
  (forall x, reads (Src_DefinitionVersion (csync_source s) x)) ->
  (forall x i, reads (vf x i)) ->
  let '((res, st'), w') := SyncComplypack os_TempDir s st r v w in
  st' = st /\ res <> Ok true /\ forall q, get q (w_fs w') = get q (w_fs w).
Proof.
  intros Hvf Hrej HD HV. destruct (SyncComplypack os_TempDir s st r v w) as [[res st'] w'] eqn:Hrun.
  unfold SyncComplypack in Hrun. destruct (classifyVersion v) as [tag dg].
  unfold sync_fail, io_bind, io_ret in Hrun.
  case_bool_decide; [by simplify_eq|]. destruct (_ && _); [by simplify_eq|].
  destruct (Src_DefinitionVersion _ _ w) as [[[d rv]|e] w1] eqn:E1.
  2:{ assert (Hread : reads (match GetComplypackState st r with
        | Some ps => cacheExistsForState s st ps | None => fun w => (false, w) end)).
      { destruct (GetComplypackState st r); [apply cacheExistsForState_reads|done]. }
      destruct (match GetComplypackState st r with _ => _ end w1) as [c w2] eqn:E2.
      destruct c; simplify_eq; (split_and!; [done|done|]); intros q;
        by rewrite (reads_fs _ _ _ _ q Hread E2), (reads_fs _ _ _ _ q (HD _) E1). }
  destruct (complypack_up_to_date _ _ _ _ w1) as [u w2] eqn:E2.
  pose proof (complypack_up_to_date_reads s st r d) as Hu.
  assert (Hq : forall q, get q (w_fs w2) = get q (w_fs w)).
  { intros q. by rewrite (reads_fs _ _ _ _ q Hu E2), (reads_fs _ _ _ _ q (HD _) E1). }
  destruct u; [simplify_eq; by split_and!|].
  destruct (switch_version _ _ _ _ _ _ _ w2) as [[hit st1] w3] eqn:E3.
  eapply switch_version_rejected in E3 as (-> & Hhit & H3); [|done..].
  destruct hit as [[|]|e]; [done| |];
    (eapply fetch_rejected in Hrun as (-> & ? & H4); [|done..]);
    (split_and!; [done|done|]); intros q; by rewrite H4, H3.
Qed.

(** ** The state matches the disk *)

(** The two files of one cached version. *)
Definition cached (c : ComplypackCache) (ev v : string) (n : node) : Prop :=
  is_Some (get (complypackDir c ev v ++ [complypackContentFile]) n) /\
  exists d perm, get (complypackDir c ev v ++ [complypackConfigFile]) n = Some (File d perm).

(** Steps off the complypack tree keep what is cached. *)
Lemma cached_preserved {A} c ev v (m : io A) base w :
  preserves (diverges base) m -> diverges base (complypackDir c ev v) ->
  cached c ev v (w_fs w) -> cached c ev v (w_fs (m w).2).
Proof.
  intros Hm Hd [H1 H2]. unfold cached.
  by rewrite !Hm by by apply diverges_app.
Qed.

Lemma update_and_save_Ok s st r v d ev vr f w b st' w' :
  update_and_save s st r v d ev vr f w = ((Ok b, st'), w') ->
  b = true /\ ValidateDigest d = None /\
  (exists n1 n2, UpdateComplypackStateWithVerification st r v d ev vr n1 n2 = Ok st') /\
  exists w1, w_fs w1 = w_fs w /\ SaveState st' (csync_dataDir s) w1 = (Ok tt, w').
Proof.
  unfold update_and_save, sync_fail, io_bind, io_ret, time_Now.
  destruct (UpdateComplypackStateWithVerification _ _ _ _ _ _ _ _) as [st1|e] eqn:E; [|done].
  destruct (SaveState _ _ _) as [[[]|e] w5] eqn:E5; [|done]. intros; simplify_eq.
  split_and!; [done| | eauto |].
  - unfold UpdateComplypackStateWithVerification in E. by destruct (ValidateDigest d).
  - eexists. split; [|done]. done.
Qed.

(** The entry a complypack sync records, and its files. *)
Definition consistent (c : ComplypackCache) (st : State) (r : string) (n : node) : Prop :=
  exists ps, GetComplypackState st r = Some ps /\ cached c (EvaluatorID ps) (Version ps) n.

Lemma update_and_save_consistent s st r v d ev vr f w st' w' :
  update_and_save s st r v d ev vr f w = ((Ok true, st'), w') ->
  diverges (csync_dataDir s) (complypackDir (csync_cache s) ev v) ->
  cached (csync_cache s) ev v (w_fs w) ->
  exists ps, GetComplypackState st' r = Some ps /\ EvaluatorID ps = ev /\ Version ps = v /\
    Digest ps = d /\ cached (csync_cache s) ev v (w_fs w').
Proof.
  intros (_ & _ & (n1 & n2 & Hu) & w1 & Hfs & Hs)%update_and_save_Ok Hd Hc.
  unfold UpdateComplypackStateWithVerification in Hu. destruct (ValidateDigest d); [done|].
  simplify_eq. eexists. split; [apply lookup_insert_eq|].
  split_and!; [by destruct vr..|].
  eapply cached_preserved in Hd; [|apply preserves_SaveState|rewrite Hfs; exact Hc].
  rewrite Hs in Hd. exact Hd.
Qed.

Lemma fetch_into_consistent s st r v d vr tmp w st' w' :
  fetch_into s st r v d vr tmp w = ((Ok true, st'), w') ->
  (forall p ds w1 cfg content w2, complypack_Unpack p ds w1 = (Ok (cfg, content), w2) ->
     Pack_EvaluatorID cfg <> "." /\ Pack_Version cfg <> ".") ->
  diverges (csync_dataDir s) (cacheDir (csync_cache s)) ->
  exists ps, GetComplypackState st' r = Some ps /\
    complypackDir (csync_cache s) (EvaluatorID ps) (Version ps) =
      cacheDir (csync_cache s) ++ [ComplypacksSubdir; EvaluatorID ps; Version ps] /\
    cached (csync_cache s) (EvaluatorID ps) (Version ps) (w_fs w').
Proof.
  intros Hrun Hdot Hdir. unfold fetch_into, sync_fail, io_bind in Hrun.
  destruct (oci_New tmp w) as [[u|e] w1]; [|done].
  destruct (Src_Copy _ _ _ _ w1) as [[ds|e] w2]; [|done].
  destruct (complypack_Unpack _ _ w2) as [[[cfg content]|e] w3] eqn:EU; [|done].
  apply Hdot in EU as [Hev Hv].
  destruct (Store _ _ _ _ w3) as [[p|e] w4] eqn:ES; [|done].
  apply Store_files in ES as (V1 & V2 & -> & dt & cd & pd & pc & _ & _ & G1 & G2); [|done..].
  assert (Hpath : complypackDir (csync_cache s) (Pack_EvaluatorID cfg) (Pack_Version cfg) =
    cacheDir (csync_cache s) ++ [ComplypacksSubdir; Pack_EvaluatorID cfg; Pack_Version cfg]).
  { unfold complypackDir, evaluatorDir. rewrite !path_join_component by done.
    by rewrite <-!app_assoc. }
  eapply update_and_save_consistent in Hrun as (ps & Hps & E1 & E2 & _ & Hc).
  - exists ps. by rewrite E1, E2.
  - rewrite Hpath. by apply diverges_app.
  - split; [by eexists|eauto].
Qed.

Lemma fetch_consistent s st r v d tag dg w st' w' :
  fetch_complypack os_TempDir s st r v d tag dg w = ((Ok true, st'), w') ->
  (forall p ds w1 cfg content w2, complypack_Unpack p ds w1 = (Ok (cfg, content), w2) ->
     Pack_EvaluatorID cfg <> "." /\ Pack_Version cfg <> ".") ->
  diverges (csync_dataDir s) (cacheDir (csync_cache s)) ->
  (forall name, diverges (os_TempDir ++ [name]) (cacheDir (csync_cache s))) ->
  consistent (csync_cache s) st' r (w_fs w').
Proof.
  intros Hrun Hdot Hdir Htmp. unfold fetch_complypack, sync_fail, io_bind, io_ret in Hrun.
  destruct (run_verifier _ _ _ w) as [[vr|e] w1]; [|done].
  destruct (os_MkdirTemp _ _ w1) as [[name|e] w2]; [|done].
  destruct (fetch_into _ _ _ _ _ _ _ w2) as [res w3] eqn:E3.
  pose proof (preserves_RemoveAll os_TempDir name) as HR.
  destruct (os_RemoveAll _ w3) as [u w4] eqn:E4. simplify_eq.
  eapply fetch_into_consistent in E3 as (ps & Hps & Hpath & Hc); [|done..].
  exists ps. split; [done|].
  eapply cached_preserved in Hc; [|apply HR|rewrite Hpath; by apply diverges_app].
  by rewrite E4 in Hc.
Qed.

Lemma switch_consistent s st r v d tag dg w st' w' :
  switch_version s st r v d tag dg w = ((Ok true, st'), w') ->
  (forall vf x i, csync_verifier s = Some vf -> reads (vf x i)) ->
  diverges (csync_dataDir s) (cacheDir (csync_cache s)) ->
  exists ps ps', GetComplypackState st r = Some ps /\ GetComplypackState st' r = Some ps' /\
    EvaluatorID ps' = EvaluatorID ps /\ Version ps' = v /\ Digest ps' = d /\
    cached (csync_cache s) (EvaluatorID ps') (Version ps') (w_fs w') /\
    forall f, get (complypackDir (csync_cache s) (EvaluatorID ps) v ++ f) (w_fs w') =
              get (complypackDir (csync_cache s) (EvaluatorID ps) v ++ f) (w_fs w).
Proof.
  intros Hrun HV Hdir. unfold switch_version in Hrun.
  destruct (GetComplypackState st r) as [ps|] eqn:Eps; [|by unfold io_ret in Hrun].
  destruct (_ && _); [|by unfold io_ret in Hrun].
  unfold tryLocalCacheHit, sync_fail, io_bind in Hrun.
  pose proof (preserves_Lookup (fun _ => True) (csync_cache s) (EvaluatorID ps) v w) as PL.
  destruct (Lookup _ _ _ w) as [[hit|e] w1] eqn:EL; [|done]. simpl in PL.
  apply Lookup_files in EL as [[t Ht] EL].
  assert (Hdiv : diverges (csync_dataDir s) (complypackDir (csync_cache s) (EvaluatorID ps) v))
    by (rewrite Ht; by apply diverges_app).
  assert (Hr : forall x i, reads (run_verifier (csync_verifier s) x i)).
  { intros. apply run_verifier_reads. eauto. }
  destruct (run_verifier _ _ _ w1) as [[vr|e] w2] eqn:EV; [|done].
  assert (Hfs : forall q, get q (w_fs w2) = get q (w_fs w)).
  { intros q. rewrite (reads_fs _ _ _ _ q (Hr _ _) EV). auto. }
  pose proof Hrun as Hrun2.
  apply update_and_save_consistent in Hrun2 as (ps' & ? & H1 & H2 & ? & ?);
    [|done|unfold cached; by rewrite !Hfs].
  exists ps, ps'. rewrite H1, H2. split_and!; [done..|].
  intros f. apply update_and_save_Ok in Hrun as (_ & _ & _ & w3 & Hw3 & HS).
  pose proof (preserves_SaveState st' (csync_dataDir s) w3
    (complypackDir (csync_cache s) (EvaluatorID ps) v ++ f)) as HP.
  rewrite HS in HP. simpl in HP. rewrite HP by by apply diverges_app. by rewrite Hw3, Hfs.
Qed.

(** The run of [SyncComplypack] that reports a change. *)
Lemma SyncComplypack_changed s st r v w st' w' :
  SyncComplypack os_TempDir s st r v w = ((Ok true, st'), w') ->
  let '(tag, dg) := classifyVersion v in
  exists w1 d rv w2 w3,
    Src_DefinitionVersion (csync_source s) (BuildLookupRef "" r tag dg) w1 = (Ok (d, rv), w2) /\
    (switch_version s st r (version_or v rv) d tag dg w3 = ((Ok true, st'), w') \/
     exists res st1 w4, switch_version s st r (version_or v rv) d tag dg w3 = ((res, st1), w4) /\
       fetch_complypack os_TempDir s st1 r (version_or v rv) d tag dg w4 = ((Ok true, st'), w')).
Proof.
  unfold SyncComplypack. destruct (classifyVersion v) as [tag dg]. intros Hrun.
  unfold sync_fail, io_bind, io_ret in Hrun.
  case_bool_decide; [done|]. destruct (_ && _); [done|].
  destruct (Src_DefinitionVersion _ _ w) as [[[d rv]|e] w1] eqn:E1;
    [|destruct (match GetComplypackState st r with _ => _ end w1) as [[] ?]; done].
  destruct (complypack_up_to_date _ _ _ _ w1) as [u w2]. destruct u; [done|].
  destruct (switch_version _ _ _ _ _ _ _ w2) as [[hit st1] w3] eqn:E3.
  exists w, d, rv, w1, w2. split; [done|].
  destruct hit as [[]|]; simplify_eq; [by left|right; eauto..].
Qed.

(** C7: the state and the disk agree.  After a [SyncComplypack] that
    reports a change, by fetch or by a switch to a cached version, the entry the
    state holds for the repository names an evaluator and a version whose
    content and configuration files exist in the cache, after evictions, the
    removal of the temporary store and the saving of the state. *)
Theorem SyncComplypack_consistent s st r v w st' w' :
  SyncComplypack os_TempDir s st r v w = ((Ok true, st'), w') ->
  (forall p ds w1 cfg content w2, complypack_Unpack p ds w1 = (Ok (cfg, content), w2) ->
     Pack_EvaluatorID cfg <> "." /\ Pack_Version cfg <> ".") ->
  (forall vf x i, csync_verifier s = Some vf -> reads (vf x i)) ->
  diverges (csync_dataDir s) (cacheDir (csync_cache s)) ->
  (forall name, diverges (os_TempDir ++ [name]) (cacheDir (csync_cache s))) ->
  consistent (csync_cache s) st' r (w_fs w').
Proof.
  intros Hrun Hdot HV Hdir Htmp. apply SyncComplypack_changed in Hrun.
  destruct (classifyVersion v) as [tag dg].
  destruct Hrun as (w1 & d & rv & w2 & w3 & _ & [Hs|(res & st1 & w4 & _ & Hf)]).
  - apply switch_consistent in Hs as (ps & ps' & _ & Hps' & _ & _ & _ & Hc & _); [|done..].
    by exists ps'.
  - by eapply fetch_consistent.
Qed.

(** A switch to a cached version records whatever digest the registry reports
    for the tag, and uses the files found in the cache as they are: the content
    is not compared with that digest. *)
Theorem cache_switch_records_remote_digest s st r v d tag dg w st' w' :
  switch_version s st r v d tag dg w = ((Ok true, st'), w') ->
  (forall vf x i, csync_verifier s = Some vf -> reads (vf x i)) ->
  diverges (csync_dataDir s) (cacheDir (csync_cache s)) ->
  exists ps ps', GetComplypackState st r = Some ps /\ GetComplypackState st' r = Some ps' /\
    Version ps' = v /\ Digest ps' = d /\
    forall f, get (complypackDir (csync_cache s) (EvaluatorID ps) v ++ f) (w_fs w') =
              get (complypackDir (csync_cache s) (EvaluatorID ps) v ++ f) (w_fs w).
Proof.
  intros Hs HV Hd. apply switch_consistent in Hs as (ps & ps' & ? & ? & ? & ? & ? & ? & ?); eauto 10.
Qed.

(** Working offline.  When the registry cannot be reached (or does
    not know the reference), [SyncComplypack] succeeds without a change exactly
    when the entry of the repository names an evaluator whose complypack is found
    in the cache; otherwise the error reported wraps the registry's. *)
Theorem SyncComplypack_offline s st r v w e w1 :
  r <> "" -> (csync_verifier s = None \/ csync_registryHost s <> "") ->
  (let '(tag, dg) := classifyVersion v in
   Src_DefinitionVersion (csync_source s) (BuildLookupRef "" r tag dg) w = (Err e, w1)) ->
  let '((res, st'), w') := SyncComplypack os_TempDir s st r v w in
  st' = st /\ (forall q, get q (w_fs w') = get q (w_fs w1)) /\
  match GetComplypackState st r with
  | Some ps =>
      if (cacheExistsForState s st ps w1).1 then res = Ok false
      else exists e', res = Err e' /\ forall x, error_is e' x = error_is e x
  | None => exists e', res = Err e' /\ forall x, error_is e' x = error_is e x
  end.
Proof.
  intros Hr Hh HD. unfold SyncComplypack. rewrite bool_decide_eq_false_2 by done.
  assert (bool_decide (is_Some (csync_verifier s)) && bool_decide (csync_registryHost s = "") = false)
    as ->.
  { destruct Hh as [->|Hh]; [done|]. rewrite (bool_decide_eq_false_2 (_ = "")) by done.
    apply andb_false_r. }
  destruct (classifyVersion v) as [tag dg]. unfold io_bind, sync_fail, io_ret. rewrite HD.
  destruct (GetComplypackState st r) as [ps|]; [|simpl; eauto].
  pose proof (cacheExistsForState_reads s st ps) as HR.
  destruct (cacheExistsForState s st ps w1) as [c w2] eqn:E.
  assert (forall q, get q (w_fs w2) = get q (w_fs w1)) by (intros; by eapply reads_fs).
  destruct c; simpl; split_and!; eauto.
Qed.
End sync_facts.
