(* ===== verification/Progress.v ===== *)
(** * Progress of synchronisation (internal/cache/{state,sync}.go, cmd/complyctl/cli/get.go)

    The other files say what holds when a call succeeds, or that nothing is lost
    when it fails.  Here: once the faults of the operating system, the registry and
    the verifier are over, [get] succeeds, whatever the faults before have left
    behind, and from then on every policy it can fetch is up to date. *)
From stdpp Require Import gmap.
From S2P Require Import Prelude GoStrings Digest OciRef World Settled State Complypack Sync.

(** The names [SaveState] draws. *)
Definition state_temp (r : string) : string := ".state-" +:+ r +:+ ".json.tmp".

(** ** Saving *)

Section saving.
  Context `{!Codec State}.

Lemma touches_discard {A} d name close e : touches d [name] (discard_temp (A:=A) (d ++ [name]) close e).
Proof.
  unfold discard_temp. apply touches_bind; [case_match; auto with touches|].
  intros _. apply touches_bind; auto with touches.
Qed.

Lemma touches_save_tail d name data : touches d [name; StateFileName] (save_tail d name data).
Proof.
  assert (forall A close e, touches d [name; StateFileName] (discard_temp (A:=A) (d ++ [name]) close e)).
  { intros. eapply touches_weaken; [|apply touches_discard]. set_solver. }
  unfold save_tail.
  repeat (apply touches_bind; [eapply touches_weaken; [|by auto with touches]; set_solver|];
          intros [?|?]; auto with touches).
Qed.

Lemma onward_SaveState st d : onward (SaveState st d).
Proof. unfold SaveState, save_tail, discard_temp, os_CreateTemp. go_onward. Qed.

(** Whatever fails, saving changes in its directory only state.json and names it
    has drawn itself. *)
Lemma SaveState_touches st d w :
  exists names, entries_only d (StateFileName :: names) (w_fs w) (w_fs (SaveState st d w).2) /\
    forall x, x ∈ names -> exists t k, t < w_tick (SaveState st d w).2 /\ x = state_temp (w_rand w t k).
Proof.
  unfold SaveState, io_try, io_lift, io_bind, io_ret.
  pose proof (touches_MkdirAll d [StateFileName] w) as H1.
  pose proof (onward_call (fun n => match mkdir_all d n with Some n' => Ok (tt, n') | None => Err (Sentinel ErrNotDir) end) w) as (_ & R1 & _).
  change (os_call _) with (os_MkdirAll d) in R1.
  destruct (os_MkdirAll d w) as [[[]|e] w1]; [|exists []; split; [done|set_solver]].
  destruct (marshal st) as [data|e]; [|exists []; split; [done|set_solver]].
  destruct (os_CreateTemp d _ _ w1) as [[name|e] w2] eqn:E2.
  - pose proof (touches_create_temp _ _ _ _ _ _ _ E2) as H2.
    apply create_temp_frame in E2 as (Ht & (k & Hk) & _ & _).
    pose proof (touches_save_tail d name data w2) as H3.
    assert (onward (save_tail d name data)) as Ho by (unfold save_tail, discard_temp; go_onward).
    pose proof (Ho w2) as (_ & _ & G). destruct (save_tail d name data w2) as [r w3]. cbn in *.
    exists [name]. split.
    + eapply entries_only_trans; [eapply entries_only_weaken; [|exact H1]; set_solver|].
      eapply entries_only_trans; (eapply entries_only_weaken; [|eassumption]); set_solver.
    + intros x ->%list_elem_of_singleton. exists (w_tick w1), k. split; [lia|]. by rewrite Hk, R1.
  - exists []. split; [|set_solver]. cbn in *. by rewrite (os_call_Err _ _ _ _ E2).
Qed.

(** Saving succeeds once nothing fails. *)
Lemma SaveState_settled st d data pick w :
  settled w -> room d (w_fs w) -> marshal st = Ok data ->
  is_dir (get (d ++ [StateFileName]) (w_fs w)) = false ->
  (forall t, pick t < temp_tries) -> unused d ".state-" ".json.tmp" pick w ->
  exists w', SaveState st d w = (Ok tt, w').
Proof.
  intros Hc Hroom Hm Hst Hp Hu. destruct (room_mkdir_all d _ Hroom) as [n1 E1].
  unfold SaveState, io_try, io_lift, io_bind, io_ret, os_MkdirAll.
  rewrite (os_call_settled _ w tt n1) by (done || by rewrite E1). rewrite Hm.
  set (w1 := tick (set_fs n1 w)).
  assert (settled w1) as Hc1 by (intros t Ht; apply Hc; cbn in Ht; lia).
  assert (forall y, get (d ++ [y]) n1 = get (d ++ [y]) (w_fs w)) as Hy.
  { intros y. eapply mkdir_all_other; [done|apply snoc_not_prefix]. }
  destruct (create_temp_settled d ".state-" ".json.tmp" (File "" 384) w1 pick) as (name & w2 & E2); [done|done| | |].
  { intros t Ht. cbn. rewrite Hy. apply Hu. cbn in Ht. lia. }
  { by apply (mkdir_all_get d (w_fs w)). }
  unfold os_CreateTemp. rewrite E2. pose proof (onward_create_temp d ".state-" ".json.tmp" (File "" 384)) as Ho.
  pose proof (settled_onward _ _ _ _ Ho E2 Hc1) as Hc2.
  pose proof (create_temp_frame _ _ _ _ _ _ _ E2) as (_ & [k Hk] & _ & Hf).
  apply os_create_temp_spec in E2 as (_ & _ & Hg & _).
  assert (is_dir (get (d ++ [StateFileName]) (w_fs w2)) = false) as Hs.
  { rewrite Hf; [cbn; by rewrite Hy|]. rewrite Hk. symmetry. apply temp_name_ne. }
  unfold save_tail, io_bind, io_ret.
  destruct (write_file_settled d name data 384 "" 384 w2 Hc2 Hg) as (w3 & E3 & Hg3). rewrite E3.
  pose proof (touches_WriteFile d name data 384 w2) as [_ F3]. rewrite E3 in F3.
  pose proof (settled_onward _ _ _ _ (onward_call _) E3 Hc2) as Hc3.
  destruct (chmod_settled d name 384 data 384 w3 Hc3 Hg3) as (w4 & E4 & Hg4). rewrite E4.
  pose proof (touches_Chmod d name 384 w3) as [_ F4]. rewrite E4 in F4.
  pose proof (settled_onward _ _ _ _ (onward_call _) E4 Hc3) as Hc4.
  unfold os_Close. rewrite (os_call_settled _ w4 tt (w_fs w4)) by done.
  assert (StateFileName ∉ [name]) as Hne.
  { rewrite Hk. intros Hin%list_elem_of_singleton. by eapply temp_name_ne. }
  destruct (rename_settled d name StateFileName data 384 (tick (set_fs (w_fs w4) w4))) as (w5 & ->); [| | |by eexists].
  - intros t Ht. apply Hc4. cbn in Ht. lia.
  - done.
  - cbn. cbn in F3, F4. by rewrite F4, F3.
Qed.
End saving.

(** ** What an attempt needs to find *)

(** A call to another party: it changes no file, and once nothing fails it answers
    as [good] says. *)
Record service {A} (m : io (result A)) (good : A -> Prop) := {
  service_reads : reads m;
  service_onward : onward m;
  service_settled : forall w, settled w -> exists a w', m w = (Ok a, w') /\ good a;
}.
Arguments service_reads {A m good}.
Arguments service_onward {A m good}.
Arguments service_settled {A m good}.

(** A call of the library on the store at [p]. *)
Definition store_op {A} (p : path) (m : io A) : Prop :=
  onward m /\ forall w, confined p (w_fs w) (w_fs (m w).2).

(** Directories can be made where the program wants them, state.json is absent or
    can be read, and SaveState can still draw a name. *)
Record ready `{!Codec State} (dataDir : path) (stores : list path) (pick : nat -> nat) (w : world) : Prop := {
  ready_data : room dataDir (w_fs w);
  ready_stores : forall p, p ∈ stores -> room p (w_fs w);
  ready_state : match get (dataDir ++ [StateFileName]) (w_fs w) with
                | None => True
                | Some (File data _) => exists st, unmarshal data = Ok st
                | Some (Dir _) => False
                end;
  ready_names : unused dataDir ".state-" ".json.tmp" pick w;
  ready_spare : spare_names (w_rand w) pick;
}.

(** JSON text of a state decodes to the state, and the stores and the data directory
    lie apart. *)
Class Layout `{!Codec State} (dataDir : path) (stores : list path) := {
  codec_roundtrip st : exists data, marshal st = Ok data /\ unmarshal data = Ok st;
  stores_apart p q : p ∈ stores -> q ∈ stores -> diverges p q \/ p = q;
  stores_off_data p : p ∈ stores -> diverges dataDir p;
}.

#[local] Set Default Proof Using "Type*".

Section progress.
  Context `{Oras} {stCodec : Codec State} {dataDir : path} {stores : list path}.
  Context {layout : Layout dataDir stores} (pick : nat -> nat).
  Local Abbreviation ready := (ready dataDir stores pick).

Definition keeps_ready {A} (m : io A) : Prop := forall w, ready w -> ready (m w).2.

Lemma keeps_ready_ret {A} (a : A) : keeps_ready (io_ret a).
Proof. by intros w. Qed.

Lemma keeps_ready_reads {A} (m : io A) : reads m -> onward m -> keeps_ready m.
Proof.
  intros Hm Ho w Hw. destruct (Ho w) as (_ & Hr & Ht).
  assert (forall q, get q (w_fs (m w).2) = get q (w_fs w)) as Hq by (intros q; by apply Hm).
  destruct Hw as [Rd Rs Rst Rn Rp]. split.
  - intros q d pm. rewrite Hq. apply Rd.
  - intros p Hp q d pm. rewrite Hq. by apply Rs.
  - by rewrite Hq.
  - apply (unused_touched _ _ _ _ w _ []); auto; set_solver.
  - by rewrite Hr.
Qed.

Lemma keeps_ready_store {A} p (m : io A) : p ∈ stores -> store_op p m -> keeps_ready m.
Proof.
  intros Hp [Ho Hm] w Hw. destruct (Ho w) as (_ & Hr & Ht). specialize (Hm w).
  assert (forall x, get (dataDir ++ [x]) (w_fs (m w).2) = get (dataDir ++ [x]) (w_fs w)) as Hq.
  { intros x. apply Hm. by apply diverges_app, diverges_sym, stores_off_data. }
  destruct Hw as [Rd Rs Rst Rn Rp]. split.
  - apply (room_confined p dataDir _ _ Hm); [left; by apply diverges_sym, stores_off_data|done].
  - intros q Hq'. apply (room_confined p q _ _ Hm); [by apply stores_apart|auto].
  - by rewrite Hq.
  - apply (unused_touched _ _ _ _ w _ []); auto. set_solver.
  - by rewrite Hr.
Qed.

Lemma keeps_ready_SaveState st : keeps_ready (SaveState st dataDir).
Proof.
  intros w Hw. pose proof (onward_SaveState st dataDir w) as (_ & Hr & Ht).
  destruct (SaveState_touches st dataDir w) as (names & [Hc Hf] & Hn).
  pose proof (SaveState_outcome st dataDir w) as Hout.
  destruct (SaveState st dataDir w) as [r w']. cbn in *. destruct Hw as [Rd Rs Rst Rn Rp]. split.
  - eapply room_confined; [done|by right|done].
  - intros p Hp. eapply room_confined; [done|left; by apply stores_off_data|auto].
  - destruct r; [|by rewrite Hout]. destruct Hout as (data & Hm & ->).
    destruct (codec_roundtrip st) as (data' & Hm' & Hu). exists st. congruence.
  - apply (unused_touched _ _ _ _ w _ (StateFileName :: names)); auto.
    intros t Hge [Heq|Hin]%elem_of_cons; [by eapply temp_name_ne|].
    destruct (Hn _ Hin) as (t' & k & Hlt & Heq). unfold state_temp in Heq.
    destruct Rp as [_ Rp]. apply (Rp t t' k); [lia|]. symmetry.
    by apply (append_inj_l ".state-"), append_inj_r in Heq.
  - by rewrite Hr.
Qed.

(** ** Synchronising one policy *)

(** What every policy is synchronised with: parties that answer as they like, and a
    library that stays in the store of the policy. *)
Record behaved (s : Sync) (id : string) : Prop := {
  behaved_data : sync_dataDir s = dataDir;
  behaved_store : PolicyStorePath (sync_cache s) id ∈ stores;
  behaved_source x : reads (Src_DefinitionVersion (sync_source s) x) /\
                     onward (Src_DefinitionVersion (sync_source s) x);
  behaved_verifier vf x i : sync_verifier s = Some vf -> reads (vf x i) /\ onward (vf x i);
  behaved_New : store_op (PolicyStorePath (sync_cache s) id) (oci_New (PolicyStorePath (sync_cache s) id));
  behaved_Copy t : store_op (PolicyStorePath (sync_cache s) id)
                     (Src_Copy (sync_source s) id t (PolicyStorePath (sync_cache s) id));
}.

(** A policy that the registry serves under digest [d] and the verifier, if any,
    accepts, whenever nothing fails; a copy then leaves an OCI layout. *)
Record served (s : Sync) (id v d rv : string) : Prop := {
  served_id : id <> "";
  served_host : sync_verifier s = None \/ sync_registryHost s <> "";
  served_digest : ValidateDigest d = None;
  served_version : let '(tag, dg) := classifyVersion v in
    service (Src_DefinitionVersion (sync_source s) (BuildLookupRef "" id tag dg)) (eq (d, rv));
  served_verifier vf : sync_verifier s = Some vf -> let '(tag, dg) := classifyVersion v in
    service (vf (BuildLookupRef (sync_registryHost s) id tag dg) (sync_insecure s)) (fun _ => True);
  served_New w : let p := PolicyStorePath (sync_cache s) id in
    settled w -> is_dir (get p (w_fs w)) = true ->
    exists w', oci_New p w = (Ok tt, w') /\ is_dir (get p (w_fs w')) = true;
  served_Copy w : let p := PolicyStorePath (sync_cache s) id in
    settled w -> is_dir (get p (w_fs w)) = true ->
    exists ds w', Src_Copy (sync_source s) id (version_or v rv) p w = (Ok ds, w') /\
      is_Some (get (p ++ [oci_layout]) (w_fs w'));
}.

Lemma onward_up_to_date s st id d : onward (policy_up_to_date s st id d).
Proof. unfold policy_up_to_date, PolicyStoreExists, os_Stat. go_onward. Qed.

Lemma store_op_bind {A B} p (m : io A) (k : A -> io B) :
  store_op p m -> (forall a, store_op p (k a)) -> store_op p (io_bind m k).
Proof.
  intros [Om Hm] Hk. split; [apply onward_bind; [done|intros a; apply Hk]|].
  intros w. unfold io_bind. specialize (Hm w). destruct (m w) as [a w1].
  eapply confined_trans; [exact Hm|apply Hk].
Qed.

Lemma store_op_ret {A} p (a : A) : store_op p (io_ret a).
Proof. split; [apply onward_ret|]. intros w. apply confined_refl. Qed.

Lemma store_op_MkdirAll p : store_op p (os_MkdirAll p).
Proof. split; [apply onward_call|]. intros w. apply (touches_MkdirAll p []). Qed.

Lemma store_op_NewPolicyStore s id :
  behaved s id -> store_op (PolicyStorePath (sync_cache s) id) (NewPolicyStore (sync_cache s) id).
Proof.
  intros Hb. apply store_op_bind; [apply store_op_MkdirAll|].
  intros [?|?]; [|apply store_op_ret]. apply store_op_bind; [apply Hb|].
  intros [?|?]; apply store_op_ret.
Qed.

Lemma NewPolicyStore_path cache id w p w' :
  NewPolicyStore cache id w = (Ok p, w') -> p = PolicyStorePath cache id.
Proof.
  unfold NewPolicyStore, io_try, io_bind, io_ret. intros E.
  destruct (os_MkdirAll _ w) as [[?|?] w1]; [|done]. destruct (oci_New _ w1) as [[?|?] w2]; by simplify_eq.
Qed.

(** [keeps_ready] and [onward] together. *)
Definition harmless {A} (m : io A) : Prop := keeps_ready m /\ onward m.

Lemma harmless_ret {A} (a : A) : harmless (io_ret a).
Proof. split; [apply keeps_ready_ret|apply onward_ret]. Qed.

(** The continuation needs to be harmless at the answers that occur. *)
Lemma harmless_bind {A B} (m : io A) (k : A -> io B) :
  harmless m -> (forall w a w', m w = (a, w') -> harmless (k a)) -> harmless (io_bind m k).
Proof.
  intros [Hm Om] Hk.
  split; intros w; [intros Hw; specialize (Hm w Hw)|specialize (Om w)];
    unfold io_bind; destruct (m w) as [a w1] eqn:E; destruct (Hk w a w1 E) as [Hk1 Hk2].
  - by apply Hk1.
  - destruct Om as (O1 & O2 & O3), (Hk2 w1) as (P1 & P2 & P3). cbn in *.
    split_and!; [congruence|congruence|lia].
Qed.

Lemma harmless_reads {A} (m : io A) : reads m /\ onward m -> harmless m.
Proof. intros [? ?]. split; [by apply keeps_ready_reads|done]. Qed.

Lemma harmless_store {A} p (m : io A) : p ∈ stores -> store_op p m -> harmless m.
Proof. intros Hp Hm. split; [by eapply keeps_ready_store|apply Hm]. Qed.

Lemma harmless_SaveState st : harmless (SaveState st dataDir).
Proof. split; [apply keeps_ready_SaveState|apply onward_SaveState]. Qed.

Lemma harmless_Now : harmless time_Now.
Proof. apply harmless_reads. split; [apply preserves_Now|apply onward_Now]. Qed.

(** A class of programs that contains what synchronising a policy consists of: reads,
    the library's work on the store [p], and saving the state. *)
Record closed_class (Q : forall A, io A -> Prop) (p : path) : Prop := {
  class_ret A (a : A) : Q A (io_ret a);
  class_bind A B (m : io A) (k : A -> io B) :
    Q A m -> (forall w a w', m w = (a, w') -> Q B (k a)) -> Q B (io_bind m k);
  class_reads A (m : io A) : reads m /\ onward m -> Q A m;
  class_store A (m : io A) : store_op p m -> Q A m;
  class_save st : Q _ (SaveState st dataDir);
}.

Section closed.
  Context (Q : forall A, io A -> Prop) (s : Sync) (id : string).
  Hypothesis HQ : closed_class Q (PolicyStorePath (sync_cache s) id).
  Hypothesis Hb : behaved s id.

Lemma sync_copy_class st v d vr : Q _ (sync_copy s st id v d vr).
Proof.
  unfold sync_copy, sync_fail. apply (class_bind _ _ HQ).
  { by apply (class_store _ _ HQ), store_op_NewPolicyStore. }
  intros w [p|e] w1 E; [|apply (class_ret _ _ HQ)]. apply NewPolicyStore_path in E as ->.
  apply (class_bind _ _ HQ); [apply (class_store _ _ HQ), Hb|].
  intros _ [ds|e] _ _; [|apply (class_ret _ _ HQ)].
  do 2 (apply (class_bind _ _ HQ);
    [apply (class_reads _ _ HQ); split; [apply preserves_Now|apply onward_Now]|intros _ ? _ _]).
  destruct (UpdatePolicyStateWithVerification _ _ _ _ _ _ _); [|apply (class_ret _ _ HQ)].
  rewrite (behaved_data s id Hb). apply (class_bind _ _ HQ); [apply (class_save _ _ HQ)|].
  intros _ [?|?] _ _; apply (class_ret _ _ HQ).
Qed.

Lemma verifying_class ref : Q _ (run_verifier (sync_verifier s) ref (sync_insecure s)).
Proof.
  apply (class_reads _ _ HQ). unfold run_verifier.
  destruct (sync_verifier s) as [vf|] eqn:Ev; [|split; [apply preserves_ret|apply onward_ret]].
  destruct (behaved_verifier s id Hb vf ref (sync_insecure s) Ev). split.
  - apply preserves_try; [done|]. intros. apply preserves_ret.
  - apply onward_try; [done|]. intros. apply onward_ret.
Qed.

Lemma SyncPolicy_class st v : Q _ (SyncPolicy s st id v).
Proof.
  unfold SyncPolicy, sync_fail. case_bool_decide; [apply (class_ret _ _ HQ)|].
  destruct (_ && _); [apply (class_ret _ _ HQ)|]. destruct (classifyVersion v) as [tag dg].
  apply (class_bind _ _ HQ); [apply (class_reads _ _ HQ), Hb|]. intros _ [[d rv]|e] _ _.
  2: destruct (error_is _ _); apply (class_ret _ _ HQ).
  apply (class_bind _ _ HQ).
  { apply (class_reads _ _ HQ). split; [apply policy_up_to_date_reads|apply onward_up_to_date]. }
  intros _ [] _ _; [apply (class_ret _ _ HQ)|]. apply (class_bind _ _ HQ); [apply verifying_class|].
  intros _ [vr|e] _ _; [apply sync_copy_class|apply (class_ret _ _ HQ)].
Qed.
End closed.

Lemma harmless_class p : p ∈ stores -> closed_class (@harmless) p.
Proof.
  intros Hp. split; intros.
  - apply harmless_ret.
  - by apply harmless_bind.
  - by apply harmless_reads.
  - by eapply harmless_store.
  - apply harmless_SaveState.
Qed.

(** What is off the store and off the data directory is not touched. *)
Lemma off_store_class p :
  closed_class (fun A m => preserves (fun q => diverges p q /\ diverges dataDir q) m) p.
Proof.
  split; intros.
  - apply preserves_ret.
  - intros w q Hq. unfold io_bind. pose proof (H0 w q Hq) as H2. destruct (m w) as [a w1] eqn:E.
    by rewrite (H1 w a w1 E w1 q Hq).
  - intros w q _. by apply H0.
  - intros w q [Hq _]. by apply H0.
  - intros w q [_ Hq]. by apply preserves_SaveState.
Qed.

(** ** Success *)

(** The policy is recorded under [d] in memory and its store is on disk. *)
Definition held (s : Sync) (id d : string) (st : State) (w : world) : Prop :=
  (exists ps, GetPolicyState st id = Some ps /\ Digest ps = d) /\ is_Some (get (PolicyStorePath (sync_cache s) id ++ [oci_layout]) (w_fs w)).

(** Once nothing fails the incremental check is exact. *)
Lemma policy_up_to_date_settled s st id d w :
  settled w -> exists b w', policy_up_to_date s st id d w = (b, w') /\ (b = true <-> held s id d st w).
Proof.
  intros Hc. unfold policy_up_to_date, held. destruct (GetPolicyState st id) as [ps|].
  2:{ exists false, w. split; [done|]. naive_solver. }
  case_bool_decide as Hd.
  2:{ exists false, w. split; [done|]. naive_solver. }
  unfold PolicyStoreExists, os_Stat, os_call, io_bind, io_ret. rewrite (Hc (w_tick w)) by lia.
  destruct (get _ (w_fs w)) as [x|]; eexists _, _; (split; [done|]); cbn; naive_solver.
Qed.

Lemma run_verifier_settled s id v d rv w :
  served s id v d rv -> settled w -> let '(tag, dg) := classifyVersion v in
  exists vr w', run_verifier (sync_verifier s) (BuildLookupRef (sync_registryHost s) id tag dg)
                  (sync_insecure s) w = (Ok vr, w').
Proof.
  intros Hs Hc. pose proof (served_verifier _ _ _ _ _ Hs) as Hv.
  destruct (classifyVersion v) as [tag dg]. unfold run_verifier.
  destruct (sync_verifier s) as [vf|]; [|by eexists _, _].
  destruct (service_settled (Hv vf eq_refl) w Hc) as (a & w' & E & _).
  unfold io_try, io_bind. rewrite E. by eexists _, _.
Qed.

(** Nothing fails any more, in a world that is ready. *)
Definition good (w : world) : Prop := settled w /\ ready w.

Lemma good_run {A} (m : io A) w a w' : harmless m -> m w = (a, w') -> good w -> good w'.
Proof.
  intros [Hk Ho] E [Hc Hw]. split; [by eapply settled_onward|]. specialize (Hk w Hw). by rewrite E in Hk.
Qed.

Lemma NewPolicyStore_settled s id v d rv w :
  behaved s id -> served s id v d rv -> good w ->
  exists w', NewPolicyStore (sync_cache s) id w = (Ok (PolicyStorePath (sync_cache s) id), w') /\
    is_dir (get (PolicyStorePath (sync_cache s) id) (w_fs w')) = true.
Proof.
  intros Hb Hs [Hc Hw].
  destruct (room_mkdir_all (PolicyStorePath (sync_cache s) id) (w_fs w)) as [n1 E1]; [apply Hw, Hb|].
  unfold NewPolicyStore, io_try, io_bind, io_ret, os_MkdirAll.
  rewrite (os_call_settled _ w tt n1) by (done || by rewrite E1).
  assert (is_dir (get (PolicyStorePath (sync_cache s) id) n1) = true) as Hd1
    by by apply (mkdir_all_get _ (w_fs w)).
  destruct (served_New _ _ _ _ _ Hs (tick (set_fs n1 w))) as (w2 & -> & Hd); [|done|by exists w2].
  intros t Ht. apply Hc. cbn in Ht. lia.
Qed.

Lemma SaveState_good st w : good w -> exists w', SaveState st dataDir w = (Ok tt, w').
Proof.
  intros [Hc [Rd _ Rst Rn [Rp _]]]. destruct (codec_roundtrip st) as (data & Hj & _).
  apply (SaveState_settled st dataDir data pick w); try done.
  by destruct (get _ (w_fs w)) as [[|]|].
Qed.

Lemma SaveState_marker s id d st st' w :
  behaved s id -> held s id d st w -> held s id d st (SaveState st' dataDir w).2.
Proof.
  intros Hb [Hd Hm]. split; [done|]. rewrite (preserves_SaveState st' dataDir w); [done|].
  apply diverges_app, stores_off_data, Hb.
Qed.

Lemma sync_copy_settled s st id v d rv vr w :
  behaved s id -> served s id v d rv -> good w ->
  exists st' w', sync_copy s st id (version_or v rv) d vr w = ((Ok true, st'), w') /\
    held s id d st' w'.
Proof.
  intros Hb Hs Hg. unfold sync_copy, io_bind, io_ret.
  destruct (NewPolicyStore_settled s id v d rv w Hb Hs Hg) as (w1 & E1 & Hd1). rewrite E1.
  pose proof (harmless_store _ _ (behaved_store _ _ Hb) (store_op_NewPolicyStore s id Hb)) as K1.
  pose proof (good_run _ _ _ _ K1 E1 Hg) as Hg1.
  destruct (served_Copy _ _ _ _ _ Hs w1 (proj1 Hg1) Hd1) as (ds & w2 & E2 & Hm). rewrite E2.
  pose proof (harmless_store _ _ (behaved_store _ _ Hb) (behaved_Copy _ _ Hb (version_or v rv))) as K2.
  pose proof (good_run _ _ _ _ K2 E2 Hg1) as Hg2.
  destruct (time_Now w2) as [n1 w3] eqn:E3. pose proof (good_run _ _ _ _ harmless_Now E3 Hg2) as Hg3.
  destruct (time_Now w3) as [n2 w4] eqn:E4. pose proof (good_run _ _ _ _ harmless_Now E4 Hg3) as Hg4.
  assert (w_fs w4 = w_fs w2) as Hfs by (unfold time_Now in *; by simplify_eq).
  unfold UpdatePolicyStateWithVerification. rewrite (served_digest _ _ _ _ _ Hs).
  set (st' := MkState _ _ _). rewrite (behaved_data _ _ Hb).
  destruct (SaveState_good st' w4 Hg4) as (w5 & E5).
  pose proof (SaveState_marker s id d st' st' w4 Hb) as Hk. rewrite E5 in *. exists st', w5.
  split; [done|]. apply Hk. split; [|by rewrite Hfs].
  eexists. split; [apply lookup_insert_eq|apply mk_entry_digest].
Qed.

(** A synchronisation that starts when nothing fails any more succeeds, and does
    nothing when the policy is held already. *)
Lemma SyncPolicy_settled s st id v d rv w :
  behaved s id -> served s id v d rv -> good w ->
  exists b st' w', SyncPolicy s st id v w = ((Ok b, st'), w') /\ held s id d st' w' /\
    (held s id d st w -> b = false /\ st' = st).
Proof.
  intros Hb Hs Hg. unfold SyncPolicy. rewrite bool_decide_eq_false_2 by apply Hs.
  replace (_ && _) with false.
  2:{ symmetry. apply andb_false_iff. destruct (served_host _ _ _ _ _ Hs) as [->|Hh]; [by left|].
      right. by apply bool_decide_eq_false. }
  pose proof (served_version _ _ _ _ _ Hs) as Hv.
  pose proof (fun w => run_verifier_settled s id v d rv w Hs) as Hrv.
  pose proof (verifying_class _ s id (harmless_class _ (behaved_store _ _ Hb)) Hb) as Hvh.
  destruct (classifyVersion v) as [tag dg]. unfold io_bind, io_ret.
  destruct (service_settled Hv w (proj1 Hg)) as (? & w1 & E1 & <-). rewrite E1.
  pose proof (harmless_reads _ (conj (service_reads Hv) (service_onward Hv))) as K1.
  pose proof (good_run _ _ _ _ K1 E1 Hg) as Hg1.
  pose proof (fun q => reads_fs _ _ _ _ q (service_reads Hv) E1) as F1.
  destruct (policy_up_to_date_settled s st id d w1 (proj1 Hg1)) as (b & w2 & E2 & Hbh). rewrite E2.
  pose proof (fun q => reads_fs _ _ _ _ q (policy_up_to_date_reads s st id d) E2) as F2.
  unfold held in *. rewrite F1 in Hbh. destruct b.
  { exists false, st, w2. split; [done|]. rewrite F2, F1. split; [by apply Hbh|done]. }
  pose proof (harmless_reads _ (conj (policy_up_to_date_reads s st id d) (onward_up_to_date s st id d))) as K2.
  pose proof (good_run _ _ _ _ K2 E2 Hg1) as Hg2.
  destruct (Hrv w2 (proj1 Hg2)) as (vr & w3 & E3). rewrite E3.
  pose proof (good_run _ _ _ _ (Hvh _) E3 Hg2) as Hg3.
  destruct (sync_copy_settled s st id v d rv vr w3 Hb Hs Hg3) as (st' & w4 & -> & Hh).
  exists true, st', w4. split; [done|]. split; [done|]. intros Hh'. by apply Hbh in Hh'.
Qed.
End progress.
