(* ===== verification/Config.v ===== *)
(** * The workspace configuration (internal/complytime/config.go)

    Parsing and validation of policy references, the verification settings, the
    expansion of environment references in target variables and the structural
    validation of complytime.yaml.  YAML itself is a parameter ([Codec]). *)
From stdpp Require Import gmap.
From S2P Require Import Prelude GoStrings Digest OciRef World State.

(** ** Paths given as text *)

(** [filepath.Clean] on a Unix path. *)
Definition clean_push (rooted : bool) (acc : list string) (seg : string) : list string :=
  if bool_decide (seg = "") || bool_decide (seg = ".") then acc
  else if bool_decide (seg = "..") then
    match split_last acc with
    | Some (up, last) => if bool_decide (last = "..") then acc ++ [".."] else up
    | None => if rooted then [] else [".."]
    end
  else acc ++ [seg].

Definition filepath_Clean (s : string) : string :=
  let rooted := has_prefix s "/" in
  let segs := fold_left (clean_push rooted) (str_split s "/") [] in
  if rooted then "/" +:+ join "/" segs
  else if bool_decide (segs = []) then "." else join "/" segs.

Definition filepath_IsAbs (s : string) : bool := has_prefix s "/".

(** The place a path names for a process whose working directory is [cwd]. *)
Definition abs_path (cwd : path) (s : string) : path :=
  path_join (if filepath_IsAbs s then [] else cwd) s.

(** ** Data *)

Record VerificationConfig := MkVerificationConfig {
  VC_Issuer : string;
  VC_Identity : string;
  VC_Key : string;
  VC_TrustedRoot : string;
}.

(** A policies or complypacks entry; a nil verification block is [None]. *)
Record PolicyEntry := MkPolicyEntry {
  PE_URL : string;
  PE_ID : string;
  PE_Verification : option VerificationConfig;
  PE_SkipVerify : bool;
}.

Record TargetConfig := MkTargetConfig {
  T_ID : string;
  T_Policies : list string;
  T_Variables : gmap string string;
}.

Record WorkspaceConfig := MkWorkspaceConfig {
  WC_Version : Z;
  WC_Policies : list PolicyEntry;
  WC_Complypacks : list PolicyEntry;
  WC_Targets : list TargetConfig;
  WC_Variables : gmap string string;
  WC_Verification : option VerificationConfig;
}.

#[export] Instance VerificationConfig_eq_dec : EqDecision VerificationConfig.
Proof. solve_decision. Defined.
#[export] Instance PolicyEntry_eq_dec : EqDecision PolicyEntry.
Proof. solve_decision. Defined.

Definition CurrentWorkspaceVersion : Z := 1.

(** ** OCI references *)

(** [unsafeRefChars] *)
Definition unsafe_ref_char (c : ascii) : bool := in_set ";|&$`!><(){}[]\" c.

Definition ValidateOCIRef (raw : string) : option error :=
  let s := trim_space raw in
  if bool_decide (s = "") then Some (Errorf "policy URL cannot be empty")
  else if str_exists unsafe_ref_char s then
    Some (Errorf ("policy URL contains invalid characters: " +:+ s))
  else
    let stripped := trim_prefix (trim_prefix s "https://") "http://" in
    match cut stripped "/" with
    | None => Some (Errorf ("policy URL must include a registry and repository " +:+
                            "(e.g. registry.com/repo:tag): " +:+ s))
    | Some (host, _) =>
        if negb (contains_byte host ".") && negb (contains_byte host ":") then
          Some (Errorf ("policy URL must include a registry host (e.g. registry.com/repo:tag): " +:+ s))
        else None
    end.

Record PolicyRef := MkPolicyRef {
  PR_Raw : string;
  PR_Registry : string;
  PR_Repository : string;
  PR_Tag : string;
  PR_Digest : string;
}.

Definition VersionString (r : PolicyRef) : string :=
  if bool_decide (PR_Tag r = "") then PR_Digest r else PR_Tag r.

(** The scheme of a reference and what follows it. *)
Definition strip_scheme (s : string) : string * string :=
  if has_prefix s "http://" then ("http://", trim_prefix s "http://")
  else if has_prefix s "https://" then ("https://", trim_prefix s "https://")
  else ("", s).

(** [strings.LastIndex(s, "@")] strictly inside [s]. *)
Definition at_suffix (s : string) : option (string * string) :=
  match cut_last s "@" with
  | Some (before, suffix) =>
      if bool_decide (before = "") || bool_decide (suffix = "") then None else Some (before, suffix)
  | None => None
  end.

(** The deprecated [@version] notation, and its rewriting to [:tag]. *)
Definition deprecated_version (s : string) : option string :=
  match at_suffix s with
  | Some (before, suffix) =>
      if negb (has_prefix suffix "sha256:") && negb (has_prefix suffix "sha512:")
      then Some (before +:+ ":" +:+ suffix) else None
  | None => None
  end.

Section config.
  Context {hs : HostSyntax}.

(** [ParsePolicyRef]: the reference is returned with the error, as the code does. *)
Definition ParsePolicyRef (raw : string) : PolicyRef * option error :=
  let s := trim_space raw in
  if bool_decide (s = "") then (MkPolicyRef raw "" "" "" "", Some (Errorf "policy reference cannot be empty"))
  else
  let '(scheme, s) := strip_scheme s in
  if negb (contains_byte s "/") then
    match at_suffix s with
    | Some (before, suffix) =>
        if is_digest suffix then (MkPolicyRef raw "" before "" suffix, None)
        else (MkPolicyRef raw "" before suffix "", None)
    | None => (MkPolicyRef raw "" s "" "", None)
    end
  else
  let s := default s (deprecated_version s) in
  match ParseReference s with
  | Err e => (MkPolicyRef raw "" "" "" "", Some (Wrapf ("invalid OCI reference " +:+ raw +:+ ": ") e ""))
  | Ok r =>
      let '(tag, dgst) :=
        (if bool_decide (Ref_Reference r = "") then ("", "")
         else if is_digest (Ref_Reference r) then ("", Ref_Reference r)
         else (Ref_Reference r, "")) in
      (MkPolicyRef raw (scheme +:+ Ref_Registry r) (Ref_Repository r) tag dgst, None)
  end.

(** Whether parsing [raw] takes the deprecated path. *)
Definition uses_deprecated_version (raw : string) : bool :=
  let '(_, s) := strip_scheme (trim_space raw) in
  contains_byte s "/" && bool_decide (is_Some (deprecated_version s)).

(** The process-wide set of references already warned about, and the warnings
    one call of [ParsePolicyRef] prints. *)
Definition ParsePolicyRef_warn (warned : gset string) (raw : string) : gset string * list string :=
  if uses_deprecated_version raw && negb (bool_decide (raw ∈ warned))
  then ({[raw]} ∪ warned,
        ["DEPRECATED: @version notation in policy URL " +:+ raw +:+ ". Use :tag syntax instead " +:+
         "(e.g., registry.com/repo:v1.0). @version support will be removed in a future release."])
  else (warned, []).

Definition last_segment (s : string) : string :=
  default "" (snd <$> split_last (str_split s "/")).

Definition EffectiveID (p : PolicyEntry) : string :=
  if negb (bool_decide (PE_ID p = "")) then PE_ID p
  else last_segment (PR_Repository (ParsePolicyRef (PE_URL p)).1).

Definition FindPolicy (policies : list PolicyEntry) (policyID : string) : option PolicyEntry :=
  let policyID := trim_space policyID in
  find_first (fun p => bool_decide (EffectiveID p = policyID)) policies.

(** [PolicyIDs]: a later entry of the same id replaces an earlier one. *)
Definition PolicyIDs (policies : list PolicyEntry) : gmap string PolicyEntry :=
  fold_left (fun m p => <[EffectiveID p := p]> m) policies ∅.

(** ** Verification settings *)

Definition IsConfigured (v : option VerificationConfig) : bool :=
  match v with
  | None => false
  | Some v => negb (bool_decide (VC_Key v = "")) ||
              (negb (bool_decide (VC_Issuer v = "")) && negb (bool_decide (VC_Identity v = "")))
  end.

Context (cwd : path).

Definition verr {A} (msg : string) : result A := Err (Errorf ("verification: " +:+ msg)).

(** The checks that look at the fields only. *)
Definition check_modes (v : VerificationConfig) : result unit :=
  let hasKeyless := negb (bool_decide (VC_Issuer v = "")) || negb (bool_decide (VC_Identity v = "")) in
  let hasKeyed := negb (bool_decide (VC_Key v = "")) in
  let hasRoot := negb (bool_decide (VC_TrustedRoot v = "")) in
  if hasRoot && hasKeyed then verr "trusted_root cannot be used with key-based verification"
  else if hasKeyed && hasKeyless then verr "key and issuer/identity are mutually exclusive"
  else if negb (bool_decide (VC_Issuer v = "")) && bool_decide (VC_Identity v = "")
  then verr "issuer requires identity"
  else if negb (bool_decide (VC_Identity v = "")) && bool_decide (VC_Issuer v = "")
  then verr "identity requires issuer"
  else if hasRoot && (bool_decide (VC_Issuer v = "") || bool_decide (VC_Identity v = ""))
  then verr "trusted_root requires issuer and identity for keyless verification"
  else Ok tt.

(** [ValidateVerificationConfig]: the code stores the cleaned trusted_root in
    the shared block; here the cleaned block is the answer. *)
Definition ValidateVerificationConfig (v : option VerificationConfig)
    : io (result (option VerificationConfig)) :=
  match v with
  | None => io_ret (Ok None)
  | Some v =>
      do! _ := io_lift (check_modes v) orelse (fun e => e) in
      if bool_decide (VC_TrustedRoot v = "") then io_ret (Ok (Some v))
      else
        let root := filepath_Clean (VC_TrustedRoot v) in
        do! _ := os_Stat (abs_path cwd root)
          orelse (fun e => Wrapf ("verification: trusted_root file " +:+ root +:+ " not found: ") e "") in
        io_ret (Ok (Some (MkVerificationConfig (VC_Issuer v) (VC_Identity v) (VC_Key v) root)))
  end.

(** ** Validation *)

Definition lift_opt (o : option error) : result unit :=
  match o with Some e => Err e | None => Ok tt end.

Fixpoint check_refs (label : string) (entries : list PolicyEntry) : result unit :=
  match entries with
  | [] => Ok tt
  | entry :: rest =>
      check lift_opt (match (ParsePolicyRef (PE_URL entry)).2 with
                      | Some e => Some (Wrapf (label +:+ "[].url " +:+ PE_URL entry +:+ ": ") e "")
                      | None => None
                      end) in
      check_refs label rest
  end.

Definition validatePolicyRefs (config : WorkspaceConfig) : result unit :=
  check check_refs "policies" (WC_Policies config) in
  check_refs "complypacks" (WC_Complypacks config).

(** The loop of [validateEntries]; answers the entries with their verification
    blocks as the validation leaves them. *)
Fixpoint entries_loop (label : string) (entries : list PolicyEntry) (seenURL seenID : gset string)
    : io (result (list PolicyEntry)) :=
  match entries with
  | [] => io_ret (Ok [])
  | entry :: rest =>
      do! _ := io_lift (lift_opt (ValidateOCIRef (PE_URL entry)))
        orelse (fun e => Wrapf (label +:+ "[]: ") e "") in
      do! _ := io_lift (guard_err (bool_decide (PE_URL entry ∈ seenURL))
                          (Errorf (label +:+ ": duplicate url " +:+ PE_URL entry)))
        orelse (fun e => e) in
      let eid := EffectiveID entry in
      do! _ := io_lift (guard_err (bool_decide (eid ∈ seenID))
                          (Errorf (label +:+ ": duplicate id " +:+ eid)))
        orelse (fun e => e) in
      do! _ := io_lift (guard_err (PE_SkipVerify entry && IsConfigured (PE_Verification entry))
                          (Errorf (label +:+ "[" +:+ eid +:+ "]: skip_verify and verification " +:+
                                   "are mutually exclusive")))
        orelse (fun e => e) in
      do! v := ValidateVerificationConfig (PE_Verification entry)
        orelse (fun e => Wrapf (label +:+ "[" +:+ eid +:+ "]: verification: ") e "") in
      do! rest' := entries_loop label rest ({[PE_URL entry]} ∪ seenURL) ({[eid]} ∪ seenID)
        orelse (fun e => e) in
      io_ret (Ok (MkPolicyEntry (PE_URL entry) (PE_ID entry) v (PE_SkipVerify entry) :: rest'))
  end.

Definition validateEntries (label : string) (entries : list PolicyEntry)
    : io (result (list PolicyEntry)) := entries_loop label entries ∅ ∅.

(** The two target loops of [Validate]. *)
Fixpoint target_policies_loop (tid : string) (lookup : gmap string PolicyEntry)
    (pids : list string) (seen : gset string) : result unit :=
  match pids with
  | [] => Ok tt
  | pid :: rest =>
      check guard_err (negb (bool_decide (is_Some (lookup !! pid))))
              (Errorf ("targets[" +:+ tid +:+ "]: policy " +:+ pid +:+ " not in policies list")) in
      check guard_err (bool_decide (pid ∈ seen))
              (Errorf ("targets[" +:+ tid +:+ "]: duplicate policy " +:+ pid)) in
      target_policies_loop tid lookup rest ({[pid]} ∪ seen)
  end.

Fixpoint targets_loop (lookup : gmap string PolicyEntry) (targets : list TargetConfig)
    (targetIDs : gset string) : result unit :=
  match targets with
  | [] => Ok tt
  | target :: rest =>
      check guard_err (bool_decide (T_ID target = "")) (Errorf "targets[].id cannot be empty") in
      check guard_err (bool_decide (T_ID target ∈ targetIDs))
              (Errorf ("targets[].id: duplicate " +:+ T_ID target)) in
      check guard_err (bool_decide (T_Policies target = []))
              (Errorf ("targets[" +:+ T_ID target +:+ "].policies: at least one required")) in
      check target_policies_loop (T_ID target) lookup (T_Policies target) ∅ in
      targets_loop lookup rest ({[T_ID target]} ∪ targetIDs)
  end.

(** [Validate] answers the configuration as it leaves it. *)
Definition Validate (config : WorkspaceConfig) : io (result WorkspaceConfig) :=
  do! _ := io_lift (guard_err (negb (bool_decide (WC_Version config = 0%Z)) &&
                               negb (bool_decide (WC_Version config = CurrentWorkspaceVersion)))
                      (Errorf ("unsupported config version " +:+ itoa (WC_Version config) +:+
                               " (expected " +:+ itoa CurrentWorkspaceVersion +:+ ")")))
    orelse (fun e => e) in
  do! _ := io_lift (guard_err (bool_decide (WC_Policies config = []))
                      (Errorf "policies: at least one policy is required"))
    orelse (fun e => e) in
  do! ps := validateEntries "policies" (WC_Policies config) orelse (fun e => e) in
  do! cs := validateEntries "complypacks" (WC_Complypacks config) orelse (fun e => e) in
  do! v := ValidateVerificationConfig (WC_Verification config) orelse (fun e => e) in
  do! _ := io_lift (targets_loop (PolicyIDs ps) (WC_Targets config) ∅) orelse (fun e => e) in
  io_ret (Ok (MkWorkspaceConfig (WC_Version config) ps cs (WC_Targets config)
                (WC_Variables config) v)).

(** ** Environment references *)

(** [${NAME}] at the head of [s]: the name and what follows the brace. *)
Definition env_ref (s : string) : option (string * string) :=
  match cut_prefix s "${" with
  | Some r => match cut r "}" with
              | Some (name, rest) => if bool_decide (name = "") then None else Some (name, rest)
              | None => None
              end
  | None => None
  end.

(** The replacement of every match, left to right; the unset names are collected. *)
Fixpoint expand_loop (fuel : nat) (env : gmap string string) (s : string) : string * list string :=
  match fuel with
  | O => (s, [])
  | S fuel' =>
      match env_ref s with
      | Some (name, rest) =>
          let '(out, missing) := expand_loop fuel' env rest in
          match env !! name with
          | Some val => (val +:+ out, missing)
          | None => ("${" +:+ name +:+ "}" +:+ out, name :: missing)
          end
      | None =>
          match s with
          | EmptyString => (EmptyString, [])
          | String c s' =>
              let '(out, missing) := expand_loop fuel' env s' in (String c out, missing)
          end
      end
  end.

Definition expandEnvRef (env : gmap string string) (s : string) : result string :=
  let '(out, missing) := expand_loop (S (String.length s)) env s in
  if bool_decide (missing = []) then Ok out
  else Err (Errorf ("unset environment variable(s): " +:+ join ", " missing)).

(** The variables of one target, in some order of iteration. *)
Fixpoint expand_vars (env : gmap string string) (tid : string) (vars : list (string * string))
    (acc : gmap string string) : result (gmap string string) :=
  match vars with
  | [] => Ok acc
  | (key, val) :: rest =>
      try resolved := expandEnvRef env val
        orelse (fun e => Wrapf ("targets[" +:+ tid +:+ "].variables." +:+ key +:+ ": ") e "") in
      expand_vars env tid rest (<[key := resolved]> acc)
  end.

Fixpoint expand_targets (env : gmap string string) (targets : list TargetConfig)
    : result (list TargetConfig) :=
  match targets with
  | [] => Ok []
  | t :: rest =>
      try vars := expand_vars env (T_ID t) (map_to_list (T_Variables t)) (T_Variables t) in
      try rest' := expand_targets env rest in
      Ok (MkTargetConfig (T_ID t) (T_Policies t) vars :: rest')
  end.

Definition resolveEnvVars (env : gmap string string) (config : WorkspaceConfig)
    : result WorkspaceConfig :=
  try ts := expand_targets env (WC_Targets config) in
  Ok (MkWorkspaceConfig (WC_Version config) (WC_Policies config) (WC_Complypacks config) ts
        (WC_Variables config) (WC_Verification config)).

(** ** Loading and saving *)

Context {cfgCodec : Codec WorkspaceConfig}.

Definition LoadFrom (configPath : path) : io (result WorkspaceConfig) :=
  let shown := "/" +:+ join "/" configPath in
  let! r := os_ReadFile configPath in
  match r with
  | Err e =>
      if error_is e ErrNotExist
      then io_ret (Err (Errorf ("complytime config not found: " +:+ shown +:+
                                " (run 'complyctl init' to create)")))
      else io_ret (Err (Wrapf ("failed to read config file " +:+ shown +:+ ": ") e ""))
  | Ok data =>
      do! config := io_lift (unmarshal data)
        orelse (fun e => Wrapf ("corrupted complytime file " +:+ shown +:+ ": invalid YAML: ") e "") in
      do! config := (fun w => (resolveEnvVars (w_env w) config, w)) orelse (fun e => e) in
      do! _ := io_lift (validatePolicyRefs config)
        orelse (fun e => Wrapf ("invalid config " +:+ shown +:+ ": ") e "") in
      do! v := ValidateVerificationConfig (WC_Verification config)
        orelse (fun e => Wrapf ("invalid config " +:+ shown +:+ ": ") e "") in
      io_ret (Ok (MkWorkspaceConfig (WC_Version config) (WC_Policies config)
                    (WC_Complypacks config) (WC_Targets config) (WC_Variables config) v))
  end.

Definition SaveTo (config : WorkspaceConfig) (configPath : path) : io (result unit) :=
  do! data := io_lift (marshal config)
    orelse (fun e => Wrapf "failed to marshal workspace config: " e "") in
  do! _ := os_WriteFile configPath data 384
    orelse (fun e => Wrapf ("failed to write config file /" +:+ join "/" configPath +:+ ": ") e "") in
  io_ret (Ok tt).
End config.

(** ** References *)

Section reference_facts.
  Context {hs : HostSyntax}.

Lemma cut_prefix_scheme s : has_prefix s "http://" = true -> has_prefix s "https://" = false.
Proof. intros [r ->]%has_prefix_spec. done. Qed.

(** No space at either end. *)
Definition trimmed (s : string) : Prop := trim_space s = s.

Lemma at_suffix_app a b :
  a <> "" -> b <> "" -> contains_byte b "@" = false -> at_suffix (a +:+ "@" +:+ b) = Some (a, b).
Proof.
  intros Ha Hb Hn. unfold at_suffix. change ("@" +:+ b) with (String "@" b).
  rewrite (proj2 (cut_last_Some _ _ a b)) by done.
  by rewrite !bool_decide_eq_false_2.
Qed.

Lemma at_suffix_none s : contains_byte s "@" = false -> at_suffix s = None.
Proof. intros H. unfold at_suffix. by rewrite (proj2 (cut_last_None s "@") H). Qed.

Lemma contains_byte_app a b c : contains_byte (a +:+ b) c = contains_byte a c || contains_byte b c.
Proof. apply str_exists_app. Qed.
End reference_facts.

(** ** What [Validate] accepts *)

(** The three legal shapes of a verification block: empty, keyed, keyless. *)
Definition modes_ok (v : VerificationConfig) : Prop :=
  (VC_Key v = "" /\ VC_Issuer v = "" /\ VC_Identity v = "" /\ VC_TrustedRoot v = "") \/
  (VC_Key v <> "" /\ VC_Issuer v = "" /\ VC_Identity v = "" /\ VC_TrustedRoot v = "") \/
  (VC_Key v = "" /\ VC_Issuer v <> "" /\ VC_Identity v <> "").

Lemma check_modes_spec v : is_ok (check_modes v) = true <-> modes_ok v.
Proof.
  unfold check_modes, modes_ok, verr.
  destruct (bool_decide_reflect (VC_Key v = "")), (bool_decide_reflect (VC_Issuer v = "")),
    (bool_decide_reflect (VC_Identity v = "")), (bool_decide_reflect (VC_TrustedRoot v = ""));
    simpl; intuition congruence.
Qed.

Section validate_facts.
  Context {hs : HostSyntax} (cwd : path).

Definition verification_ok (n : node) (v : option VerificationConfig) : Prop :=
  match v with
  | None => True
  | Some v => modes_ok v /\
      (VC_TrustedRoot v <> "" ->
       is_Some (get (abs_path cwd (filepath_Clean (VC_TrustedRoot v))) n))
  end.

Definition entry_ok (n : node) (e : PolicyEntry) : Prop :=
  ValidateOCIRef (PE_URL e) = None /\
  ~ (PE_SkipVerify e = true /\ IsConfigured (PE_Verification e) = true) /\
  verification_ok n (PE_Verification e).

Definition entries_ok (n : node) (l : list PolicyEntry) : Prop :=
  NoDup (PE_URL <$> l) /\ NoDup (EffectiveID <$> l) /\ Forall (entry_ok n) l.

Definition target_ok (ids : list string) (t : TargetConfig) : Prop :=
  T_ID t <> "" /\ T_Policies t <> [] /\ NoDup (T_Policies t) /\
  Forall (fun pid => pid ∈ ids) (T_Policies t).

Definition well_formed (n : node) (c : WorkspaceConfig) : Prop :=
  (WC_Version c = 0%Z \/ WC_Version c = CurrentWorkspaceVersion) /\
  WC_Policies c <> [] /\
  entries_ok n (WC_Policies c) /\ entries_ok n (WC_Complypacks c) /\
  verification_ok n (WC_Verification c) /\
  NoDup (T_ID <$> WC_Targets c) /\
  Forall (target_ok (EffectiveID <$> WC_Policies c)) (WC_Targets c).

(** What the checks leave of an entry list: only trusted roots change. *)
Definition same_entry (e e' : PolicyEntry) : Prop :=
  PE_URL e' = PE_URL e /\ PE_ID e' = PE_ID e /\ PE_SkipVerify e' = PE_SkipVerify e.

Definition calm (n : node) (w : world) : Prop := no_faults w /\ w_fs w = n.

Lemma ValidateVerificationConfig_run n v w :
  calm n w -> exists r w', ValidateVerificationConfig cwd v w = (r, w') /\ calm n w' /\
    (is_ok r = true <-> verification_ok n v).
Proof.
  intros [Hf Hn]. unfold ValidateVerificationConfig. destruct v as [v|].
  2:{ eexists _, w. split_and!; [done|done|done]. }
  unfold io_try, io_bind, io_lift, io_ret. simpl. pose proof (check_modes_spec v) as Hm.
  destruct (check_modes v) as [[]|e].
  2:{ eexists _, w. split_and!; [done|done|]. naive_solver. }
  case_bool_decide as Hr.
  - eexists _, w. split_and!; [done|done|]. naive_solver.
  - unfold os_Stat, os_call. rewrite (Hf _), Hn. destruct (get _ n) as [x|].
    + eexists _, _. split_and!; [done|done|]. split; [|done]. intros _. split; [by apply Hm|eauto].
    + eexists _, _. split_and!; [done|done|]. split; [done|]. intros [_ H].
      by destruct (H Hr).
Qed.

Lemma entries_loop_run n label l U I w :
  calm n w -> exists r w', entries_loop cwd label l U I w = (r, w') /\ calm n w' /\
    (is_ok r = true <-> entries_ok n l /\ Forall (fun e => PE_URL e ∉ U /\ EffectiveID e ∉ I) l) /\
    (forall l', r = Ok l' -> Forall2 same_entry l l').
Proof.
  revert U I w. induction l as [|e l IH]; intros U I w Hw.
  { eexists _, w. split_and!; [done|done| |intros; by simplify_eq].
    split; [|done]. intros _. split; [split_and!; constructor|constructor]. }
  cbn [entries_loop]. unfold io_try, io_bind, io_lift, io_ret, guard_err, lift_opt.
  destruct (ValidateOCIRef (PE_URL e)) as [e1|] eqn:E1.
  { eexists _, w. split_and!; [done|done| |done]. split; [done|].
    intros [(_ & _ & [[? _] _]%Forall_cons) _]. congruence. }
  case_bool_decide as E2.
  { eexists _, w. split_and!; [done|done| |done]. split; [done|].
    intros [_ [[? _] _]%Forall_cons]. done. }
  case_bool_decide as E3.
  { eexists _, w. split_and!; [done|done| |done]. split; [done|].
    intros [_ [[_ ?] _]%Forall_cons]. done. }
  destruct (PE_SkipVerify e && IsConfigured (PE_Verification e)) eqn:E4.
  { apply andb_true_iff in E4. eexists _, w. split_and!; [done|done| |done]. split; [done|].
    intros [(_ & _ & [(_ & ? & _) _]%Forall_cons) _]. done. }
  apply andb_false_iff in E4.
  destruct (ValidateVerificationConfig_run n (PE_Verification e) w Hw) as (r & w1 & -> & Hw1 & Hv).
  destruct r as [v|e5].
  2:{ eexists _, w1. split_and!; [done|done| |done]. split; [done|].
      intros [(_ & _ & [(_ & _ & ?) _]%Forall_cons) _]. by apply Hv. }
  destruct (IH ({[PE_URL e]} ∪ U) ({[EffectiveID e]} ∪ I) w1 Hw1) as (r & w2 & -> & Hw2 & Hr & Hsame).
  assert (Hiff : entries_ok n l /\ Forall (fun e0 => PE_URL e0 ∉ {[PE_URL e]} ∪ U /\
       EffectiveID e0 ∉ {[EffectiveID e]} ∪ I) l <->
     entries_ok n (e :: l) /\ Forall (fun e0 => PE_URL e0 ∉ U /\ EffectiveID e0 ∉ I) (e :: l)).
  { unfold entries_ok, entry_ok. rewrite !fmap_cons, !NoDup_cons, !Forall_cons, !list_elem_of_fmap.
    rewrite !Forall_forall. assert (verification_ok n (PE_Verification e)) by by apply Hv.
    split.
    - intros ((? & ? & HF) & HD). split_and!; auto.
      + intros (y & Hy & Hin). apply HD in Hin. set_solver.
      + intros (y & Hy & Hin). apply HD in Hin. set_solver.
      + intros [? ?]. destruct E4; congruence.
      + intros y Hin. apply HD in Hin. set_solver.
    - intros (([HU ?] & [HI ?] & [_ ?]) & _ & HD). split_and!; auto. intros y Hin.
      apply HD in Hin as HD'. rewrite !elem_of_union, !elem_of_singleton. naive_solver. }
  destruct r as [l'|e6]; eexists _, w2; (split_and!; [done|done| |]).
  - rewrite <-Hiff. split; [intros _; by apply Hr|done].
  - intros l0 ?; simplify_eq. constructor; [done|]. by apply Hsame.
  - rewrite <-Hiff. split; [done|]. intros H. by apply Hr in H.
  - done.
Qed.

Lemma EffectiveID_same e e' : same_entry e e' -> EffectiveID e' = EffectiveID e.
Proof. intros (H1 & H2 & _). unfold EffectiveID. by rewrite H1, H2. Qed.

Lemma EffectiveIDs_same l l' : Forall2 same_entry l l' -> EffectiveID <$> l' = EffectiveID <$> l.
Proof. induction 1; [done|]. rewrite !fmap_cons. f_equal; [by apply EffectiveID_same|done]. Qed.

Lemma PolicyIDs_lookup l id : is_Some (PolicyIDs l !! id) <-> id ∈ EffectiveID <$> l.
Proof.
  unfold PolicyIDs. enough (forall m : gmap string PolicyEntry,
    is_Some (fold_left (fun m p => <[EffectiveID p := p]> m) l m !! id) <->
    id ∈ EffectiveID <$> l \/ is_Some (m !! id)) as H.
  { rewrite H, lookup_empty. split; [intros [?|[? ?]]; done|auto]. }
  induction l as [|p l IH]; intros m; simpl; [set_solver|].
  rewrite IH, elem_of_cons, lookup_insert_is_Some. destruct (decide (EffectiveID p = id)); naive_solver.
Qed.

Lemma target_policies_loop_ok tid m pids seen :
  is_ok (target_policies_loop tid m pids seen) = true <->
  NoDup pids /\ Forall (fun pid => is_Some (m !! pid) /\ pid ∉ seen) pids.
Proof.
  revert seen. induction pids as [|pid pids IH]; intros seen; simpl.
  { split; [|done]. intros _. split; constructor. }
  unfold guard_err. rewrite NoDup_cons, Forall_cons.
  destruct (bool_decide_reflect (is_Some (m !! pid))); simpl; [|naive_solver].
  case_bool_decide; simpl; [naive_solver|]. rewrite IH, !Forall_forall. set_solver.
Qed.

Lemma targets_loop_ok m ids ts seen :
  (forall id, is_Some (m !! id) <-> id ∈ ids) ->
  is_ok (targets_loop m ts seen) = true <->
  NoDup (T_ID <$> ts) /\ Forall (target_ok ids) ts /\ Forall (fun t => T_ID t ∉ seen) ts.
Proof.
  intros Hm. revert seen. induction ts as [|t ts IH]; intros seen; simpl.
  { split; [|done]. intros _. split_and!; constructor. }
  unfold guard_err. rewrite NoDup_cons, !Forall_cons, list_elem_of_fmap. unfold target_ok at 1.
  case_bool_decide; simpl; [naive_solver|]. case_bool_decide; simpl; [naive_solver|].
  case_bool_decide; simpl; [naive_solver|].
  pose proof (target_policies_loop_ok (T_ID t) m (T_Policies t) ∅) as Hp.
  setoid_rewrite Hm in Hp.
  assert (Hp' : is_ok (target_policies_loop (T_ID t) m (T_Policies t) ∅) = true <->
    NoDup (T_Policies t) /\ Forall (fun pid => pid ∈ ids) (T_Policies t)).
  { rewrite Hp, !Forall_forall. set_solver. }
  destruct (target_policies_loop _ _ _ _) as [[]|]; simpl in *; [|naive_solver].
  rewrite Forall_forall in Hp'. rewrite IH, !Forall_forall. split.
  - intros (? & ? & H4). split_and!; try tauto.
    + intros (y & Hy & Hin). apply H4 in Hin. set_solver.
    + intros y Hin. apply H4 in Hin. set_solver.
  - intros ((H4 & ?) & (_ & ?) & _ & H5). split_and!; try tauto. intros y Hin.
    apply H5 in Hin as ?. rewrite elem_of_union, elem_of_singleton. naive_solver.
Qed.

(** C26: [Validate] is sound and complete.  When no file access fails it
    accepts a configuration exactly when: the version is supported; there is a
    policy; URLs and effective ids are unique among policies and among
    complypacks and every URL is acceptable; no entry both skips and configures
    verification; every verification block is empty, keyed or keyless and its
    trusted root exists; target ids are non-empty and unique; and every target
    names at least one policy, each once, each by an effective id of the list. *)
Theorem Validate_iff_well_formed c w :
  no_faults w -> is_ok (Validate cwd c w).1 = true <-> well_formed (w_fs w) c.
Proof.
  intros Hf. set (n := w_fs w). assert (calm n w) as Hw by done.
  unfold Validate, well_formed, validateEntries, io_try, io_bind, io_lift, io_ret, guard_err.
  destruct (negb (bool_decide (WC_Version c = 0%Z)) && _) eqn:E1.
  { simpl. rewrite andb_true_iff, !negb_true_iff, !bool_decide_eq_false in E1. intuition congruence. }
  rewrite andb_false_iff, !negb_false_iff, !bool_decide_eq_true in E1.
  case_bool_decide; [simpl; intuition congruence|].
  destruct (entries_loop_run n "policies" (WC_Policies c) ∅ ∅ w Hw) as (r1 & w1 & -> & Hw1 & H1 & S1).
  assert (Hempty : forall l, Forall (fun e => PE_URL e ∉ (∅ : gset string) /\
     EffectiveID e ∉ (∅ : gset string)) l) by (intros; apply Forall_forall; set_solver).
  assert (H1' : is_ok r1 = true <-> entries_ok n (WC_Policies c)) by (rewrite H1; specialize (Hempty (WC_Policies c)); tauto).
  destruct r1 as [ps|]; [|simpl in *; intuition congruence].
  destruct (entries_loop_run n "complypacks" (WC_Complypacks c) ∅ ∅ w1 Hw1) as (r2 & w2 & -> & Hw2 & H2 & _).
  assert (H2' : is_ok r2 = true <-> entries_ok n (WC_Complypacks c)) by (rewrite H2; specialize (Hempty (WC_Complypacks c)); tauto).
  destruct r2 as [cs|]; [|simpl in *; intuition congruence].
  destruct (ValidateVerificationConfig_run n (WC_Verification c) w2 Hw2) as (r3 & w3 & -> & Hw3 & H3).
  destruct r3 as [v|]; [|simpl in *; intuition congruence].
  pose proof (targets_loop_ok (PolicyIDs ps) (EffectiveID <$> WC_Policies c) (WC_Targets c) ∅) as HT.
  rewrite <-(EffectiveIDs_same _ _ (S1 ps eq_refl)) in *. specialize (HT (PolicyIDs_lookup ps)).
  assert (Forall (fun t => T_ID t ∉ (∅ : gset string)) (WC_Targets c))
    by (apply Forall_forall; set_solver).
  clear Hempty. destruct (targets_loop _ _ _); simpl in *; intuition congruence.
Qed.
End validate_facts.

(** ** Expansion of environment references *)

(** A value written as text and references. *)
Inductive segment : Set := Lit (text : string) | Var (name : string).

Definition segment_ok (x : segment) : Prop :=
  match x with
  | Lit t => contains_byte t "$" = false
  | Var n => n <> "" /\ contains_byte n "}" = false
  end.

Fixpoint render (l : list segment) : string :=
  match l with
  | [] => ""
  | Lit t :: l' => t +:+ render l'
  | Var n :: l' => "${" +:+ n +:+ "}" +:+ render l'
  end.

(** Its value, and the names that are not set, in order. *)
Fixpoint value_of (env : gmap string string) (l : list segment) : string :=
  match l with
  | [] => ""
  | Lit t :: l' => t +:+ value_of env l'
  | Var n :: l' => default ("${" +:+ n +:+ "}") (env !! n) +:+ value_of env l'
  end.

Fixpoint unset (env : gmap string string) (l : list segment) : list string :=
  match l with
  | [] => []
  | Lit _ :: l' => unset env l'
  | Var n :: l' => match env !! n with Some _ => unset env l' | None => n :: unset env l' end
  end.

Lemma env_ref_lit c t : Ascii.eqb "$" c = false -> env_ref (String c t) = None.
Proof. intros H. unfold env_ref. cbn [cut_prefix]. by rewrite H. Qed.

Lemma env_ref_var n rest :
  n <> "" -> contains_byte n "}" = false ->
  env_ref ("${" +:+ n +:+ "}" +:+ rest) = Some (n, rest).
Proof.
  intros Hn Hb. unfold env_ref. rewrite cut_prefix_app. change ("}" +:+ rest) with (String "}" rest).
  rewrite cut_app by done. by rewrite bool_decide_eq_false_2.
Qed.

Lemma expand_loop_lit fuel env t rest :
  contains_byte t "$" = false -> (String.length t <= fuel)%nat ->
  expand_loop fuel env (t +:+ rest) =
    let '(out, missing) := expand_loop (fuel - String.length t) env rest in (t +:+ out, missing).
Proof.
  unfold contains_byte. revert fuel. induction t as [|c t IH]; intros fuel Ht Hf.
  { simpl. rewrite Nat.sub_0_r. by destruct (expand_loop _ _ _). }
  simpl in Ht. apply orb_false_iff in Ht as [Hc Ht]. simpl in Hf.
  destruct fuel as [|fuel]; [lia|].
  change (String c t +:+ rest) with (String c (t +:+ rest)). cbn [expand_loop].
  rewrite env_ref_lit by done. rewrite IH by (done || lia).
  cbn [String.length]. rewrite Nat.sub_succ.
  by destruct (expand_loop _ _ _).
Qed.

Lemma expand_loop_render fuel env l :
  Forall segment_ok l -> (String.length (render l) < fuel)%nat ->
  expand_loop fuel env (render l) = (value_of env l, unset env l).
Proof.
  intros Hl. revert fuel. induction Hl as [|[t|n] l Hx Hl IH]; intros fuel Hf.
  - destruct fuel; [simpl in Hf; lia|]. done.
  - cbn [render value_of unset]. simpl in Hf. rewrite length_append in Hf.
    rewrite expand_loop_lit by (done || lia). by rewrite IH by lia.
  - destruct Hx as [Hn Hb]. cbn [render] in *. rewrite !length_append in Hf. simpl in Hf.
    destruct fuel as [|fuel]; [lia|]. cbn [expand_loop]. rewrite env_ref_var by done.
    rewrite IH by lia. cbn [value_of unset]. destruct (env !! n); simpl; [done|].
    by rewrite !append_assoc.
Qed.

(** the expansion of target variables.  A value made of plain text
    and references of the form dollar-brace-NAME expands to the text with every
    reference replaced by the variable's value, whatever those values contain
    (they are not expanded again); when some referenced variables are unset the
    result is an error that lists exactly those, in order of occurrence. *)
Theorem expandEnvRef_template env l :
  Forall segment_ok l ->
  expandEnvRef env (render l) =
    match unset env l with
    | [] => Ok (value_of env l)
    | missing => Err (Errorf ("unset environment variable(s): " +:+ join ", " missing))
    end.
Proof.
  intros Hl. unfold expandEnvRef. rewrite expand_loop_render by (done || lia).
  by destruct (unset env l).
Qed.

(** The variables of a target, in whatever order the map is iterated. *)
Lemma expand_vars_ok env tid vars acc m :
  expand_vars env tid vars acc = Ok m -> NoDup vars.*1 ->
  forall k, m !! k = match (list_to_map vars : gmap string string) !! k with
                     | Some v => match expandEnvRef env v with Ok r => Some r | Err _ => None end
                     | None => (acc : gmap string string) !! k
                     end.
Proof.
  revert acc. induction vars as [|[key val] vars IH]; intros acc; simpl.
  { intros ? _ k; simplify_eq. by rewrite lookup_empty. }
  intros (r & Hr & Hm)%result_bind_ok [Hk Hnd]%NoDup_cons k.
  apply wrap_err_ok in Hr. rewrite (IH _ Hm Hnd k).
  destruct (decide (key = k)) as [->|Hne].
  - rewrite (not_elem_of_list_to_map_1 vars k) by done. rewrite !lookup_insert_eq. by rewrite Hr.
  - by rewrite !lookup_insert_ne.
Qed.

(** After [resolveEnvVars] every target variable holds its expanded value. *)
Lemma expand_targets_ok env ts ts' :
  expand_targets env ts = Ok ts' ->
  Forall2 (fun t t' => T_ID t' = T_ID t /\ T_Policies t' = T_Policies t /\
    forall k v, T_Variables t !! k = Some v ->
      exists r, expandEnvRef env v = Ok r /\ T_Variables t' !! k = Some r) ts ts'.
Proof.
  revert ts'. induction ts as [|t ts IH]; intros ts'; simpl.
  { intros; simplify_eq. constructor. }
  intros (vars & Hv & (rest & Hr & ?)%result_bind_ok)%result_bind_ok. simplify_eq.
  constructor; [|by apply IH]. split_and!; [done..|]. intros k v Hk. simpl.
  assert (Hin : (k, v) ∈ map_to_list (T_Variables t)) by by apply elem_of_map_to_list.
  pose proof (expand_vars_ok _ _ _ _ _ Hv (NoDup_fst_map_to_list _) k) as H.
  rewrite list_to_map_to_list, Hk in H. rewrite H.
  clear H. revert Hv Hin. generalize (T_Variables t) at 2 as acc. generalize (map_to_list (T_Variables t)).
  induction l as [|[key val] l IHl]; intros acc; simpl; [by intros _ ?%elem_of_nil|].
  intros (r & Hr' & Hm)%result_bind_ok [?|?]%elem_of_cons; simplify_eq.
  - apply wrap_err_ok in Hr'. rewrite Hr'. eauto.
  - eauto.
Qed.

(** ** What [ParsePolicyRef] accepts *)

Section parse_facts.
  Context {hs : HostSyntax}.

Lemma repository_syntax_head repo : repository_syntax repo = true -> has_prefix repo "/" = false.
Proof.
  destruct repo as [|c r]; [done|]. unfold has_prefix. cbn [cut_prefix].
  destruct (Ascii.eqb_spec "/" c) as [<-|]; [|done]. intros H. discriminate H.
Qed.

(** A host and a path never start with a scheme. *)
Lemma no_scheme reg p scheme rest :
  contains_byte reg "/" = false -> has_prefix p "/" = false ->
  contains_byte scheme "/" = false ->
  has_prefix (reg +:+ "/" +:+ p) (scheme +:+ "//" +:+ rest) = false.
Proof.
  intros Hr Hp Hs. apply not_true_iff_false. intros [r He]%has_prefix_spec.
  assert (Hc : cut (reg +:+ String "/" p) "/" = cut (scheme +:+ String "/" (String "/" (rest +:+ r))) "/").
  { f_equal. rewrite !append_assoc in He. exact He. }
  rewrite !cut_app in Hc by done. simplify_eq.
  assert (has_prefix (String "/" (rest +:+ r)) "/" = true) by (apply has_prefix_spec; by eexists).
  congruence.
Qed.

Definition schemes : list string := [""; "http://"; "https://"].

Lemma strip_scheme_app scheme reg p :
  scheme ∈ schemes -> contains_byte reg "/" = false -> has_prefix p "/" = false ->
  strip_scheme (scheme +:+ reg +:+ "/" +:+ p) = (scheme, reg +:+ "/" +:+ p).
Proof.
  intros Hs Hr Hp. unfold strip_scheme.
  pose proof (no_scheme reg p "http:" "" Hr Hp eq_refl) as H1.
  pose proof (no_scheme reg p "https:" "" Hr Hp eq_refl) as H2. simpl (_ +:+ "//" +:+ "") in H1, H2.
  unfold schemes in Hs. rewrite !elem_of_cons, elem_of_nil in Hs.
  destruct Hs as [->|[->|[->|[]]]].
  - change ("" +:+ ?x) with x. by rewrite H1, H2.
  - assert (has_prefix ("http://" +:+ reg +:+ "/" +:+ p) "http://" = true) as ->
      by (apply has_prefix_spec; eauto). by rewrite trim_prefix_app.
  - assert (has_prefix ("https://" +:+ reg +:+ "/" +:+ p) "https://" = true) as Hh
      by (apply has_prefix_spec; eauto).
    destruct (has_prefix ("https://" +:+ reg +:+ "/" +:+ p) "http://") eqn:E.
    { apply cut_prefix_scheme in E. congruence. }
    rewrite Hh. by rewrite trim_prefix_app.
Qed.

Lemma has_prefix_app_head a b c : a <> "" -> has_prefix (a +:+ b) (String c "") = has_prefix a (String c "").
Proof.
  destruct a as [|x a]; [done|]. intros _. unfold has_prefix.
  cbn [String.append cut_prefix]. destruct (Ascii.eqb c x); [|done].
  assert (forall y, cut_prefix y "" = Some y) as H by by intros []. by rewrite !H.
Qed.

(** The common shape of a run on a full reference. *)
Lemma ParsePolicyRef_full raw scheme reg repo suffix s r :
  raw = scheme +:+ reg +:+ "/" +:+ repo +:+ suffix -> trim_space raw = raw ->
  scheme ∈ schemes -> contains_byte reg "/" = false -> repository_syntax repo = true ->
  default (reg +:+ "/" +:+ repo +:+ suffix) (deprecated_version (reg +:+ "/" +:+ repo +:+ suffix)) = s ->
  ParseReference s = Ok r ->
  ParsePolicyRef raw =
    (MkPolicyRef raw (scheme +:+ Ref_Registry r) (Ref_Repository r)
       (if is_digest (Ref_Reference r) then "" else Ref_Reference r)
       (if is_digest (Ref_Reference r) then Ref_Reference r else ""), None).
Proof.
  intros Hraw Htrim Hs Hreg Hrepo Hd Hp. unfold ParsePolicyRef. rewrite Htrim.
  assert (repo <> "") as Hne by by intros ->.
  assert (has_prefix (repo +:+ suffix) "/" = false) as Hhead.
  { rewrite has_prefix_app_head by done. by apply repository_syntax_head. }
  assert (contains_byte (reg +:+ "/" +:+ repo +:+ suffix) "/" = true) as Hslash.
  { rewrite contains_byte_app. simpl. by rewrite orb_true_r. }
  rewrite bool_decide_eq_false_2.
  2:{ rewrite Hraw. intros H. destruct scheme; [|done]. destruct reg; done. }
  rewrite Hraw at 1. rewrite strip_scheme_app by done.
  rewrite Hslash. simpl negb. cbv iota. rewrite Hd, Hp.
  case_bool_decide as Hempty; [rewrite Hempty; done|]. by destruct (is_digest _).
Qed.

Lemma is_digest_no_at d : is_digest d = true -> contains_byte d "@" = false.
Proof.
  intros (alg & enc & n & -> & Hh & _ & Hx)%is_digest_spec. rewrite !contains_byte_app.
  rewrite (str_forall_disjoint is_lower_hex "@" enc eq_refl Hx).
  by apply hex_length_cases in Hh as [[-> _]|[[-> _]|[-> _]]].
Qed.

(** [ParsePolicyRef] on the documented forms of a full reference:
    with an optional scheme, host/repository:tag, the deprecated
    host/repository@version, which means the same, host/repository@digest for
    sha256 and sha512, and host/repository alone; each is split into exactly its
    parts, the scheme staying with the registry. *)
Theorem ParsePolicyRef_forms scheme reg repo tag d (raw := fun x => scheme +:+ reg +:+ "/" +:+ repo +:+ x) :
  scheme ∈ schemes -> valid_host reg = true -> contains_byte reg "/" = false ->
  contains_byte reg "@" = false -> repository_syntax repo = true -> tag_syntax tag = true ->
  is_digest d = true -> has_prefix d "sha256:" || has_prefix d "sha512:" = true ->
  (forall x, x ∈ [":" +:+ tag; "@" +:+ tag; "@" +:+ d; ""] -> trim_space (raw x) = raw x) ->
  ParsePolicyRef (raw (":" +:+ tag)) = (MkPolicyRef (raw (":" +:+ tag)) (scheme +:+ reg) repo tag "", None) /\
  ParsePolicyRef (raw ("@" +:+ tag)) = (MkPolicyRef (raw ("@" +:+ tag)) (scheme +:+ reg) repo tag "", None) /\
  ParsePolicyRef (raw ("@" +:+ d)) = (MkPolicyRef (raw ("@" +:+ d)) (scheme +:+ reg) repo "" d, None) /\
  ParsePolicyRef (raw "") = (MkPolicyRef (raw "") (scheme +:+ reg) repo "" "", None).
Proof.
  intros Hs Hh Hr Ha Hrepo Htag Hd Hsha Htrim.
  pose proof (repository_no_byte _ "@" eq_refl Hrepo) as Hra.
  pose proof (tag_no_byte _ "@" eq_refl Htag) as Hta.
  pose proof (tag_not_digest _ Htag) as Hnd.
  assert (Hna : forall x, contains_byte x "@" = false -> contains_byte (reg +:+ "/" +:+ repo +:+ x) "@" = false).
  { intros x Hx. rewrite contains_byte_app, Ha. change (contains_byte (repo +:+ x) "@" = false).
    by rewrite contains_byte_app, Hra, Hx. }
  assert (Hat : forall x, x <> "" -> contains_byte x "@" = false ->
     at_suffix (reg +:+ "/" +:+ repo +:+ "@" +:+ x) = Some (reg +:+ "/" +:+ repo, x)).
  { intros x Hx Hxa. change (reg +:+ "/" +:+ repo +:+ "@" +:+ x) with (reg +:+ ("/" +:+ repo) +:+ "@" +:+ x).
    rewrite <-append_assoc. apply at_suffix_app; [by destruct reg|done|done]. }
  assert (Hnone : forall x, contains_byte x "@" = false ->
     deprecated_version (reg +:+ "/" +:+ repo +:+ x) = None).
  { intros x Hx. unfold deprecated_version. rewrite at_suffix_none; [done|]. auto. }
  split_and!.
  - erewrite ParsePolicyRef_full; [| reflexivity | apply Htrim; set_solver | done..| |].
    2:{ rewrite Hnone by by rewrite contains_byte_app, Hta. reflexivity. }
    2:{ by apply ParseReference_tag. } simpl. by rewrite Hnd.
  - erewrite ParsePolicyRef_full; [| reflexivity | apply Htrim; set_solver | done..| |].
    2:{ unfold deprecated_version. rewrite Hat by (done || by apply tag_nonempty).
        assert (forall p, has_prefix tag (p +:+ ":") = false) as Hp.
        { intros p. apply not_true_iff_false. intros [r ->]%has_prefix_spec.
          pose proof (tag_no_byte _ ":" eq_refl Htag) as H.
          rewrite !contains_byte_app in H. simpl in H. by rewrite orb_true_r in H. }
        pose proof (Hp "sha256") as P1. pose proof (Hp "sha512") as P2.
        simpl (_ +:+ ":") in P1, P2. rewrite P1, P2. simpl. rewrite append_assoc. reflexivity. }
    2:{ by apply ParseReference_tag. } simpl. by rewrite Hnd.
  - assert (contains_byte d "@" = false) as Hda by by apply is_digest_no_at.
    erewrite ParsePolicyRef_full; [| reflexivity | apply Htrim; set_solver | done..| |].
    2:{ unfold deprecated_version. rewrite Hat by (done || by apply is_digest_nonempty).
        rewrite <-negb_orb, Hsha. reflexivity. }
    2:{ by apply ParseReference_digest. } simpl. by rewrite Hd.
  - erewrite ParsePolicyRef_full; [| reflexivity | apply Htrim; set_solver | done..| |].
    2:{ rewrite Hnone by done. rewrite append_nil_r. reflexivity. }
    2:{ by apply ParseReference_bare. } done.
Qed.
End parse_facts.

(** ** Lookup by effective id *)

Section lookup_facts.
  Context {hs : HostSyntax}.

Lemma find_first_unique {A} (p : A -> bool) l x :
  x ∈ l -> p x = true -> (forall y, y ∈ l -> p y = true -> y = x) -> find_first p l = Some x.
Proof.
  induction l as [|y l IH]; simpl; [by intros ?%elem_of_nil|].
  intros Hx Hp Hu. destruct (p y) eqn:E; [f_equal; apply Hu; [left|done]|].
  apply elem_of_cons in Hx as [->|Hx]; [congruence|]. apply IH; [done..|].
  intros; apply Hu; [by right|done].
Qed.

Lemma NoDup_fmap_inj {A B} (f : A -> B) l x y : NoDup (f <$> l) -> x ∈ l -> y ∈ l -> f x = f y -> x = y.
Proof.
  induction l as [|z l IH]; simpl; [by intros _ ?%elem_of_nil|].
  intros [Hz Hnd]%NoDup_cons [->|Hx]%elem_of_cons [->|Hy]%elem_of_cons Hf; auto;
    destruct Hz; [rewrite Hf|rewrite <-Hf]; by apply list_elem_of_fmap_2.
Qed.

Lemma PolicyIDs_unique l p :
  NoDup (EffectiveID <$> l) -> p ∈ l -> PolicyIDs l !! EffectiveID p = Some p.
Proof.
  unfold PolicyIDs. enough (forall m : gmap string PolicyEntry, NoDup (EffectiveID <$> l) ->
    fold_left (fun m p => <[EffectiveID p := p]> m) l m !! EffectiveID p =
      if decide (EffectiveID p ∈ EffectiveID <$> l) then find_first
        (fun q => bool_decide (EffectiveID q = EffectiveID p)) l
      else m !! EffectiveID p) as H.
  { intros Hnd Hp. rewrite (H ∅ Hnd), decide_True by by apply list_elem_of_fmap_2.
    apply find_first_unique; [done|by apply bool_decide_eq_true_2|].
    intros y Hy ?%bool_decide_eq_true. by eapply NoDup_fmap_inj. }
  induction l as [|q l IH]; intros m Hnd; simpl; [done|].
  rewrite fmap_cons in Hnd. apply NoDup_cons in Hnd as [Hq Hnd]. rewrite (IH _ Hnd).
  destruct (decide (EffectiveID q = EffectiveID p)) as [E|E].
  - rewrite (bool_decide_eq_true_2 _ E), E. rewrite E in Hq.
    rewrite decide_False by done. rewrite decide_True by (left; done). apply lookup_insert_eq.
  - rewrite (bool_decide_eq_false_2 _ E), lookup_insert_ne by done.
    do 2 case_decide; set_solver.
Qed.

(** Among entries with distinct effective ids, as [Validate]
    ensures, both lookups find exactly the entry of an id: [PolicyIDs] by the
    exact id, [FindPolicy] by the id with surrounding space removed, so an entry
    is found by its own id when that id has no surrounding space. *)
Theorem FindPolicy_unique l p id :
  NoDup (EffectiveID <$> l) -> p ∈ l -> trim_space id = EffectiveID p ->
  FindPolicy l id = Some p /\ PolicyIDs l !! EffectiveID p = Some p.
Proof.
  intros Hnd Hp Hid. split; [|by apply PolicyIDs_unique]. unfold FindPolicy. rewrite Hid.
  apply find_first_unique; [done|by apply bool_decide_eq_true_2|].
  intros y Hy ?%bool_decide_eq_true. by eapply NoDup_fmap_inj.
Qed.

(** An entry whose id has surrounding space passes [Validate] and can be the
    policy of a target, but [FindPolicy] never finds it by that id. *)
Theorem FindPolicy_untrimmed l p :
  trim_space (EffectiveID p) <> EffectiveID p -> FindPolicy l (EffectiveID p) <> Some p.
Proof.
  intros Hne (l1 & l2 & _ & Hp & _)%find_first_Some. by apply bool_decide_eq_true in Hp.
Qed.

(** The bare form accepts sha384 digests, and so do the state and the digest
    classification, but a full reference pinned to one is refused: it is taken
    for the deprecated version notation. *)
Theorem ParsePolicyRef_refuses_sha384 reg repo enc (d := "sha384:" +:+ enc)
    (raw := reg +:+ "/" +:+ repo +:+ "@" +:+ d) :
  is_digest d = true -> contains_byte reg "/" = false -> contains_byte reg "@" = false ->
  repository_syntax repo = true -> trim_space raw = raw ->
  classifyVersion d = ("", d) /\ (ParsePolicyRef raw).2 <> None.
Proof.
  intros Hd Hr Ha Hrepo Htrim. split; [by rewrite classifyVersion_spec, Hd|].
  pose proof (repository_no_byte _ "@" eq_refl Hrepo) as Hra.
  assert (repo <> "") as Hne by by intros ->.
  assert (has_prefix (repo +:+ "@" +:+ d) "/" = false) as Hhead.
  { rewrite has_prefix_app_head by done. by apply repository_syntax_head. }
  unfold ParsePolicyRef. rewrite Htrim. unfold raw in *. clear Htrim.
  rewrite bool_decide_eq_false_2 by by destruct reg.
  pose proof (strip_scheme_app "" reg (repo +:+ "@" +:+ d) ltac:(left) Hr Hhead) as Hstrip.
  change ("" +:+ ?x) with x in Hstrip. rewrite Hstrip.
  assert (contains_byte (reg +:+ "/" +:+ repo +:+ "@" +:+ d) "/" = true) as ->.
  { rewrite contains_byte_app. simpl. by rewrite orb_true_r. }
  assert (deprecated_version (reg +:+ "/" +:+ repo +:+ "@" +:+ d) =
          Some (reg +:+ String "/" (repo +:+ String ":" d))) as ->.
  { unfold deprecated_version.
    change (reg +:+ "/" +:+ repo +:+ "@" +:+ d) with (reg +:+ ("/" +:+ repo) +:+ "@" +:+ d).
    rewrite <-append_assoc, at_suffix_app; [|by destruct reg|done|by apply is_digest_no_at].
    simpl. by rewrite append_assoc. }
  simpl negb. cbv iota. unfold ParseReference. simpl default. rewrite cut_app by done.
  unfold split_path.
  assert (cut (repo +:+ String ":" d) "@" = None) as ->.
  { apply cut_None. rewrite contains_byte_app, Hra. apply (is_digest_no_at d Hd). }
  rewrite cut_app by by apply repository_no_byte.
  unfold ValidateRegistry, ValidateRepository, ValidateReferenceAsTag, guard_err. simpl.
  destruct (negb (valid_host reg)); [done|]. rewrite Hrepo. simpl.
  destruct (tag_syntax d) eqn:Ht; [|done].
  apply tag_not_digest in Ht. congruence.
Qed.

Context {cfgCodec : Codec WorkspaceConfig} (cwd : path).

Lemma check_refs_ok label l : check_refs label l = Ok tt ->
  Forall (fun e => (ParsePolicyRef (PE_URL e)).2 = None) l.
Proof.
  induction l as [|e l IH]; simpl; [constructor|].
  intros ([] & H1 & H2)%result_bind_ok. constructor; [|auto].
  by destruct (ParsePolicyRef (PE_URL e)).2.
Qed.

Lemma ValidateVerificationConfig_Ok v w v' w' :
  ValidateVerificationConfig cwd v w = (Ok v', w') ->
  match v, v' with
  | None, None => True
  | Some a, Some b => modes_ok a /\ modes_ok b /\ VC_Key b = VC_Key a /\
      VC_Issuer b = VC_Issuer a /\ VC_Identity b = VC_Identity a
  | _, _ => False
  end.
Proof.
  unfold ValidateVerificationConfig. destruct v as [v|];
    [|unfold io_ret; intros; by simplify_eq].
  unfold io_try, io_bind, io_lift, io_ret. pose proof (check_modes_spec v) as Hm.
  destruct (check_modes v) as [[]|e]; [|done]. destruct Hm as [Hm _]. specialize (Hm eq_refl).
  case_bool_decide; [intros; by simplify_eq|].
  destruct (os_Stat _ w) as [[]]; [|done]. intros; simplify_eq. split_and!; try done.
  destruct Hm as [?|[?|?]]; [naive_solver..|]. right. right. done.
Qed.

(** C27: what [LoadFrom] guarantees to the rest of the program: the
    reference of every policy and complypack of a loaded configuration parses,
    every target variable is the expansion of the one in the file under the
    process environment, targets keep their id and policies, and the
    workspace verification block is empty, keyed or keyless. *)
Theorem LoadFrom_sound p w c w' :
  LoadFrom cwd p w = (Ok c, w') ->
  exists data c0 w1, os_ReadFile p w = (Ok data, w1) /\ unmarshal data = Ok c0 /\
    Forall (fun e => (ParsePolicyRef (PE_URL e)).2 = None) (WC_Policies c ++ WC_Complypacks c) /\
    WC_Policies c = WC_Policies c0 /\ WC_Complypacks c = WC_Complypacks c0 /\
    Forall2 (fun t0 t => T_ID t = T_ID t0 /\ T_Policies t = T_Policies t0 /\
      forall k v, T_Variables t0 !! k = Some v ->
        exists r, expandEnvRef (w_env w1) v = Ok r /\ T_Variables t !! k = Some r)
      (WC_Targets c0) (WC_Targets c) /\
    match WC_Verification c with None => True | Some v => modes_ok v end.
Proof.
  unfold LoadFrom, io_bind. destruct (os_ReadFile p w) as [[data|e] w1];
    [|destruct (error_is e _); done].
  unfold io_try, io_bind, io_lift, io_ret. destruct (unmarshal data) as [c0|] eqn:E0; [|done].
  destruct (resolveEnvVars (w_env w1) c0) as [c1|] eqn:E1; [|done].
  destruct (validatePolicyRefs c1) as [[]|] eqn:E2; [|done].
  destruct (ValidateVerificationConfig cwd (WC_Verification c1) w1) as [[v|] w2] eqn:E3; [|done].
  intros; simplify_eq. exists data, c0, w1.
  unfold resolveEnvVars in E1. apply result_bind_ok in E1 as (ts & Hts & ?). simplify_eq. simpl in *.
  apply result_bind_ok in E2 as ([] & HP & HC). simpl in *.
  apply check_refs_ok in HP, HC. split_and!; try done.
  - by apply Forall_app.
  - by apply expand_targets_ok.
  - apply ValidateVerificationConfig_Ok in E3. destruct v as [v|]; [|done].
    destruct (WC_Verification c0); tauto.
Qed.
End lookup_facts.
