(* ===== verification/Workspace.v ===== *)
(** * Workspace and directories (internal/complytime/{workspace,consts,legacy}.go)

    Where the program looks for its configuration, data, cache and providers.
    Directories are absolute paths; text paths are resolved against the working
    directory of the process. *)
From stdpp Require Import gmap.
From S2P Require Import Prelude GoStrings Digest OciRef World State Config.

Definition xdgAppName : string := "complytime".
Definition providerSubdir : string := "providers".
Definition WorkspaceDir : string := ".complytime".
Definition WorkspaceConfigFile : string := "complytime.yaml".
Definition SystemProviderDir : string := "/usr/libexec/complytime/providers".
Definition SystemProviderDirEnvVar : string := "COMPLYTIME_SYSTEM_PROVIDER_DIR".
Definition WorkspaceEnvVar : string := "COMPLYTIME_WORKSPACE".
Definition WorkspaceVarKey : string := "workspace".

Abbreviation environ := (gmap string string).
Definition getenv (env : environ) (name : string) : string := default "" (env !! name).

(** The operating system the program was built for. *)
Inductive goos : Set := darwin | windows | unix.

(** [os.UserHomeDir] and [os.UserCacheDir] of the Go standard library. *)
Definition UserHomeDir (os : goos) (env : environ) : result path :=
  let h := getenv env (match os with windows => "USERPROFILE" | _ => "HOME" end) in
  if bool_decide (h = "") then Err (Errorf "home directory is not defined")
  else Ok (path_join [] h).

Definition UserCacheDir (os : goos) (env : environ) : result path :=
  match os with
  | windows =>
      let d := getenv env "LocalAppData" in
      if bool_decide (d = "") then Err (Errorf "%LocalAppData% is not defined") else Ok (path_join [] d)
  | darwin => try h := UserHomeDir os env in Ok (h ++ ["Library"; "Caches"])
  | unix =>
      let d := getenv env "XDG_CACHE_HOME" in
      if bool_decide (d = "") then try h := UserHomeDir os env in Ok (h ++ [".cache"])
      else if filepath_IsAbs d then Ok (path_join [] d)
      else Err (Errorf "path in $XDG_CACHE_HOME is relative")
  end.

(** ** Directories (consts.go) *)

Definition ResolveSystemProviderDir (env : environ) : string :=
  let dir := getenv env SystemProviderDirEnvVar in
  if negb (bool_decide (dir = "")) && filepath_IsAbs dir then dir else SystemProviderDir.

Definition WithWorkspaceVar (vars : gmap string string) (workspace : string) : gmap string string :=
  <[WorkspaceVarKey := workspace]> vars.

Definition FilenameSafe (s : string) : string := replace_byte "/" "-" s.

(** [ExpandPath]: on a missing home directory the path is left as it is. *)
Definition ExpandPath (os : goos) (env : environ) (cwd : path) (s : string) : path :=
  match cut_prefix s "~/" with
  | Some rest => match UserHomeDir os env with
                 | Ok home => path_join home rest
                 | Err _ => abs_path cwd s
                 end
  | None => abs_path cwd s
  end.

Definition resolve_err (what : string) (e : error) : error :=
  Wrapf ("resolve " +:+ what +:+ ": ") e "".

Definition ResolveDataDir (os : goos) (env : environ) : result path :=
  let xdgData := getenv env "XDG_DATA_HOME" in
  if negb (bool_decide (xdgData = "")) && filepath_IsAbs xdgData
  then Ok (path_join [] xdgData ++ [xdgAppName])
  else match os with
       | darwin =>
           try homeDir := UserHomeDir os env orelse resolve_err "data dir" in
           Ok (homeDir ++ ["Library"; "Application Support"; xdgAppName])
       | windows =>
           try base := UserCacheDir os env orelse resolve_err "data dir" in
           Ok (base ++ [xdgAppName])
       | unix =>
           try homeDir := UserHomeDir os env orelse resolve_err "data dir" in
           Ok (homeDir ++ [".local"; "share"; xdgAppName])
       end.

Definition ResolveCacheDir (os : goos) (env : environ) : result path :=
  try cacheBase := UserCacheDir os env orelse resolve_err "cache dir" in
  Ok (cacheBase ++ [xdgAppName]).

Definition ResolveProviderDir (os : goos) (env : environ) : result path :=
  try dataDir := ResolveDataDir os env orelse resolve_err "provider dir" in
  Ok (dataDir ++ [providerSubdir]).

(** ** The legacy directory (legacy.go) *)

Definition legacyDirName : string := ".complytime".

Definition dirExists (p : path) : io bool :=
  let! r := os_Stat p in
  io_ret (match r with Ok x => is_dir (Some x) | Err _ => false end).

(** Whether the migration warning is printed, with the directories it names. *)
Definition checkLegacyDirWithHome (os : goos) (env : environ) (homeDir : path)
    : io (option (path * path * path)) :=
  let legacyDir := homeDir ++ [legacyDirName] in
  let! legacy := dirExists legacyDir in
  if negb legacy then io_ret None
  else match ResolveCacheDir os env, ResolveDataDir os env with
       | Ok cacheDir, Ok dataDir =>
           let! cacheExists := dirExists cacheDir in
           let! dataExists := dirExists dataDir in
           if cacheExists && dataExists then io_ret None
           else io_ret (Some (legacyDir, cacheDir, dataDir))
       | _, _ => io_ret None
       end.

Definition CheckLegacyDir (os : goos) (env : environ) : io (option (path * path * path)) :=
  match UserHomeDir os env with
  | Ok homeDir => checkLegacyDirWithHome os env homeDir
  | Err _ => io_ret None
  end.

(** ** The workspace (workspace.go) *)

Record Workspace := MkWorkspace {
  ws_baseDir : path;
  ws_configPath : path;
  ws_config : option WorkspaceConfig;
}.

(** [DetectConfigPath]: the path found and whether it is the legacy one. *)
Definition DetectConfigPath (baseDir : path) : io (result (path * bool)) :=
  let newConfigPath := baseDir ++ [WorkspaceDir; WorkspaceConfigFile] in
  let! r := os_Stat newConfigPath in
  match r with
  | Ok _ => io_ret (Ok (newConfigPath, false))
  | Err _ =>
      let legacyConfigPath := baseDir ++ [WorkspaceConfigFile] in
      let! r := os_Stat legacyConfigPath in
      match r with
      | Ok _ => io_ret (Ok (legacyConfigPath, true))
      | Err _ => io_ret (Err (Errorf ("config file not found in /" +:+ join "/" baseDir +:+
                   " (checked .complytime/complytime.yaml and complytime.yaml)")))
      end
  end.

(** [NewWorkspace]: the workspace and whether the deprecation warning is printed. *)
Definition NewWorkspace (baseDir : path) : io (Workspace * bool) :=
  let! r := DetectConfigPath baseDir in
  io_ret (match r with
          | Ok (configPath, isLegacy) => (MkWorkspace baseDir configPath None, isLegacy)
          | Err _ => (MkWorkspace baseDir (baseDir ++ [WorkspaceDir; WorkspaceConfigFile]) None, false)
          end).

Section workspace.
  Context {hs : HostSyntax} {cfgCodec : Codec WorkspaceConfig} (cwd : path).

Definition Load (ws : Workspace) : io (result Workspace) :=
  do! config := LoadFrom cwd (ws_configPath ws) orelse (fun e => e) in
  io_ret (Ok (MkWorkspace (ws_baseDir ws) (ws_configPath ws) (Some config))).

(** On a validation error the configuration stays loaded. *)
Definition LoadAndValidate (ws : Workspace) : io (result Workspace) :=
  do! config := LoadFrom cwd (ws_configPath ws) orelse (fun e => e) in
  do! config := Validate cwd config orelse (fun e => e) in
  io_ret (Ok (MkWorkspace (ws_baseDir ws) (ws_configPath ws) (Some config))).

Definition Save (ws : Workspace) : io (result unit) :=
  match ws_config ws with
  | None => io_ret (Err (Errorf "no configuration to save"))
  | Some config => SaveTo config (ws_configPath ws)
  end.

Definition SetConfig (ws : Workspace) (config : WorkspaceConfig) : Workspace :=
  MkWorkspace (ws_baseDir ws) (ws_configPath ws) (Some config).

Definition Exists (ws : Workspace) : io bool :=
  let! r := os_Stat (ws_configPath ws) in io_ret (is_ok r).

Definition EnsureDir (ws : Workspace) : io (result unit) :=
  os_MkdirAll (removelast (ws_configPath ws)).

(** The text path chosen by [ResolveWorkspaceDir], before any expansion. *)
Definition workspace_choice (env : environ) (flag : string) : string :=
  let path := if bool_decide (flag = "") then getenv env WorkspaceEnvVar else flag in
  if bool_decide (path = "") then "." else path.

(** The expansion of a leading tilde, then [filepath.Abs]. *)
Definition expand_tilde (os : goos) (env : environ) (s : string) : result path :=
  match s with
  | String "~" rest =>
      try home := UserHomeDir os env
        orelse (fun e => Wrapf "failed to get home directory: " e "") in
      Ok (match rest with
          | EmptyString => home
          | String "/" rest' => path_join home rest'
          | _ => abs_path cwd s
          end)
  | _ => Ok (abs_path cwd s)
  end.

Definition ResolveWorkspaceDir (os : goos) (env : environ) (flag : string) : io (result path) :=
  do! absPath := io_lift (expand_tilde os env (workspace_choice env flag)) orelse (fun e => e) in
  let shown := "/" +:+ join "/" absPath in
  let! r := os_Stat absPath in
  match r with
  | Err e => if error_is e ErrNotExist
             then io_ret (Err (Errorf ("workspace directory does not exist: " +:+ shown)))
             else io_ret (Err (Wrapf "failed to stat workspace directory: " e ""))
  | Ok info => if is_dir (Some info) then io_ret (Ok absPath)
               else io_ret (Err (Errorf ("workspace path is not a directory: " +:+ shown)))
  end.

(** ** Facts *)

Lemma DetectConfigPath_run base w :
  no_faults w ->
  let new := base ++ [WorkspaceDir; WorkspaceConfigFile] in
  let legacy := base ++ [WorkspaceConfigFile] in
  exists r w', DetectConfigPath base w = (r, w') /\
  match get new (w_fs w), get legacy (w_fs w) with
  | Some _, _ => r = Ok (new, false)
  | None, Some _ => r = Ok (legacy, true)
  | None, None => exists e, r = Err e
  end.
Proof.
  intros Hf. unfold DetectConfigPath, io_bind, os_Stat, os_call, io_ret. rewrite (Hf _).
  destruct (get _ (w_fs w)); [eexists _, _; split; done|].
  cbn [w_fault tick w_fs set_fs not_exist]. rewrite (Hf _).
  destruct (get _ (w_fs w)); eexists _, _; split; eauto.
Qed.

(** Which configuration file a workspace uses.  When no call
    fails: the one under the dot directory if it exists, whatever else does;
    otherwise the legacy one at the root, and only then with the deprecation
    warning; otherwise the new location, where a later save will create it. *)
Theorem NewWorkspace_location base w :
  no_faults w ->
  let new := base ++ [WorkspaceDir; WorkspaceConfigFile] in
  let legacy := base ++ [WorkspaceConfigFile] in
  let '(ws, warned) := (NewWorkspace base w).1 in
  ws_baseDir ws = base /\ ws_config ws = None /\
  ws_configPath ws = (match get new (w_fs w), get legacy (w_fs w) with
                      | None, Some _ => legacy
                      | _, _ => new
                      end) /\
  (warned = true <-> get new (w_fs w) = None /\ get legacy (w_fs w) <> None).
Proof.
  intros Hf new legacy. destruct (DetectConfigPath_run base w Hf) as (r & w' & Hr & Hm).
  unfold NewWorkspace, io_bind. rewrite Hr. fold new legacy in Hm. unfold io_ret. cbn [fst].
  destruct (get new (w_fs w)), (get legacy (w_fs w)); subst; simpl;
    [naive_solver..|]. destruct Hm as [e ->]. naive_solver.
Qed.

(** The workspace directory.  A success is always an existing
    directory, chosen by precedence: the flag, else the environment variable,
    else the working directory, with a leading tilde standing for the home
    directory. *)
Theorem ResolveWorkspaceDir_sound os env flag w p w' :
  ResolveWorkspaceDir os env flag w = (Ok p, w') ->
  is_dir (get p (w_fs w)) = true /\ w_fs w' = w_fs w /\
  let chosen := if bool_decide (flag <> "") then flag
                else if bool_decide (getenv env WorkspaceEnvVar <> "") then getenv env WorkspaceEnvVar
                else "." in
  match cut_prefix chosen "~/" with
  | Some rest => exists home, UserHomeDir os env = Ok home /\ p = path_join home rest
  | None => if bool_decide (chosen = "~") then UserHomeDir os env = Ok p
            else p = abs_path cwd chosen
  end.
Proof.
  unfold ResolveWorkspaceDir, io_try, io_bind, io_lift, io_ret.
  assert (workspace_choice env flag = if bool_decide (flag <> "") then flag
    else if bool_decide (getenv env WorkspaceEnvVar <> "") then getenv env WorkspaceEnvVar else ".") as ->.
  { unfold workspace_choice. repeat case_bool_decide; naive_solver. }
  set (s := if bool_decide (flag <> "") then _ else _).
  destruct (expand_tilde os env s) as [q|e] eqn:E; [|done].
  unfold os_Stat, os_call. destruct (w_fault w (w_tick w)) as [e|].
  { destruct (error_is e _); done. }
  destruct (get q (w_fs w)) as [x|] eqn:Eg; [|done].
  destruct (is_dir (Some x)) eqn:Ed; [|done]. intros; simplify_eq.
  rewrite Eg. split_and!; [done|done|]. simpl. unfold expand_tilde in E.
  destruct s as [|c rest]; [by simplify_eq|].
  destruct (decide (c = "~"%char)) as [->|Hc].
  - cbn [cut_prefix]. rewrite Ascii.eqb_refl.
    destruct (UserHomeDir os env) as [home|e]; [|done]. simpl in E.
    destruct rest as [|d rest]; [simplify_eq; by rewrite bool_decide_eq_true_2|].
    cbn [cut_prefix]. destruct (Ascii.eqb_spec "/" d) as [<-|Hd].
    + assert (cut_prefix rest "" = Some rest) as -> by by destruct rest. naive_solver.
    + rewrite bool_decide_eq_false_2 by done.
      destruct d as [[] [] [] [] [] [] [] []]; by simplify_eq.
  - cbn [cut_prefix]. destruct (Ascii.eqb_spec "~" c); [done|].
    rewrite bool_decide_eq_false_2 by (intros ?; simplify_eq).
    destruct c as [[] [] [] [] [] [] [] []]; by simplify_eq.
Qed.
End workspace.

(** The data directory never depends on relative XDG values, and the provider
    directory is always inside it. *)
Lemma ResolveProviderDir_inside os env p :
  ResolveProviderDir os env = Ok p -> exists d, ResolveDataDir os env = Ok d /\ p = d ++ [providerSubdir].
Proof. unfold ResolveProviderDir. intros H. go_inv H. eauto. Qed.

Lemma FilenameSafe_flat s : contains_byte (FilenameSafe s) "/" = false.
Proof. by apply replace_byte_gone. Qed.
