(* ===== verification/Provider.v ===== *)
(** * Providers (pkg/provider)

    The data exchanged with provider processes, both ends of the gRPC
    translation, the discovery of provider executables and the routing of
    requests by the manager.  A provider process is a record of three functions
    ([ProviderImpl], the Go interface [Provider]); starting one is a parameter. *)
From stdpp Require Import gmap.
From S2P Require Import Prelude GoStrings Digest OciRef World State Config Workspace.

(** ** Domain data (client.go)

    [Result] and [ConfidenceLevel] are int32 values: any number can occur. *)
Abbreviation Result := Z.
Definition ResultUnspecified : Result := 0.
Definition ResultPassed : Result := 1.
Definition ResultFailed : Result := 2.
Definition ResultSkipped : Result := 3.
Definition ResultError : Result := 4.

Abbreviation ConfidenceLevel := Z.
Definition ConfidenceLevelNotSet : ConfidenceLevel := 0.
Definition ConfidenceLevelUndetermined : ConfidenceLevel := 1.
Definition ConfidenceLevelLow : ConfidenceLevel := 2.
Definition ConfidenceLevelMedium : ConfidenceLevel := 3.
Definition ConfidenceLevelHigh : ConfidenceLevel := 4.

Record AssessmentConfiguration := MkAssessmentConfiguration {
  AC_PlanID : string;
  AC_RequirementID : string;
  AC_Parameters : gmap string string;
  AC_EvaluatorID : string;
}.

(** [MatchID] *)
Definition MatchID (c : AssessmentConfiguration) : string :=
  if negb (bool_decide (AC_PlanID c = "")) then AC_PlanID c else AC_RequirementID c.

Record GenerateRequest := MkGenerateRequest {
  GReq_GlobalVariables : gmap string string;
  GReq_Configuration : list AssessmentConfiguration;
  GReq_TargetVariables : gmap string string;
  GReq_ComplypackContentPath : string;
}.
Record GenerateResponse := MkGenerateResponse { GResp_Success : bool; GResp_ErrorMessage : string }.

Record Target := MkTarget { TargetID : string; Variables : gmap string string }.
Record ScanRequest := MkScanRequest { Targets : list Target }.

Record Step := MkStep { Step_Name : string; Step_Result : Result; Step_Message : string }.

Record EvidenceSource := MkEvidenceSource {
  ES_ReferenceID : string;
  ES_Coordinate : string;
  ES_EntryID : string;
  ES_Digest : string;
  ES_Remarks : string;
}.
Record Evidence := MkEvidence {
  Ev_ID : string;
  Ev_Type : string;
  Ev_Description : string;
  Ev_Payload : string;
  Ev_CollectedAt : string;
  Ev_Source : option EvidenceSource;
}.
Record MappingReference := MkMappingReference {
  MR_ID : string;
  MR_Title : string;
  MR_Version : string;
  MR_Description : string;
  MR_URL : string;
}.

Record AssessmentLog := MkAssessmentLog {
  AL_PlanID : string;
  AL_RequirementID : string;
  AL_Steps : list Step;
  AL_Message : string;
  AL_Confidence : ConfidenceLevel;
  AL_Evidence : list Evidence;
  AL_Recommendation : string;
}.
Record ScanResponse := MkScanResponse {
  SResp_Assessments : list AssessmentLog;
  SResp_Errors : list string;
  SResp_MappingReferences : list MappingReference;
}.
Record DescribeResponse := MkDescribeResponse {
  Desc_Healthy : bool;
  Desc_Version : string;
  Desc_ErrorMessage : string;
  Desc_RequiredGlobalVariables : list string;
  Desc_RequiredTargetVariables : list string;
  Desc_OptionalTargetVariableGroups : list string;
}.

(** The interface [Provider]. *)
Record ProviderImpl := MkProviderImpl {
  Describe : unit -> result DescribeResponse;
  Generate : GenerateRequest -> result GenerateResponse;
  Scan : ScanRequest -> result ScanResponse;
}.

(** ** Wire messages (the generated types of api/plugin)

    Field for field as in plugin.proto; enum values are numbers. *)
Module Proto.
Record AssessmentConfiguration := MkAssessmentConfiguration {
  PlanId : string; RequirementId : string; Parameters : gmap string string }.
Record GenerateRequest := MkGenerateRequest {
  GlobalVariables : gmap string string; Configurations : list AssessmentConfiguration;
  TargetVariables : gmap string string; ComplypackContentPath : string }.
Record GenerateResponse := MkGenerateResponse { Success : bool; ErrorMessage : string }.
Record Target := MkTarget { TargetId : string; Variables : gmap string string }.
Record ScanRequest := MkScanRequest { Targets : list Target }.
Record Step := MkStep { Name : string; Result_ : Z; Message : string }.
Record EvidenceMapping := MkEvidenceMapping {
  ReferenceId : string; Coordinate : string; EntryId : string; Digest : string; Remarks : string }.
Record Evidence := MkEvidence {
  Id : string; Type_ : string; Description : string; Payload : string; CollectedAt : string;
  Source : option EvidenceMapping }.
Record MappingReference := MkMappingReference {
  MapId : string; Title : string; Version : string; MapDescription : string; Url : string }.
Record AssessmentLog := MkAssessmentLog {
  LogRequirementId : string; Steps : list Step; LogMessage : string; Confidence : Z;
  LogEvidence : list Evidence; Recommendation : string }.
Record ScanResponse := MkScanResponse {
  Assessments : list AssessmentLog; Errors : list string;
  MappingReferences : list MappingReference }.
End Proto.

(** ** From the wire (client.go) *)

Definition protoResultToInternal (r : Z) : Result :=
  if (r =? 1)%Z then ResultPassed
  else if (r =? 2)%Z then ResultFailed
  else if (r =? 3)%Z then ResultSkipped
  else if (r =? 4)%Z then ResultError
  else ResultUnspecified.

Definition protoConfidenceToInternal (c : Z) : ConfidenceLevel :=
  if (c =? 1)%Z then ConfidenceLevelUndetermined
  else if (c =? 2)%Z then ConfidenceLevelLow
  else if (c =? 3)%Z then ConfidenceLevelMedium
  else if (c =? 4)%Z then ConfidenceLevelHigh
  else ConfidenceLevelNotSet.

Definition protoEvidenceMappingToInternal (em : option Proto.EvidenceMapping) : option EvidenceSource :=
  (fun em => MkEvidenceSource (Proto.ReferenceId em) (Proto.Coordinate em) (Proto.EntryId em)
               (Proto.Digest em) (Proto.Remarks em)) <$> em.

Definition protoEvidenceToInternal (pe : list Proto.Evidence) : list Evidence :=
  (fun e => MkEvidence (Proto.Id e) (Proto.Type_ e) (Proto.Description e) (Proto.Payload e)
              (Proto.CollectedAt e) (protoEvidenceMappingToInternal (Proto.Source e))) <$> pe.

Definition protoMappingRefsToInternal (refs : list Proto.MappingReference) : list MappingReference :=
  (fun r => MkMappingReference (Proto.MapId r) (Proto.Title r) (Proto.Version r)
              (Proto.MapDescription r) (Proto.Url r)) <$> refs.

Definition protoAssessmentToInternal (pa : Proto.AssessmentLog) : AssessmentLog :=
  MkAssessmentLog (Proto.LogRequirementId pa) ""
    ((fun ps => MkStep (Proto.Name ps) (protoResultToInternal (Proto.Result_ ps)) (Proto.Message ps))
       <$> Proto.Steps pa)
    (Proto.LogMessage pa) (protoConfidenceToInternal (Proto.Confidence pa))
    (protoEvidenceToInternal (Proto.LogEvidence pa)) (Proto.Recommendation pa).

(** [Client.Generate] and [Client.Scan] over a transport. *)
Definition Client_Generate (rpc : Proto.GenerateRequest -> result Proto.GenerateResponse)
    (req : GenerateRequest) : result GenerateResponse :=
  let protoConfigs := (fun cfg => Proto.MkAssessmentConfiguration (AC_PlanID cfg)
                                    (AC_RequirementID cfg) (AC_Parameters cfg))
                      <$> GReq_Configuration req in
  try protoResp := rpc (Proto.MkGenerateRequest (GReq_GlobalVariables req) protoConfigs
                          (GReq_TargetVariables req) (GReq_ComplypackContentPath req))
    orelse (fun e => Wrapf "Generate RPC failed: " e "") in
  Ok (MkGenerateResponse (Proto.Success protoResp) (Proto.ErrorMessage protoResp)).

Definition Client_Scan (rpc : Proto.ScanRequest -> result Proto.ScanResponse)
    (req : ScanRequest) : result ScanResponse :=
  let protoTargets := (fun t => Proto.MkTarget (TargetID t) (Variables t)) <$> Targets req in
  try protoResp := rpc (Proto.MkScanRequest protoTargets)
    orelse (fun e => Wrapf "Scan RPC failed: " e "") in
  Ok (MkScanResponse (protoAssessmentToInternal <$> Proto.Assessments protoResp)
        (Proto.Errors protoResp) (protoMappingRefsToInternal (Proto.MappingReferences protoResp))).

(** ** To the wire (server.go) *)

Definition internalResultToProto (r : Result) : Z :=
  if (r =? ResultPassed)%Z then 1
  else if (r =? ResultFailed)%Z then 2
  else if (r =? ResultSkipped)%Z then 3
  else if (r =? ResultError)%Z then 4
  else 0.

Definition internalConfidenceToProto (c : ConfidenceLevel) : Z :=
  if (c =? ConfidenceLevelUndetermined)%Z then 1
  else if (c =? ConfidenceLevelLow)%Z then 2
  else if (c =? ConfidenceLevelMedium)%Z then 3
  else if (c =? ConfidenceLevelHigh)%Z then 4
  else 0.

Definition internalEvidenceSourceToProto (src : option EvidenceSource) : option Proto.EvidenceMapping :=
  (fun s => Proto.MkEvidenceMapping (ES_ReferenceID s) (ES_Coordinate s) (ES_EntryID s)
              (ES_Digest s) (ES_Remarks s)) <$> src.

Definition internalEvidenceToProto (evidence : list Evidence) : list Proto.Evidence :=
  (fun e => Proto.MkEvidence (Ev_ID e) (Ev_Type e) (Ev_Description e) (Ev_Payload e)
              (Ev_CollectedAt e) (internalEvidenceSourceToProto (Ev_Source e))) <$> evidence.

Definition internalMappingRefsToProto (refs : list MappingReference) : list Proto.MappingReference :=
  (fun r => Proto.MkMappingReference (MR_ID r) (MR_Title r) (MR_Version r) (MR_Description r)
              (MR_URL r)) <$> refs.

Definition internalAssessmentToProto (a : AssessmentLog) : Proto.AssessmentLog :=
  Proto.MkAssessmentLog
    (if bool_decide (AL_PlanID a = "") then AL_RequirementID a else AL_PlanID a)
    ((fun s => Proto.MkStep (Step_Name s) (internalResultToProto (Step_Result s)) (Step_Message s))
       <$> AL_Steps a)
    (AL_Message a) (internalConfidenceToProto (AL_Confidence a))
    (internalEvidenceToProto (AL_Evidence a)) (AL_Recommendation a).

Definition grpcServer_Generate (impl : ProviderImpl) (req : Proto.GenerateRequest)
    : result Proto.GenerateResponse :=
  let configs := (fun c => MkAssessmentConfiguration (Proto.PlanId c) (Proto.RequirementId c)
                             (Proto.Parameters c) "") <$> Proto.Configurations req in
  try resp := Generate impl (MkGenerateRequest (Proto.GlobalVariables req) configs
                               (Proto.TargetVariables req) (Proto.ComplypackContentPath req)) in
  Ok (Proto.MkGenerateResponse (GResp_Success resp) (GResp_ErrorMessage resp)).

Definition grpcServer_Scan (impl : ProviderImpl) (req : Proto.ScanRequest)
    : result Proto.ScanResponse :=
  let targets := (fun t => MkTarget (Proto.TargetId t) (Proto.Variables t)) <$> Proto.Targets req in
  try resp := Scan impl (MkScanRequest targets) in
  Ok (Proto.MkScanResponse (internalAssessmentToProto <$> SResp_Assessments resp)
        (SResp_Errors resp) (internalMappingRefsToProto (SResp_MappingReferences resp))).

(** ** Discovery (discovery.go) *)

Record ProviderInfo := MkProviderInfo {
  ProviderID : string;
  PI_EvaluatorID : string;
  ExecutablePath : path;
}.

Definition ProviderExecutablePrefix : string := "complyctl-provider-".

(** [info.Mode()&0111] *)
Definition executable (perm : Z) : bool := negb (Z.land perm 73 =? 0)%Z.

(** The loop of [scanDir]; [entry.Info] is a system call of its own. *)
Fixpoint scan_providers (dir : path) (entries : list (string * node)) : io (list ProviderInfo) :=
  match entries with
  | [] => io_ret []
  | (name, x) :: rest =>
      if is_dir (Some x) then scan_providers dir rest
      else match cut_prefix name ProviderExecutablePrefix with
           | None => scan_providers dir rest
           | Some providerID =>
               let! info := os_Stat (dir ++ [name]) in
               match info with
               | Ok (File _ perm) =>
                   if executable perm then
                     let! rest' := scan_providers dir rest in
                     io_ret (MkProviderInfo providerID providerID (dir ++ [name]) :: rest')
                   else scan_providers dir rest
               | _ => scan_providers dir rest
               end
           end
  end.

Definition scanDir (dir : path) : io (result (list ProviderInfo)) :=
  let! r := os_ReadDir dir in
  match r with
  | Err e => if error_is e ErrNotExist then io_ret (Ok [])
             else io_ret (Err (Wrapf ("failed to read provider directory /" +:+ join "/" dir +:+ ": ") e ""))
  | Ok entries => let! l := scan_providers dir entries in io_ret (Ok l)
  end.

(** [DiscoverProviders] on the user directory and the system one. *)
Definition DiscoverProviders (userDir sysDir : path) : io (result (list ProviderInfo)) :=
  do! userProviders := scanDir userDir orelse (fun e => e) in
  let seen := PI_EvaluatorID <$> userProviders in
  do! sysProviders := scanDir sysDir orelse (fun e => e) in
  io_ret (Ok (userProviders ++ filter (fun p => PI_EvaluatorID p ∉ seen) sysProviders)).

(** ** The manager (manager.go) *)

(** [err.Error()] and the [%v] of an error. *)
Definition sentinel_text (s : sentinel) : string :=
  match s with
  | ErrVersionNotFound => "version not found"
  | ErrNotExist => "no such file or directory"
  | ErrExist => "file exists"
  | ErrNotDir => "not a directory"
  | ErrIsDir => "is a directory"
  | ErrRefNotFound => "not found"
  | ErrAlreadyExists => "already exists"
  | ErrIO code => "errno " +:+ itoa code
  end.
Fixpoint error_text (e : error) : string :=
  match e with
  | Errorf msg => msg
  | Sentinel s => sentinel_text s
  | Wrapf pre c post => pre +:+ error_text c +:+ post
  | Joined a b => error_text a +:+ String "010" (error_text b)
  end.

Record LoadedProvider := MkLoadedProvider { Info : ProviderInfo; Client : ProviderImpl }.

(** The plugins map of a [Manager]. *)
Abbreviation plugins := (gmap string LoadedProvider).

(** [NewClient]: starting a provider process. *)
Class Launcher := new_client : path -> result ProviderImpl.

(** The loop of [LoadProviders]: providers whose Describe fails or that report
    themselves unhealthy are skipped with a warning; a process that cannot be
    started ends the loading, with what was registered so far. *)
Fixpoint load_loop {launcher : Launcher} (infos : list ProviderInfo) (m : plugins)
    : result unit * plugins :=
  match infos with
  | [] => (Ok tt, m)
  | info :: rest =>
      match new_client (ExecutablePath info) with
      | Err e => (Err (Wrapf ("failed to create client for provider " +:+ ProviderID info +:+ ": ") e ""), m)
      | Ok client =>
          match Describe client tt with
          | Err _ => load_loop rest m
          | Ok d => if negb (Desc_Healthy d) then load_loop rest m
                    else load_loop rest (<[PI_EvaluatorID info := MkLoadedProvider info client]> m)
          end
      end
  end.

Definition LoadProviders {launcher : Launcher} (userDir sysDir : path) (m : plugins)
    : io (result unit * plugins) :=
  let! r := DiscoverProviders userDir sysDir in
  io_ret (match r with
          | Err e => (Err (Wrapf "failed to discover providers: " e ""), m)
          | Ok infos => load_loop infos m
          end).

Definition GetProvider (m : plugins) (evaluatorID : string) : result LoadedProvider :=
  match m !! evaluatorID with
  | Some lp => Ok lp
  | None => Err (Errorf ("provider not found for evaluator ID " +:+ evaluatorID +:+
                         " (available: [" +:+ join " " (map_to_list m).*1 +:+ "])"))
  end.

(** [ListProviders]: one loaded provider per provider id, in some order. *)
Fixpoint list_loop (l : list (string * LoadedProvider)) (seen : gset string) : list LoadedProvider :=
  match l with
  | [] => []
  | (_, lp) :: rest =>
      let id := ProviderID (Info lp) in
      if bool_decide (id ∈ seen) then list_loop rest seen
      else lp :: list_loop rest ({[id]} ∪ seen)
  end.
Definition ListProviders (m : plugins) : list LoadedProvider := list_loop (map_to_list m) ∅.

(** The requests a routing call sends, in order: provider ids. *)
Abbreviation calls := (list string).

Definition generate_one (lp : LoadedProvider) (evaluatorID : string) (req : GenerateRequest)
    : result unit :=
  try resp := Generate (Client lp) req
    orelse (fun e => Wrapf ("provider " +:+ ProviderID (Info lp) +:+ " generate failed: ") e "") in
  guard_err (negb (GResp_Success resp))
    (Errorf ("provider " +:+ ProviderID (Info lp) +:+ " (evaluator " +:+ evaluatorID +:+ "): " +:+
             GResp_ErrorMessage resp)).

Fixpoint generate_all (l : list LoadedProvider) (req : GenerateRequest) : result unit * calls :=
  match l with
  | [] => (Ok tt, [])
  | lp :: rest =>
      match generate_one lp (PI_EvaluatorID (Info lp)) req with
      | Err e => (Err e, [ProviderID (Info lp)])
      | Ok _ => let '(r, c) := generate_all rest req in (r, ProviderID (Info lp) :: c)
      end
  end.

Definition RouteGenerate (m : plugins) (evaluatorID : string) (globalVars targetVars : gmap string string)
    (configs : list AssessmentConfiguration) (complypackContentPath : string) : result unit * calls :=
  let req := MkGenerateRequest globalVars configs targetVars complypackContentPath in
  if negb (bool_decide (evaluatorID = "")) then
    match GetProvider m evaluatorID with
    | Err e => (Err (Wrapf ("no provider registered for evaluator " +:+ evaluatorID +:+ ": ") e ""), [])
    | Ok p => (generate_one p evaluatorID req, [ProviderID (Info p)])
    end
  else generate_all (ListProviders m) req.

Record ScanResult := MkScanResult {
  SR_Assessments : list AssessmentLog;
  SR_Errors : list string;
  SR_MappingReferences : list MappingReference;
  SR_rpcFailures : list (string * string);
}.

Definition HasErrors (r : ScanResult) : bool := negb (bool_decide (SR_Errors r = [])).

(** [deadline] is whether the context's deadline has passed. *)
Definition scanErrorMessage (deadline : bool) (providerID : string) (scanErr : error) : string :=
  "provider " +:+ providerID +:+ " failed: " +:+ error_text scanErr +:+
  (if deadline then
     String "010" (String "010" "The scan exceeded the deadline.") +:+
     String "010" "  - Increase the timeout: complyctl scan --timeout 15m ..." +:+
     String "010" "  - Check .complytime/complyctl.log"
   else "").

(** One provider's contribution to a broadcast. *)
Definition scan_step (deadline : bool) (req : ScanRequest) (acc : ScanResult) (p : LoadedProvider)
    : ScanResult :=
  match Scan (Client p) req with
  | Err e =>
      let msg := scanErrorMessage deadline (ProviderID (Info p)) e in
      MkScanResult (SR_Assessments acc) (SR_Errors acc ++ [msg]) (SR_MappingReferences acc)
        (SR_rpcFailures acc ++ [(PI_EvaluatorID (Info p), msg)])
  | Ok resp =>
      MkScanResult (SR_Assessments acc ++ SResp_Assessments resp) (SR_Errors acc ++ SResp_Errors resp)
        (SR_MappingReferences acc ++ SResp_MappingReferences resp) (SR_rpcFailures acc)
  end.

Definition RouteScanResult (deadline : bool) (m : plugins) (evaluatorID : string)
    (targets : list Target) : result ScanResult :=
  let req := MkScanRequest targets in
  if negb (bool_decide (evaluatorID = "")) then
    try p := GetProvider m evaluatorID
      orelse (fun e => Wrapf ("no provider registered for evaluator " +:+ evaluatorID +:+ ": ") e "") in
    match Scan (Client p) req with
    | Err e =>
        let msg := scanErrorMessage deadline (ProviderID (Info p)) e in
        Ok (MkScanResult [] [msg] [] [(evaluatorID, msg)])
    | Ok resp => Ok (MkScanResult (SResp_Assessments resp) (SResp_Errors resp)
                       (SResp_MappingReferences resp) [])
    end
  else Ok (fold_left (scan_step deadline req) (ListProviders m) (MkScanResult [] [] [] [])).

Definition errorAssessments (evaluatorID message : string) : list AssessmentLog :=
  [MkAssessmentLog "" (evaluatorID +:+ "-error") [MkStep "provider-error" ResultError message]
     message ConfidenceLevelNotSet [] ""].

Definition RouteScan (deadline : bool) (m : plugins) (evaluatorID : string) (targets : list Target)
    : result (list AssessmentLog) :=
  try res := RouteScanResult deadline m evaluatorID targets in
  Ok (SR_Assessments res ++ flat_map (fun f => errorAssessments f.1 f.2) (SR_rpcFailures res)).

(** ** The wire is faithful *)

Definition norm_result (r : Result) : Result :=
  if bool_decide (1 <= r <= 4)%Z then r else ResultUnspecified.
Definition norm_confidence (c : ConfidenceLevel) : ConfidenceLevel :=
  if bool_decide (1 <= c <= 4)%Z then c else ConfidenceLevelNotSet.

(** What crosses the wire of an assessment: one identifier, and enum values of
    the protocol. *)
Definition norm_assessment (a : AssessmentLog) : AssessmentLog :=
  MkAssessmentLog (if bool_decide (AL_PlanID a = "") then AL_RequirementID a else AL_PlanID a) ""
    ((fun s => MkStep (Step_Name s) (norm_result (Step_Result s)) (Step_Message s)) <$> AL_Steps a)
    (AL_Message a) (norm_confidence (AL_Confidence a)) (AL_Evidence a) (AL_Recommendation a).

Definition norm_response (r : ScanResponse) : ScanResponse :=
  MkScanResponse (norm_assessment <$> SResp_Assessments r) (SResp_Errors r) (SResp_MappingReferences r).

Lemma result_wire r : protoResultToInternal (internalResultToProto r) = norm_result r.
Proof.
  unfold internalResultToProto, norm_result, ResultPassed, ResultFailed, ResultSkipped, ResultError.
  destruct (Z.eqb_spec r 1) as [->|]; [done|]. destruct (Z.eqb_spec r 2) as [->|]; [done|].
  destruct (Z.eqb_spec r 3) as [->|]; [done|]. destruct (Z.eqb_spec r 4) as [->|]; [done|].
  rewrite bool_decide_eq_false_2; [done|lia].
Qed.

Lemma confidence_wire c : protoConfidenceToInternal (internalConfidenceToProto c) = norm_confidence c.
Proof.
  unfold internalConfidenceToProto, norm_confidence, ConfidenceLevelUndetermined, ConfidenceLevelLow,
    ConfidenceLevelMedium, ConfidenceLevelHigh.
  destruct (Z.eqb_spec c 1) as [->|]; [done|]. destruct (Z.eqb_spec c 2) as [->|]; [done|].
  destruct (Z.eqb_spec c 3) as [->|]; [done|]. destruct (Z.eqb_spec c 4) as [->|]; [done|].
  rewrite bool_decide_eq_false_2; [done|lia].
Qed.

Lemma fmap_id_ext {A} (f : A -> A) (l : list A) : (forall x, f x = x) -> f <$> l = l.
Proof. intros H. rewrite <-(list_fmap_id l) at 2. apply list_fmap_ext. intros ? x _. apply H. Qed.

Lemma evidence_wire l : protoEvidenceToInternal (internalEvidenceToProto l) = l.
Proof.
  unfold protoEvidenceToInternal, internalEvidenceToProto. rewrite <-list_fmap_compose.
  apply fmap_id_ext. intros [a b c d e [[]|]]; done.
Qed.

Lemma mapping_wire l : protoMappingRefsToInternal (internalMappingRefsToProto l) = l.
Proof.
  unfold protoMappingRefsToInternal, internalMappingRefsToProto. rewrite <-list_fmap_compose.
  apply fmap_id_ext. by intros [].
Qed.

Lemma assessment_wire a : protoAssessmentToInternal (internalAssessmentToProto a) = norm_assessment a.
Proof.
  unfold protoAssessmentToInternal, internalAssessmentToProto, norm_assessment. simpl.
  rewrite confidence_wire, evidence_wire, <-list_fmap_compose. f_equal.
  apply list_fmap_ext. intros _ s _. simpl. by rewrite result_wire.
Qed.


(** a Generate request through the wire reaches the provider with
    every variable, configuration and the complypack path intact, except the
    evaluator id of a configuration, which is for routing only. *)
Theorem Generate_over_wire impl req :
  Client_Generate (grpcServer_Generate impl) req =
    match Generate impl (MkGenerateRequest (GReq_GlobalVariables req)
            ((fun c => MkAssessmentConfiguration (AC_PlanID c) (AC_RequirementID c)
                         (AC_Parameters c) "") <$> GReq_Configuration req)
            (GReq_TargetVariables req) (GReq_ComplypackContentPath req)) with
    | Ok resp => Ok resp
    | Err e => Err (Wrapf "Generate RPC failed: " e "")
    end.
Proof.
  unfold Client_Generate, grpcServer_Generate. simpl. rewrite <-list_fmap_compose.
  assert (forall l, ((fun c => MkAssessmentConfiguration (Proto.PlanId c) (Proto.RequirementId c)
    (Proto.Parameters c) "") ∘ (fun cfg => Proto.MkAssessmentConfiguration (AC_PlanID cfg)
    (AC_RequirementID cfg) (AC_Parameters cfg))) <$> l = (fun c => MkAssessmentConfiguration (AC_PlanID c)
    (AC_RequirementID c) (AC_Parameters c) "") <$> l) as -> by done.
  destruct (Generate impl _) as [[]|e]; done.
Qed.

(** ** What discovery finds *)

(** A provider executable of a directory. *)
Definition provider_of (dir : path) (m : gmap string node) (p : ProviderInfo) : Prop :=
  exists data perm, m !! (ProviderExecutablePrefix +:+ ProviderID p) = Some (File data perm) /\
    executable perm = true /\ PI_EvaluatorID p = ProviderID p /\
    ExecutablePath p = dir ++ [ProviderExecutablePrefix +:+ ProviderID p].

Lemma scan_providers_spec dir m entries w :
  no_faults w -> get dir (w_fs w) = Some (Dir m) ->
  (forall name x, (name, x) ∈ entries -> m !! name = Some x) -> NoDup entries.*1 ->
  exists l w', scan_providers dir entries w = (l, w') /\ no_faults w' /\ w_fs w' = w_fs w /\
    NoDup (PI_EvaluatorID <$> l) /\
    (forall p, p ∈ l <-> provider_of dir m p /\
       (ProviderExecutablePrefix +:+ ProviderID p) ∈ entries.*1).
Proof.
  revert w. induction entries as [|[name x] rest IH]; intros w Hf Hd Hent Hnd.
  { exists [], w. split_and!; [done..|constructor|]. intros p. set_solver. }
  simpl in Hnd. apply NoDup_cons in Hnd as [Hname Hnd].
  assert (Hrest : forall n y, (n, y) ∈ rest -> m !! n = Some y) by (intros; apply Hent; by right).
  assert (Hx : m !! name = Some x) by (apply Hent; left).
  (* an entry that is no provider leaves the result to the others *)
  assert (Hskip : forall w1, no_faults w1 -> w_fs w1 = w_fs w ->
    (forall p, provider_of dir m p -> name <> ProviderExecutablePrefix +:+ ProviderID p) ->
    exists l w', scan_providers dir rest w1 = (l, w') /\ no_faults w' /\ w_fs w' = w_fs w /\
      NoDup (PI_EvaluatorID <$> l) /\
      (forall p, p ∈ l <-> provider_of dir m p /\
        (ProviderExecutablePrefix +:+ ProviderID p) ∈ (name :: rest.*1))).
  { intros w1 Hf1 Hfs Hno. destruct (IH w1) as (l & w' & ? & ? & Hfs' & ? & Hl); [done|by rewrite Hfs|done..|].
    exists l, w'. split_and!; [done|done|by rewrite Hfs'|done|]. intros p. rewrite Hl. split.
    - intros [? ?]. split; [done|]. by right.
    - intros [Hp [He|?]%elem_of_cons]; [|done]. by destruct (Hno p Hp). }
  cbn [scan_providers fmap list_fmap fst].
  destruct x as [data perm|mx]; cbn [is_dir]; cbv iota.
  2:{ apply Hskip; [done..|]. intros p (? & ? & Hp & _) ->. congruence. }
  destruct (cut_prefix name ProviderExecutablePrefix) as [id|] eqn:Ec.
  2:{ apply Hskip; [done..|]. intros p _ ->. by rewrite cut_prefix_app in Ec. }
  apply cut_prefix_Some in Ec. unfold io_bind, os_Stat, os_call. cbv beta.
  rewrite (Hf _), get_app, Hd. cbn [mbind option_bind get]. rewrite Hx.
  destruct (executable perm) eqn:Ex.
  - destruct (IH (tick (set_fs (w_fs w) w))) as (l & w' & Hl1 & ? & Hfs' & Hl2 & Hl); [done..|].
    unfold io_bind. rewrite Hl1. eexists _, w'. split_and!; [done|done|done| |].
    + rewrite fmap_cons. apply NoDup_cons. split; [|done]. simpl.
      intros (p & He & Hp)%list_elem_of_fmap. apply Hl in Hp as [(d & pm & _ & _ & Hid & _) Hin].
      destruct Hname. by rewrite Ec, He, Hid.
    + intros p. rewrite elem_of_cons, Hl, elem_of_cons. split.
      * intros [->|[? ?]]; [|auto]. cbn [ProviderID]. rewrite <-Ec. split; [|left; done].
        exists data, perm. cbn [ProviderID PI_EvaluatorID ExecutablePath]. by rewrite <-Ec.
      * intros [Hp [He|?]]; [|auto]. left. destruct Hp as (d & pm & H1 & H2 & H3 & H4).
        rewrite Ec in He. apply append_inj_l in He. destruct p as [a b c]. simpl in *. by subst.
  - apply Hskip; [done..|]. intros p (d & pm & Hp & Hpx & _) ->. congruence.
Qed.

Lemma scanDir_spec dir w :
  no_faults w -> (forall d pm, get dir (w_fs w) <> Some (File d pm)) ->
  exists l w', scanDir dir w = (Ok l, w') /\ no_faults w' /\ w_fs w' = w_fs w /\
    NoDup (PI_EvaluatorID <$> l) /\
    forall p, p ∈ l <-> exists m, get dir (w_fs w) = Some (Dir m) /\ provider_of dir m p.
Proof.
  intros Hf Hfile. unfold scanDir, io_bind, os_ReadDir, os_call. rewrite (Hf _).
  destruct (get dir (w_fs w)) as [[d pm|m]|] eqn:Eg; [by destruct (Hfile d pm)| |].
  2:{ eexists _, _. split_and!; [done..|constructor|]. intros p. split; [by intros ?%elem_of_nil|].
      by intros (? & ? & _). }
  assert (Hperm : dir_list m ≡ₚ map_to_list m) by apply merge_sort_Permutation.
  destruct (scan_providers_spec dir m (dir_list m) (tick (set_fs (w_fs w) w)))
    as (l & w' & Hl1 & ? & ? & ? & Hl); [done|done| | |].
  - intros name x Hx. rewrite Hperm in Hx. by apply elem_of_map_to_list.
  - rewrite Hperm. apply NoDup_fst_map_to_list.
  - rewrite Hl1. eexists _, _. split_and!; [done..|]. intros p. rewrite Hl. split.
    + intros [? _]. eauto.
    + intros (m' & ? & Hp). simplify_eq. split; [done|].
      destruct Hp as (d & pm & Hlook & _). rewrite Hperm.
      apply list_elem_of_fmap. eexists (_, _). split; [|by apply elem_of_map_to_list]. done.
Qed.

(** discovery.  When no call fails, the providers found are exactly
    the executable plain files with the provider prefix in the user directory,
    and those of the system directory whose id no user provider has; every
    evaluator id occurs once, so a user provider hides a system one. *)
Theorem DiscoverProviders_exact userDir sysDir w :
  no_faults w ->
  (forall d pm, get userDir (w_fs w) <> Some (File d pm)) ->
  (forall d pm, get sysDir (w_fs w) <> Some (File d pm)) ->
  exists l w', DiscoverProviders userDir sysDir w = (Ok l, w') /\
    NoDup (PI_EvaluatorID <$> l) /\
    forall p, p ∈ l <->
      (exists m, get userDir (w_fs w) = Some (Dir m) /\ provider_of userDir m p) \/
      (exists m, get sysDir (w_fs w) = Some (Dir m) /\ provider_of sysDir m p /\
         forall q mu, get userDir (w_fs w) = Some (Dir mu) -> provider_of userDir mu q ->
           PI_EvaluatorID q <> PI_EvaluatorID p).
Proof.
  intros Hf Hu Hs. unfold DiscoverProviders, io_try, io_bind, io_ret.
  destruct (scanDir_spec userDir w Hf Hu) as (lu & w1 & -> & Hf1 & Hfs1 & Hnu & Hlu).
  destruct (scanDir_spec sysDir w1 Hf1) as (ls & w2 & -> & Hf2 & Hfs2 & Hns & Hls);
    [by rewrite Hfs1|]. rewrite Hfs1 in Hls.
  eexists _, _. split; [done|]. split.
  - rewrite fmap_app. apply NoDup_app. split_and!; [done| |].
    + intros x Hx (p & -> & [Hp _]%list_elem_of_filter)%list_elem_of_fmap. done.
    + eapply sublist_NoDup; [exact Hns|]. apply fmap_sublist, sublist_filter.
  - intros p. rewrite elem_of_app, list_elem_of_filter, Hlu, Hls. split.
    + intros [?|[Hseen (m & ? & ?)]]; [by left|right]. exists m. split_and!; [done..|].
      intros q mu Hmu Hq He. apply Hseen. apply list_elem_of_fmap. exists q. rewrite Hlu. eauto.
    + intros [?|(m & Hm & Hp & Hno)]; [by left|right]. split; [|eauto].
      intros (q & He & (mu & ? & ?)%Hlu)%list_elem_of_fmap. by apply (Hno q mu).
Qed.

(** ** What routing covers *)

Section routing.
Implicit Types m : plugins.

(** A registered provider is filed under its own ids. *)
Definition registered m : Prop :=
  map_Forall (fun ev lp => PI_EvaluatorID (Info lp) = ev /\ ProviderID (Info lp) = ev) m.

Lemma load_loop_registered {launcher : Launcher} infos m r m' :
  load_loop infos m = (r, m') -> registered m ->
  Forall (fun i => ProviderID i = PI_EvaluatorID i) infos -> registered m'.
Proof.
  revert m. induction infos as [|i infos IH]; intros m; simpl; [by intros ?; simplify_eq|].
  destruct (new_client _) as [c|e]; [|by intros ?; simplify_eq].
  intros H Hr [Hi Hall]%Forall_cons. revert H.
  destruct (Describe c tt) as [d|e]; [|eauto]. destruct (negb _); [eauto|]. intros H.
  eapply IH; [done| |done]. apply map_Forall_insert_2; [|done]. done.
Qed.

Lemma list_loop_all l seen :
  NoDup ((ProviderID ∘ Info ∘ snd) <$> l) ->
  (forall x, x ∈ l -> ProviderID (Info x.2) ∉ seen) -> list_loop l seen = l.*2.
Proof.
  revert seen. induction l as [|[k lp] l IH]; intros seen; simpl; [done|].
  intros [Hk Hnd]%NoDup_cons Hseen. rewrite bool_decide_eq_false_2.
  2:{ apply (Hseen (k, lp)). left. }
  f_equal. apply IH; [done|]. intros x Hx. rewrite elem_of_union, elem_of_singleton. intros [He|?].
  - destruct Hk. apply list_elem_of_fmap. eauto.
  - by apply (Hseen x); [right|].
Qed.

(** With registered providers the deduplication of [ListProviders] drops none. *)
Lemma ListProviders_all m : registered m -> ListProviders m = (map_to_list m).*2.
Proof.
  intros Hm. unfold ListProviders. apply list_loop_all; [|set_solver].
  assert ((ProviderID ∘ Info ∘ snd) <$> map_to_list m = (map_to_list m).*1) as ->;
    [|apply NoDup_fst_map_to_list].
  apply list_fmap_ext. intros i [k lp] Hi. simpl.
  apply list_elem_of_lookup_2, elem_of_map_to_list in Hi. by apply Hm in Hi as [_ ?].
Qed.

Definition answered (req : ScanRequest) (p : LoadedProvider) : list AssessmentLog :=
  match Scan (Client p) req with Ok r => SResp_Assessments r | Err _ => [] end.
Definition failures (deadline : bool) (req : ScanRequest) (p : LoadedProvider) : list (string * string) :=
  match Scan (Client p) req with
  | Ok _ => [] | Err e => [(PI_EvaluatorID (Info p), scanErrorMessage deadline (ProviderID (Info p)) e)]
  end.
Definition reported (deadline : bool) (req : ScanRequest) (p : LoadedProvider) : list string :=
  match Scan (Client p) req with
  | Ok r => SResp_Errors r | Err e => [scanErrorMessage deadline (ProviderID (Info p)) e]
  end.

Lemma scan_fold deadline req l acc :
  let r := fold_left (scan_step deadline req) l acc in
  SR_Assessments r = SR_Assessments acc ++ flat_map (answered req) l /\
  SR_Errors r = SR_Errors acc ++ flat_map (reported deadline req) l /\
  SR_rpcFailures r = SR_rpcFailures acc ++ flat_map (failures deadline req) l.
Proof.
  revert acc. induction l as [|p l IH]; intros acc; simpl; [by rewrite !app_nil_r|].
  destruct (IH (scan_step deadline req acc p)) as (H1 & H2 & H3). rewrite H1, H2, H3.
  unfold scan_step, answered, reported, failures.
  destruct (Scan (Client p) req); simpl; by rewrite ?app_nil_r, <-?app_assoc.
Qed.

(** a scan loses nothing.  Addressed to one evaluator it asks that
    provider alone.  Broadcast, it asks every registered provider once, in some
    order: all their assessments are returned, a provider whose call fails adds
    an error message and, for callers of the older interface, an error
    assessment of its evaluator, and the failure stops no other provider. *)
Theorem RouteScan_covers deadline m ev targets :
  registered m ->
  let req := MkScanRequest targets in
  match RouteScanResult deadline m ev targets, RouteScan deadline m ev targets with
  | Err _, Err _ => ev <> "" /\ m !! ev = None
  | Ok r, Ok logs =>
      exists asked : list LoadedProvider,
        (if bool_decide (ev = "") then asked ≡ₚ (map_to_list m).*2
         else exists lp, m !! ev = Some lp /\ asked = [lp]) /\
        SR_Assessments r = flat_map (answered req) asked /\
        SR_Errors r = flat_map (reported deadline req) asked /\
        logs = flat_map (answered req) asked ++
               flat_map (fun f => errorAssessments f.1 f.2) (flat_map (failures deadline req) asked)
  | _, _ => False
  end.
Proof.
  intros Hm req. unfold RouteScan, RouteScanResult, GetProvider. fold req.
  destruct (bool_decide_reflect (ev = "")) as [->|Hev]; simpl.
  - rewrite ListProviders_all by done. exists (map_to_list m).*2.
    destruct (scan_fold deadline req (map_to_list m).*2 (MkScanResult [] [] [] [])) as (H1 & H2 & H3).
    rewrite H1, H2, H3. by split_and!.
  - destruct (m !! ev) as [lp|] eqn:El; simpl; [|done].
    apply Hm in El as [He1 He2].
    assert (flat_map (answered req) [lp] = answered req lp /\
            flat_map (reported deadline req) [lp] = reported deadline req lp /\
            flat_map (failures deadline req) [lp] = failures deadline req lp) as (F1 & F2 & F3)
      by (simpl; by rewrite !app_nil_r).
    unfold answered, reported, failures in *.
    destruct (Scan (Client lp) req) as [resp|e] eqn:Es; simpl; exists [lp]; rewrite F1, F2, F3;
      (split_and!; [by exists lp|..]); simpl; rewrite ?app_nil_r, ?He1; done.
Qed.
End routing.
