(* ===== verification/Generation.v ===== *)
(** * Assessment groups and generation state (internal/policy/{assessment,generation_state}.go)

    The provider configurations of a policy graph and their grouping by
    evaluator, and the persisted record of what a generation was made from. *)
From stdpp Require Import gmap.
From S2P Require Import Prelude GoStrings Digest OciRef World State Complypack Sync Config.
From S2P Require Import Workspace Provider.

(** ** The dependency graph (resolver.go), as the grouping sees it *)

Record Assessment := MkAssessment {
  A_ID : string;
  A_RequirementID : string;
  A_EvaluatorID : string;
  A_Parameters : gmap string string;
}.

(** What the code reads of a Gemara control catalog. *)
Record GControl := MkGControl { GC_Id : string; GC_Requirements : list string }.
Record ControlCatalog := MkControlCatalog { CC_Controls : list GControl }.

Record Control := MkControl { Ctl_ID : string; Ctl_Content : string; Ctl_Parsed : option ControlCatalog }.
Record Guideline := MkGuideline { Gl_ID : string; Gl_Content : string }.

Record PolicyTimeline := MkPolicyTimeline {
  TL_EvaluationStart : string;
  TL_EvaluationEnd : string;
  TL_EvaluationNotes : string;
  TL_EnforcementStart : string;
  TL_EnforcementEnd : string;
  TL_EnforcementNotes : string;
}.

Record DependencyGraph := MkDependencyGraph {
  DG_PolicyID : string;
  DG_Controls : list Control;
  DG_Guidelines : list Guideline;
  DG_Assessments : list Assessment;
  DG_EvaluatorID : string;
  DG_Timeline : option PolicyTimeline;
  DG_MappingReferences : list MappingReference;
}.

(** ** Grouping (assessment.go) *)

Record EvaluatorGroup := MkEvaluatorGroup {
  EG_EvaluatorID : string;
  EG_Configs : list AssessmentConfiguration;
}.

Definition ExtractAssessmentConfigs (graph : DependencyGraph) : list AssessmentConfiguration :=
  (fun a => MkAssessmentConfiguration (A_ID a) (A_RequirementID a) (A_Parameters a) (A_EvaluatorID a))
    <$> DG_Assessments graph.

(** One iteration of the grouping loop; a missing group is the zero value. *)
Definition group_step (groups : gmap string EvaluatorGroup) (cfg : AssessmentConfiguration)
    : gmap string EvaluatorGroup :=
  let evalID := AC_EvaluatorID cfg in
  let g := default (MkEvaluatorGroup "" []) (groups !! evalID) in
  <[evalID := MkEvaluatorGroup evalID (EG_Configs g ++ [cfg])]> groups.

Definition GroupByEvaluator (configs : list AssessmentConfiguration) (graph : DependencyGraph)
    : gmap string EvaluatorGroup :=
  if negb (bool_decide (DG_EvaluatorID graph = "")) then
    {[ DG_EvaluatorID graph := MkEvaluatorGroup (DG_EvaluatorID graph) configs ]}
  else fold_left group_step configs ∅.

(** ** Generation state (generation_state.go) *)

Record GenerationState := MkGenerationState {
  GS_PolicyID : string;
  GS_PolicyDigest : string;
  GS_ComplypackDigests : gmap string string;
  GS_GeneratedAt : string;
  GS_EvaluatorIDs : list string;
}.

Definition NewGenerationState (now policyID digest : string) (evaluatorIDs : list string)
    (complypackDigests : gmap string string) : GenerationState :=
  MkGenerationState policyID digest complypackDigests now evaluatorIDs.

Definition IsFresh (s : GenerationState) (currentDigest : string)
    (currentComplypackDigests : gmap string string) : bool :=
  if negb (bool_decide (GS_PolicyDigest s = currentDigest)) then false
  else bool_decide (GS_ComplypackDigests s = currentComplypackDigests).

Definition generation_dir (baseDir : path) : path := baseDir ++ [WorkspaceDir; "generation"].
Definition generation_path (baseDir : path) (policyID : string) : path :=
  path_join (generation_dir baseDir) (policyID +:+ ".json").

Section generation.
  Context {gsCodec : Codec GenerationState}.

Definition SaveGenerationState (baseDir : path) (policyID : string) (state : GenerationState)
    : io (result unit) :=
  let p := generation_path baseDir policyID in
  do! _ := os_MkdirAll (removelast p)
    orelse (fun e => Wrapf "failed to create generation state directory: " e "") in
  do! data := io_lift (marshal state)
    orelse (fun e => Wrapf "failed to marshal generation state: " e "") in
  do! _ := os_WriteFile p data 384
    orelse (fun e => Wrapf "failed to write generation state: " e "") in
  io_ret (Ok tt).

(** [None] is Go's nil state: no file. *)
Definition LoadGenerationState (baseDir : path) (policyID : string)
    : io (result (option GenerationState)) :=
  let! r := os_ReadFile (generation_path baseDir policyID) in
  match r with
  | Err e => if error_is e ErrNotExist then io_ret (Ok None)
             else io_ret (Err (Wrapf "failed to read generation state: " e ""))
  | Ok data => io_ret (match unmarshal data with
                       | Err e => Err (Wrapf "failed to parse generation state: " e "")
                       | Ok state => Ok (Some state)
                       end)
  end.

(** What [InvalidateForEvaluator] does with one file: a warning, or an error
    that ends the walk. *)
Definition invalidate_file (evaluatorID : string) (p : path) : io (result (list string)) :=
  let! r := os_ReadFile p in
  match r with
  | Err e => io_ret (Ok ["skipped unreadable file /" +:+ join "/" p +:+ ": " +:+ error_text e])
  | Ok data =>
      match unmarshal data with
      | Err e => io_ret (Ok ["skipped malformed JSON /" +:+ join "/" p +:+ ": " +:+ error_text e])
      | Ok state =>
          if contains evaluatorID (GS_EvaluatorIDs state) then
            let! r := os_Remove p in
            match r with
            | Err e => if error_is e ErrNotExist then io_ret (Ok [])
                       else io_ret (Err (Wrapf ("failed to remove generation state /" +:+
                                                join "/" p +:+ ": ") e ""))
            | Ok _ => io_ret (Ok [])
            end
          else io_ret (Ok [])
      end
  end.

(** The walk, entry by entry in lexical order. *)
Fixpoint invalidate_entries (visit : path -> io (result (list string))) (evaluatorID : string)
    (dir : path) (entries : list (string * node)) : io (result (list string)) :=
  match entries with
  | [] => io_ret (Ok [])
  | (name, x) :: rest =>
      do! ws := (if is_dir (Some x) then visit (dir ++ [name])
                 else if has_suffix name ".json" then invalidate_file evaluatorID (dir ++ [name])
                 else io_ret (Ok []))
        orelse (fun e => e) in
      do! ws' := invalidate_entries visit evaluatorID dir rest orelse (fun e => e) in
      io_ret (Ok (ws ++ ws'))
  end.

Fixpoint invalidate_dir (fuel : nat) (evaluatorID : string) (dir : path) : io (result (list string)) :=
  match fuel with
  | O => io_ret (Err (Errorf "walk: out of fuel"))
  | S fuel' =>
      let! r := os_ReadDir dir in
      match r with
      | Err e => if error_is e ErrNotExist then io_ret (Ok []) else io_ret (Err e)
      | Ok entries => invalidate_entries (invalidate_dir fuel' evaluatorID) evaluatorID dir entries
      end
  end.

(** [os.OpenRoot], then the walk from the generation directory. *)
Definition InvalidateForEvaluator (baseDir : path) (evaluatorID : string)
    : io (result (list string)) := fun w =>
  let genDir := generation_dir baseDir in
  (let! r := os_ReadDir genDir in
   match r with
   | Err e => if error_is e ErrNotExist then io_ret (Ok [])
              else io_ret (Err (Wrapf "failed to open generation directory: " e ""))
   | Ok _ => invalidate_dir (node_size (w_fs w)) evaluatorID genDir
   end) w.
End generation.

Definition RemoveEvaluatorArtifacts (baseDir : path) (evaluatorID : string) : io (result unit) :=
  match ValidatePathComponent evaluatorID with
  | Some e => io_ret (Err (Wrapf "invalid evaluator ID: " e ""))
  | None =>
      let dir := path_join (baseDir ++ [WorkspaceDir]) evaluatorID in
      do! _ := os_RemoveAll dir
        orelse (fun e => Wrapf ("failed to remove evaluator artifacts /" +:+ join "/" dir +:+ ": ") e "") in
      io_ret (Ok tt)
  end.

(** ** Grouping partitions the configurations *)

Definition for_evaluator (ev : string) (c : AssessmentConfiguration) : Prop := AC_EvaluatorID c = ev.
#[export] Instance for_evaluator_dec ev c : Decision (for_evaluator ev c).
Proof. unfold for_evaluator. apply _. Defined.

Lemma group_fold configs (m : gmap string EvaluatorGroup) ev :
  map_Forall (fun k g => EG_EvaluatorID g = k) m ->
  fold_left group_step configs m !! ev =
    match m !! ev, filter (for_evaluator ev) configs with
    | None, [] => None
    | None, cs => Some (MkEvaluatorGroup ev cs)
    | Some g, cs => Some (MkEvaluatorGroup ev (EG_Configs g ++ cs))
    end.
Proof.
  revert m. induction configs as [|c cs IH]; intros m Hm; simpl.
  - destruct (m !! ev) as [[k l]|] eqn:E; [|done]. apply Hm in E. simpl in *. subst.
    by rewrite app_nil_r.
  - rewrite IH by (apply map_Forall_insert_2; [done|exact Hm]). unfold group_step.
    destruct (decide (AC_EvaluatorID c = ev)) as [E|E].
    + rewrite E, lookup_insert_eq. rewrite filter_cons_True by done.
      destruct (m !! ev) as [g|]; simpl; [by rewrite <-app_assoc|done].
    + rewrite lookup_insert_ne by done. by rewrite filter_cons_False.
Qed.

Lemma group_loop configs ev :
  fold_left group_step configs ∅ !! ev =
    match filter (for_evaluator ev) configs with
    | [] => None
    | cs => Some (MkEvaluatorGroup ev cs)
    end.
Proof. rewrite group_fold by apply map_Forall_empty. by rewrite lookup_empty. Qed.

(** Grouping by evaluator.  Without a policy-wide evaluator, the
    group of an evaluator is exactly the configurations that name it, in their
    original order, and an evaluator none names has no group, so every
    configuration is in exactly one group.  With one, there is a single group
    holding every configuration. *)
Theorem GroupByEvaluator_partition configs graph :
  (DG_EvaluatorID graph = "" -> forall ev,
     GroupByEvaluator configs graph !! ev =
       match filter (for_evaluator ev) configs with
       | [] => None
       | cs => Some (MkEvaluatorGroup ev cs)
       end) /\
  (forall ev, DG_EvaluatorID graph = ev -> ev <> "" ->
     GroupByEvaluator configs graph = {[ ev := MkEvaluatorGroup ev configs ]}).
Proof.
  unfold GroupByEvaluator. split.
  - intros -> ev. simpl. apply group_loop.
  - intros ev -> Hne. by rewrite bool_decide_eq_false_2.
Qed.

(** The single-evaluator shortcut agrees with the loop when every configuration
    names the policy-wide evaluator. *)
Lemma GroupByEvaluator_shortcut configs graph :
  configs <> [] -> Forall (for_evaluator (DG_EvaluatorID graph)) configs ->
  GroupByEvaluator configs graph = fold_left group_step configs ∅.
Proof.
  intros Hne Hall. unfold GroupByEvaluator. destruct (bool_decide_reflect (DG_EvaluatorID graph = "")); [done|].
  simpl. apply map_eq. intros ev. rewrite group_loop.
  destruct (decide (DG_EvaluatorID graph = ev)) as [<-|Hn].
  - rewrite lookup_singleton_eq, filter_all by done. by destruct configs.
  - rewrite lookup_singleton_ne, filter_none; [done| |done].
    eapply Forall_impl; [exact Hall|]. unfold for_evaluator. intros; congruence.
Qed.

(** ** Invalidation removes exactly the files of the evaluator *)

Lemma alter_at_prefix_dir f d n n' q :
  alter_at f d n = Some n' -> q `prefix_of` d -> is_dir (get q n') = true.
Proof.
  revert n n' q. induction d as [|x d IH]; intros [|m] n' q; simpl; [done| |done|].
  - intros (m' & _ & ->)%fmap_Some Hq. apply prefix_nil_inv in Hq. by subst.
  - destruct (m !! x) as [c|] eqn:E; [|done]. intros (c' & Hc & ->)%fmap_Some Hq.
    destruct q as [|y q]; [done|]. apply prefix_cons_inv_1 in Hq as Hy. subst.
    apply prefix_cons_inv_2 in Hq. simpl. rewrite lookup_insert_eq. by eapply IH.
Qed.

Lemma prefix_snoc_cases (q d : path) x : q `prefix_of` d ++ [x] -> q = d ++ [x] \/ q `prefix_of` d.
Proof.
  intros [k Hk]. destruct k as [|y k _] using rev_ind; [left; by rewrite app_nil_r in Hk|].
  rewrite app_assoc in Hk. apply app_inj_tail in Hk as [-> _]. right. by apply prefix_app_r.
Qed.

(** Removing a plain file, when no call fails. *)
Lemma os_Remove_file d name data perm w :
  no_faults w -> get (d ++ [name]) (w_fs w) = Some (File data perm) ->
  exists w', os_Remove (d ++ [name]) w = (Ok tt, w') /\ no_faults w' /\
    get (d ++ [name]) (w_fs w') = None /\
    (forall q, diverges (d ++ [name]) q -> get q (w_fs w') = get q (w_fs w)) /\
    (forall q, is_dir (get q (w_fs w)) = true -> is_dir (get q (w_fs w')) = true).
Proof.
  intros Hf Hg. pose proof (preserves_Remove d name w) as HP.
  unfold os_Remove, os_call in *. rewrite (Hf _), split_last_snoc, Hg in *.
  rewrite get_app in Hg. destruct (get d (w_fs w)) as [[|m]|] eqn:Ed; [done| |done].
  destruct (alter_at_is_Some (delete_entry name) d (w_fs w) m (delete name m) Ed eq_refl) as [n' Ha].
  rewrite Ha in *. eexists. split_and!; [done|done| |done|].
  - apply alter_at_get in Ha as (m1 & m2 & H1 & H2 & H3). unfold delete_entry in H2. simplify_eq.
    simpl. rewrite get_app, H3. simpl. by rewrite lookup_delete_eq.
  - intros q Hq. simpl in *. destruct (decide (q `prefix_of` d)) as [Hp|Hnp].
    { by eapply alter_at_prefix_dir. }
    destruct (decide ((d ++ [name]) `prefix_of` q)) as [[t ->]|Hn2].
    { rewrite !get_app, Ed in Hq. cbn [mbind option_bind get] in *.
      destruct (m !! name) as [[? ?|]|] eqn:E; simplify_eq/=.
      destruct t; simpl in Hq; done. }
    rewrite HP; [done|]. split; [done|]. intros Hp. destruct Hn2.
    apply prefix_snoc_cases in Hp as [->|?]; done.
Qed.

Section invalidation.
  Context {gsCodec : Codec GenerationState} (ev : string).

(** The file [data] records the evaluator. *)
Definition mentions (data : string) : bool :=
  match unmarshal data with
  | Ok st => contains ev (GS_EvaluatorIDs st)
  | Err _ => false
  end.

(** A generation state file to be removed: its name and content. *)
Definition doomed (t : path) (data : string) : Prop :=
  exists t0 name, t = t0 ++ [name] /\ has_suffix name ".json" = true /\ mentions data = true.

Lemma doomed_cons x t data : t <> [] -> doomed (x :: t) data <-> doomed t data.
Proof.
  intros Ht. unfold doomed. split.
  - intros (t0 & name & He & ?). destruct t0 as [|y t0]; simplify_eq/=. eauto.
  - intros (t0 & name & -> & ?). exists (x :: t0), name. done.
Qed.

(** The effect of a clean-up of the tree below [p]. *)
Definition cleaned (p : path) (w w' : world) : Prop :=
  no_faults w' /\
  (forall q, diverges p q -> get q (w_fs w') = get q (w_fs w)) /\
  (forall q, is_dir (get q (w_fs w)) = true -> is_dir (get q (w_fs w')) = true) /\
  (forall t data perm, t <> [] -> get (p ++ t) (w_fs w') = Some (File data perm) <->
     get (p ++ t) (w_fs w) = Some (File data perm) /\ ~ doomed t data).

(** One plain file. *)
Lemma invalidate_file_spec d name data perm w :
  no_faults w -> get (d ++ [name]) (w_fs w) = Some (File data perm) ->
  exists ws w', invalidate_file ev (d ++ [name]) w = (Ok ws, w') /\ no_faults w' /\
    (forall q, diverges (d ++ [name]) q -> get q (w_fs w') = get q (w_fs w)) /\
    (forall q, is_dir (get q (w_fs w)) = true -> is_dir (get q (w_fs w')) = true) /\
    get (d ++ [name]) (w_fs w') = (if mentions data then None else Some (File data perm)).
Proof.
  intros Hf Hg. unfold invalidate_file, io_bind, os_ReadFile, os_call, mentions, io_ret.
  rewrite (Hf _), Hg. destruct (unmarshal data) as [st|e]; [|eexists _, _; split_and!; done].
  destruct (contains ev _); [|eexists _, _; split_and!; done].
  destruct (os_Remove_file d name data perm (tick (set_fs (w_fs w) w))) as (w' & -> & ? & ? & ? & ?);
    [done|done|]. eexists _, _; split_and!; done.
Qed.

(** The entries of one directory, each handled on its own. *)
Lemma invalidate_entries_spec visit dir entries w :
  no_faults w -> NoDup entries.*1 -> is_dir (get dir (w_fs w)) = true ->
  (forall name x, (name, x) ∈ entries -> get (dir ++ [name]) (w_fs w) = Some x) ->
  (forall name x w1, (name, x) ∈ entries -> is_dir (Some x) = true -> no_faults w1 ->
     get (dir ++ [name]) (w_fs w1) = Some x ->
     exists ws w2, visit (dir ++ [name]) w1 = (Ok ws, w2) /\ cleaned (dir ++ [name]) w1 w2) ->
  exists ws w', invalidate_entries visit ev dir entries w = (Ok ws, w') /\ no_faults w' /\
    (forall q, is_dir (get q (w_fs w)) = true -> is_dir (get q (w_fs w')) = true) /\
    (forall q, (forall name, name ∈ entries.*1 -> diverges (dir ++ [name]) q) ->
       get q (w_fs w') = get q (w_fs w)) /\
    (forall name t data perm, name ∈ entries.*1 ->
       get (dir ++ name :: t) (w_fs w') = Some (File data perm) <->
       get (dir ++ name :: t) (w_fs w) = Some (File data perm) /\ ~ doomed (name :: t) data).
Proof.
  revert w. induction entries as [|[name x] rest IH]; intros w Hf Hnd Hd Hent Hvisit.
  { exists [], w. split_and!; try done. intros name t data perm Hin. by apply elem_of_nil in Hin. }
  simpl in Hnd. apply NoDup_cons in Hnd as [Hname Hnd].
  assert (Hx : get (dir ++ [name]) (w_fs w) = Some x) by (apply Hent; left).
  cbn [invalidate_entries].
  set (here := if is_dir (Some x) then _ else _).
  assert (exists ws w1, here w = (Ok ws, w1) /\ no_faults w1 /\
    (forall q, diverges (dir ++ [name]) q -> get q (w_fs w1) = get q (w_fs w)) /\
    (forall q, is_dir (get q (w_fs w)) = true -> is_dir (get q (w_fs w1)) = true) /\
    (forall t data perm, get ((dir ++ [name]) ++ t) (w_fs w1) = Some (File data perm) <->
       get ((dir ++ [name]) ++ t) (w_fs w) = Some (File data perm) /\ ~ doomed (name :: t) data))
    as (ws & w1 & Hrun & Hf1 & Hdiv & Hdirs & Hfiles).
  { unfold here. destruct x as [data perm|m]; cbn [is_dir].
    - assert (Hsub : forall n, n = w_fs w -> forall t dt pm, t <> [] ->
        get ((dir ++ [name]) ++ t) n = Some (File dt pm) -> False).
      { intros n -> t dt pm Ht. rewrite get_app, Hx. by destruct t. }
      assert (Hdoom : doomed [name] data <-> has_suffix name ".json" = true /\ mentions data = true).
      { unfold doomed. split; [|intros [? ?]; by exists [], name].
        intros (t0 & n & He & ? & ?). destruct t0 as [|? []]; by simplify_eq/=. }
      destruct (has_suffix name ".json") eqn:Es.
      + destruct (invalidate_file_spec dir name data perm w Hf Hx) as (ws & w1 & H1 & H2 & H3 & H4 & H5).
        exists ws, w1. split_and!; [done..|]. intros t dt pm. destruct t as [|y t].
        * rewrite app_nil_r, H5, Hx. destruct (mentions data); [|naive_solver].
          split; [done|]. intros [? Hn]. simplify_eq. by destruct Hn; apply Hdoom.
        * rewrite (get_app (dir ++ [name]) (y :: t)), H5. split.
          -- destruct (mentions data); done.
          -- intros [H _]. exfalso. by apply (Hsub _ eq_refl (y :: t) dt pm).
      + eexists _, w. split_and!; [done..|]. intros t dt pm. split; [|by intros [? _]].
        intros H. split; [done|]. destruct t as [|y t]; [|exfalso; by apply (Hsub _ eq_refl (y :: t) dt pm)].
        rewrite app_nil_r, Hx in H. simplify_eq. intros [? _]%Hdoom. done.
    - destruct (Hvisit name (Dir m) w) as (ws & w1 & H1 & H2 & H3 & H4 & H5); [left|done..|].
      exists ws, w1. split_and!; [done..|]. intros t dt pm.
      destruct t as [|y t]; [|rewrite doomed_cons by done; by apply H5].
      rewrite app_nil_r, Hx. split; [|by intros [? _]]. intros H.
      assert (is_dir (get (dir ++ [name]) (w_fs w1)) = true) by (apply H4; by rewrite Hx).
      rewrite H in *. done. }
  destruct (IH w1) as (ws2 & w2 & H1 & H2 & H3 & H4 & H5); [done|done|by apply Hdirs| | |].
  { intros n y Hy. rewrite Hdiv; [apply Hent; by right|]. apply diverges_snoc. intros ->.
    destruct Hname. apply list_elem_of_fmap. by exists (n, y). }
  { intros n y w3 Hy. apply Hvisit. by right. }
  exists (ws ++ ws2), w2. unfold io_try, io_bind. rewrite Hrun, H1. split_and!; [done|done|auto| |].
  - intros q Hq. rewrite H4, Hdiv; [done|apply Hq; left|]. intros n Hn. apply Hq. by right.
  - intros n t dt pm [->|Hn]%elem_of_cons.
    + cbn [fst]. rewrite H4.
      * replace (dir ++ name :: t) with ((dir ++ [name]) ++ t) by (by rewrite <-app_assoc). apply Hfiles.
      * intros n' Hn'. apply diverges_snoc. intros ->. done.
    + rewrite (H5 n t dt pm Hn). rewrite Hdiv; [done|].
      apply diverges_snoc. intros ->. done.
Qed.

Lemma invalidate_dir_spec fuel dir w m :
  no_faults w -> get dir (w_fs w) = Some (Dir m) -> (node_size (Dir m) <= fuel)%nat ->
  exists ws w', invalidate_dir fuel ev dir w = (Ok ws, w') /\ cleaned dir w w'.
Proof.
  revert dir w m. induction fuel as [|fuel IH]; intros dir w m Hf Hg Hfuel; [simpl in Hfuel; lia|].
  cbn [invalidate_dir]. unfold io_bind, os_ReadDir, os_call. rewrite (Hf _), Hg.
  assert (Hperm : dir_list m ≡ₚ map_to_list m) by apply merge_sort_Permutation.
  assert (Hin : forall name x, (name, x) ∈ dir_list m <-> m !! name = Some x).
  { intros. by rewrite Hperm, elem_of_map_to_list. }
  set (w0 := tick (set_fs (w_fs w) w)).
  destruct (invalidate_entries_spec (invalidate_dir fuel ev) dir (dir_list m) w0)
    as (ws & w' & H1 & H2 & H3 & H4 & H5); [done| | | | |].
  - rewrite Hperm. apply NoDup_fst_map_to_list.
  - simpl. by rewrite Hg.
  - intros name x Hx%Hin. simpl. rewrite get_app, Hg. simpl. by rewrite Hx.
  - intros name x w1 Hx%Hin Hdx Hf1 Hg1. destruct x as [|mx]; [done|].
    apply (IH _ _ mx); [done|done|]. apply node_size_child in Hx. simpl in *; lia.
  - exists ws, w'. split; [done|]. split_and!; [done| |exact H3|].
    + intros q Hq. apply H4. intros name _. by apply diverges_sym, diverges_app, diverges_sym.
    + intros [|x t] data perm Ht; [done|]. destruct (decide (x ∈ (dir_list m).*1)) as [Hx|Hx].
      { by apply H5. }
      assert (m !! x = None) as Hm.
      { apply eq_None_not_Some. intros [y Hy]. apply Hx, list_elem_of_fmap. exists (x, y).
        split; [done|]. by apply Hin. }
      rewrite H4 by (intros name Hn; apply diverges_snoc; intros ->; done).
      simpl. rewrite get_app, Hg. simpl. rewrite Hm. naive_solver.
Qed.

(** C24: invalidation is exact.  When no call fails and the generation
    directory exists, [InvalidateForEvaluator] succeeds; afterwards the files of
    that directory, at any depth, are exactly those it had before except the
    json files whose state lists the evaluator, with the same contents, and
    nothing outside it has changed.  Files that do not parse are kept. *)
Theorem InvalidateForEvaluator_exact baseDir w m :
  no_faults w -> get (generation_dir baseDir) (w_fs w) = Some (Dir m) ->
  exists ws w', InvalidateForEvaluator baseDir ev w = (Ok ws, w') /\
    (forall q, diverges (generation_dir baseDir) q -> get q (w_fs w') = get q (w_fs w)) /\
    (forall t data perm, t <> [] ->
       get (generation_dir baseDir ++ t) (w_fs w') = Some (File data perm) <->
       get (generation_dir baseDir ++ t) (w_fs w) = Some (File data perm) /\ ~ doomed t data).
Proof.
  intros Hf Hg. unfold InvalidateForEvaluator, io_bind, os_ReadDir, os_call. rewrite (Hf _), Hg.
  assert (Hsize : (node_size (Dir m) <= node_size (w_fs w))%nat) by by eapply node_size_get.
  destruct (invalidate_dir_spec (node_size (w_fs w)) (generation_dir baseDir)
    (tick (set_fs (w_fs w) w)) m) as (ws & w' & Hr & _ & H1 & _ & H2); [done..|].
  exists ws, w'. by split_and!.
Qed.
End invalidation.

(** ** Freshness *)

Section freshness.
  Context {gsCodec : Codec GenerationState}.

Lemma os_WriteFile_written p data perm w w' :
  os_WriteFile p data perm w = (Ok tt, w') -> exists pm, get p (w_fs w') = Some (File data pm).
Proof.
  intros H. destruct (split_last p) as [[d name]|] eqn:E.
  - apply split_last_Some in E as ->. apply os_WriteFile_ok in H as (pm & ? & _). eauto.
  - unfold os_WriteFile, os_call in H. rewrite E in H. by destruct (w_fault _ _).
Qed.

(** Freshness across runs.  The state saved after a generation is
    found again by the next run, which regards it as fresh exactly when the
    policy digest and the set of complypack digests are the ones it was saved
    with; any change, addition or removal of a complypack makes it stale. *)
Theorem generation_freshness baseDir policyID now digest evs packs w w' d' packs' :
  let st := NewGenerationState now policyID digest evs packs in
  SaveGenerationState baseDir policyID st w = (Ok tt, w') ->
  (forall data, marshal st = Ok data -> unmarshal data = Ok st) ->
  w_fault w' (w_tick w') = None ->
  exists st', (LoadGenerationState baseDir policyID w').1 = Ok (Some st') /\
    (IsFresh st' d' packs' = true <-> d' = digest /\ packs' = packs).
Proof.
  intros st Hsave Hcodec Hf. exists st. split.
  - unfold SaveGenerationState, io_try, io_bind, io_lift, io_ret in Hsave.
    destruct (os_MkdirAll _ w) as [[[]|] w1]; [|done].
    destruct (marshal st) as [data|] eqn:Em; [|done].
    destruct (os_WriteFile _ _ _ w1) as [[[]|] w2] eqn:Ew; [|done]. simplify_eq.
    apply os_WriteFile_written in Ew as [pm Hg].
    unfold LoadGenerationState, io_bind, os_ReadFile, os_call. rewrite Hf, Hg.
    unfold io_ret. by rewrite (Hcodec _ eq_refl).
  - unfold IsFresh. simpl. case_bool_decide; simpl; [|naive_solver].
    rewrite bool_decide_eq_true. naive_solver.
Qed.
End freshness.
