(* ===== verification/Resolver.v ===== *)
(** * Loading and resolving policies (internal/policy/{loader,resolver}.go)

    From the OCI Layout store of a policy to its dependency graph.  The store,
    the manifest decoder, the bundle library and YAML are parameters; the
    resolver is written against the interface [PolicyLoader], which [Loader]
    implements. *)
From stdpp Require Import gmap.
From S2P Require Import Prelude GoStrings Digest OciRef World State Complypack Sync Config.
From S2P Require Import Workspace Provider Generation.

Definition MediaTypeCatalog : string := "application/vnd.gemara.catalog.v1+yaml".
Definition MediaTypeGuidance : string := "application/vnd.gemara.guidance.v1+yaml".
Definition MediaTypePolicy : string := "application/vnd.gemara.policy.v1+yaml".

(** ** The interface of the loader *)

Class PolicyLoader := {
  LoadLayerByMediaType : string -> string -> string -> io (result string);
  LoadBundleFiles : string -> string -> io (result (gmap string string));
  DetectManifestShape : string -> string -> io (result bool);
  PolicyExists : string -> string -> io bool;
  ResolveVersion : string -> string -> io (result string);
}.

(** ** The loader (loader.go) *)

(** [ocispec.Manifest]: its config media type and its layers. *)
Record Manifest := MkManifest {
  Mf_ConfigMediaType : string;
  Mf_Layers : list (string * Descriptor);
}.

(** A Gemara bundle as [bundle.Unpack] returns it. *)
Record BundleFile := MkBundleFile { BF_Name : string; BF_Type : string; BF_Data : string }.
Record Bundle := MkBundle {
  B_Artifacts : list (string * string);
  B_Source : BundleFile;
  B_Imports : list BundleFile;
}.

(** Reading an OCI Layout store. *)
Class StoreReader := {
  store_Resolve : path -> string -> io (result Descriptor);
  store_Tags : path -> io (result (list string));
  parse_manifest : string -> result Manifest;
  bundle_Unpack : path -> string -> io (result Bundle);
  bundle_MediaTypeManifest : string;
}.

Section loader.
  Context `{Oras} {reader : StoreReader} (cacheMgr : path).

Definition resolveManifest (store : path) (version : string) : io (result Manifest) :=
  do! desc := store_Resolve store version orelse (fun e => Wrapf "version not in cache: " e "") in
  do! data := store_Fetch store desc orelse (fun e => Wrapf "failed to fetch manifest: " e "") in
  do! manifest := io_lift (parse_manifest data)
    orelse (fun e => Wrapf "failed to parse manifest JSON: " e "") in
  io_ret (Ok manifest).

Definition isBundleManifest (m : Manifest) : bool :=
  bool_decide (Mf_ConfigMediaType m = bundle_MediaTypeManifest).

(** [PolicyExists]; opening the store creates its directory. *)
Definition Loader_PolicyExists (policyID version : string) : io bool :=
  if bool_decide (policyID = "") || bool_decide (version = "") then io_ret false
  else let! r := NewPolicyStore cacheMgr policyID in
       match r with
       | Err _ => io_ret false
       | Ok store => let! r := store_Resolve store version in io_ret (is_ok r)
       end.

Definition GetCachedVersions (policyID : string) : io (result (list string)) :=
  let! ex := PolicyStoreExists cacheMgr policyID in
  if negb ex then io_ret (Ok [])
  else
    do! store := NewPolicyStore cacheMgr policyID
      orelse (fun e => Wrapf ("failed to open store for policy " +:+ policyID +:+ ": ") e "") in
    do! tags := store_Tags store
      orelse (fun e => Wrapf ("failed to list tags for policy " +:+ policyID +:+ ": ") e "") in
    io_ret (Ok tags).

(** Errors of [GetCachedVersions] are ignored here: no versions. *)
Definition cached_or_none (policyID : string) : io (list string) :=
  let! r := GetCachedVersions policyID in
  io_ret (match r with Ok l => l | Err _ => [] end).

Definition not_cached (policyID version : string) (cached : list string) : error :=
  Errorf ("policy " +:+ policyID +:+ "@" +:+ version +:+
          " not in cache (run 'complyctl get' first); cached: [" +:+ join " " cached +:+ "]").

Definition Loader_ResolveVersion (policyID configVersion : string) : io (result string) :=
  let version := if bool_decide (configVersion = "") then "latest" else configVersion in
  let! ex := Loader_PolicyExists policyID version in
  if (ex : bool) then io_ret (Ok version)
  else if bool_decide (version = "latest") then
    let! cached := cached_or_none policyID in
    match last cached with
    | Some v => io_ret (Ok v)
    | None => let! cached := cached_or_none policyID in
              io_ret (Err (not_cached policyID version cached))
    end
  else let! cached := cached_or_none policyID in
       io_ret (Err (not_cached policyID version cached)).

Definition Loader_LoadLayerByMediaType (policyID version mediaType : string) : io (result string) :=
  if bool_decide (policyID = "") then io_ret (Err (Errorf "policy ID cannot be empty"))
  else if bool_decide (version = "") then io_ret (Err (Errorf "version cannot be empty"))
  else if bool_decide (mediaType = "") then io_ret (Err (Errorf "media type cannot be empty"))
  else
    do! store := NewPolicyStore cacheMgr policyID
      orelse (fun e => Wrapf ("policy not found in cache: " +:+ policyID +:+ ": ") e "") in
    do! manifest := resolveManifest store version
      orelse (fun e => Wrapf ("policy " +:+ policyID +:+ "@" +:+ version +:+ ": ") e "") in
    match find_first (fun l => bool_decide (l.1 = mediaType)) (Mf_Layers manifest) with
    | Some (_, layer) =>
        do! data := store_Fetch store layer
          orelse (fun e => Wrapf ("failed to fetch layer " +:+ mediaType +:+ ": ") e "") in
        io_ret (Ok data)
    | None => io_ret (Err (Errorf ("layer with media type " +:+ mediaType +:+
                                   " not found for policy " +:+ policyID +:+ "@" +:+ version)))
    end.

(** The type of a bundle file: its own, else the manifest's for its name. *)
Definition fileType (artTypes : gmap string string) (f : BundleFile) : string :=
  if negb (bool_decide (BF_Type f = "")) then BF_Type f else default "" (artTypes !! BF_Name f).

(** The files by type: the source first, then imports, the first of a type winning. *)
Definition bundle_files (b : Bundle) : gmap string string :=
  let artTypes := fold_left (fun m a => <[a.1 := a.2]> m) (B_Artifacts b) (∅ : gmap string string) in
  let t := fileType artTypes (B_Source b) in
  let files := if bool_decide (t = "") then ∅ else {[ t := BF_Data (B_Source b) ]} in
  fold_left (fun files f =>
      let t := fileType artTypes f in
      if bool_decide (t = "") then files
      else match files !! t with Some _ => files | None => <[t := BF_Data f]> files end)
    (B_Imports b) files.

Definition Loader_LoadBundleFiles (policyID version : string) : io (result (gmap string string)) :=
  if bool_decide (policyID = "") then io_ret (Err (Errorf "policy ID cannot be empty"))
  else if bool_decide (version = "") then io_ret (Err (Errorf "version cannot be empty"))
  else
    do! store := NewPolicyStore cacheMgr policyID
      orelse (fun e => Wrapf ("policy not found in cache: " +:+ policyID +:+ ": ") e "") in
    do! b := bundle_Unpack store version
      orelse (fun e => Wrapf ("failed to unpack bundle for " +:+ policyID +:+ "@" +:+ version +:+ ": ") e "") in
    io_ret (Ok (bundle_files b)).

Definition Loader_DetectManifestShape (policyID version : string) : io (result bool) :=
  if bool_decide (policyID = "") || bool_decide (version = "")
  then io_ret (Err (Errorf "policy ID and version are required"))
  else
    do! store := NewPolicyStore cacheMgr policyID
      orelse (fun e => Wrapf ("policy not found in cache: " +:+ policyID +:+ ": ") e "") in
    do! manifest := resolveManifest store version orelse (fun e => e) in
    io_ret (Ok (isBundleManifest manifest)).

#[export] Instance Loader : PolicyLoader := {|
  LoadLayerByMediaType := Loader_LoadLayerByMediaType;
  LoadBundleFiles := Loader_LoadBundleFiles;
  DetectManifestShape := Loader_DetectManifestShape;
  PolicyExists := Loader_PolicyExists;
  ResolveVersion := Loader_ResolveVersion;
|}.

(** The loop of [ListCachedPolicies]. *)
Fixpoint list_cached (ids : list path) (acc : gmap string (list string))
    : io (result (gmap string (list string))) :=
  match ids with
  | [] => io_ret (Ok acc)
  | id :: rest =>
      let policyID := join "/" id in
      do! versions := GetCachedVersions policyID
        orelse (fun e => Wrapf ("failed to get versions for policy " +:+ policyID +:+ ": ") e "") in
      list_cached rest (if bool_decide (versions = []) then acc else <[policyID := versions]> acc)
  end.

Definition ListCachedPolicies : io (result (gmap string (list string))) :=
  do! policyIDs := ListPolicies cacheMgr
    orelse (fun e => Wrapf "failed to list cached policies: " e "") in
  list_cached policyIDs ∅.
End loader.

(** ** Gemara documents, as far as the code reads them *)

Record AssessmentPlan := MkAssessmentPlan {
  AP_Id : string;
  AP_RequirementId : string;
  AP_Executors : list string;   (* evaluation-methods[].executor.id *)
}.
Record Timeline := MkTimeline { TM_Start : string; TM_End : string; TM_Notes : string }.
Record GemaraPolicy := MkGemaraPolicy {
  GP_Title : string;
  GP_MappingReferences : list MappingReference;
  GP_Executors : list string;
  GP_AssessmentPlans : list AssessmentPlan;
  GP_EvaluationTimeline : Timeline;
  GP_EnforcementTimeline : Timeline;
}.

(** YAML decoding of the three document types. *)
Class GemaraYAML := {
  yaml_Policy : string -> result GemaraPolicy;
  yaml_ControlCatalog : string -> result ControlCatalog;
  yaml_GuidanceCatalog : string -> result unit;
}.

(** ** The policy layer (resolver.go) *)

Record policyLayerResult := MkPolicyLayerResult {
  PL_Title : string;
  PL_EvaluatorID : string;
  PL_Assessments : list Assessment;
  PL_Timeline : option PolicyTimeline;
  PL_MappingReferences : list MappingReference;
}.

(** The evaluator of one plan: its first executor, or the policy's. *)
Definition plan_evaluator (policyLevelEvalID : string) (plan : AssessmentPlan) : string :=
  match AP_Executors plan with
  | ex :: _ => if negb (bool_decide (ex = "")) then ex else policyLevelEvalID
  | [] => policyLevelEvalID
  end.

Definition extract_timeline (p : GemaraPolicy) : option PolicyTimeline :=
  let ev := GP_EvaluationTimeline p in
  let en := GP_EnforcementTimeline p in
  if negb (bool_decide (TM_Start ev = "")) || negb (bool_decide (TM_Start en = ""))
  then Some (MkPolicyTimeline (TM_Start ev) (TM_End ev) (TM_Notes ev)
                              (TM_Start en) (TM_End en) (TM_Notes en))
  else None.

Definition extractFromGemaraPolicy (p : GemaraPolicy) : policyLayerResult :=
  let policyLevelEvalID := match GP_Executors p with ex :: _ => ex | [] => "" end in
  let assessments := (fun plan => MkAssessment (AP_Id plan) (AP_RequirementId plan)
                                    (plan_evaluator policyLevelEvalID plan) ∅)
                     <$> GP_AssessmentPlans p in
  let evalIDSet : gset string := list_to_set (A_EvaluatorID <$> assessments) in
  let resultEvalID := match elements evalIDSet with [id] => id | _ => "" end in
  MkPolicyLayerResult (GP_Title p) resultEvalID assessments (extract_timeline p)
    (GP_MappingReferences p).

Section resolver.
  Context {yaml : GemaraYAML} {loader : PolicyLoader}.

Definition parseControlCatalog (data : string) : result ControlCatalog :=
  wrap_err (fun e => Wrapf "failed to parse control catalog YAML: " e "") (yaml_ControlCatalog data).

Definition parseGuidanceCatalog (data : string) : result unit :=
  wrap_err (fun e => Wrapf "failed to parse guidance catalog YAML: " e "") (yaml_GuidanceCatalog data).

Definition parsePolicyLayer (policyID data : string) : result policyLayerResult :=
  try p := yaml_Policy data
    orelse (fun e => Wrapf ("policy " +:+ policyID +:+ ": layer is not valid Gemara Policy YAML: ") e "") in
  check guard_err (bool_decide (GP_AssessmentPlans p = []))
    (Errorf ("policy " +:+ policyID +:+ ": Gemara Policy has no adherence.assessment-plans")) in
  Ok (extractFromGemaraPolicy p).

(** The control and guideline entries of a graph from optional documents. *)
Definition catalog_entry (policyID : string) (data : option string) : result (list Control) :=
  match data with
  | None => Ok []
  | Some d =>
      try parsed := parseControlCatalog d
        orelse (fun e => Wrapf ("policy " +:+ policyID +:+ ": catalog layer is not valid Gemara: ") e "") in
      Ok [MkControl (policyID +:+ "-catalog") d (Some parsed)]
  end.

Definition guidance_entry (policyID : string) (data : option string) : result (list Guideline) :=
  match data with
  | None => Ok []
  | Some d =>
      try _ := parseGuidanceCatalog d
        orelse (fun e => Wrapf ("policy " +:+ policyID +:+ ": guidance layer is not valid Gemara: ") e "") in
      Ok [MkGuideline (policyID +:+ "-guidance") d]
  end.

Definition finish_graph (policyID : string) (controls : list Control) (guidelines : list Guideline)
    (policyData : string) : result DependencyGraph :=
  try layer := parsePolicyLayer policyID policyData
    orelse (fun e => Wrapf ("failed to parse policy layer for " +:+ policyID +:+ ": ") e "") in
  Ok (MkDependencyGraph policyID controls guidelines (PL_Assessments layer) (PL_EvaluatorID layer)
        (PL_Timeline layer) (PL_MappingReferences layer)).

Definition at_version (policyID version : string) : string := policyID +:+ "@" +:+ version.

Definition resolveBundleGraph (policyID version : string) : io (result DependencyGraph) :=
  do! files := LoadBundleFiles policyID version
    orelse (fun e => Wrapf ("bundle unpack failed for " +:+ at_version policyID version +:+ ": ") e "") in
  do! controls := io_lift (catalog_entry policyID (files !! "ControlCatalog")) orelse (fun e => e) in
  do! guidelines := io_lift (guidance_entry policyID (files !! "GuidanceCatalog")) orelse (fun e => e) in
  match files !! "Policy" with
  | None => io_ret (Err (Errorf ("bundle for " +:+ at_version policyID version +:+
                                 ": missing required Policy artifact")))
  | Some policyData => io_lift (finish_graph policyID controls guidelines policyData)
  end.

Definition to_option {A} (r : result A) : option A := match r with Ok a => Some a | Err _ => None end.

Definition resolveSplitGraph (policyID version : string) : io (result DependencyGraph) :=
  let! catalog := LoadLayerByMediaType policyID version MediaTypeCatalog in
  do! controls := io_lift (catalog_entry policyID (to_option catalog)) orelse (fun e => e) in
  let! guidance := LoadLayerByMediaType policyID version MediaTypeGuidance in
  do! guidelines := io_lift (guidance_entry policyID (to_option guidance)) orelse (fun e => e) in
  do! policyData := LoadLayerByMediaType policyID version MediaTypePolicy
    orelse (fun e => Wrapf ("failed to load policy layer for " +:+ at_version policyID version +:+ ": ") e "") in
  io_lift (finish_graph policyID controls guidelines policyData).

(** The checks common to both entry points of the resolver. *)
Definition with_shape {A} (policyID version : string) (k : bool -> io (result A)) : io (result A) :=
  if bool_decide (policyID = "") then io_ret (Err (Errorf "policy ID cannot be empty"))
  else if bool_decide (version = "") then io_ret (Err (Errorf "version cannot be empty"))
  else
    let! ex := PolicyExists policyID version in
    if negb ex then io_ret (Err (Errorf ("policy not found: " +:+ at_version policyID version)))
    else
      do! isBundle := DetectManifestShape policyID version
        orelse (fun e => Wrapf ("failed to detect manifest shape for " +:+
                                at_version policyID version +:+ ": ") e "") in
      k isBundle.

Definition ResolvePolicyGraph (policyID version : string) : io (result DependencyGraph) :=
  with_shape policyID version (fun isBundle : bool =>
    if isBundle then resolveBundleGraph policyID version else resolveSplitGraph policyID version).

(** ** Display metadata *)

Record PolicyMetadata := MkPolicyMetadata {
  PM_Title : string;
  PM_EvaluatorID : string;
  PM_ControlCount : nat;
  PM_AssessmentCount : nat;
}.

(** The metadata of a parsed layer and an optional catalog. *)
Definition catalog_count (policyID : string) (data : option string) : result nat :=
  match data with
  | None => Ok O
  | Some d =>
      try catalog := parseControlCatalog d
        orelse (fun e => Wrapf ("policy " +:+ policyID +:+ ": catalog layer is not valid Gemara: ") e "") in
      Ok (length (CC_Controls catalog))
  end.

Definition extractBundleMetadata (policyID version : string) : io (result PolicyMetadata) :=
  do! files := LoadBundleFiles policyID version
    orelse (fun e => Wrapf ("bundle unpack failed for " +:+ at_version policyID version +:+ ": ") e "") in
  match files !! "Policy" with
  | None => io_ret (Err (Errorf ("bundle for " +:+ at_version policyID version +:+
                                 ": missing required Policy artifact")))
  | Some policyData =>
      do! layer := io_lift (parsePolicyLayer policyID policyData)
        orelse (fun e => Wrapf ("failed to parse policy layer for " +:+ policyID +:+ ": ") e "") in
      do! n := io_lift (catalog_count policyID (files !! "ControlCatalog")) orelse (fun e => e) in
      io_ret (Ok (MkPolicyMetadata (PL_Title layer) (PL_EvaluatorID layer) n
                    (length (PL_Assessments layer))))
  end.

Definition extractSplitMetadata (policyID version : string) : io (result PolicyMetadata) :=
  do! policyData := LoadLayerByMediaType policyID version MediaTypePolicy
    orelse (fun e => Wrapf ("failed to load policy layer for " +:+ at_version policyID version +:+ ": ") e "") in
  do! layer := io_lift (parsePolicyLayer policyID policyData)
    orelse (fun e => Wrapf ("failed to parse policy layer for " +:+ policyID +:+ ": ") e "") in
  let! catalog := LoadLayerByMediaType policyID version MediaTypeCatalog in
  do! n := io_lift (catalog_count policyID (to_option catalog)) orelse (fun e => e) in
  io_ret (Ok (MkPolicyMetadata (PL_Title layer) (PL_EvaluatorID layer) n
                (length (PL_Assessments layer)))).

Definition ExtractPolicyMetadata (policyID version : string) : io (result PolicyMetadata) :=
  with_shape policyID version (fun isBundle : bool =>
    if isBundle then extractBundleMetadata policyID version else extractSplitMetadata policyID version).

(** ** Facts *)

Lemma finish_graph_ok policyID cs gs data g :
  finish_graph policyID cs gs data = Ok g ->
  exists p, yaml_Policy data = Ok p /\ GP_AssessmentPlans p <> [] /\
    let l := extractFromGemaraPolicy p in
    g = MkDependencyGraph policyID cs gs (PL_Assessments l) (PL_EvaluatorID l) (PL_Timeline l)
          (PL_MappingReferences l).
Proof.
  unfold finish_graph, parsePolicyLayer. intros (l & Hl%wrap_err_ok & ?)%result_bind_ok. simplify_eq.
  apply result_bind_ok in Hl as (p & Hp%wrap_err_ok & Hl).
  apply result_bind_ok in Hl as ([] & Hg%guard_err_ok & ?). simplify_eq.
  apply bool_decide_eq_false in Hg. eauto.
Qed.

(** Success of either path ends in [finish_graph]. *)
Lemma ResolvePolicyGraph_ok policyID version w g w' :
  ResolvePolicyGraph policyID version w = (Ok g, w') ->
  exists cs gs data, finish_graph policyID cs gs data = Ok g /\
    Forall (fun c => Ctl_Parsed c <> None) cs /\ (length cs <= 1)%nat /\ (length gs <= 1)%nat.
Proof.
  assert (Hcat : forall d cs, catalog_entry policyID d = Ok cs ->
    Forall (fun c => Ctl_Parsed c <> None) cs /\ (length cs <= 1)%nat).
  { intros [d|] cs; simpl; [|intros; simplify_eq; by split; [constructor|simpl; lia]].
    intros (c & _ & ?)%result_bind_ok. simplify_eq. split; [by repeat constructor|done]. }
  assert (Hgui : forall d gs, guidance_entry policyID d = Ok gs -> (length gs <= 1)%nat).
  { intros [d|] gs; simpl; [|intros; simplify_eq; simpl; lia].
    intros (c & _ & ?)%result_bind_ok. by simplify_eq. }
  unfold ResolvePolicyGraph, with_shape. intros Hrun.
  case_bool_decide; [done|]. case_bool_decide; [done|].
  unfold io_try, io_bind, io_lift, io_ret in Hrun.
  destruct (PolicyExists _ _ w) as [[] w1]; [|done]. simpl in Hrun.
  destruct (DetectManifestShape _ _ w1) as [[[]|] w2]; [| |done].
  - unfold resolveBundleGraph, io_try, io_bind, io_lift, io_ret in Hrun.
    destruct (LoadBundleFiles _ _ w2) as [[files|] w3]; [|done].
    destruct (catalog_entry _ _) as [cs|] eqn:E1; [|done].
    destruct (guidance_entry _ _) as [gs|] eqn:E2; [|done].
    destruct (files !! "Policy") as [d|]; [|done]. apply Hcat in E1 as [? ?]. apply Hgui in E2.
    injection Hrun as Hg _. by exists cs, gs, d.
  - unfold resolveSplitGraph, io_try, io_bind, io_lift, io_ret in Hrun.
    destruct (LoadLayerByMediaType _ _ MediaTypeCatalog w2) as [c w3].
    destruct (catalog_entry _ _) as [cs|] eqn:E1; [|done].
    destruct (LoadLayerByMediaType _ _ MediaTypeGuidance w3) as [gd w4].
    destruct (guidance_entry _ _) as [gs|] eqn:E2; [|done].
    destruct (LoadLayerByMediaType _ _ MediaTypePolicy w4) as [[d|] w5]; [|done].
    apply Hcat in E1 as [? ?]. apply Hgui in E2.
    injection Hrun as Hg _. by exists cs, gs, d.
Qed.

(** The policy-wide evaluator is the common one, if there is one. *)
Lemma result_evaluator_all p :
  let l := extractFromGemaraPolicy p in
  PL_EvaluatorID l <> "" -> Forall (fun a => A_EvaluatorID a = PL_EvaluatorID l) (PL_Assessments l).
Proof.
  unfold extractFromGemaraPolicy. cbn [PL_EvaluatorID PL_Assessments].
  set (ass := _ <$> GP_AssessmentPlans p). intros Hne. apply Forall_forall. intros a Ha.
  assert (A_EvaluatorID a ∈ elements (list_to_set (C:=gset string) (A_EvaluatorID <$> ass))) as Hin.
  { apply elem_of_elements, elem_of_list_to_set, list_elem_of_fmap. eauto. }
  destruct (elements _) as [|id [|]]; [by apply elem_of_nil in Hin| |done].
  by apply list_elem_of_singleton in Hin.
Qed.

(** C25: a resolved policy is a usable one.  A graph returned by
    [ResolvePolicyGraph], bundle or split, comes from a parsed Gemara policy with
    at least one assessment plan: there is one assessment per plan, in order,
    with the plan's identifiers and the evaluator of the plan's first executor or
    else the policy's; every catalog in it is parsed; and grouping its
    configurations by evaluator gives the same groups with and without the
    policy-wide evaluator shortcut. *)
Theorem ResolvePolicyGraph_sound policyID version w g w' :
  ResolvePolicyGraph policyID version w = (Ok g, w') ->
  DG_PolicyID g = policyID /\
  (exists data p, yaml_Policy data = Ok p /\ GP_AssessmentPlans p <> [] /\
     DG_Assessments g = (fun plan => MkAssessment (AP_Id plan) (AP_RequirementId plan)
        (match AP_Executors plan, GP_Executors p with
         | ex :: _, pl => if bool_decide (ex = "") then default "" (head pl) else ex
         | [], pl => default "" (head pl)
         end) ∅) <$> GP_AssessmentPlans p) /\
  Forall (fun c => Ctl_Parsed c <> None) (DG_Controls g) /\
  let configs := ExtractAssessmentConfigs g in
  forall ev, GroupByEvaluator configs g !! ev =
    match filter (for_evaluator ev) configs with
    | [] => None
    | cs => Some (MkEvaluatorGroup ev cs)
    end.
Proof.
  intros (cs & gs & data & Hf & Hcs & _)%ResolvePolicyGraph_ok.
  apply finish_graph_ok in Hf as (p & Hp & Hne & ->). cbn [DG_PolicyID DG_Controls DG_Assessments].
  split_and!; [done| |done|].
  - exists data, p. split_and!; [done..|]. unfold extractFromGemaraPolicy. cbn [PL_Assessments].
    apply list_fmap_ext. intros _ plan _. f_equal. unfold plan_evaluator.
    destruct (AP_Executors plan) as [|ex exs], (GP_Executors p); try done;
      by destruct (bool_decide (ex = "")).
  - intros ev. set (configs := ExtractAssessmentConfigs _). rewrite <-group_loop.
    destruct (bool_decide_reflect (PL_EvaluatorID (extractFromGemaraPolicy p) = "")) as [He|He].
    { unfold GroupByEvaluator. cbn [DG_EvaluatorID]. by rewrite He. }
    f_equal. apply GroupByEvaluator_shortcut.
    + unfold configs, ExtractAssessmentConfigs. cbn. by destruct (GP_AssessmentPlans p).
    + unfold configs, ExtractAssessmentConfigs. cbn [DG_Assessments DG_EvaluatorID].
      apply Forall_fmap. eapply Forall_impl; [by apply result_evaluator_all|]. done.
Qed.

(** The displayed metadata agree with the graph.  For a loader whose
    answers do not change between the two calls, when both succeed the metadata
    show the graph's evaluator and its number of assessments, and the number of
    controls of the graph's catalog (zero without one). *)
Theorem metadata_matches_graph policyID version w g m
    (shape : bool) (files : gmap string string) (layer : string -> result string) :
  (forall i v, PolicyExists i v = io_ret true) ->
  (forall i v, DetectManifestShape i v = io_ret (Ok shape)) ->
  (forall i v, LoadBundleFiles i v = io_ret (Ok files)) ->
  (forall i v t, LoadLayerByMediaType i v t = io_ret (layer t)) ->
  (ResolvePolicyGraph policyID version w).1 = Ok g ->
  (ExtractPolicyMetadata policyID version w).1 = Ok m ->
  PM_EvaluatorID m = DG_EvaluatorID g /\ PM_AssessmentCount m = length (DG_Assessments g) /\
  PM_ControlCount m = match DG_Controls g with
                      | c :: _ => match Ctl_Parsed c with
                                  | Some cat => length (CC_Controls cat) | None => O end
                      | [] => O
                      end.
Proof.
  intros HE HS HB HL. unfold ResolvePolicyGraph, ExtractPolicyMetadata, with_shape.
  case_bool_decide; [done|]. case_bool_decide; [done|].
  unfold io_try, io_bind. rewrite HE, HS. unfold io_ret at 1 2 5 6. cbn [negb].
  assert (Hcommon : forall cat pd cs gs n l,
    catalog_entry policyID cat = Ok cs -> catalog_count policyID cat = Ok n ->
    finish_graph policyID cs gs pd = Ok g -> parsePolicyLayer policyID pd = Ok l ->
    PL_EvaluatorID l = DG_EvaluatorID g /\ length (PL_Assessments l) = length (DG_Assessments g) /\
    n = match DG_Controls g with
        | c :: _ => match Ctl_Parsed c with Some cat => length (CC_Controls cat) | None => O end
        | [] => O end).
  { intros cat pd cs gs n l Hc Hn Hg Hl. unfold finish_graph in Hg. rewrite Hl in Hg. simpl in Hg.
    simplify_eq/=. split_and!; [done..|]. destruct cat as [d|]; simpl in *; [|by simplify_eq].
    destruct (parseControlCatalog d); simpl in *; by simplify_eq. }
  destruct shape.
  - unfold resolveBundleGraph, extractBundleMetadata, io_try, io_bind, io_lift, io_ret. rewrite HB.
    unfold io_ret. destruct (catalog_entry _ _) as [cs|] eqn:E1; [|done].
    destruct (guidance_entry _ _) as [gs|]; [|done]. destruct (files !! "Policy") as [pd|]; [|done].
    simpl. intros Hg. destruct (parsePolicyLayer policyID pd) as [l|] eqn:El; [|done].
    destruct (catalog_count _ _) as [n|] eqn:En; [|done]. intros; simplify_eq/=.
    by eapply Hcommon.
  - unfold resolveSplitGraph, extractSplitMetadata, io_try, io_bind, io_lift. rewrite !HL.
    unfold io_ret. destruct (catalog_entry _ _) as [cs|] eqn:E1; [|done].
    destruct (guidance_entry _ _) as [gs|]; [|done].
    destruct (layer MediaTypePolicy) as [pd|]; [|done].
    simpl. intros Hg. destruct (parsePolicyLayer policyID pd) as [l|] eqn:El; [|done].
    destruct (catalog_count _ _) as [n|] eqn:En; [|done]. intros; simplify_eq/=.
    by eapply Hcommon.
Qed.
End resolver.
