(* ===== verification/Evaluator.v ===== *)
(** * The evaluator (internal/output/{evaluator,sarif,filename}.go)

    The conversion of provider assessments into a Gemara evaluation log: step
    results and their aggregation, the grouping by control, and the serialised
    form in which steps become identity strings. *)
From stdpp Require Import gmap.
From S2P Require Import Prelude GoStrings Digest Encoding OciRef World State Config Workspace Provider.

(** ** Gemara enums and their aggregation (go-gemara enums.go) *)

Inductive gresult : Set := NotRun | Passed | Failed | NeedsReview | NotApplicable | Unknown.
#[export] Instance gresult_eq_dec : EqDecision gresult.
Proof. solve_decision. Defined.

Inductive gconfidence : Set := Undetermined | Low | Medium | High.
#[export] Instance gconfidence_eq_dec : EqDecision gconfidence.
Proof. solve_decision. Defined.

Definition UpdateAggregateResult (previous new : gresult) : gresult :=
  if bool_decide (new = NotRun) then previous
  else if bool_decide (previous = Failed) || bool_decide (new = Failed) then Failed
  else if bool_decide (previous = Unknown) || bool_decide (new = Unknown) then Unknown
  else if bool_decide (previous = NeedsReview) || bool_decide (new = NeedsReview) then NeedsReview
  else if bool_decide (previous = Passed) || bool_decide (new = Passed) then Passed
  else NotApplicable.

Definition providerResultToGemara (r : Result) : gresult :=
  if (r =? ResultPassed)%Z then Passed
  else if (r =? ResultFailed)%Z then Failed
  else if (r =? ResultSkipped)%Z then NotApplicable
  else if (r =? ResultError)%Z then Unknown
  else NotRun.

Definition providerConfidenceToGemara (c : ConfidenceLevel) : gconfidence :=
  if (c =? ConfidenceLevelHigh)%Z then High
  else if (c =? ConfidenceLevelMedium)%Z then Medium
  else if (c =? ConfidenceLevelLow)%Z then Low
  else Undetermined.

Definition aggregateResultFromSteps (steps : list Step) : gresult :=
  fold_left (fun agg s => UpdateAggregateResult agg (providerResultToGemara (Step_Result s))) steps NotRun.

Definition matchingStepMessage (steps : list Step) (target : gresult) : string :=
  match find_first (fun s => bool_decide (providerResultToGemara (Step_Result s) = target)) steps with
  | Some s => Step_Message s
  | None => match steps with s :: _ => Step_Message s | [] => "" end
  end.

(** ** Gemara records, as far as the code fills them *)

Record EntryMapping := MkEntryMapping { EM_ReferenceId : string; EM_EntryId : string }.

(** An evidence entry; a zero source is [None]. *)
Record GEvidence := MkGEvidence {
  GE_Id : string;
  GE_Type : string;
  GE_Description : string;
  GE_Payload : string;
  GE_CollectedAt : string;
  GE_Source : option EvidenceSource;
}.

(** A step is a closure that ignores its argument: what it returns. *)
Record GAssessmentLog := MkGAssessmentLog {
  GAL_Requirement : EntryMapping;
  GAL_Plan : option EntryMapping;
  GAL_Description : string;
  GAL_Result : gresult;
  GAL_Message : string;
  GAL_Applicability : list string;
  GAL_Steps : list (gresult * string * gconfidence);
  GAL_StepsExecuted : Z;
  GAL_Start : string;
  GAL_Recommendation : string;
  GAL_ConfidenceLevel : gconfidence;
  GAL_Evidence : list GEvidence;
}.

Record ControlEvaluation := MkControlEvaluation {
  CE_Name : string;
  CE_Result : gresult;
  CE_Message : string;
  CE_Control : EntryMapping;
  CE_AssessmentLogs : list GAssessmentLog;
}.

Record EvaluationLog := MkEvaluationLog {
  EL_Evaluations : list ControlEvaluation;
  EL_Result : gresult;
  EL_MetadataId : string;
  EL_MappingReferences : list MappingReference;
  EL_AuthorName : string;
  EL_TargetId : string;
}.

(** ** The evaluator *)

Record Evaluator := MkEvaluator {
  ev_policyID : string;
  ev_targetID : string;
  ev_reqToControl : gmap string string;
  ev_reqToPlan : gmap string string;
  ev_reqToComplypackRef : gmap string string;
  ev_mappingReferences : list MappingReference;
  ev_controlEvals : gmap string ControlEvaluation;
  ev_controlOrder : list string;
  ev_controlStepNames : gmap string (list (list string));
}.

Definition NewEvaluator (policyID targetID : string)
    (reqToControl reqToPlan reqToComplypackRef : gmap string string)
    (mappingReferences : list MappingReference) : Evaluator :=
  MkEvaluator policyID targetID reqToControl reqToPlan reqToComplypackRef mappingReferences ∅ [] ∅.

Definition resolveControl (e : Evaluator) (requirementID : string) : string :=
  default requirementID (ev_reqToControl e !! requirementID).

Section evaluator.

Definition payloadToString (b : string) : string :=
  if bool_decide (b = "") then "" else if utf8_Valid b then b else base64_EncodeToString b.

Definition evidenceToGemara (ev : Evidence) : GEvidence :=
  MkGEvidence (Ev_ID ev) (Ev_Type ev) (Ev_Description ev) (payloadToString (Ev_Payload ev))
    (Ev_CollectedAt ev) (Ev_Source ev).

Definition providerStepToGemara (confidence : ConfidenceLevel) (step : Step)
    : gresult * string * gconfidence :=
  (providerResultToGemara (Step_Result step), Step_Message step, providerConfidenceToGemara confidence).

(** The message of an assessment: the provider's, or for a result other than a
    pass that of the first step with that result. *)
Definition assessment_message (a : AssessmentLog) (res : gresult) : string :=
  if bool_decide (res = Passed) then AL_Message a
  else let stepMsg := matchingStepMessage (AL_Steps a) res in
       if bool_decide (stepMsg = "") then AL_Message a else stepMsg.

Definition assessment_description (a : AssessmentLog) (msg : string) : string :=
  let desc := if bool_decide (msg = "")
              then match AL_Steps a with s :: _ => Step_Name s | [] => msg end else msg in
  if bool_decide (desc = "") then AL_RequirementID a else desc.

(** [now] is the text of the time stamp. *)
Definition providerToGemaraAssessment (e : Evaluator) (now : string) (a : AssessmentLog)
    : GAssessmentLog * list string :=
  let res := aggregateResultFromSteps (AL_Steps a) in
  let msg := assessment_message a res in
  (MkGAssessmentLog (MkEntryMapping (ev_policyID e) (AL_RequirementID a))
     (MkEntryMapping (ev_policyID e) <$> (ev_reqToPlan e !! AL_RequirementID a))
     (assessment_description a msg) res msg ["default"]
     (providerStepToGemara (AL_Confidence a) <$> AL_Steps a) (Z.of_nat (length (AL_Steps a)))
     now (AL_Recommendation a) (providerConfidenceToGemara (AL_Confidence a))
     (evidenceToGemara <$> AL_Evidence a),
   Step_Name <$> AL_Steps a).

(** One iteration of [AddTarget]: a new control evaluation is entered in the
    order list; the log and the step names are appended to it. *)
Definition add_assessment (e : Evaluator) (controlID : string) (log : GAssessmentLog)
    (names : list string) : Evaluator :=
  let fresh := MkControlEvaluation controlID NotRun "" (MkEntryMapping (ev_policyID e) controlID) [] in
  let '(ce, order) := match ev_controlEvals e !! controlID with
                      | Some ce => (ce, ev_controlOrder e)
                      | None => (fresh, ev_controlOrder e ++ [controlID])
                      end in
  let ce := MkControlEvaluation (CE_Name ce) (UpdateAggregateResult (CE_Result ce) (GAL_Result log))
              (GAL_Message log) (CE_Control ce) (CE_AssessmentLogs ce ++ [log]) in
  MkEvaluator (ev_policyID e) (ev_targetID e) (ev_reqToControl e) (ev_reqToPlan e)
    (ev_reqToComplypackRef e) (ev_mappingReferences e)
    (<[controlID := ce]> (ev_controlEvals e)) order
    (<[controlID := default [] (ev_controlStepNames e !! controlID) ++ [names]]> (ev_controlStepNames e)).

(** [AddTarget]; [now i] is the time at which the [i]-th assessment is converted. *)
Fixpoint AddTarget (now : nat -> string) (assessments : list AssessmentLog) (e : Evaluator) : Evaluator :=
  match assessments with
  | [] => e
  | a :: rest =>
      let '(log, names) := providerToGemaraAssessment e (now O) a in
      AddTarget (fun i => now (S i)) rest
        (add_assessment e (resolveControl e (AL_RequirementID a)) log names)
  end.

Definition control_evals (e : Evaluator) : list ControlEvaluation :=
  omap (fun id => ev_controlEvals e !! id) (ev_controlOrder e).

Definition GemaraLog (e : Evaluator) : EvaluationLog :=
  let evals := control_evals e in
  let res := fold_left (fun r ce => UpdateAggregateResult r (CE_Result ce)) evals NotRun in
  MkEvaluationLog evals (if bool_decide (evals = []) then NotApplicable else res)
    (ev_policyID e) (ev_mappingReferences e) "complytime" (ev_targetID e).

(** ** The serialised form *)

Record serializableAssessmentLog := MkSerializableAssessmentLog {
  SAL_Requirement : EntryMapping;
  SAL_Plan : option EntryMapping;
  SAL_Description : string;
  SAL_Result : gresult;
  SAL_Message : string;
  SAL_Applicability : list string;
  SAL_Steps : list string;
  SAL_StepsExecuted : Z;
  SAL_Start : string;
  SAL_Recommendation : string;
  SAL_ConfidenceLevel : gconfidence;
  SAL_Evidence : list GEvidence;
}.
Record serializableControlEvaluation := MkSerializableControlEvaluation {
  SCE_Name : string;
  SCE_Result : gresult;
  SCE_Message : string;
  SCE_Control : EntryMapping;
  SCE_AssessmentLogs : list serializableAssessmentLog;
}.
Record serializableEvaluationLog := MkSerializableEvaluationLog {
  SEL_MetadataId : string;
  SEL_MappingReferences : list MappingReference;
  SEL_AuthorName : string;
  SEL_Result : gresult;
  SEL_Evaluations : list serializableControlEvaluation;
  SEL_TargetId : string;
}.

Definition formatStepIdentity (complypackRef stepName : string) : string :=
  if negb (bool_decide (complypackRef = "")) && negb (bool_decide (stepName = ""))
  then complypackRef +:+ "#" +:+ stepName else stepName.

Definition resolveComplypackRef (e : Evaluator) (requirementID : string) : string :=
  default "" (ev_reqToComplypackRef e !! requirementID).

Definition serialize_log (e : Evaluator) (controlNames : list (list string)) (j : nat)
    (al : GAssessmentLog) : serializableAssessmentLog :=
  let complypackRef := resolveComplypackRef e (EM_EntryId (GAL_Requirement al)) in
  let names := default [] (controlNames !! j) in
  MkSerializableAssessmentLog (GAL_Requirement al) (GAL_Plan al) (GAL_Description al) (GAL_Result al)
    (GAL_Message al) (GAL_Applicability al) (formatStepIdentity complypackRef <$> names)
    (GAL_StepsExecuted al) (GAL_Start al) (GAL_Recommendation al) (GAL_ConfidenceLevel al)
    (GAL_Evidence al).

Definition toSerializable (e : Evaluator) (log : EvaluationLog) : serializableEvaluationLog :=
  let sEvals := (fun ce =>
      let controlNames := default [] (ev_controlStepNames e !! EM_EntryId (CE_Control ce)) in
      MkSerializableControlEvaluation (CE_Name ce) (CE_Result ce) (CE_Message ce) (CE_Control ce)
        (imap (serialize_log e controlNames) (CE_AssessmentLogs ce))) <$> EL_Evaluations log in
  MkSerializableEvaluationLog (EL_MetadataId log) (EL_MappingReferences log) (EL_AuthorName log)
    (EL_Result log) sEvals (EL_TargetId log).

(** ** Writing (filename.go, [Evaluator.Write]) *)

(** [ts] is the formatted time stamp. *)
Definition BuildReportFilename (ts prefix policyID targetID ext : string) : string :=
  let safePolicyID := FilenameSafe policyID in
  if negb (bool_decide (targetID = "")) then
    prefix +:+ "-" +:+ safePolicyID +:+ "-" +:+ FilenameSafe targetID +:+ "-" +:+ ts +:+ "." +:+ ext
  else prefix +:+ "-" +:+ safePolicyID +:+ "-" +:+ ts +:+ "." +:+ ext.

(** The two serialisers of a log. *)
Class LogEncoders := {
  json_log : serializableEvaluationLog -> result string;
  yaml_log : serializableEvaluationLog -> result string;
}.

(** Creating the directory and writing one report file. *)
Definition write_report (what : string) (outDir : path) (filename data : string) : io (result path) :=
  do! _ := os_MkdirAll outDir
    orelse (fun e => Wrapf "failed to create output directory: " e "") in
  do! _ := os_WriteFile (outDir ++ [filename]) data 384
    orelse (fun e => Wrapf ("failed to write " +:+ what +:+ ": ") e "") in
  io_ret (Ok (outDir ++ [filename])).

Definition Evaluator_Write {enc : LogEncoders} (e : Evaluator) (ts : string) (outDir : path)
    (logFormat : string) : io (result path) :=
  let serializable := toSerializable e (GemaraLog e) in
  let '(ext, data) := if bool_decide (logFormat = "json") then ("json", json_log serializable)
                      else ("yaml", yaml_log serializable) in
  do! data := io_lift data orelse (fun e => Wrapf "failed to marshal evaluation log: " e "") in
  write_report "evaluation log" outDir
    (BuildReportFilename ts "evaluation-log" (ev_policyID e) (ev_targetID e) ext) data.
End evaluator.

(** ** Aggregation takes the worst result *)

Definition severity (r : gresult) : nat :=
  match r with
  | NotRun => 0 | NotApplicable => 1 | Passed => 2 | NeedsReview => 3 | Unknown => 4 | Failed => 5
  end.

Lemma severity_inj a b : severity a = severity b -> a = b.
Proof. by destruct a, b. Qed.

Lemma UpdateAggregateResult_max a b :
  severity (UpdateAggregateResult a b) = Nat.max (severity a) (severity b).
Proof. by destruct a, b. Qed.

Definition worst (rs : list gresult) : gresult := fold_left UpdateAggregateResult rs NotRun.

Lemma list_max_cons x l : list_max (x :: l) = Nat.max x (list_max l).
Proof. done. Qed.

Lemma severity_fold rs a :
  severity (fold_left UpdateAggregateResult rs a) = Nat.max (severity a) (list_max (severity <$> rs)).
Proof.
  revert a. induction rs as [|r rs IH]; intros a; [simpl; lia|].
  rewrite fmap_cons, list_max_cons. cbn [fold_left]. rewrite IH, UpdateAggregateResult_max. lia.
Qed.

Lemma severity_worst rs : severity (worst rs) = list_max (severity <$> rs).
Proof. unfold worst. by rewrite severity_fold. Qed.

Lemma worst_app rs rs' : worst (rs ++ rs') = UpdateAggregateResult (worst rs) (worst rs').
Proof.
  apply severity_inj. rewrite UpdateAggregateResult_max, !severity_worst, fmap_app.
  by rewrite list_max_app.
Qed.

Lemma worst_perm rs rs' : rs ≡ₚ rs' -> worst rs = worst rs'.
Proof.
  intros Hp. apply severity_inj. rewrite !severity_worst.
  induction Hp as [|r l l' _ IH|r r' l|l l' l'' _ IH _ IH']; rewrite ?fmap_cons, ?list_max_cons;
    [done|by rewrite IH|lia|congruence].
Qed.

Lemma aggregate_worst steps :
  aggregateResultFromSteps steps = worst ((fun s => providerResultToGemara (Step_Result s)) <$> steps).
Proof.
  unfold aggregateResultFromSteps, worst. generalize NotRun.
  induction steps as [|s steps IH]; intros r; simpl; [done|apply IH].
Qed.

Lemma list_max_in (l : list nat) : l <> [] -> list_max l ∈ l.
Proof.
  induction l as [|x l IH]; [done|]. intros _. rewrite list_max_cons.
  destruct l as [|y l]; [simpl; rewrite Nat.max_0_r; left|].
  destruct (Nat.max_spec x (list_max (y :: l))) as [[_ ->]|[_ ->]]; [right; by apply IH|left].
Qed.

(** the result of an assessment is the worst result of its steps,
    in the order failed, unknown, needs review, passed, not applicable: it is the
    result of one of them (not run when there is no step), none is worse, and
    the order of the steps does not matter. *)
Theorem aggregate_is_worst steps :
  let res s := providerResultToGemara (Step_Result s) in
  let agg := aggregateResultFromSteps steps in
  (steps = [] /\ agg = NotRun \/ exists s, s ∈ steps /\ res s = agg) /\
  (forall s, s ∈ steps -> (severity (res s) <= severity agg)%nat) /\
  (forall steps', steps' ≡ₚ steps -> aggregateResultFromSteps steps' = agg).
Proof.
  intros res agg. unfold agg. rewrite aggregate_worst. fold res. split_and!.
  - destruct steps as [|s0 steps]; [by left|]. right.
    assert (list_max (severity <$> (res <$> s0 :: steps)) ∈ severity <$> (res <$> s0 :: steps)) as Hin
      by by apply list_max_in.
    rewrite <-severity_worst in Hin. apply list_elem_of_fmap in Hin as (r & Hr & Hin).
    apply severity_inj in Hr. apply list_elem_of_fmap in Hin as (s & -> & Hs). eauto.
  - intros s Hs. rewrite severity_worst.
    assert (Forall (fun k => k <= list_max (severity <$> (res <$> steps)))%nat (severity <$> (res <$> steps)))
      as Hall by (by apply list_max_le).
    rewrite Forall_forall in Hall. apply Hall, list_elem_of_fmap_2, list_elem_of_fmap_2, Hs.
  - intros steps' Hp. rewrite aggregate_worst. apply worst_perm. by rewrite Hp.
Qed.

(** ** What [AddTarget] accumulates *)

Section accumulate.

(** A converted assessment with the control it belongs to. *)
Abbreviation entry := (string * (GAssessmentLog * list string))%type.

Definition converted (e : Evaluator) (now : nat -> string) (l : list AssessmentLog) : list entry :=
  imap (fun i a => (resolveControl e (AL_RequirementID a), providerToGemaraAssessment e (now i) a)) l.

Definition of_control (c : string) (x : entry) : Prop := x.1 = c.
#[export] Instance of_control_dec c x : Decision (of_control c x).
Proof. unfold of_control. apply _. Defined.

Definition evaluation_of (pid c : string) (l : list entry) : ControlEvaluation :=
  MkControlEvaluation c (worst ((fun x => GAL_Result x.2.1) <$> l))
    (default "" (GAL_Message ∘ fst ∘ snd <$> last l)) (MkEntryMapping pid c) ((fun x => x.2.1) <$> l).

(** [e] has accumulated exactly [l], in that order. *)
Definition accumulated (e : Evaluator) (l : list entry) : Prop :=
  (forall c, ev_controlEvals e !! c = match filter (of_control c) l with
                                      | [] => None
                                      | fl => Some (evaluation_of (ev_policyID e) c fl)
                                      end) /\
  (forall c, ev_controlStepNames e !! c = match filter (of_control c) l with
                                          | [] => None
                                          | fl => Some ((fun x => x.2.2) <$> fl)
                                          end) /\
  NoDup (ev_controlOrder e) /\ (forall c, c ∈ ev_controlOrder e <-> c ∈ l.*1).

Definition same_settings (e e' : Evaluator) : Prop :=
  ev_policyID e' = ev_policyID e /\ ev_targetID e' = ev_targetID e /\
  ev_reqToControl e' = ev_reqToControl e /\ ev_reqToPlan e' = ev_reqToPlan e /\
  ev_reqToComplypackRef e' = ev_reqToComplypackRef e /\
  ev_mappingReferences e' = ev_mappingReferences e.

Lemma add_assessment_settings e c log names : same_settings e (add_assessment e c log names).
Proof. unfold add_assessment. by destruct (ev_controlEvals e !! c). Qed.

Lemma filter_empty_notin c (l : list entry) : filter (of_control c) l = [] <-> c ∉ l.*1.
Proof.
  split.
  - intros Hf (x & -> & Hx)%list_elem_of_fmap.
    assert (x ∈ filter (of_control x.1) l) as Hin by (by apply list_elem_of_filter).
    rewrite Hf in Hin. by apply elem_of_nil in Hin.
  - intros Hn. apply filter_none, Forall_forall. intros x Hx Hc. apply Hn.
    apply list_elem_of_fmap. exists x. by rewrite Hc.
Qed.

Lemma evaluation_of_snoc pid c fl log names x :
  x = (c, (log, names)) ->
  evaluation_of pid c (fl ++ [x]) =
    MkControlEvaluation c (UpdateAggregateResult (CE_Result (evaluation_of pid c fl)) (GAL_Result log))
      (GAL_Message log) (MkEntryMapping pid c) (((fun x => x.2.1) <$> fl) ++ [log]).
Proof.
  intros ->. unfold evaluation_of. rewrite last_snoc, !fmap_app. simpl. f_equal.
  rewrite worst_app. f_equal. by destruct (GAL_Result log).
Qed.

Lemma add_assessment_accumulated e l c log names :
  accumulated e l -> accumulated (add_assessment e c log names) (l ++ [(c, (log, names))]).
Proof.
  intros (HE & HS & Hnd & Hord).
  assert (Hf : forall c', filter (of_control c') (l ++ [(c, (log, names))]) =
    if decide (c = c') then filter (of_control c') l ++ [(c, (log, names))] else filter (of_control c') l).
  { intros c'. rewrite filter_app. case_decide as Hc.
    - by rewrite filter_cons_True.
    - rewrite filter_cons_False by done. by rewrite filter_nil, app_nil_r. }
  unfold add_assessment. specialize (HE c) as HEc. specialize (HS c) as HSc.
  destruct (filter (of_control c) l) as [|x0 fl0] eqn:Efl.
  - rewrite HEc, HSc. split_and!; cbn [ev_controlEvals ev_controlStepNames ev_controlOrder ev_policyID].
    + intros c'. rewrite Hf. destruct (decide (c = c')) as [<-|Hne].
      * rewrite lookup_insert_eq, Efl. simpl. unfold evaluation_of. simpl.
        unfold worst. simpl. by destruct (GAL_Result log).
      * by rewrite lookup_insert_ne.
    + intros c'. rewrite Hf. destruct (decide (c = c')) as [<-|Hne].
      * by rewrite lookup_insert_eq, Efl.
      * by rewrite lookup_insert_ne.
    + apply NoDup_app. split_and!; [done| |apply NoDup_singleton].
      intros x Hx ->%list_elem_of_singleton. by apply Hord, filter_empty_notin in Hx.
    + intros c'. rewrite fmap_app, !elem_of_app, Hord. done.
  - rewrite HEc, HSc. split_and!; cbn [ev_controlEvals ev_controlStepNames ev_controlOrder ev_policyID].
    + intros c'. rewrite Hf. destruct (decide (c = c')) as [<-|Hne].
      * rewrite lookup_insert_eq, Efl.
        pose proof (evaluation_of_snoc (ev_policyID e) c (x0 :: fl0) log names _ eq_refl) as Hsnoc.
        symmetry. exact (f_equal Some Hsnoc).
      * by rewrite lookup_insert_ne.
    + intros c'. rewrite Hf. destruct (decide (c = c')) as [<-|Hne].
      * rewrite lookup_insert_eq, Efl.
        change (Some (((fun x : entry => x.2.2) <$> (x0 :: fl0)) ++ [names]) =
                Some ((fun x : entry => x.2.2) <$> ((x0 :: fl0) ++ [(c, (log, names))]))).
        by rewrite fmap_app.
      * by rewrite lookup_insert_ne.
    + done.
    + intros c'. rewrite fmap_app, elem_of_app, Hord. split; [by left|].
      intros [?|Hc]; [done|]. apply list_elem_of_singleton in Hc as ->.
      destruct (decide (c ∈ l.*1)); [done|]. apply filter_empty_notin in n. by rewrite Efl in n.
Qed.

Lemma converted_settings e e' now l : same_settings e e' -> converted e' now l = converted e now l.
Proof.
  intros (H1 & H2 & H3 & H4 & _). unfold converted. apply imap_ext. intros i a _.
  unfold resolveControl, providerToGemaraAssessment. by rewrite H1, H3, H4.
Qed.

Lemma same_settings_trans e e' e'' : same_settings e e' -> same_settings e' e'' -> same_settings e e''.
Proof. unfold same_settings. intuition congruence. Qed.

Lemma AddTarget_accumulated now as_ e l :
  accumulated e l ->
  accumulated (AddTarget now as_ e) (l ++ converted e now as_) /\ same_settings e (AddTarget now as_ e).
Proof.
  revert now e l. induction as_ as [|a as_ IH]; intros now e l Hl; cbn [AddTarget].
  { unfold converted. simpl. rewrite app_nil_r. done. }
  destruct (providerToGemaraAssessment e (now O) a) as [log names] eqn:Econv.
  set (e1 := add_assessment e (resolveControl e (AL_RequirementID a)) log names).
  assert (same_settings e e1) as Hs by apply add_assessment_settings.
  destruct (IH (fun i => now (S i)) e1 (l ++ [(resolveControl e (AL_RequirementID a), (log, names))]))
    as [H1 H2]; [by apply add_assessment_accumulated|].
  rewrite (converted_settings e e1) in H1 by done. split; [|by eapply same_settings_trans].
  rewrite <-app_assoc in H1. unfold converted. rewrite imap_cons. cbn [Nat.add]. rewrite Econv. exact H1.
Qed.

Lemma NewEvaluator_accumulated p t c pl_ r m : accumulated (NewEvaluator p t c pl_ r m) [].
Proof. split_and!; [done|done|constructor|]. intros c0. simpl. by rewrite !elem_of_nil. Qed.

(** Splitting by control loses nothing. *)
Lemma split_by_control (order : list string) (l : list entry) :
  NoDup order -> (forall x, x ∈ l -> x.1 ∈ order) ->
  flat_map (fun c => filter (of_control c) l) order ≡ₚ l.
Proof.
  revert l. induction order as [|c order IH]; intros l Hnd Hl.
  { destruct l as [|x l]; [done|]. specialize (Hl x ltac:(left)). by apply elem_of_nil in Hl. }
  apply NoDup_cons in Hnd as [Hc Hnd]. simpl.
  transitivity (filter (of_control c) l ++ filter (fun x => ~ of_control c x) l);
    [|apply filter_app_complement].
  apply Permutation_app_head.
  rewrite <-(IH (filter (fun x => ~ of_control c x) l)); [|done|].
  - apply reflexive_eq. clear IH Hl. induction order as [|c' order IHo]; simpl; [done|].
    rewrite not_elem_of_cons in Hc. destruct Hc as [Hne Hc]. apply NoDup_cons in Hnd as [_ Hnd].
    f_equal; [|by apply IHo]. rewrite list_filter_filter. apply list_filter_iff.
    intros x. unfold of_control. split; [intros ->; split; congruence|tauto].
  - intros x [Hx Hin]%list_elem_of_filter. apply Hl, elem_of_cons in Hin as [Hc'|?]; [|done].
    by destruct (Hx Hc').
Qed.

Lemma control_evals_accumulated e l :
  accumulated e l ->
  control_evals e = (fun c => evaluation_of (ev_policyID e) c (filter (of_control c) l)) <$> ev_controlOrder e.
Proof.
  intros (HE & _ & _ & Hord). unfold control_evals.
  assert (Hall : Forall (fun c => c ∈ l.*1) (ev_controlOrder e)) by (apply Forall_forall; intros; by apply Hord).
  clear Hord. induction Hall as [|c order Hc _ IH]; [done|]. rewrite fmap_cons. cbn [omap list_omap].
  rewrite HE. destruct (filter (of_control c) l) as [|x fl] eqn:Ef.
  - by apply filter_empty_notin in Ef.
  - f_equal. exact IH.
Qed.

Lemma fmap_flat_map {A B C} (f : B -> C) (g : A -> list B) (l : list A) :
  f <$> flat_map g l = flat_map (fun x => f <$> g x) l.
Proof. induction l as [|x l IH]; simpl; [done|]. by rewrite fmap_app, IH. Qed.

Lemma flat_map_fmap {A B C} (f : A -> B) (g : B -> list C) (l : list A) :
  flat_map g (f <$> l) = flat_map (fun x => g (f x)) l.
Proof. induction l as [|x l IH]; [done|]. rewrite fmap_cons. cbn [flat_map]. by rewrite IH. Qed.

Lemma worst_cons r rs : worst (r :: rs) = UpdateAggregateResult r (worst rs).
Proof. apply severity_inj. by rewrite UpdateAggregateResult_max, !severity_worst. Qed.

Lemma worst_flat (l : list (list gresult)) : worst (worst <$> l) = worst (concat l).
Proof.
  induction l as [|rs l IH]; [done|]. rewrite fmap_cons, worst_cons. cbn [concat].
  by rewrite worst_app, IH.
Qed.

(** C21: the evaluation log accounts for every assessment exactly once.
    After [AddTarget] of a list of assessments on a new evaluator, the logs of
    all controls together are the conversions of the assessments; each control
    evaluation holds, in order, those whose requirement maps to it, with the
    worst of their results and the message of the last; the controls are
    distinct; and the overall result is the worst result of all, or not
    applicable when there was no assessment. *)
Theorem GemaraLog_complete p t r2c r2p r2r mrefs now as_ :
  let e0 := NewEvaluator p t r2c r2p r2r mrefs in
  let log := GemaraLog (AddTarget now as_ e0) in
  let conv := converted e0 now as_ in
  flat_map CE_AssessmentLogs (EL_Evaluations log) ≡ₚ (fun x => x.2.1) <$> conv /\
  NoDup (CE_Name <$> EL_Evaluations log) /\
  Forall (fun ce => ce = evaluation_of p (CE_Name ce) (filter (of_control (CE_Name ce)) conv) /\
                    CE_AssessmentLogs ce <> []) (EL_Evaluations log) /\
  EL_Result log = (if bool_decide (as_ = []) then NotApplicable
                   else worst ((fun a => aggregateResultFromSteps (AL_Steps a)) <$> as_)).
Proof.
  intros e0 log conv. set (e := AddTarget now as_ e0).
  destruct (AddTarget_accumulated now as_ e0 [] (NewEvaluator_accumulated p t r2c r2p r2r mrefs))
    as [Hacc (Hp & _)]. rewrite app_nil_l in Hacc. fold e conv in Hacc. fold e in Hp. simpl in Hp.
  pose proof (control_evals_accumulated e conv Hacc) as Hce. rewrite Hp in Hce.
  destruct Hacc as (_ & _ & Hnd & Hord).
  assert (Hsplit : flat_map (fun c => filter (of_control c) conv) (ev_controlOrder e) ≡ₚ conv).
  { apply split_by_control; [done|]. intros x Hx. apply Hord. by apply list_elem_of_fmap_2. }
  unfold log, GemaraLog. cbn [EL_Evaluations EL_Result]. fold e. rewrite Hce. split_and!.
  - rewrite flat_map_fmap. cbn [evaluation_of CE_AssessmentLogs]. rewrite <-fmap_flat_map.
    by rewrite Hsplit.
  - rewrite <-list_fmap_compose. by rewrite fmap_id_ext.
  - apply Forall_fmap, Forall_forall. intros c Hc. cbn [CE_Name evaluation_of CE_AssessmentLogs compose].
    split; [done|]. apply Hord in Hc. intros Hnil%fmap_nil_inv. by apply filter_empty_notin in Hnil.
  - assert (Hres : (fun x => GAL_Result x.2.1) <$> conv = (fun a => aggregateResultFromSteps (AL_Steps a)) <$> as_).
    { unfold conv, converted. rewrite fmap_imap. clear. generalize now. induction as_ as [|a l IH]; intros nw; [done|].
      rewrite imap_cons. simpl. f_equal. apply (IH (fun i => nw (S i))). }
    destruct as_ as [|a as_]; [done|].
    assert (ev_controlOrder e <> []) as Hne.
    { intros Hnil. assert (resolveControl e0 (AL_RequirementID a) ∈ ev_controlOrder e) as Hin.
      { apply Hord. unfold conv, converted. rewrite imap_cons, fmap_cons. left. }
      rewrite Hnil in Hin. by apply elem_of_nil in Hin. }
    rewrite bool_decide_eq_false_2 by (intros ?%fmap_nil_inv; done).
    rewrite bool_decide_eq_false_2 by done. rewrite <-Hres.
    rewrite <-(worst_perm _ _ (fmap_Permutation (fun x : entry => GAL_Result x.2.1) _ _ Hsplit)).
    assert (Hfl : forall l r, fold_left (fun r ce => UpdateAggregateResult r (CE_Result ce)) l r =
      fold_left UpdateAggregateResult (CE_Result <$> l) r)
      by (induction l as [|? ? IHl]; intros; simpl; [done|apply IHl]).
    rewrite Hfl, <-list_fmap_compose. fold (worst ((CE_Result ∘ (fun c => evaluation_of p c
      (filter (of_control c) conv))) <$> ev_controlOrder e)).
    rewrite fmap_flat_map, flat_map_concat_map, <-worst_flat. f_equal.
    change (map ?f ?l) with (f <$> l). rewrite <-list_fmap_compose. done.
Qed.

(** The serialised form of one converted assessment. *)
Definition serial_entry (e : Evaluator) (x : entry) : serializableAssessmentLog :=
  serialize_log e [x.2.2] 0 x.2.1.

Lemma imap_zip_names e (l : list entry) (pre : list (list string)) :
  imap (fun j al => serialize_log e (pre ++ ((fun x => x.2.2) <$> l)) (length pre + j) al)
    ((fun x : entry => x.2.1) <$> l) = serial_entry e <$> l.
Proof.
  revert pre. induction l as [|x l IH]; intros pre; [done|].
  rewrite !fmap_cons, imap_cons. f_equal.
  - unfold serial_entry, serialize_log. rewrite Nat.add_0_r, list_lookup_middle by done. done.
  - rewrite <-(IH (pre ++ [x.2.2])). apply imap_ext. intros j al _. simpl.
    rewrite <-app_assoc, length_app. simpl. f_equal. lia.
Qed.

(** serialising keeps every step.  In the written form of the log
    of a list of assessments, the entries of all controls together are the
    assessments', each with one step identity per step of the provider, in
    order: the step's name, prefixed by the reference of the complypack found
    for the requirement when there is one; the number of steps executed is the
    number of identities. *)
Theorem toSerializable_steps p t r2c r2p r2r mrefs now as_ :
  let e0 := NewEvaluator p t r2c r2p r2r mrefs in
  let e := AddTarget now as_ e0 in
  let s := toSerializable e (GemaraLog e) in
  SEL_Result s = EL_Result (GemaraLog e) /\
  exists entries, flat_map SCE_AssessmentLogs (SEL_Evaluations s) ≡ₚ entries /\
    Forall2 (fun a x =>
      SAL_Requirement x = MkEntryMapping p (AL_RequirementID a) /\
      SAL_Result x = aggregateResultFromSteps (AL_Steps a) /\
      SAL_Steps x = (fun st => formatStepIdentity (default "" (r2r !! AL_RequirementID a)) (Step_Name st))
                      <$> AL_Steps a /\
      SAL_StepsExecuted x = Z.of_nat (length (SAL_Steps x))) as_ entries.
Proof.
  intros e0 e s. split; [done|].
  destruct (AddTarget_accumulated now as_ e0 [] (NewEvaluator_accumulated p t r2c r2p r2r mrefs))
    as [Hacc Hset]. rewrite app_nil_l in Hacc. fold e in Hacc, Hset.
  set (conv := converted e0 now as_) in *. exists (serial_entry e <$> conv). split.
  - unfold s, toSerializable, GemaraLog. cbn [SEL_Evaluations EL_Evaluations].
    rewrite (control_evals_accumulated e conv Hacc), <-list_fmap_compose, flat_map_fmap.
    destruct Hacc as (_ & HS & Hnd & Hord).
    transitivity (serial_entry e <$> flat_map (fun c => filter (of_control c) conv) (ev_controlOrder e)).
    2:{ apply fmap_Permutation, split_by_control; [done|]. intros x Hx. apply Hord.
        by apply list_elem_of_fmap_2. }
    rewrite fmap_flat_map. apply reflexive_eq. clear Hnd.
    assert (Hall : Forall (fun c => c ∈ conv.*1) (ev_controlOrder e))
      by (apply Forall_forall; intros; by apply Hord).
    clear Hord. induction Hall as [|c order Hc _ IH]; [done|]. cbn [flat_map]. f_equal; [|exact IH].
    simpl. rewrite HS. destruct (filter (of_control c) conv) as [|x fl] eqn:Ef.
    { by apply filter_empty_notin in Ef. }
    cbn [default from_option id]. by rewrite <-(imap_zip_names e (x :: fl) []).
  - destruct Hset as (_ & _ & _ & _ & Hrefs & _). unfold conv, converted. rewrite fmap_imap.
    apply Forall2_same_length_lookup. split; [by rewrite length_imap|].
    intros i a x Ha Hx. rewrite list_lookup_imap, Ha in Hx. simpl in Hx. simplify_eq.
    unfold serial_entry, serialize_log, resolveComplypackRef. simpl. rewrite Hrefs. simpl.
    rewrite !length_fmap, <-list_fmap_compose. split_and!; done.
Qed.
End accumulate.

(** Different targets can share a report file: the slash and the dash fall
    together, so the second report written within the second replaces the first. *)
Theorem BuildReportFilename_collision ts prefix policyID ext :
  BuildReportFilename ts prefix policyID "web/a" ext = BuildReportFilename ts prefix policyID "web-a" ext.
Proof. done. Qed.
