(* ===== verification/Terminal.v ===== *)
(** * The terminal (internal/terminal/{table,spinner}.go)

    The plain table every command prints its rows with, and the progress lines of
    the spinner.  [%-*s] pads to a number of runes, while the widths are computed
    from numbers of bytes; the table is aligned all the same.  The animation on a
    real terminal (bubbletea) is not modelled, only whether it runs. *)
From S2P Require Import Prelude GoStrings Encoding.

Open Scope Z_scope.

(** ** Runes: [utf8.RuneCountInString] *)

(** The size of the first rune of a text that has one; a byte that starts none is a
    rune by itself. *)
Definition rune_len (s : string) : nat :=
  match s with
  | String a (String b s2) =>
      if byte_in 194 223 a && continuation b then 2
      else match s2 with
           | String c s3 =>
               if byte_in 224 239 a && second_of_three a b && continuation c then 3
               else match s3 with
                    | String d _ =>
                        if byte_in 240 244 a && second_of_four a b && continuation c && continuation d
                        then 4 else 1
                    | EmptyString => 1
                    end
           | EmptyString => 1
           end
  | _ => 1
  end.

(** [skip] bytes belong to a rune that is counted already. *)
Fixpoint rune_count_from (skip : nat) (s : string) : nat :=
  match s with
  | EmptyString => O
  | String _ s' =>
      match skip with
      | S k => rune_count_from k s'
      | O => S (rune_count_from (pred (rune_len s)) s')
      end
  end.
Definition rune_count (s : string) : nat := rune_count_from 0 s.

Example rune_count_mixed : rune_count "✅ é𝄞!" = 5%nat.
Proof. reflexivity. Qed.
Example rune_count_invalid : rune_count (of_bytes [226; 156; 32]) = 3%nat.
Proof. reflexivity. Qed.

(** ** The table *)

Fixpoint spaces (n : nat) : string :=
  match n with O => "" | S n' => String " " (spaces n') end.

(** [%-*s]: fmt refuses a width above a million. *)
Definition pad_cell (width : Z) (s : string) : string :=
  if 1000000 <? width then "%!(BADWIDTH)" +:+ s
  else s +:+ spaces (Z.to_nat (width - Z.of_nat (rune_count s))).

Definition cell_width (s : string) : Z := Z.of_nat (String.length s) + 2.

(** One row widens the columns it has cells for. *)
Fixpoint widen (widths : list Z) (row : list string) : list Z :=
  match widths, row with
  | w :: ws, cell :: rest => (if w <? cell_width cell then cell_width cell else w) :: widen ws rest
  | _, _ => widths
  end.

Definition column_widths (headers : list string) (rows : list (list string)) : list Z :=
  fold_left widen rows (cell_width <$> headers).

(** Cells without a header are left out. *)
Definition row_pieces (widths : list Z) (row : list string) : list string := zip_with pad_cell widths row.

Definition table_line (pieces : list string) : string := String.concat "" pieces +:+ String "010" "".

Definition ShowPlainTable (headers : list string) (rows : list (list string)) : string :=
  let widths := column_widths headers rows in
  table_line (row_pieces widths headers) +:+ String.concat "" ((fun row => table_line (row_pieces widths row)) <$> rows).

(** ** The spinner *)

(** Where a spinner writes: nowhere, to a terminal, or to anything else. *)
Inductive sink : Set := NoWriter | TTY | PlainWriter.
Record Spinner := MkSpinner { sp_program : bool; sp_writer : bool; sp_message : string }.

Definition NewSpinnerWriter (message : string) (w : sink) : Spinner :=
  match w with
  | NoWriter => MkSpinner false false ""
  | PlainWriter => MkSpinner false true message
  | TTY => MkSpinner true false ""
  end.

(** The text written to a plain writer; with a program its animation starts or
    stops. *)
Definition Spinner_Start (s : Spinner) : string :=
  if sp_program s then "" else if sp_writer s then sp_message s +:+ String "010" "" else "".
Definition Spinner_Stop (s : Spinner) : string :=
  if sp_program s then "" else if sp_writer s then "done" +:+ String "010" "" else "".

(** ** The table is aligned *)

Lemma continuation_space : continuation " " = false.
Proof. done. Qed.

Lemma rune_len_spaces s n : s <> "" -> rune_len (s +:+ spaces n) = rune_len s.
Proof.
  destruct s as [|a [|b [|c [|d s]]]]; [done|..]; intros _; [| | |done].
  - destruct n as [|[|[|n]]]; cbn -[continuation byte_in second_of_three second_of_four];
      repeat rewrite ?continuation_space, ?andb_false_r, ?andb_false_l; done.
  - destruct n as [|[|n]]; cbn -[continuation byte_in second_of_three second_of_four];
      rewrite ?continuation_space, ?andb_false_r; by destruct (byte_in 194 223 a && continuation b).
  - destruct n as [|n]; cbn -[continuation byte_in second_of_three second_of_four]; [done|].
    rewrite ?continuation_space, ?andb_false_r. done.
Qed.

Lemma rune_len_bound s : s <> "" -> (1 <= rune_len s <= String.length s)%nat.
Proof.
  destruct s as [|a [|b [|c [|d s]]]]; [done|..]; intros _; cbn; repeat case_match; lia.
Qed.

Lemma rune_count_spaces s n : rune_count (s +:+ spaces n) = (rune_count s + n)%nat.
Proof.
  unfold rune_count. assert (forall skip, (skip <= String.length s)%nat ->
    rune_count_from skip (s +:+ spaces n) = (rune_count_from skip s + n)%nat) as H; [|apply H; lia].
  induction s as [|a s IH]; intros skip Hs.
  - cbn in Hs. assert (skip = O) as -> by lia. cbn. clear Hs. induction n as [|n IHn]; [done|].
    cbn [spaces rune_count_from].
    replace (rune_len (String " " (spaces n))) with 1%nat by (destruct n as [|[|[|n]]]; done). cbn [pred].
    by rewrite IHn.
  - destruct skip as [|k]; cbn in Hs; [|cbn; apply IH; lia].
    cbn [String.append rune_count_from]. change (String a (s +:+ spaces n)) with (String a s +:+ spaces n).
    rewrite rune_len_spaces by done. pose proof (rune_len_bound (String a s) ltac:(done)) as Hb. cbn [String.length] in Hb.
    rewrite IH by lia. done.
Qed.

Lemma rune_count_le s : (rune_count s <= String.length s)%nat.
Proof.
  unfold rune_count. generalize 0%nat. induction s as [|a s IH]; intros skip; cbn [rune_count_from String.length]; [lia|].
  destruct skip as [|k]; [|specialize (IH k); lia]. specialize (IH (pred (rune_len (String a s)))). lia.
Qed.

Lemma widen_length ws row : length (widen ws row) = length ws.
Proof. revert row. induction ws as [|w ws IH]; intros [|c row]; cbn; by rewrite ?IH. Qed.

(** A width that holds every cell of its column. *)
Definition holds (row : list string) (widths : list Z) : Prop :=
  forall i cell w, row !! i = Some cell -> widths !! i = Some w -> cell_width cell <= w.

Lemma widen_holds ws row : holds row (widen ws row).
Proof.
  revert row. induction ws as [|w ws IH]; intros [|c row] [|i] cell w'; cbn; try done.
  - intros [= <-] [= <-]. destruct (Z.ltb_spec w (cell_width c)); lia.
  - apply IH.
Qed.

Lemma widen_keeps ws row row' : holds row' ws -> holds row' (widen ws row).
Proof.
  revert row row'. induction ws as [|w ws IH]; intros [|c row] row' H; cbn; [done|done|done|].
  intros [|i] cell w'; cbn.
  - intros Hc [= <-]. specialize (H 0%nat cell w Hc eq_refl). destruct (Z.ltb_spec w (cell_width c)); lia.
  - destruct row' as [|x row']; [done|]. apply (IH row row'). intros j cell' w'' Hj Hw. by apply (H (S j)).
Qed.

Lemma fold_widen_keeps rows ws row : holds row ws -> holds row (fold_left widen rows ws).
Proof. revert ws. induction rows as [|r rows IH]; intros ws H; cbn; [done|]. by apply IH, widen_keeps. Qed.

Lemma column_widths_length headers rows : length (column_widths headers rows) = length headers.
Proof.
  unfold column_widths. rewrite <-(length_fmap cell_width headers). generalize (cell_width <$> headers).
  induction rows as [|r rows IH]; intros ws; cbn; [done|]. by rewrite IH, widen_length.
Qed.

Lemma column_widths_hold headers rows row :
  row ∈ headers :: rows -> holds row (column_widths headers rows).
Proof.
  unfold column_widths. intros [->|Hr]%elem_of_cons.
  - apply fold_widen_keeps. intros i cell w Hc. rewrite list_lookup_fmap, Hc. intros [= <-]. lia.
  - generalize (cell_width <$> headers) as ws. induction Hr as [row rows|row r rows _ IH]; intros ws; cbn.
    + apply fold_widen_keeps, widen_holds.
    + apply IH.
Qed.

(** A table is aligned and complete.  For widths fmt accepts, each line of the table
    is the sequence of its cells, each followed by two spaces or more, so that a column
    has the same number of runes in all lines. *)
Theorem plain_table_aligned headers rows :
  let widths := column_widths headers rows in
  Forall (fun w => w <= 1000000) widths ->
  ShowPlainTable headers rows =
    String.concat "" ((fun row => table_line (row_pieces widths row)) <$> headers :: rows) /\
  length widths = length headers /\
  (forall row i cell w, row ∈ headers :: rows -> row !! i = Some cell -> widths !! i = Some w ->
     exists n, row_pieces widths row !! i = Some (cell +:+ spaces (2 + n)) /\
       Z.of_nat (rune_count (cell +:+ spaces (2 + n))) = w).
Proof.
  cbv zeta. intros Hw. split; [|split].
  - unfold ShowPlainTable. cbn [fmap list_fmap]. destruct rows; cbn [fmap list_fmap String.concat]; [|done].
    by rewrite append_nil_r.
  - apply column_widths_length.
  - intros row i cell w Hr Hi Hwi. pose proof (column_widths_hold headers rows row Hr i cell w Hi Hwi) as Hh.
    unfold cell_width in Hh. pose proof (rune_count_le cell) as Hc.
    exists (Z.to_nat (w - Z.of_nat (rune_count cell)) - 2)%nat. unfold row_pieces.
    rewrite lookup_zip_with, Hwi, Hi. cbn [mbind option_bind]. rewrite rune_count_spaces.
    pose proof (proj1 (Forall_lookup _ _) Hw i w Hwi) as Hm. cbn in Hm.
    unfold pad_cell. destruct (Z.ltb_spec 1000000 w); [lia|]. split; [|lia]. do 3 f_equal. lia.
Qed.
