(* ===== verification/Report.v ===== *)
(** * Reports (internal/output/{scan_summary,markdown,oscal,sarif,execution_plan}.go)

    The terminal summary of a scan, the merging of mapping references, and the
    Markdown and OSCAL reports of an evaluation log. *)
From stdpp Require Import gmap.
From S2P Require Import Prelude GoStrings Digest OciRef World State Config Workspace Provider.
From S2P Require Import Terminal Evaluator.

Definition nl : string := String "010" "".

Definition StatusPassed : string := "✅".
Definition StatusFailed : string := "❌".
Definition StatusSkipped : string := "⏭️".
Definition StatusError : string := "⚠️".

(** ** [slices.SortStableFunc] by an integer key *)

Section stable_sort.
  Context {A : Type} (key : A -> nat).

Fixpoint sort_insert (x : A) (l : list A) : list A :=
  match l with
  | [] => [x]
  | y :: l' => if (key x <=? key y)%nat then x :: l else y :: sort_insert x l'
  end.
Definition sort_stable (l : list A) : list A := foldr sort_insert [] l.

Definition key_le (x y : A) : Prop := (key x <= key y)%nat.

Lemma sort_insert_perm x l : sort_insert x l ≡ₚ x :: l.
Proof.
  induction l as [|y l IH]; simpl; [done|]. destruct (_ <=? _)%nat; [done|].
  rewrite IH. constructor.
Qed.

Lemma sort_stable_perm l : sort_stable l ≡ₚ l.
Proof. induction l as [|x l IH]; simpl; [done|]. by rewrite sort_insert_perm, IH. Qed.

Lemma sort_insert_sorted x l : StronglySorted key_le l -> StronglySorted key_le (sort_insert x l).
Proof.
  unfold key_le. induction 1 as [|y l Hs IH Hall]; simpl; [by repeat constructor|].
  destruct (Nat.leb_spec (key x) (key y)).
  - constructor; [by constructor|]. constructor; [done|]. eapply Forall_impl; [done|]. simpl; lia.
  - constructor; [done|]. rewrite sort_insert_perm. constructor; [lia|done].
Qed.

Lemma sort_stable_sorted l : StronglySorted key_le (sort_stable l).
Proof. induction l; simpl; [constructor|by apply sort_insert_sorted]. Qed.

(** Equal keys keep their order. *)
Lemma sort_insert_filter k x l :
  filter (fun y => key y = k) (sort_insert x l) = filter (fun y => key y = k) (x :: l).
Proof.
  induction l as [|y l IH]; simpl; [done|].
  destruct (Nat.leb_spec (key x) (key y)); [done|].
  rewrite filter_cons, IH, !filter_cons. repeat case_decide; simplify_eq; lia || done.
Qed.

Lemma sort_stable_filter k l :
  filter (fun y => key y = k) (sort_stable l) = filter (fun y => key y = k) l.
Proof.
  induction l as [|x l IH]; simpl; [done|]. rewrite sort_insert_filter, !filter_cons, IH.
  by case_decide.
Qed.
End stable_sort.

(** ** The scan summary (scan_summary.go) *)

Definition sortPriority (r : gresult) : nat :=
  match r with
  | Failed => 1
  | Unknown => 2
  | NeedsReview => 3
  | NotApplicable | NotRun => 4
  | Passed => 6
  end.

Definition result_String (r : gresult) : string :=
  match r with
  | NotRun => "Not Run" | Passed => "Passed" | Failed => "Failed" | NeedsReview => "Needs Review"
  | NotApplicable => "Not Applicable" | Unknown => "Unknown"
  end.

Record summaryEntry := MkSummaryEntry {
  se_targetID : string;
  se_requirementID : string;
  se_controlID : string;
  se_result : gresult;
  se_emoji : string;
  se_message : string;
}.

Record counts := MkCounts {
  passCount : nat; failCount : nat; notApplicableCount : nat; skipCount : nat; errCount : nat;
}.

Definition summary_emoji (r : gresult) : string :=
  match r with
  | Passed => StatusPassed | Failed => StatusFailed
  | NotApplicable | NotRun => StatusSkipped | _ => StatusError
  end.

Definition count_result (r : gresult) (c : counts) : counts :=
  match r with
  | Passed => MkCounts (S (passCount c)) (failCount c) (notApplicableCount c) (skipCount c) (errCount c)
  | Failed => MkCounts (passCount c) (S (failCount c)) (notApplicableCount c) (skipCount c) (errCount c)
  | NotApplicable => MkCounts (passCount c) (failCount c) (S (notApplicableCount c)) (skipCount c) (errCount c)
  | NotRun => MkCounts (passCount c) (failCount c) (notApplicableCount c) (S (skipCount c)) (errCount c)
  | _ => MkCounts (passCount c) (failCount c) (notApplicableCount c) (skipCount c) (S (errCount c))
  end.

Definition summary_entry (assessmentTargets : list string) (reqToControl : gmap string string)
    (i : nat) (a : AssessmentLog) : summaryEntry :=
  let res := aggregateResultFromSteps (AL_Steps a) in
  let ctrl := default "" (reqToControl !! AL_RequirementID a) in
  MkSummaryEntry (default "-" (assessmentTargets !! i)) (AL_RequirementID a)
    (if bool_decide (ctrl = "") then "-" else ctrl) res (summary_emoji res)
    (matchingStepMessage (AL_Steps a) res).

(** The loop over the assessments: the totals and an entry each. *)
Definition summary_loop (assessments : list AssessmentLog) (targets : list string)
    (reqToControl : gmap string string) : counts * list summaryEntry :=
  (fold_left (fun c a => count_result (aggregateResultFromSteps (AL_Steps a)) c) assessments
     (MkCounts 0 0 0 0 0),
   imap (summary_entry targets reqToControl) assessments).

Definition is_passed (e : summaryEntry) : Prop := se_result e = Passed.
#[export] Instance is_passed_dec e : Decision (is_passed e).
Proof. unfold is_passed. apply _. Defined.

(** The rows of the table, in order. *)
Definition summary_rows (entries : list summaryEntry) (showPassing : bool) : list summaryEntry :=
  let entries := if negb showPassing then filter (fun e => ~ is_passed e) entries else entries in
  sort_stable (fun e => sortPriority (se_result e)) entries.

Definition FormatScanSummary (assessments : list AssessmentLog)
    (assessmentTargets : list string) (reqToControl : gmap string string) (policyID : string)
    (targetIDs : list string) (showPassing : bool) : string :=
  let '(c, entries) := summary_loop assessments assessmentTargets reqToControl in
  let total := itoa (Z.of_nat (length assessments)) in
  let num n := itoa (Z.of_nat n) in
  let intro := "Scan: " +:+ policyID +:+ " | Target: " +:+ join ", " targetIDs +:+ " | " +:+
               total +:+ " requirements" in
  let rows := (fun e => [se_targetID e; se_requirementID e; se_controlID e;
                         se_emoji e +:+ " " +:+ result_String (se_result e); se_message e])
              <$> summary_rows entries showPassing in
  let conclusion := total +:+ " requirements: " +:+ num (passCount c) +:+ " passed, " +:+
    num (failCount c) +:+ " failed, " +:+ num (notApplicableCount c) +:+ " not applicable, " +:+
    num (skipCount c) +:+ " skipped, " +:+ num (errCount c) +:+ " errors" in
  intro +:+ nl +:+
  (if bool_decide (rows = []) then "" else
     nl +:+ ShowPlainTable ["TARGET ID"; "REQUIREMENT ID"; "CONTROL ID"; "STATUS"; "MESSAGE"] rows
        +:+ nl) +:+
  conclusion +:+ nl.

Definition NothingAssessed (assessments : list AssessmentLog) : bool :=
  forallb (fun a => let r := aggregateResultFromSteps (AL_Steps a) in
                    negb (bool_decide (r = Passed) || bool_decide (r = Failed))) assessments.

Definition plural (n : nat) (noun : string) : string :=
  if (n =? 1)%nat then noun else noun +:+ "s".

Definition FormatOperationalWarnings (errors : list string) : string :=
  match errors with
  | [] => ""
  | _ => nl +:+ "WARNING: " +:+ itoa (Z.of_nat (length errors)) +:+ " operational " +:+
         plural (length errors) "error" +:+ " during scan:" +:+ nl +:+
         String.concat "" ((fun e => "  - " +:+ e +:+ nl) <$> errors) +:+ nl
  end.

(** ** Mapping references *)

Record MappingCollision := MkMappingCollision {
  MC_ID : string;
  MC_RetainedTitle : string;
  MC_DiscardedTitle : string;
  MC_PolicyWins : bool;
}.

Definition buildCollisionNote (id title retainedBy : string) : string :=
  if negb (bool_decide (title = "")) then
    "collision: provider ref '" +:+ title +:+ "' (id: '" +:+ id +:+ "') discarded in favor of " +:+
    retainedBy +:+ "; "
  else "collision: provider ref (id: '" +:+ id +:+ "') discarded in favor of " +:+ retainedBy +:+ "; ".

Definition providerRefToGemara (pr : MappingReference) : MappingReference :=
  MkMappingReference (MR_ID pr) (MR_Title pr) (MR_Version pr) (MR_Description pr) (MR_URL pr).

Definition prepend_description (note : string) (r : MappingReference) : MappingReference :=
  MkMappingReference (MR_ID r) (MR_Title r) (MR_Version r) (note +:+ MR_Description r) (MR_URL r).

Record merge_state := MkMergeState {
  ms_seen : gmap string nat;
  ms_result : list MappingReference;
  ms_collisions : list MappingCollision;
  ms_discarded : list string;
}.

(** The policy references enter first; a repeated id keeps its last index. *)
Definition merge_policy (policyRefs : list MappingReference) : merge_state :=
  fold_left (fun st pr => MkMergeState (<[MR_ID pr := length (ms_result st)]> (ms_seen st))
                            (ms_result st ++ [pr]) [] []) policyRefs (MkMergeState ∅ [] [] []).

Definition merge_provider (isPolicyOrigin : gset string) (st : merge_state) (pr : MappingReference)
    : merge_state :=
  if bool_decide (MR_ID pr = "") then
    MkMergeState (ms_seen st) (ms_result st) (ms_collisions st) (ms_discarded st ++ [MR_Title pr])
  else match ms_seen st !! MR_ID pr with
       | Some idx =>
           let policyWins := bool_decide (MR_ID pr ∈ isPolicyOrigin) in
           let retainedBy := if policyWins then "policy ref" else "earlier provider ref" in
           let retained := ms_result st !! idx in
           MkMergeState (ms_seen st)
             (alter (prepend_description (buildCollisionNote (MR_ID pr) (MR_Title pr) retainedBy)) idx
                (ms_result st))
             (ms_collisions st ++ [MkMappingCollision (MR_ID pr) (default "" (MR_Title <$> retained))
                                     (MR_Title pr) policyWins])
             (ms_discarded st)
       | None => MkMergeState (<[MR_ID pr := length (ms_result st)]> (ms_seen st))
                   (ms_result st ++ [providerRefToGemara pr]) (ms_collisions st) (ms_discarded st)
       end.

Definition MergeMappingReferences (policyRefs providerRefs : list MappingReference)
    : list MappingReference * list MappingCollision * list string :=
  let isPolicyOrigin : gset string := list_to_set (MR_ID <$> policyRefs) in
  let st := fold_left (merge_provider isPolicyOrigin) providerRefs (merge_policy policyRefs) in
  (ms_result st, ms_collisions st, ms_discarded st).

Definition format_collision (c : MappingCollision) : string :=
  let retained := if negb (MC_PolicyWins c) then "earlier provider ref" else "policy ref" in
  "  - id '" +:+ MC_ID c +:+ "': provider ref" +:+
  (if negb (bool_decide (MC_DiscardedTitle c = "")) then " '" +:+ MC_DiscardedTitle c +:+ "'" else "") +:+
  " discarded in favor of " +:+ retained +:+ nl.

Definition FormatMappingCollisions (collisions : list MappingCollision) : string :=
  match collisions with
  | [] => ""
  | _ => nl +:+ "WARNING: " +:+ itoa (Z.of_nat (length collisions)) +:+ " mapping reference " +:+
         plural (length collisions) "collision" +:+ " during merge:" +:+ nl +:+
         String.concat "" (format_collision <$> collisions) +:+ nl
  end.

(** ** The Markdown report (markdown.go) *)

Record Markdown := MkMarkdown {
  md_policyID : string;
  md_evalLog : EvaluationLog;
  md_embedLog : bool;
  md_evaluationLog : path;
}.

Definition NewMarkdown (policyID : string) (evalLog : EvaluationLog) : Markdown :=
  MkMarkdown policyID evalLog false [].

Definition SetEmbedEvaluationLog (m : Markdown) (p : path) : Markdown :=
  MkMarkdown (md_policyID m) (md_evalLog m) true p.

Definition resultEmoji (r : gresult) : string :=
  match r with
  | Passed => StatusPassed
  | Failed => StatusFailed
  | NotApplicable | NotRun => StatusSkipped
  | Unknown | NeedsReview => StatusError
  end.

Definition confidence_String (c : gconfidence) : string :=
  match c with
  | Undetermined => "Undetermined" | Low => "Low" | Medium => "Medium" | High => "High"
  end.

Record summaryCounts := MkSummaryCounts {
  sc_passed : nat; sc_failed : nat; sc_needsReview : nat;
  sc_notApplicable : nat; sc_notRun : nat; sc_unknown : nat;
}.

Definition sc_total (s : summaryCounts) : nat :=
  sc_passed s + sc_failed s + sc_needsReview s + sc_notApplicable s + sc_notRun s + sc_unknown s.
Definition applicable (s : summaryCounts) : nat := sc_total s - sc_notApplicable s - sc_notRun s.

Definition count_log (c : summaryCounts) (al : GAssessmentLog) : summaryCounts :=
  let '(MkSummaryCounts p f nr na nrun u) := c in
  match GAL_Result al with
  | Passed => MkSummaryCounts (S p) f nr na nrun u
  | Failed => MkSummaryCounts p (S f) nr na nrun u
  | NeedsReview => MkSummaryCounts p f (S nr) na nrun u
  | NotApplicable => MkSummaryCounts p f nr (S na) nrun u
  | NotRun => MkSummaryCounts p f nr na (S nrun) u
  | Unknown => MkSummaryCounts p f nr na nrun (S u)
  end.

Definition computeSummaryCounts (evals : list ControlEvaluation) : summaryCounts :=
  fold_left (fun c ce => fold_left count_log (CE_AssessmentLogs ce) c) evals
    (MkSummaryCounts 0 0 0 0 0 0).

Definition passRate (c : summaryCounts) : nat :=
  if (0 <? applicable c)%nat then (sc_passed c * 100 / applicable c)%nat else 0.

Record finding := MkFinding {
  fd_controlID : string;
  fd_requirementID : string;
  fd_result : gresult;
  fd_message : string;
  fd_recommendation : string;
  fd_confidence : gconfidence;
  fd_evidence : list GEvidence;
}.

Definition finding_of (ce : ControlEvaluation) (al : GAssessmentLog) : finding :=
  MkFinding (CE_Name ce) (EM_EntryId (GAL_Requirement al)) (GAL_Result al) (GAL_Message al)
    (GAL_Recommendation al) (GAL_ConfidenceLevel al) (GAL_Evidence al).

Definition not_passed (al : GAssessmentLog) : Prop := GAL_Result al <> Passed.
#[export] Instance not_passed_dec al : Decision (not_passed al).
Proof. unfold not_passed. apply _. Defined.

(** The findings in the order of the log, before they are sorted. *)
Definition findings_of_log (evals : list ControlEvaluation) : list finding :=
  flat_map (fun ce => finding_of ce <$> filter not_passed (CE_AssessmentLogs ce)) evals.

Definition collectFindings (evals : list ControlEvaluation) : list finding :=
  sort_stable (fun f => sortPriority (fd_result f)) (findings_of_log evals).

Definition num (n : nat) : string := itoa (Z.of_nat n).
Definition lines (l : list string) : string := String.concat "" ((fun x => x +:+ nl) <$> l).
Definition or_dash (s : string) : string := if bool_decide (s = "") then "-" else s.

(** [now] is the time in RFC 3339; the evaluator sets no author version, so the
    tool is its name. *)
Definition writeSummary (m : Markdown) (now : string) : string :=
  let log := md_evalLog m in
  let c := computeSummaryCounts (EL_Evaluations log) in
  let res := result_String (EL_Result log) in
  lines [ "# Compliance Scan Report: " +:+ md_policyID m; "";
    "| Field | Value |";
    "|-------|-------|";
    "| Policy | " +:+ md_policyID m +:+ " |";
    "| Target | " +:+ or_dash (EL_TargetId log) +:+ " |";
    "| Tool | " +:+ or_dash (EL_AuthorName log) +:+ " |";
    "| Result | " +:+ res +:+ " |";
    "| Date | " +:+ now +:+ " |"; "";
    "**Overall: " +:+ res +:+ " -- " +:+ num (passRate c) +:+ "% pass rate (" +:+
      num (sc_passed c) +:+ "/" +:+ num (applicable c) +:+ " applicable)**"; "";
    "| " +:+ StatusPassed +:+ " Passed | " +:+ StatusFailed +:+ " Failed | " +:+ StatusError +:+
      " Needs Review | " +:+ StatusError +:+ " Unknown | " +:+ StatusSkipped +:+ " N/A | " +:+
      StatusSkipped +:+ " Not Run | Total |";
    "|--------|--------|--------------|---------|-----|---------|-------|";
    "| " +:+ num (sc_passed c) +:+ " | " +:+ num (sc_failed c) +:+ " | " +:+ num (sc_needsReview c) +:+
      " | " +:+ num (sc_unknown c) +:+ " | " +:+ num (sc_notApplicable c) +:+ " | " +:+
      num (sc_notRun c) +:+ " | " +:+ num (sc_total c) +:+ " |"; "" ].

Definition control_row (ce : ControlEvaluation) : string :=
  "| **" +:+ CE_Name ce +:+ "** | **" +:+ resultEmoji (CE_Result ce) +:+ " " +:+
  result_String (CE_Result ce) +:+ "** | " +:+ CE_Message ce +:+ " |".

Definition requirement_row (al : GAssessmentLog) : string :=
  "| &nbsp;&nbsp;" +:+ EM_EntryId (GAL_Requirement al) +:+ " | " +:+ resultEmoji (GAL_Result al) +:+
  " " +:+ result_String (GAL_Result al) +:+ " | |".

Definition writeControlsTable (m : Markdown) : string :=
  lines (["## Controls"; ""; "| Control / Requirement | Result | Message |";
          "|-----------------------|--------|---------|"] ++
         flat_map (fun ce => control_row ce :: (requirement_row <$> CE_AssessmentLogs ce))
           (EL_Evaluations (md_evalLog m)) ++ [""]).

Definition formatEvidenceMeta (ev : GEvidence) : string :=
  join ", " (
    (if bool_decide (GE_Type ev = "") then [] else [GE_Type ev]) ++
    (if bool_decide (GE_CollectedAt ev = "") then [] else ["collected: " +:+ GE_CollectedAt ev]) ++
    match GE_Source ev with
    | None => []
    | Some s => if bool_decide (ES_ReferenceID s = "") then []
                else ["source: " +:+ ES_ReferenceID s +:+
                      (if bool_decide (ES_Coordinate s = "") then "" else " @ " +:+ ES_Coordinate s)]
    end).

Definition evidence_item (ev : GEvidence) : string :=
  let label := if bool_decide (GE_Description ev = "") then GE_Id ev else GE_Description ev in
  let md := formatEvidenceMeta ev in
  lines [if bool_decide (md = "") then "- " +:+ label else "- " +:+ label +:+ " (" +:+ md +:+ ")"] +:+
  (if bool_decide (GE_Payload ev = "") then ""
   else lines [""; "  ```"; "  " +:+ GE_Payload ev; "  ```"; ""]).

Definition write_finding (f : finding) : string :=
  lines (["#### " +:+ fd_requirementID f +:+ " -- " +:+ result_String (fd_result f); "";
          "- **Control**: " +:+ fd_controlID f; "- **Message**: " +:+ fd_message f] ++
         (if bool_decide (fd_confidence f = Undetermined) then []
          else ["- **Confidence**: " +:+ confidence_String (fd_confidence f)]) ++
         (if bool_decide (fd_recommendation f = "") then []
          else ["- **Recommendation**: " +:+ fd_recommendation f])) +:+
  (match fd_evidence f with
   | [] => ""
   | _ => lines [""; "<details>"; "<summary>Evidence (" +:+ num (length (fd_evidence f)) +:+
                 " items)</summary>"; ""] +:+
          String.concat "" (evidence_item <$> fd_evidence f) +:+ lines [""; "</details>"]
   end) +:+ nl.

(** The loop over the findings; [cur] is the result of the open group. *)
Fixpoint write_groups (cur : option gresult) (fs : list finding) : string :=
  match fs with
  | [] => ""
  | f :: rest =>
      (if bool_decide (cur = Some (fd_result f)) then ""
       else lines ["### " +:+ resultEmoji (fd_result f) +:+ " " +:+ result_String (fd_result f); ""])
      +:+ write_finding f +:+ write_groups (Some (fd_result f)) rest
  end.

Definition writeFindings (m : Markdown) : string :=
  let findings := collectFindings (EL_Evaluations (md_evalLog m)) in
  lines ["## Findings"; ""] +:+
  match findings with
  | [] => lines ["No findings."; ""]
  | _ => write_groups None findings
  end.

(** The embedded log; a file that cannot be read is skipped with a warning. *)
Definition writeEvaluationLog (m : Markdown) : io string :=
  if negb (md_embedLog m) || bool_decide (md_evaluationLog m = []) then io_ret ""
  else
    let! r := os_ReadFile (md_evaluationLog m) in
    io_ret (match r with
            | Err _ => ""
            | Ok data => lines ["---"; ""; "<details>"; "<summary>Evaluation Log</summary>"; ""; "```yaml"]
                         +:+ data +:+ nl +:+ lines ["```"; ""; "</details>"]
            end).

(** [now] and [ts] are the two formatted time stamps. *)
Definition Markdown_Write (m : Markdown) (now ts : string) (outDir : path) : io (result path) :=
  let! embedded := writeEvaluationLog m in
  write_report "markdown report" outDir
    (BuildReportFilename ts "report" (md_policyID m) (EL_TargetId (md_evalLog m)) "md")
    (writeSummary m now +:+ writeControlsTable m +:+ writeFindings m +:+ embedded).

(** ** OSCAL (oscal.go) *)

Record oscalState := MkOscalState { os_State : string; os_Reason : string }.

Definition gemaraResultToOSCAL (r : gresult) : oscalState :=
  match r with
  | Passed => MkOscalState "satisfied" ""
  | Failed => MkOscalState "not-satisfied" ""
  | NotApplicable => MkOscalState "satisfied" "not-applicable"
  | Unknown => MkOscalState "not-satisfied" "unknown"
  | _ => MkOscalState "not-satisfied" "unknown"
  end.

Record oscalFinding := MkOscalFinding {
  OF_UUID : string;
  OF_Title : string;
  OF_Description : string;
  OF_TargetId : string;
  OF_Status : oscalState;
  OF_Remarks : string;
}.

(** The assessment results document, as far as the code fills it. *)
Record oscalDoc := MkOscalDoc {
  OD_UUID : string;
  OD_Title : string;
  OD_ImportAp : string;
  OD_ResultUUID : string;
  OD_ResultTitle : string;
  OD_Findings : list oscalFinding;
}.

(** go-oscal's UUID source and JSON encoder. *)
Class Oscal := { newUUID : nat -> string; oscal_json : oscalDoc -> result string }.

Definition oscal_finding (uuid : string) (al : GAssessmentLog) : oscalFinding :=
  let mapped := gemaraResultToOSCAL (GAL_Result al) in
  let remarks := if bool_decide (os_Reason mapped = "not-applicable")
                 then "Skipped due to Tailoring: " +:+ GAL_Message al else GAL_Message al in
  MkOscalFinding uuid ("Assessment: " +:+ EM_EntryId (GAL_Requirement al)) (GAL_Message al)
    (EM_EntryId (GAL_Requirement al)) mapped remarks.

(** UUIDs are drawn in the order of the code: findings, result, document. *)
Definition oscal_document {oscal : Oscal} (log : EvaluationLog) : oscalDoc :=
  let logs := flat_map CE_AssessmentLogs (EL_Evaluations log) in
  let findings := imap (fun i al => oscal_finding (newUUID i) al) logs in
  let n := length findings in
  MkOscalDoc (newUUID (S n)) ("Compliance scan: " +:+ EL_MetadataId log)
    ("file://assessment-plan-" +:+ EL_MetadataId log +:+ ".json")
    (newUUID n) ("Policy: " +:+ EL_MetadataId log) findings.

(** [outDir = ""] is the current directory; a [path] is already resolved. *)
Definition ToOSCAL {oscal : Oscal} (log : EvaluationLog) (ts : string) (outDir : path)
    : io (result path) :=
  do! data := io_lift (oscal_json (oscal_document log))
    orelse (fun e => Wrapf "failed to marshal OSCAL: " e "") in
  write_report "OSCAL file" outDir
    (BuildReportFilename ts "assessment-results" (EL_MetadataId log) (EL_TargetId log) "json") data.

(** ** SARIF (sarif.go): go-gemara's converter, passed results excluded *)

Class Sarif := gemaraconv_ToSARIF : EvaluationLog -> string -> list gresult -> result string.

Definition ToSARIF {sarif : Sarif} (log : EvaluationLog) (artifactURI ts : string) (outDir : path)
    : io (result path) :=
  do! sarifBytes := io_lift (gemaraconv_ToSARIF log artifactURI [Passed])
    orelse (fun e => Wrapf "SARIF conversion failed: " e "") in
  write_report "SARIF file" outDir
    (BuildReportFilename ts "scan" (EL_MetadataId log) (EL_TargetId log) "sarif.json") sarifBytes.

(** ** The execution plan (execution_plan.go) *)

Record ExecutionPlanRow := MkExecutionPlanRow {
  EP_TargetID : string;
  EP_ProviderID : string;
  EP_RequirementCount : nat;
  EP_Status : string;
}.

Definition statusEmoji (status : string) : string :=
  if bool_decide (status = "healthy") then StatusPassed else StatusFailed.

Definition FormatExecutionPlan (effectiveID : string) (rows : list ExecutionPlanRow) : string :=
  lines ["Execution Plan: " +:+ effectiveID] +:+
  String.concat "" ((fun r => lines ["";
      "  Target: " +:+ EP_TargetID r;
      "    Provider: " +:+ EP_ProviderID r +:+ " (" +:+ statusEmoji (EP_Status r) +:+ " " +:+ EP_Status r +:+ ")";
      "    Requirements: " +:+ num (EP_RequirementCount r)]) <$> rows) +:+
  lines [""; "Generation completed."].

Definition FormatPreScanSummary (requirementCount : nat) (providerIDs targetIDs : list string) : string :=
  "Scanning " +:+ num requirementCount +:+ " requirements via " +:+ join ", " providerIDs +:+
  " for target(s): " +:+ join ", " targetIDs +:+ "...".

(** ** The summary counts every assessment once *)

Section summary.
  Context (targets : list string) (reqToControl : gmap string string).

Definition result_of (a : AssessmentLog) : gresult := aggregateResultFromSteps (AL_Steps a).

(** How many elements of [l] have the result [r]. *)
Definition tally {A} (f : A -> gresult) (r : gresult) (l : list A) : nat :=
  length (filter (fun a => f a = r) l).

Lemma tally_cons {A} (f : A -> gresult) r a l :
  tally f r (a :: l) = ((if decide (f a = r) then 1 else 0) + tally f r l)%nat.
Proof. unfold tally. rewrite filter_cons. by case_decide. Qed.

Lemma tally_app {A} (f : A -> gresult) r l l' : tally f r (l ++ l') = (tally f r l + tally f r l')%nat.
Proof. unfold tally. by rewrite filter_app, length_app. Qed.

Lemma tally_zero {A} (f : A -> gresult) r l : tally f r l = 0%nat <-> Forall (fun a => f a <> r) l.
Proof.
  induction l as [|a l IH]; [split; [constructor|done]|].
  rewrite tally_cons, Forall_cons, <-IH. case_decide; split; intros; [lia|by destruct_and?| |lia].
  split; [done|lia].
Qed.

Lemma summary_counts_add l c :
  fold_left (fun c a => count_result (result_of a) c) l c =
  MkCounts (passCount c + tally result_of Passed l) (failCount c + tally result_of Failed l)
    (notApplicableCount c + tally result_of NotApplicable l) (skipCount c + tally result_of NotRun l)
    (errCount c + (tally result_of Unknown l + tally result_of NeedsReview l)).
Proof.
  revert c. induction l as [|a l IH]; intros c.
  { destruct c. unfold tally. simpl. f_equal; lia. }
  cbn [fold_left]. rewrite IH, !tally_cons.
  destruct c, (result_of a); cbn [count_result passCount failCount notApplicableCount skipCount errCount]; f_equal; repeat (case_decide; [|try congruence]); simplify_eq; try lia; try (exfalso; congruence).
Qed.

Lemma tally_total {A} (f : A -> gresult) l :
  length l = (tally f Passed l + tally f Failed l + tally f NotApplicable l + tally f NotRun l +
              tally f Unknown l + tally f NeedsReview l)%nat.
Proof.
  induction l as [|a l IH]; [done|]. rewrite !tally_cons. cbn [length]. rewrite IH.
  destruct (f a); repeat (case_decide; simplify_eq); lia.
Qed.

(** the scan summary loses no assessment.  The five totals count the
    assessments by aggregated result (a result that needs review counts as an
    error) and add up to their number; the table's rows are the entries of all
    assessments, or of those that did not pass, sorted by priority with equal
    priorities in order of arrival; and nothing was assessed exactly when the
    passed and failed totals are zero. *)
Theorem summary_accounts_for_all (l : list AssessmentLog) (showPassing : bool) :
  let '(c, entries) := summary_loop l targets reqToControl in
  let rows := summary_rows entries showPassing in
  let shown := filter (fun e => showPassing = true \/ se_result e <> Passed) entries in
  (passCount c + failCount c + notApplicableCount c + skipCount c + errCount c)%nat = length l /\
  passCount c = tally result_of Passed l /\ failCount c = tally result_of Failed l /\
  notApplicableCount c = tally result_of NotApplicable l /\ skipCount c = tally result_of NotRun l /\
  se_result <$> entries = result_of <$> l /\
  rows ≡ₚ shown /\
  StronglySorted (fun x y => sortPriority (se_result x) <= sortPriority (se_result y))%nat rows /\
  (forall k, filter (fun e => sortPriority (se_result e) = k) rows =
             filter (fun e => sortPriority (se_result e) = k) shown) /\
  (NothingAssessed l = true <-> passCount c = 0 /\ failCount c = 0)%nat.
Proof.
  unfold summary_loop.
  change (fold_left _ l ?c0) with (fold_left (fun c a => count_result (result_of a) c) l c0).
  rewrite summary_counts_add.
  cbv zeta. cbn [passCount failCount notApplicableCount skipCount errCount].
  set (entries := imap _ l). rewrite !Nat.add_0_l.
  assert (Hshown : (if negb showPassing then filter (fun e => ~ is_passed e) entries else entries) =
    filter (fun e => showPassing = true \/ se_result e <> Passed) entries).
  { destruct showPassing; cbn [negb].
    - symmetry. apply filter_all, Forall_forall. auto.
    - apply list_filter_iff. unfold is_passed. naive_solver. }
  unfold summary_rows. rewrite Hshown. split_and!; try done.
  - rewrite (tally_total result_of l). lia.
  - unfold entries. rewrite fmap_imap. clear. generalize 0%nat as i.
    intros _. apply list_eq. intros i. rewrite list_lookup_imap, list_lookup_fmap.
    by destruct (l !! i).
  - apply sort_stable_perm.
  - apply (sort_stable_sorted (fun e => sortPriority (se_result e))).
  - intros k. apply sort_stable_filter.
  - rewrite !tally_zero, <-Forall_and. unfold NothingAssessed.
    rewrite forallb_forall, Forall_forall. setoid_rewrite <-list_elem_of_In.
    apply forall_proper. intros a. change (aggregateResultFromSteps (AL_Steps a)) with (result_of a).
    rewrite negb_true_iff, orb_false_iff, !bool_decide_eq_false. tauto.
Qed.
End summary.

(** ** Merging mapping references *)

(** The provider references that enter the result, those that collide, and
    those without an identifier; [seen] are the identifiers already taken. *)
Fixpoint kept_refs (seen : list string) (refs : list MappingReference) : list MappingReference :=
  match refs with
  | [] => []
  | r :: rest =>
      if bool_decide (MR_ID r = "") || bool_decide (MR_ID r ∈ seen) then kept_refs seen rest
      else r :: kept_refs (seen ++ [MR_ID r]) rest
  end.

Fixpoint collided_refs (seen : list string) (refs : list MappingReference) : list MappingReference :=
  match refs with
  | [] => []
  | r :: rest =>
      if bool_decide (MR_ID r = "") then collided_refs seen rest
      else if bool_decide (MR_ID r ∈ seen) then r :: collided_refs seen rest
      else collided_refs (seen ++ [MR_ID r]) rest
  end.

Definition anonymous_refs (refs : list MappingReference) : list MappingReference :=
  filter (fun r => MR_ID r = "") refs.

(** [r] is [r0], possibly with notes in front of its description. *)
Definition annotated (r r0 : MappingReference) : Prop :=
  exists notes, r = prepend_description notes r0.

Lemma annotated_refl r : annotated r r.
Proof. exists "". by destruct r. Qed.

Lemma annotated_note note r r0 : annotated r r0 -> annotated (prepend_description note r) r0.
Proof.
  intros [notes ->]. exists (note +:+ notes). unfold prepend_description. simpl. by rewrite append_assoc.
Qed.

Lemma annotated_ids l l0 : Forall2 annotated l l0 -> MR_ID <$> l = MR_ID <$> l0.
Proof. induction 1 as [|r r0 l l0 [notes ->] _ IH]; [done|]. rewrite !fmap_cons. by f_equal. Qed.

Lemma annotated_alter note idx l l0 :
  Forall2 annotated l l0 -> Forall2 annotated (alter (prepend_description note) idx l) l0.
Proof.
  intros H. revert idx. induction H as [|r r0 l l0 Hr H IH]; intros idx; [constructor|].
  destruct idx as [|idx]; cbn [alter list_alter]; constructor; [by apply annotated_note|done|done|].
  apply IH.
Qed.

(** The index map knows exactly the identifiers of the result. *)
Definition seen_ok (st : merge_state) : Prop := forall id,
  match ms_seen st !! id with
  | Some idx => MR_ID <$> (ms_result st !! idx) = Some id
  | None => id ∉ MR_ID <$> ms_result st
  end.

Lemma seen_ok_add st st' r :
  seen_ok st -> ms_seen st' = <[MR_ID r := length (ms_result st)]> (ms_seen st) ->
  ms_result st' = ms_result st ++ [r] -> seen_ok st'.
Proof.
  intros Hok Hs Hr id. rewrite Hs, Hr. destruct (decide (MR_ID r = id)) as [<-|Hne].
  - rewrite lookup_insert_eq. by rewrite list_lookup_middle.
  - rewrite lookup_insert_ne by done. specialize (Hok id). destruct (ms_seen st !! id) as [idx|].
    + apply fmap_Some in Hok as (r0 & Hl & ->). by rewrite (lookup_app_l_Some _ _ _ _ Hl).
    + rewrite fmap_app, elem_of_app. intros [?|?%list_elem_of_singleton]; simpl in *; congruence.
Qed.

Lemma merge_policy_ok pol :
  ms_result (merge_policy pol) = pol /\ seen_ok (merge_policy pol) /\
  ms_collisions (merge_policy pol) = [] /\ ms_discarded (merge_policy pol) = [].
Proof.
  induction pol as [|r pol IH] using rev_ind.
  { split_and!; try done. intros id. unfold merge_policy. simpl. rewrite lookup_empty. apply not_elem_of_nil. }
  unfold merge_policy in *. rewrite fold_left_app. destruct IH as (Hr & Hs & _). cbn.
  split_and!; [by rewrite Hr| |done|done]. eapply seen_ok_add; [exact Hs|done|done].
Qed.

Definition collision_of (pol : gset string) (c : MappingCollision) (r : MappingReference) : Prop :=
  MC_ID c = MR_ID r /\ MC_DiscardedTitle c = MR_Title r /\ MC_PolicyWins c = bool_decide (MR_ID r ∈ pol).

Lemma seen_ok_alter st st' note idx :
  seen_ok st -> ms_seen st' = ms_seen st ->
  ms_result st' = alter (prepend_description note) idx (ms_result st) -> seen_ok st'.
Proof.
  intros Hok Hs Hr id. rewrite Hs, Hr. specialize (Hok id).
  assert (Hids : MR_ID <$> alter (prepend_description note) idx (ms_result st) = MR_ID <$> ms_result st).
  { generalize idx. clear. induction (ms_result st) as [|r l IH]; intros [|i]; [done..|].
    rewrite fmap_cons. cbn [alter list_alter]. rewrite fmap_cons. f_equal. apply IH. }
  destruct (ms_seen st !! id) as [j|]; [|by rewrite Hids].
  rewrite <-list_lookup_fmap in *. by rewrite Hids.
Qed.

Lemma merge_fold pol prov st base cs0 :
  seen_ok st -> Forall2 annotated (ms_result st) base -> Forall2 (collision_of pol) (ms_collisions st) cs0 ->
  let st' := fold_left (merge_provider pol) prov st in
  Forall2 annotated (ms_result st') (base ++ kept_refs (MR_ID <$> base) prov) /\
  Forall2 (collision_of pol) (ms_collisions st') (cs0 ++ collided_refs (MR_ID <$> base) prov) /\
  ms_discarded st' = ms_discarded st ++ (MR_Title <$> anonymous_refs prov).
Proof.
  revert st base cs0. induction prov as [|r prov IH]; intros st base cs0 Hok Hb Hc; cbn [fold_left].
  { simpl. rewrite !app_nil_r. done. }
  unfold anonymous_refs. rewrite filter_cons. cbn [kept_refs collided_refs]. unfold merge_provider at 2 4 6.
  destruct (decide (MR_ID r = "")) as [Hid|Hid].
  - rewrite bool_decide_eq_true_2 by done. cbn [orb]. rewrite fmap_cons.
    destruct (IH (MkMergeState (ms_seen st) (ms_result st) (ms_collisions st)
      (ms_discarded st ++ [MR_Title r])) base cs0) as (H1 & H2 & H3); [done..|].
    split_and!; [exact H1|exact H2|]. rewrite H3. simpl. by rewrite <-app_assoc.
  - rewrite (bool_decide_eq_false_2 (MR_ID r = "")) by done. cbn [orb].
    pose proof (Hok (MR_ID r)) as Hr. destruct (ms_seen st !! MR_ID r) as [idx|] eqn:Es.
    + assert (MR_ID r ∈ MR_ID <$> base) as Hin.
      { rewrite <-(annotated_ids _ _ Hb). apply list_elem_of_lookup. exists idx. by rewrite list_lookup_fmap. }
      rewrite !(bool_decide_eq_true_2 (MR_ID r ∈ MR_ID <$> base)) by done.
      cbv zeta. match goal with |- context [fold_left _ prov ?s] => set (st1 := s) end.
      destruct (IH st1 base (cs0 ++ [r])) as (H1 & H2 & H3).
      * by eapply seen_ok_alter.
      * by apply annotated_alter.
      * by apply Forall2_app; [|repeat constructor].
      * rewrite <-app_assoc in H2. by split_and!.
    + assert (MR_ID r ∉ MR_ID <$> base) as Hnin by by rewrite <-(annotated_ids _ _ Hb).
      rewrite !(bool_decide_eq_false_2 (MR_ID r ∈ MR_ID <$> base)) by done.
      match goal with |- context [fold_left _ prov ?s] => set (st1 := s) end.
      destruct (IH st1 (base ++ [r]) cs0) as (H1 & H2 & H3).
      * eapply (seen_ok_add st); [done|done|]. by destruct r.
      * apply Forall2_app; [done|]. constructor; [|constructor]. destruct r. apply annotated_refl.
      * done.
      * rewrite <-app_assoc, fmap_app in H1. rewrite fmap_app in H2. by split_and!.
Qed.

Lemma kept_refs_fresh seen refs :
  NoDup (MR_ID <$> kept_refs seen refs) /\
  Forall (fun r => MR_ID r <> "" /\ MR_ID r ∉ seen /\ r ∈ refs) (kept_refs seen refs).
Proof.
  revert seen. induction refs as [|r refs IH]; intros seen; simpl; [split; constructor|].
  destruct (bool_decide (MR_ID r = "")) eqn:E1; [|destruct (bool_decide (MR_ID r ∈ seen)) eqn:E2]; simpl.
  1,2: destruct (IH seen) as [H1 H2]; split; [done|]; eapply Forall_impl; [done|];
    intros x; rewrite elem_of_cons; tauto.
  apply bool_decide_eq_false in E1, E2. destruct (IH (seen ++ [MR_ID r])) as [H1 H2].
  rewrite Forall_forall in H2. split.
  - constructor; [|done]. intros (x & Hx & Hin)%list_elem_of_fmap.
    destruct (H2 x Hin) as (_ & Hn & _). apply Hn. rewrite elem_of_app, list_elem_of_singleton. auto.
  - constructor; [split_and!; [done|done|left]|]. apply Forall_forall. intros x Hx.
    destruct (H2 x Hx) as (? & Hn & ?). rewrite elem_of_app in Hn. split_and!; [done|tauto|by right].
Qed.

Lemma refs_count seen refs :
  (length (kept_refs seen refs) + length (collided_refs seen refs) + length (anonymous_refs refs))%nat
  = length refs.
Proof.
  unfold anonymous_refs. revert seen. induction refs as [|r refs IH]; intros seen; [done|].
  cbn [kept_refs collided_refs]. rewrite filter_cons.
  destruct (decide (MR_ID r = "")) as [E|E].
  - rewrite bool_decide_eq_true_2 by done. cbn [orb length]. rewrite <-(IH seen). lia.
  - rewrite bool_decide_eq_false_2 by done. cbn [orb].
    destruct (bool_decide _); cbn [length]; [rewrite <-(IH seen)|rewrite <-(IH (seen ++ [MR_ID r]))]; lia.
Qed.

(** merging mapping references is lossless and policy references win.
    The result is the policy references followed by the first provider
    reference for each non-empty identifier no policy reference has, all
    unchanged but for collision notes in front of descriptions; every other
    provider reference is either reported as a collision, in order and marked
    as lost to the policy exactly when a policy reference has its identifier,
    or has no identifier and its title is returned as discarded. *)
Theorem MergeMappingReferences_lossless pol prov :
  let '(res, collisions, discarded) := MergeMappingReferences pol prov in
  let ids := MR_ID <$> pol in
  Forall2 annotated res (pol ++ kept_refs ids prov) /\
  Forall2 (collision_of (list_to_set ids)) collisions (collided_refs ids prov) /\
  discarded = MR_Title <$> anonymous_refs prov /\
  NoDup (MR_ID <$> kept_refs ids prov) /\
  Forall (fun r => MR_ID r <> "" /\ MR_ID r ∉ ids /\ r ∈ prov) (kept_refs ids prov) /\
  (length res + length collisions + length discarded = length pol + length prov)%nat.
Proof.
  unfold MergeMappingReferences. cbv zeta.
  destruct (merge_policy_ok pol) as (Hr & Hs & Hc & Hd).
  destruct (merge_fold (list_to_set (MR_ID <$> pol)) prov (merge_policy pol) pol []) as (H1 & H2 & H3).
  { done. } { rewrite Hr. clear. induction pol; constructor; auto using annotated_refl. }
  { rewrite Hc. constructor. }
  rewrite Hd in H3. simpl in H2, H3. destruct (kept_refs_fresh (MR_ID <$> pol) prov) as [H4 H5].
  split_and!; try done. rewrite H3, (Forall2_length _ _ _ H1), (Forall2_length _ _ _ H2), length_fmap, length_app.
  rewrite <-(refs_count (MR_ID <$> pol) prov). lia.
Qed.

(** ** The Markdown report *)

Lemma count_log_add logs c :
  fold_left count_log logs c =
  MkSummaryCounts (sc_passed c + tally GAL_Result Passed logs) (sc_failed c + tally GAL_Result Failed logs)
    (sc_needsReview c + tally GAL_Result NeedsReview logs)
    (sc_notApplicable c + tally GAL_Result NotApplicable logs)
    (sc_notRun c + tally GAL_Result NotRun logs) (sc_unknown c + tally GAL_Result Unknown logs).
Proof.
  revert c. induction logs as [|al logs IH]; intros c.
  { destruct c. unfold tally. simpl. f_equal; lia. }
  cbn [fold_left]. rewrite IH, !tally_cons. unfold count_log.
  destruct c, (GAL_Result al);
    cbn [sc_passed sc_failed sc_needsReview sc_notApplicable sc_notRun sc_unknown];
    f_equal; repeat (case_decide; simplify_eq); lia.
Qed.

Definition all_logs (evals : list ControlEvaluation) : list GAssessmentLog :=
  flat_map CE_AssessmentLogs evals.

Lemma computeSummaryCounts_tally evals :
  let logs := all_logs evals in
  computeSummaryCounts evals =
  MkSummaryCounts (tally GAL_Result Passed logs) (tally GAL_Result Failed logs)
    (tally GAL_Result NeedsReview logs) (tally GAL_Result NotApplicable logs)
    (tally GAL_Result NotRun logs) (tally GAL_Result Unknown logs).
Proof.
  cbv zeta. unfold computeSummaryCounts.
  assert (H : forall c, fold_left (fun c ce => fold_left count_log (CE_AssessmentLogs ce) c) evals c =
    fold_left count_log (all_logs evals) c).
  { induction evals as [|ce evals IH]; intros c; [done|].
    unfold all_logs. cbn [fold_left flat_map]. rewrite fold_left_app. apply IH. }
  by rewrite H, count_log_add.
Qed.

(** the pass rate of the Markdown report is honest.  The six counters
    are the numbers of assessments with each result and their total is the
    number of assessments; the applicable ones are those that passed, failed,
    need review or are unknown; the rate is the percentage of them that
    passed, rounded down, never over 100, and it is 100 exactly when
    something applied and every applicable assessment passed. *)
Theorem pass_rate_honest evals :
  let logs := all_logs evals in
  let c := computeSummaryCounts evals in
  sc_total c = length logs /\
  sc_passed c = tally GAL_Result Passed logs /\ sc_failed c = tally GAL_Result Failed logs /\
  sc_needsReview c = tally GAL_Result NeedsReview logs /\
  sc_notApplicable c = tally GAL_Result NotApplicable logs /\
  sc_notRun c = tally GAL_Result NotRun logs /\ sc_unknown c = tally GAL_Result Unknown logs /\
  applicable c = (sc_passed c + sc_failed c + sc_needsReview c + sc_unknown c)%nat /\
  (passRate c <= 100)%nat /\
  (passRate c * applicable c <= sc_passed c * 100 < (passRate c + 1) * applicable c \/ applicable c = 0)%nat /\
  (passRate c = 100%nat <->
     (0 < applicable c)%nat /\
     Forall (fun al => GAL_Result al ∈ [Passed; NotApplicable; NotRun]) logs).
Proof.
  cbv zeta. rewrite computeSummaryCounts_tally. cbv zeta. set (logs := all_logs evals).
  unfold passRate, applicable, sc_total.
  cbn [sc_passed sc_failed sc_needsReview sc_notApplicable sc_notRun sc_unknown].
  pose proof (tally_total GAL_Result logs) as Ht.
  set (p := tally GAL_Result Passed logs) in *. set (f := tally GAL_Result Failed logs) in *.
  set (r := tally GAL_Result NeedsReview logs) in *. set (u := tally GAL_Result Unknown logs) in *.
  set (n := tally GAL_Result NotApplicable logs) in *. set (s := tally GAL_Result NotRun logs) in *.
  replace (p + f + r + n + s + u - n - s)%nat with (p + f + r + u)%nat by lia.
  assert (Hall : Forall (fun al => GAL_Result al ∈ [Passed; NotApplicable; NotRun]) logs <->
    (f = 0 /\ r = 0 /\ u = 0)%nat).
  { unfold f, r, u. rewrite !tally_zero, <-!Forall_and. apply Forall_proper; [|done].
    intros al. rewrite !elem_of_cons, elem_of_nil. destruct (GAL_Result al); intuition congruence. }
  rewrite Hall. destruct (Nat.ltb_spec 0 (p + f + r + u)) as [Hpos|Hpos].
  - assert (p * 100 / (p + f + r + u) <= 100)%nat as Hle
      by (apply Nat.Div0.div_le_upper_bound; lia).
    pose proof (Nat.div_mod (p * 100) (p + f + r + u) ltac:(lia)) as Hdm.
    pose proof (Nat.mod_upper_bound (p * 100) (p + f + r + u) ltac:(lia)) as Hm.
    set (q := (p * 100 / (p + f + r + u))%nat) in *. set (m := ((p * 100) mod (p + f + r + u))%nat) in *.
    split_and!; try done; try lia; try (left; nia). split; [intros ->; lia|]. intros (_ & -> & -> & ->). nia.
  - split_and!; try done; lia.
Qed.

(** The findings section reports every assessment that did not pass.
    The findings are the assessments other than passed ones, each with its
    control and its own data, sorted by priority (failed, unknown, needs
    review, then the rest), those of equal priority in the order of the log;
    there are none exactly when every assessment passed. *)
Theorem collectFindings_complete evals :
  let found := collectFindings evals in
  found ≡ₚ findings_of_log evals /\
  StronglySorted (fun x y => sortPriority (fd_result x) <= sortPriority (fd_result y))%nat found /\
  (forall k, filter (fun x => sortPriority (fd_result x) = k) found =
             filter (fun x => sortPriority (fd_result x) = k) (findings_of_log evals)) /\
  (forall ce al, ce ∈ evals -> al ∈ CE_AssessmentLogs ce -> GAL_Result al <> Passed ->
                 finding_of ce al ∈ found) /\
  Forall (fun x => fd_result x <> Passed) found /\
  (found = [] <-> Forall (fun al => GAL_Result al = Passed) (all_logs evals)).
Proof.
  cbv zeta. unfold collectFindings.
  pose proof (sort_stable_perm (fun x => sortPriority (fd_result x)) (findings_of_log evals)) as Hp.
  assert (Hin : forall x, x ∈ findings_of_log evals <->
    exists ce al, ce ∈ evals /\ al ∈ CE_AssessmentLogs ce /\ GAL_Result al <> Passed /\ x = finding_of ce al).
  { intros x. unfold findings_of_log. rewrite list_elem_of_In, in_flat_map.
    setoid_rewrite <-list_elem_of_In. setoid_rewrite list_elem_of_fmap. setoid_rewrite list_elem_of_filter.
    unfold not_passed. naive_solver. }
  split_and!; [done|apply (sort_stable_sorted (fun x => sortPriority (fd_result x)))
    |intros k; apply sort_stable_filter| | |].
  - intros ce al ???. rewrite Hp. apply Hin. eauto 10.
  - rewrite Hp. apply Forall_forall. intros x (ce & al & _ & _ & Hr & ->)%Hin. done.
  - split.
    + intros Hn. rewrite Hn in Hp. apply Permutation_nil_l in Hp. apply Forall_forall.
      intros al Hal. unfold all_logs in Hal. rewrite list_elem_of_In, in_flat_map in Hal.
      setoid_rewrite <-list_elem_of_In in Hal. destruct Hal as (ce & Hce & Hal).
      destruct (decide (GAL_Result al = Passed)) as [|Hr]; [done|].
      assert (finding_of ce al ∈ findings_of_log evals) as Hbad by (apply Hin; eauto 10).
      rewrite <-Hp in Hbad. by apply elem_of_nil in Hbad.
    + rewrite Forall_forall. intros Hall.
      destruct (findings_of_log evals) as [|x l]; [done|].
      destruct (proj1 (Hin x) ltac:(left)) as (ce & al & Hce & Hal & Hr & _).
      destruct Hr. apply Hall. unfold all_logs. rewrite list_elem_of_In, in_flat_map.
      setoid_rewrite <-list_elem_of_In. eauto.
Qed.

(** ** OSCAL *)

(** The OSCAL document has one finding per assessment log, in order,
    naming its requirement and carrying its message; the state is satisfied
    exactly for passed and not applicable results, the latter marked by their
    reason and remark; and with a UUID source that never repeats, the finding,
    result and document identifiers are all different. *)
Theorem oscal_document_faithful {oscal : Oscal} (log : EvaluationLog) :
  (forall i j, newUUID i = newUUID j -> i = j) ->
  let doc := oscal_document log in
  let logs := all_logs (EL_Evaluations log) in
  Forall2 (fun al f =>
    OF_TargetId f = EM_EntryId (GAL_Requirement al) /\
    OF_Description f = GAL_Message al /\
    (os_State (OF_Status f) = "satisfied" <-> GAL_Result al ∈ [Passed; NotApplicable]) /\
    (os_Reason (OF_Status f) = "not-applicable" <-> GAL_Result al = NotApplicable) /\
    (os_Reason (OF_Status f) = "" <-> GAL_Result al ∈ [Passed; Failed]) /\
    OF_Remarks f = (if bool_decide (GAL_Result al = NotApplicable)
                    then "Skipped due to Tailoring: " +:+ GAL_Message al else GAL_Message al))
    logs (OD_Findings doc) /\
  NoDup (OD_UUID doc :: OD_ResultUUID doc :: (OF_UUID <$> OD_Findings doc)).
Proof.
  intros Hinj. cbv zeta. unfold oscal_document. fold (all_logs (EL_Evaluations log)).
  set (logs := all_logs _). cbn [OD_Findings OD_UUID OD_ResultUUID]. rewrite length_imap. split.
  - apply Forall2_same_length_lookup. split; [by rewrite length_imap|].
    intros i al f Hal Hf. rewrite list_lookup_imap, Hal in Hf. simpl in Hf. simplify_eq.
    unfold oscal_finding. cbn. rewrite !elem_of_cons, elem_of_nil.
    destruct (GAL_Result al); cbn; intuition congruence.
  - assert (Hu : OF_UUID <$> imap (fun i al => oscal_finding (newUUID i) al) logs =
      newUUID <$> seq 0 (length logs)).
    { rewrite fmap_imap. apply list_eq. intros i. rewrite list_lookup_imap, list_lookup_fmap.
      destruct (decide (i < length logs)%nat) as [Hi|Hi].
      - rewrite lookup_seq_lt by done. destruct (lookup_lt_is_Some_2 logs i Hi) as [al ->]. done.
      - rewrite (lookup_seq_ge 0) by lia. by rewrite (lookup_ge_None_2 logs i) by lia. }
    rewrite Hu. change (NoDup (newUUID <$> (S (length logs) :: length logs :: seq 0 (length logs)))).
    apply NoDup_fmap_2; [intros ?? ?; by apply Hinj|].
    assert (Hsq : forall k, k ∈ seq 0 (length logs) -> (k < length logs)%nat)
      by (intros k ?%elem_of_seq; lia).
    constructor; [rewrite elem_of_cons; intros [?|?%Hsq]; lia|].
    constructor; [intros ?%Hsq; lia|]. apply NoDup_seq.
Qed.
