(* ===== verification/Scan.v ===== *)
(** * The scan and generate commands (cmd/complyctl/cli/{scan,generate}.go)

    The options of a scan, the choice of its policy and targets, the decision
    to generate artifacts and their generation, the scan of every target, the
    resolution of the identifiers providers report, and the reports.  Console
    output is not modelled; a provider is a function from requests to answers. *)
From stdpp Require Import gmap.
From S2P Require Import Prelude GoStrings Digest OciRef World State Complypack Sync Config.
From S2P Require Import Workspace Provider Generation Resolver Evaluator Report.

(** ** Options *)

Definition OutputFormatOSCAL : string := "oscal".
Definition OutputFormatPretty : string := "pretty".
Definition OutputFormatSARIF : string := "sarif".
Definition OutputFormatAll : string := "all".
Definition EvalLogFormatYAML : string := "yaml".
Definition EvalLogFormatJSON : string := "json".
Definition EvalLogFormatEnvVar : string := "COMPLYTIME_LOG_FORMAT".
Definition ShowPassingEnvVar : string := "COMPLYTIME_SHOW_PASSING".
Definition ScanOutputDir : string := "scan".

Definition allConcreteFormats : list string := [OutputFormatOSCAL; OutputFormatPretty; OutputFormatSARIF].

Definition resolveLogFormat (env : environ) (flagValue : string) (flagChanged : bool) : string :=
  if negb flagChanged && negb (bool_decide (getenv env EvalLogFormatEnvVar = ""))
  then getenv env EvalLogFormatEnvVar else flagValue.

Definition validateLogFormat (logFormat : string) : result unit :=
  guard_err (negb (contains logFormat [EvalLogFormatYAML; EvalLogFormatJSON]))
    (Errorf ("invalid log format " +:+ logFormat +:+ ": must be one of yaml, json")).

(** [strconv.ParseBool] *)
Definition ParseBool (s : string) : option bool :=
  if contains s ["1"; "t"; "T"; "true"; "TRUE"; "True"] then Some true
  else if contains s ["0"; "f"; "F"; "false"; "FALSE"; "False"] then Some false
  else None.

(** The flag wins over the environment, which wins over the default. *)
Definition resolveShowPassing (env : environ) (flagValue flagChanged : bool) : result bool :=
  let envVal := getenv env ShowPassingEnvVar in
  if negb flagChanged && negb (bool_decide (envVal = "")) then
    match ParseBool envVal with
    | Some b => Ok b
    | None => Err (Wrapf ("invalid " +:+ ShowPassingEnvVar +:+ "=" +:+ envVal +:+ ": ")
                     (Errorf ("strconv.ParseBool: parsing " +:+ envVal +:+ ": invalid syntax")) "")
    end
  else Ok flagValue.

Fixpoint reject_duplicates (formats : list string) (seen : gset string) : result unit :=
  match formats with
  | [] => Ok tt
  | f :: rest => if bool_decide (f ∈ seen) then Err (Errorf ("duplicate format " +:+ f))
                 else reject_duplicates rest ({[f]} ∪ seen)
  end.

Fixpoint reject_unknown (formats : list string) : result unit :=
  match formats with
  | [] => Ok tt
  | f :: rest => if contains f allConcreteFormats then reject_unknown rest
                 else Err (Errorf ("invalid format " +:+ f +:+ ": must be one of oscal, pretty, sarif, all"))
  end.

(** [scanOptions.validate] *)
Definition validate (formats : list string) : result unit :=
  if bool_decide (formats = []) then Ok tt
  else
  check reject_duplicates formats ∅ in
  if contains OutputFormatAll formats then
    guard_err (1 <? length formats)%nat
      (Errorf ("format " +:+ OutputFormatAll +:+ " cannot be combined with specific format values"))
  else reject_unknown formats.

Definition resolveFormats (formats : list string) : list string :=
  if bool_decide (formats = [OutputFormatAll]) then allConcreteFormats else formats.

(** ** Which policy, which targets *)

Definition resolveTarget (targets : list TargetConfig) (targetID : string) : result TargetConfig :=
  match find_first (fun t => bool_decide (T_ID t = targetID)) targets with
  | Some t => Ok t
  | None => Err (Errorf ("target " +:+ targetID +:+ " not found in complytime.yaml (available targets: " +:+
                         join ", " (T_ID <$> targets) +:+ ")"))
  end.

Definition resolvePolicy (target : option TargetConfig) (policyID : string) : result string :=
  match target with
  | Some t =>
      if negb (bool_decide (policyID = "")) then
        if contains policyID (T_Policies t) then Ok policyID
        else Err (Errorf ("target " +:+ T_ID t +:+ " does not reference policy " +:+ policyID +:+
                          " (available policies: " +:+ join ", " (T_Policies t) +:+ ")"))
      else match T_Policies t with
           | [] => Err (Errorf ("target " +:+ T_ID t +:+ " has no policies configured"))
           | [p] => Ok p
           | ps => Err (Errorf ("target " +:+ T_ID t +:+ " references multiple policies — specify one " +:+
                                "with --policy-id: " +:+ join ", " ps))
           end
  | None => if bool_decide (policyID = "")
            then Err (Errorf "specify a target or --policy-id (see complyctl scan --help)")
            else Ok policyID
  end.

Definition filterTargetsForPolicy (targets : list TargetConfig) (policyID : string) : list TargetConfig :=
  filter (fun t => policyID ∈ T_Policies t) targets.

Definition filterTargetByID (targets : list TargetConfig) (targetID : string) : list TargetConfig :=
  match find_first (fun t => bool_decide (T_ID t = targetID)) targets with
  | Some t => [t]
  | None => targets
  end.

Definition targetIDList (targets : list TargetConfig) : list string := T_ID <$> targets.

(** The selection made by [run] and by the narrowing of [scanPolicy]: the
    entry, the targets generated for and the targets scanned. *)
Definition select_scan {hs : HostSyntax} (cfg : WorkspaceConfig) (targetFlag policyFlag : string)
    : result (PolicyEntry * list TargetConfig * list TargetConfig) :=
  check guard_err (bool_decide (WC_Targets cfg = []))
          (Errorf "no targets in complytime.yaml (add targets with policies)") in
  try target := (if negb (bool_decide (targetFlag = ""))
                 then try t := resolveTarget (WC_Targets cfg) targetFlag in Ok (Some t)
                 else Ok None) in
  try policyID := resolvePolicy target policyFlag in
  match FindPolicy (WC_Policies cfg) policyID with
  | None => Err (Errorf ("policy " +:+ policyID +:+ " not found in config — run complyctl list to see available policy IDs"))
  | Some entry =>
      let policyTargets := filterTargetsForPolicy (WC_Targets cfg) (EffectiveID entry) in
      Ok (entry, policyTargets,
          if negb (bool_decide (targetFlag = "")) then filterTargetByID policyTargets targetFlag
          else policyTargets)
  end.

(** ** Identifiers *)

Definition injectWorkspaceIntoTargets (targets : list TargetConfig) (baseDir : string) : list TargetConfig :=
  (fun t => MkTargetConfig (T_ID t) (T_Policies t) (WithWorkspaceVar (T_Variables t) baseDir)) <$> targets.

Definition extractReqToControlMap (graph : DependencyGraph) : gmap string string :=
  fold_left (fun m ctrl =>
    match Ctl_Parsed ctrl with
    | None => m
    | Some catalog =>
        fold_left (fun m c => fold_left (fun m ar => <[ar := GC_Id c]> m) (GC_Requirements c) m)
          (CC_Controls catalog) m
    end) (DG_Controls graph) ∅.

Definition extractPlanToReqMap (graph : DependencyGraph) : gmap string string :=
  fold_left (fun m a => if negb (bool_decide (A_RequirementID a = ""))
                        then <[A_ID a := A_RequirementID a]> m else m) (DG_Assessments graph) ∅.

Definition with_requirement (r : string) (a : AssessmentLog) : AssessmentLog :=
  MkAssessmentLog (AL_PlanID a) r (AL_Steps a) (AL_Message a) (AL_Confidence a) (AL_Evidence a)
    (AL_Recommendation a).

Definition match_id (a : AssessmentLog) : string :=
  if bool_decide (AL_PlanID a = "") then AL_RequirementID a else AL_PlanID a.

(** [resolveAssessmentIDs] rewrites its slice in place; here it answers it. *)
Definition resolve_assessment (planToReq : gmap string string) (a : AssessmentLog) : AssessmentLog :=
  match planToReq !! match_id a with
  | Some reqID => with_requirement reqID a
  | None => if bool_decide (AL_RequirementID a = "") then with_requirement (match_id a) a else a
  end.
Definition resolveAssessmentIDs (assessments : list AssessmentLog) (planToReq : gmap string string)
    : list AssessmentLog := resolve_assessment planToReq <$> assessments.

(** [reverseMap]; the loop runs over the entries in iteration order. *)
Definition reverse_loop (entries : list (string * string)) : gmap string string :=
  fold_left (fun r kv => <[kv.2 := kv.1]> r) entries ∅.
Definition reverseMap (m : gmap string string) : gmap string string := reverse_loop (map_to_list m).

(** The two loops of [buildReqToComplypackRef]. *)
Definition evaluator_refs (packs : list (string * PolicyState)) : gmap string string :=
  fold_left (fun m kv =>
    let '(repo, ps) := kv in
    if bool_decide (Digest ps = "") || bool_decide (EvaluatorID ps = "") then m
    else <[EvaluatorID ps := repo +:+ "@" +:+ Digest ps]> m) packs ∅.

Definition pack_refs (evalToRef : gmap string string) (groups : list (string * EvaluatorGroup))
    : gmap string string :=
  fold_left (fun m g =>
    match evalToRef !! g.1 with
    | None => m
    | Some ref => fold_left (fun m cfg => <[MatchID cfg := ref]> m) (EG_Configs g.2) m
    end) groups ∅.

Definition buildReqToComplypackRef {stCodec : Codec State} (dataDir : path)
    (groups : gmap string EvaluatorGroup) : io (gmap string string) :=
  if bool_decide (groups = ∅) then io_ret ∅
  else
    let! r := LoadState dataDir in
    io_ret (match r with
            | Err _ => ∅
            | Ok state => pack_refs (evaluator_refs (map_to_list (Complypacks state))) (map_to_list groups)
            end).

(** ** Generation: deciding and doing *)

Definition complypackDigestsByEvaluator (cacheState : State) : gmap string string :=
  fold_left (fun m kv =>
    if negb (bool_decide (EvaluatorID kv.2 = "")) && negb (bool_decide (Digest kv.2 = ""))
    then <[EvaluatorID kv.2 := Digest kv.2]> m else m) (map_to_list (Complypacks cacheState)) ∅.

Definition keep_digest (allDigests m : gmap string string) (evalID : string) : gmap string string :=
  match allDigests !! evalID with
  | Some d => <[evalID := d]> m
  | None => m
  end.
Definition filterComplypackDigests (allDigests : gmap string string) (availableEvaluators : list string)
    : gmap string string := fold_left (keep_digest allDigests) availableEvaluators ∅.

Fixpoint evaluatorArtifactsExist (baseDir : path) (evaluatorIDs : list string) : io bool :=
  match evaluatorIDs with
  | [] => io_ret true
  | evalID :: rest =>
      let evalDir := path_join (baseDir ++ [WorkspaceDir]) evalID in
      let! info := os_Stat evalDir in
      match info with
      | Err _ => io_ret false
      | Ok info =>
          if negb (is_dir (Some info)) then io_ret false
          else
            let! entries := os_ReadDir evalDir in
            match entries with
            | Err _ => io_ret false
            | Ok [] => io_ret false
            | Ok _ => evaluatorArtifactsExist baseDir rest
            end
      end
  end.

Definition needsRegeneration (baseDir : path) (genState : option GenerationState) (digest : string)
    (complypackDigests : gmap string string) : io bool :=
  match genState with
  | None => io_ret true
  | Some g =>
      if negb (IsFresh g digest complypackDigests) then io_ret true
      else let! ok := evaluatorArtifactsExist baseDir (GS_EvaluatorIDs g) in io_ret (negb ok)
  end.

(** [time.Time.Format]: RFC 3339 and the file name stamp. *)
Class TimeText := { rfc3339 : Z -> string; file_stamp : Z -> string }.

Section generate.
  Context {stCodec : Codec State} {packCodec : Codec PackConfig} {gsCodec : Codec GenerationState}.
  Context {times : TimeText}.

Definition digest_of (cacheState : State) (repository : string) : string :=
  default "" (Digest <$> GetPolicyState cacheState repository).

Definition checkGenerationFreshness (dataDir baseDir : path) (repository : string)
    : io (result (bool * string * gmap string string)) :=
  do! cacheState := LoadState dataDir orelse (fun e => Wrapf "failed to load cache state: " e "") in
  let digest := digest_of cacheState repository in
  let cpDigests := complypackDigestsByEvaluator cacheState in
  do! genState := LoadGenerationState baseDir repository
    orelse (fun e => Wrapf "failed to load generation state: " e "") in
  let! needs := needsRegeneration baseDir genState digest cpDigests in
  io_ret (Ok (needs, digest, cpDigests)).

(** One Generate request of a provider manager: the evaluator it was routed
    by, the target's variables and the request's content path. *)
Record gen_call := MkGenCall {
  gc_evaluator : string;
  gc_targetVars : gmap string string;
  gc_configs : list AssessmentConfiguration;
  gc_content : string;
}.

(** The inner loop of [generateForAllTargets]. *)
Fixpoint generate_targets (mgr : plugins) (evalID : string) (configs : list AssessmentConfiguration)
    (contentPath workspace : string) (globalVars : gmap string string) (targets : list TargetConfig)
    : result (list gen_call) :=
  match targets with
  | [] => Ok []
  | t :: rest =>
      let targetVars := WithWorkspaceVar (T_Variables t) workspace in
      try _ := (RouteGenerate mgr evalID globalVars targetVars configs contentPath).1 in
      try calls := generate_targets mgr evalID configs contentPath workspace globalVars rest in
      Ok (MkGenCall evalID targetVars configs contentPath :: calls)
  end.

(** Its outer loop over the groups in iteration order: the evaluators with
    complypack content, and the calls made. *)
Fixpoint generate_groups (cache : ComplypackCache) (cacheState : option State) (mgr : plugins)
    (groups : list (string * EvaluatorGroup)) (targets : list TargetConfig)
    (workspace : string) (globalVars : gmap string string)
    : io (result (list string * list gen_call)) :=
  match groups with
  | [] => io_ret (Ok ([], []))
  | (evalID, group) :: rest =>
      do! hit := LookupByEvaluatorID cache cacheState evalID
        orelse (fun e => Wrapf ("failed to look up complypack for evaluator " +:+ evalID +:+ ": ") e "") in
      let contentPath := match hit with Some (p, _) => path_text p | None => "" end in
      do! calls := io_lift (generate_targets mgr evalID (EG_Configs group) contentPath workspace
                              globalVars targets) orelse (fun e => e) in
      do! more := generate_groups cache cacheState mgr rest targets workspace globalVars
        orelse (fun e => e) in
      io_ret (Ok (if bool_decide (contentPath = "") then more.1 else evalID :: more.1,
                  calls ++ more.2))
  end.

(** A state that cannot be loaded degrades to the directory scan. *)
Definition generateForAllTargets (cacheDir dataDir : path) (mgr : plugins)
    (groups : gmap string EvaluatorGroup) (targets : list TargetConfig)
    (globalVars : gmap string string) : io (result (list string * list gen_call)) := fun w =>
  (let! st := LoadState dataDir in
   let cacheState := match st with Ok s => Some s | Err _ => None end in
   generate_groups (NewComplypackCache cacheDir (w_env w)) cacheState mgr (map_to_list groups) targets
     (default "" (globalVars !! WorkspaceVarKey)) globalVars) w.

Definition runGeneration (cacheDir dataDir baseDir : path) (mgr : plugins)
    (groups : gmap string EvaluatorGroup) (targets : list TargetConfig)
    (globalVars : gmap string string) (repository policyDigest : string)
    (evaluatorIDs : list string) (complypackDigests : gmap string string)
    : io (result (list gen_call)) :=
  do! available := generateForAllTargets cacheDir dataDir mgr groups targets globalVars
    orelse (fun e => e) in
  let filteredDigests := filterComplypackDigests complypackDigests available.1 in
  let! now := time_Now in
  let newGenState :=
    NewGenerationState (rfc3339 now) repository policyDigest evaluatorIDs filteredDigests in
  do! _ := SaveGenerationState baseDir repository newGenState
    orelse (fun e => Wrapf "failed to save generation state: " e "") in
  io_ret (Ok available.2).

Definition evaluatorIDList (groups : gmap string EvaluatorGroup) : list string := (map_to_list groups).*1.

(** The Generate calls made, [None] when the artifacts were fresh. *)
Definition ensureGenerated (cacheDir dataDir baseDir : path) (mgr : plugins)
    (groups : gmap string EvaluatorGroup) (targets : list TargetConfig)
    (configVars : gmap string string) (repository : string)
    : io (result (option (list gen_call))) :=
  do! fresh := checkGenerationFreshness dataDir baseDir repository orelse (fun e => e) in
  let '(needsGenerate, policyDigest, cpDigests) := fresh in
  if negb needsGenerate then io_ret (Ok None)
  else
    let globalVars := WithWorkspaceVar configVars (path_text baseDir) in
    do! calls := runGeneration cacheDir dataDir baseDir mgr groups targets globalVars repository
                   policyDigest (evaluatorIDList groups) cpDigests orelse (fun e => e) in
    io_ret (Ok (Some calls)).

(** ** The generate command (generate.go) *)

Definition providerStatus (mgr : plugins) (evalID : string) : string :=
  if is_ok (GetProvider mgr evalID) then "healthy" else "ERROR".

Definition buildExecutionPlan (mgr : plugins) (groups : list (string * EvaluatorGroup))
    (targets : list TargetConfig) : list string * list ExecutionPlanRow :=
  (groups.*1,
   flat_map (fun g => (fun t => MkExecutionPlanRow (T_ID t) g.1 (length (EG_Configs g.2))
                                  (providerStatus mgr g.1)) <$> targets) groups).

Definition invokeGenerate (cacheDir dataDir baseDir : path) (mgr : plugins)
    (groups : gmap string EvaluatorGroup) (targets : list TargetConfig)
    (configVars : gmap string string)
    : io (result (list string * list string * list ExecutionPlanRow)) :=
  let globalVars := WithWorkspaceVar configVars (path_text baseDir) in
  do! available := generateForAllTargets cacheDir dataDir mgr groups targets globalVars
    orelse (fun e => e) in
  let '(evaluatorIDs, planRows) := buildExecutionPlan mgr (map_to_list groups) targets in
  io_ret (Ok (evaluatorIDs, available.1, planRows)).

(** The plan is the text printed. *)
Definition saveGenerationAndPrint (dataDir baseDir : path) (repository eid : string)
    (evaluatorIDs availableEvaluators : list string) (planRows : list ExecutionPlanRow)
    : io (result string) :=
  do! cacheState := LoadState dataDir orelse (fun e => Wrapf "failed to load cache state: " e "") in
  let cpDigests := filterComplypackDigests (complypackDigestsByEvaluator cacheState) availableEvaluators in
  let! now := time_Now in
  let genState := NewGenerationState (rfc3339 now) repository (digest_of cacheState repository)
                    evaluatorIDs cpDigests in
  do! _ := SaveGenerationState baseDir repository genState
    orelse (fun e => Wrapf "failed to save generation state: " e "") in
  io_ret (Ok (FormatExecutionPlan eid planRows)).
End generate.

(** ** Scanning *)

Section scanning.
  (** Whether the scan's deadline has passed when a target is sent to an evaluator. *)
  Context (deadline : string -> string -> bool).

Record scanOutput := MkScanOutput {
  so_assessments : list AssessmentLog;
  so_assessmentTargets : list string;
  so_errors : list string;
  so_mappingReferences : gmap string (list MappingReference);
}.

(** The loop of [scanSingleTarget] over the sorted evaluators. *)
Fixpoint scan_evaluators (mgr : plugins) (target : TargetConfig) (evalIDs : list string)
    : result (list AssessmentLog * list string * list MappingReference) :=
  match evalIDs with
  | [] => Ok ([], [], [])
  | evalID :: rest =>
      try r := RouteScanResult (deadline (T_ID target) evalID) mgr evalID
                 [MkTarget (T_ID target) (T_Variables target)] in
      try more := scan_evaluators mgr target rest in
      let '(results, errs, refs) := more in
      Ok (SR_Assessments r ++ results, SR_Errors r ++ errs, SR_MappingReferences r ++ refs)
  end.

Definition scanSingleTarget (mgr : plugins) (groups : gmap string EvaluatorGroup) (target : TargetConfig)
    : result (list AssessmentLog * list string * list MappingReference) :=
  scan_evaluators mgr target (sort_strings (map_to_list groups).*1).

Fixpoint scan_targets (mgr : plugins) (groups : gmap string EvaluatorGroup)
    (targets : list TargetConfig) (out : scanOutput) : result scanOutput :=
  match targets with
  | [] => Ok out
  | target :: rest =>
      try r := scanSingleTarget mgr groups target in
      let '(results, opErrors, mappingRefs) := r in
      scan_targets mgr groups rest
        (MkScanOutput (so_assessments out ++ results)
           (so_assessmentTargets out ++ ((fun _ => T_ID target) <$> results))
           (so_errors out ++ opErrors)
           (<[T_ID target := default [] (so_mappingReferences out !! T_ID target) ++ mappingRefs]>
              (so_mappingReferences out)))
  end.

Definition scanAllTargets (mgr : plugins) (groups : gmap string EvaluatorGroup)
    (targets : list TargetConfig) : result scanOutput :=
  scan_targets mgr groups targets (MkScanOutput [] [] [] ∅).

Record resolvedMappings := MkResolvedMappings {
  rm_reqToControl : gmap string string;
  rm_reqToPlan : gmap string string;
  rm_reqToComplypackRef : gmap string string;
}.

(** ** From assessments to reports *)

Definition checkOperationalErrors (errors : list string) : result unit :=
  guard_err (0 <? length errors)%nat
    (Errorf ("scan completed with " +:+ itoa (Z.of_nat (length errors)) +:+ " operational " +:+
             plural (length errors) "error" +:+ " — some targets could not be evaluated")).

Definition checkNothingAssessed (assessments : list AssessmentLog) : result unit :=
  guard_err (NothingAssessed assessments)
    (Errorf "scan completed with zero assessed requirements — verify policy and target compatibility").

(** Collisions are reported once per identifier, over all targets. *)
Definition new_collisions (seen : gset string) (cs : list MappingCollision)
    : gset string * list MappingCollision :=
  fold_left (fun acc c => if bool_decide (MC_ID c ∈ acc.1) then acc
                          else ({[MC_ID c]} ∪ acc.1, acc.2 ++ [c])) cs (seen, []).

(** The assessments of one target; the code indexes both slices together. *)
Definition assessments_of (targetID : string) (assessments : list AssessmentLog)
    (assessmentTargets : list string) : list AssessmentLog :=
  (filter (fun x => x.2 = targetID) (zip assessments assessmentTargets)).*1.

Section evaluators.
  (** The text of the time at which the i-th assessment of a target is converted. *)
  Context (now : string -> nat -> string).

Definition build_evaluator (repository : string) (mappings : resolvedMappings)
    (policyRefs : list MappingReference) (out : scanOutput) (target : TargetConfig)
    : Evaluator * list MappingCollision * list string :=
  let '(mergedRefs, collisions, discarded) :=
    MergeMappingReferences policyRefs (default [] (so_mappingReferences out !! T_ID target)) in
  let eval := NewEvaluator repository (T_ID target) (rm_reqToControl mappings) (rm_reqToPlan mappings)
                (rm_reqToComplypackRef mappings) mergedRefs in
  (AddTarget (now (T_ID target))
     (assessments_of (T_ID target) (so_assessments out) (so_assessmentTargets out)) eval,
   collisions, discarded).

(** The loop of [buildEvaluators]. *)
Fixpoint build_loop (repository : string) (mappings : resolvedMappings)
    (policyRefs : list MappingReference) (out : scanOutput) (targets : list TargetConfig)
    (seen : gset string) : list Evaluator * list MappingCollision * list string :=
  match targets with
  | [] => ([], [], [])
  | target :: rest =>
      let '(eval, collisions, discarded) := build_evaluator repository mappings policyRefs out target in
      let '(seen', fresh) := new_collisions seen collisions in
      let '(evals, cs, ds) := build_loop repository mappings policyRefs out rest seen' in
      (eval :: evals, fresh ++ cs, discarded ++ ds)
  end.

Definition buildEvaluators (repository : string) (mappings : resolvedMappings)
    (policyRefs : list MappingReference) (out : scanOutput) (targets : list TargetConfig)
    : list Evaluator * list MappingCollision * list string :=
  build_loop repository mappings policyRefs out targets ∅.

Context {times : TimeText} {enc : LogEncoders} {oscal : Oscal} {sarif : Sarif}.

Definition stamped {A} (m : string -> io (result A)) : io (result A) :=
  let! t := time_Now in m (file_stamp t).

Definition writePrettyReport (eval : Evaluator) (logPath outDir : path) (repository : string)
    : io (result path) :=
  let md := SetEmbedEvaluationLog (NewMarkdown repository (GemaraLog eval)) logPath in
  let! t := time_Now in
  do! p := stamped (fun ts => Markdown_Write md (rfc3339 t) ts outDir)
    orelse (fun e => Wrapf "failed to write markdown report: " e "") in
  io_ret (Ok p).

Definition writeSARIFReport (eval : Evaluator) (outDir : path) : io (result path) :=
  do! p := stamped (fun ts => ToSARIF (GemaraLog eval) "file:///scan" ts outDir)
    orelse (fun e => Wrapf "failed to export SARIF: " e "") in
  io_ret (Ok p).

Definition writeOSCALReport (eval : Evaluator) (outDir : path) : io (result path) :=
  do! p := stamped (fun ts => ToOSCAL (GemaraLog eval) ts outDir)
    orelse (fun e => Wrapf "failed to export OSCAL: " e "") in
  io_ret (Ok p).

(** The writer of one format; [None] for a format that is not known. *)
Definition format_writer (f : string) (eval : Evaluator) (logPath outDir : path) (repository : string)
    : option (io (result path)) :=
  if bool_decide (f = OutputFormatPretty) then Some (writePrettyReport eval logPath outDir repository)
  else if bool_decide (f = OutputFormatSARIF) then Some (writeSARIFReport eval outDir)
  else if bool_decide (f = OutputFormatOSCAL) then Some (writeOSCALReport eval outDir)
  else None.

(** [writeFormatReports] answers the warnings it prints. *)
Fixpoint writeFormatReports (formats : list string) (eval : Evaluator) (logPath outDir : path)
    (repository : string) : io (list string) :=
  match formats with
  | [] => io_ret []
  | f :: rest =>
      let! warning := (match format_writer f eval logPath outDir repository with
                       | None => io_ret ["warning: unsupported format " +:+ f +:+ " (skipped)"]
                       | Some m =>
                           let! r := m in
                           io_ret (match r with
                                   | Ok _ => []
                                   | Err e => ["warning: " +:+ f +:+ " formatter failed: " +:+ error_text e]
                                   end)
                       end) in
      let! more := writeFormatReports rest eval logPath outDir repository in
      io_ret (warning ++ more)
  end.

Definition writeScanReports (formats : list string) (logFormat : string) (eval : Evaluator)
    (outDir : path) (repository : string) : io (result (list string)) :=
  do! logPath := stamped (fun ts => Evaluator_Write eval ts outDir logFormat)
    orelse (fun e => Wrapf "failed to write evaluation log: " e "") in
  let! warnings := writeFormatReports formats eval logPath outDir repository in
  io_ret (Ok warnings).

Fixpoint write_all_reports (formats : list string) (logFormat : string) (evals : list Evaluator)
    (outDir : path) (repository : string) : io (result (list string)) :=
  match evals with
  | [] => io_ret (Ok [])
  | eval :: rest =>
      do! ws := writeScanReports formats logFormat eval outDir repository orelse (fun e => e) in
      do! ws' := write_all_reports formats logFormat rest outDir repository orelse (fun e => e) in
      io_ret (Ok (ws ++ ws'))
  end.

(** What a finished scan prints: the warnings on stderr and the summary. *)
Record scan_console := MkScanConsole { con_stderr : list string; con_summary : option string }.


Definition processScanOutput (formats : list string) (logFormat : string) (out : scanOutput)
    (repository : string) (mappings : resolvedMappings) (policyRefs : list MappingReference)
    (targets : list TargetConfig) (eid : string) (targetIDs : list string) (baseDir : path)
    (showPassing : bool) : io (result unit * scan_console) :=
  let '(evaluators, collisions, _) := buildEvaluators repository mappings policyRefs out targets in
  let printed := [FormatOperationalWarnings (so_errors out); FormatMappingCollisions collisions] in
  let! r := write_all_reports formats logFormat evaluators
              (baseDir ++ [WorkspaceDir; ScanOutputDir]) repository in
  match r with
  | Err e => io_ret (Err e, MkScanConsole printed None)
  | Ok warnings =>
      let summary := FormatScanSummary (so_assessments out) (so_assessmentTargets out)
                       (rm_reqToControl mappings) eid targetIDs showPassing in
      io_ret ((check checkOperationalErrors (so_errors out) in
               checkNothingAssessed (so_assessments out)),
              MkScanConsole (printed ++ warnings) (Some summary))
  end.

Definition runScanAndReport (formats : list string) (logFormat : string) (mgr : plugins)
    (groups : gmap string EvaluatorGroup) (reqToComplypackRef : gmap string string)
    (targets : list TargetConfig) (repository eid : string) (graph : DependencyGraph)
    (targetIDs : list string) (baseDir : path) (showPassing : bool)
    : io (result unit * scan_console) :=
  let planToReq := extractPlanToReqMap graph in
  let mappings := MkResolvedMappings (extractReqToControlMap graph) (reverseMap planToReq)
                    reqToComplypackRef in
  match scanAllTargets mgr groups (injectWorkspaceIntoTargets targets (path_text baseDir)) with
  | Err e => io_ret (Err e, MkScanConsole [] None)
  | Ok out =>
      let out := MkScanOutput (resolveAssessmentIDs (so_assessments out) planToReq)
                   (so_assessmentTargets out) (so_errors out) (so_mappingReferences out) in
      processScanOutput formats logFormat out repository mappings (DG_MappingReferences graph) targets
        eid targetIDs baseDir showPassing
  end.

(** ** The whole command *)

Context {hs : HostSyntax} {stCodec : Codec State} {packCodec : Codec PackConfig}
  {gsCodec : Codec GenerationState} {wsCodec : Codec WorkspaceConfig}
  {yaml : GemaraYAML} {loader : PolicyLoader} {launcher : Launcher} (cwd : path).

Definition resolveVersionAndGraph (ref : PolicyRef) : io (result (string * DependencyGraph)) :=
  do! version := ResolveVersion (PR_Repository ref) (VersionString ref) orelse (fun e => e) in
  do! graph := ResolvePolicyGraph (PR_Repository ref) version
    orelse (fun e => Wrapf "failed to resolve policy graph: " e "") in
  io_ret (Ok (version, graph)).

Definition loadProviders (providerDir : path) : io (result plugins) := fun w =>
  (let! r := LoadProviders providerDir (path_join [] (ResolveSystemProviderDir (w_env w))) ∅ in
   io_ret (match r with
           | (Err e, _) => Err (Wrapf "provider discovery failed: " e "")
           | (Ok _, mgr) =>
               if bool_decide (length (ListProviders mgr) = 0%nat)
               then Err (Errorf ("no providers found in " +:+ path_text providerDir +:+
                                 " (Describe may have failed)"))
               else Ok mgr
           end)) w.

Definition loadWorkspaceConfig (baseDir : path) : io (result WorkspaceConfig) :=
  let! ws := NewWorkspace baseDir in
  do! ws := LoadAndValidate cwd ws.1 orelse (fun e => Wrapf "failed to load workspace config: " e "") in
  io_ret (match ws_config ws with
          | Some cfg => Ok cfg
          | None => Err (Errorf "no configuration")
          end).

Record scan_dirs := MkScanDirs { sd_cache : path; sd_data : path; sd_provider : path }.

(** [run] and [scanPolicy]; [narrow] is the part of the selection that
    [scanPolicy] does after the generation. *)
Definition scanPolicy (dirs : scan_dirs) (formats : list string) (logFormat : string)
    (showPassing : bool) (cfg : WorkspaceConfig) (entry : PolicyEntry)
    (policyTargets scanned : list TargetConfig) (baseDir : path)
    : io (result unit * scan_console) :=
  let fail e := io_ret (Err e, MkScanConsole [] None) in
  match ParsePolicyRef (PE_URL entry) with
  | (_, Some e) => fail (Wrapf ("invalid policy reference " +:+ PE_URL entry +:+ ": ") e "")
  | (ref, None) =>
  let eid := EffectiveID entry in
  let! vg := resolveVersionAndGraph ref in
  match vg with
  | Err e => fail e
  | Ok (version, graph) =>
  let assessmentConfigs := ExtractAssessmentConfigs graph in
  let groups := GroupByEvaluator assessmentConfigs graph in
  let! m := loadProviders (sd_provider dirs) in
  match m with
  | Err e => fail e
  | Ok mgr =>
  let! g := ensureGenerated (sd_cache dirs) (sd_data dirs) baseDir mgr groups policyTargets
              (WC_Variables cfg) (PR_Repository ref) in
  match g with
  | Err e => fail e
  | Ok _ =>
  let! reqToComplypackRef := buildReqToComplypackRef (sd_data dirs) groups in
  runScanAndReport formats logFormat mgr groups reqToComplypackRef scanned (PR_Repository ref) eid
    graph (targetIDList scanned) baseDir showPassing
  end end end end.

Definition scan_run (dirs : scan_dirs) (formats : list string) (logFormat : string)
    (showPassing : bool) (targetFlag policyFlag : string) (baseDir : path)
    : io (result unit * scan_console) :=
  let! c := loadWorkspaceConfig baseDir in
  match (try cfg := c in try sel := select_scan cfg targetFlag policyFlag in Ok (cfg, sel)) with
  | Err e => io_ret (Err e, MkScanConsole [] None)
  | Ok (cfg, (entry, policyTargets, scanned)) =>
      scanPolicy dirs formats logFormat showPassing cfg entry policyTargets scanned baseDir
  end.

(** [generate]'s [run] and [generatePolicy]; the answer is the text printed. *)
Definition generatePolicy (dirs : scan_dirs) (cfg : WorkspaceConfig) (entry : PolicyEntry)
    (baseDir : path) : io (result string) :=
  match ParsePolicyRef (PE_URL entry) with
  | (_, Some e) => io_ret (Err (Wrapf ("invalid policy reference " +:+ PE_URL entry +:+ ": ") e ""))
  | (ref, None) =>
  let eid := EffectiveID entry in
  do! vg := resolveVersionAndGraph ref orelse (fun e => e) in
  do! mgr := loadProviders (sd_provider dirs) orelse (fun e => e) in
  let graph := vg.2 in
  let groups := GroupByEvaluator (ExtractAssessmentConfigs graph) graph in
  let policyTargets := filterTargetsForPolicy (WC_Targets cfg) eid in
  do! g := invokeGenerate (sd_cache dirs) (sd_data dirs) baseDir mgr groups policyTargets
             (WC_Variables cfg) orelse (fun e => e) in
  let '(evaluatorIDs, availableEvaluators, planRows) := g in
  saveGenerationAndPrint (sd_data dirs) baseDir (PR_Repository ref) eid evaluatorIDs
    availableEvaluators planRows
  end.

Definition generate_run (dirs : scan_dirs) (policyFlag : string) (baseDir : path) : io (result string) :=
  do! cfg := loadWorkspaceConfig baseDir orelse (fun e => e) in
  match FindPolicy (WC_Policies cfg) policyFlag with
  | None => io_ret (Err (Errorf ("policy " +:+ policyFlag +:+ " not found in config — run complyctl list to see available policy IDs")))
  | Some entry => generatePolicy dirs cfg entry baseDir
  end.
End evaluators.
End scanning.

(** ** The options are checked *)

Lemma reject_duplicates_ok formats seen :
  is_ok (reject_duplicates formats seen) = true <-> NoDup formats /\ Forall (fun f => f ∉ seen) formats.
Proof.
  revert seen. induction formats as [|f rest IH]; intros seen; simpl; [split; [by split; constructor|done]|].
  rewrite NoDup_cons, Forall_cons. case_bool_decide; simpl; [naive_solver|].
  rewrite IH, !Forall_forall. set_solver.
Qed.

Lemma reject_unknown_ok formats :
  is_ok (reject_unknown formats) = true <-> Forall (fun f => f ∈ allConcreteFormats) formats.
Proof.
  induction formats as [|f rest IH]; [split; [constructor|done]|]. cbn [reject_unknown].
  rewrite Forall_cons, <-IH, <-contains_spec. by destruct (contains f allConcreteFormats); naive_solver.
Qed.

(** The format options.  [validate] accepts a list of formats exactly
    when it has no duplicate and is either just "all" or made of concrete
    formats; after expansion an accepted list holds distinct concrete formats
    only, so that no report is skipped as unsupported. *)
Theorem validate_formats formats :
  (is_ok (validate formats) = true <->
     NoDup formats /\ (formats = [OutputFormatAll] \/ Forall (fun f => f ∈ allConcreteFormats) formats)) /\
  (is_ok (validate formats) = true ->
     NoDup (resolveFormats formats) /\
     forall f eval logPath outDir repo, f ∈ resolveFormats formats ->
       forall (tt_ : TimeText) (oscal : Oscal) (sarif : Sarif),
       is_Some (format_writer f eval logPath outDir repo)).
Proof.
  assert (Hv : is_ok (validate formats) = true <->
    NoDup formats /\ (formats = [OutputFormatAll] \/ Forall (fun f => f ∈ allConcreteFormats) formats)).
  { unfold validate. case_bool_decide as Hnil.
    { subst. split; [split; [constructor|by right; constructor]|done]. }
    pose proof (reject_duplicates_ok formats ∅) as Hd.
    assert (Hd' : is_ok (reject_duplicates formats ∅) = true <-> NoDup formats).
    { rewrite Hd, Forall_forall. set_solver. }
    clear Hd. destruct (reject_duplicates formats ∅) as [[]|]; cbn [result_bind is_ok] in *; [|naive_solver].
    destruct (contains OutputFormatAll formats) eqn:Ec.
    - apply contains_spec in Ec. destruct formats as [|a [|b l]]; [done| |].
      + apply list_elem_of_singleton in Ec as <-. cbn. naive_solver.
      + cbn. split; [done|]. intros [_ [|Hall]]; [done|].
        rewrite Forall_forall in Hall. by apply Hall, contains_spec in Ec.
    - rewrite reject_unknown_ok. split; [intros; split; [by apply Hd'|by right]|].
      intros [_ [->|]]; done. }
  split; [done|]. intros [Hnd Hf]%Hv.
  assert (Hr : NoDup (resolveFormats formats) /\ Forall (fun f => f ∈ allConcreteFormats) (resolveFormats formats)).
  { unfold resolveFormats. case_bool_decide.
    - split; [by apply (bool_decide_unpack (NoDup allConcreteFormats))|]. apply Forall_forall. auto.
    - split; [done|]. by destruct Hf. }
  destruct Hr as [? Hc]. split; [done|]. intros f eval logPath outDir repo Hfin tt_ oscal sarif.
  rewrite Forall_forall in Hc. specialize (Hc f Hfin). unfold format_writer.
  repeat case_bool_decide; try by eexists. unfold allConcreteFormats in Hc. set_solver.
Qed.

(** ** The selection *)

Lemma find_first_filter {A} (p : A -> bool) (Q : A -> Prop) `{!forall x, Decision (Q x)} l x :
  find_first p l = Some x -> Q x -> find_first p (filter Q l) = Some x.
Proof.
  induction l as [|y l IH]; [done|]. cbn [find_first]. rewrite filter_cons.
  destruct (p y) eqn:E; intros Hp HQ; simplify_eq.
  - rewrite decide_True by done. simpl. by rewrite E.
  - case_decide; [simpl; rewrite E|]; auto.
Qed.

Lemma find_first_prop {A} (p : A -> bool) l x : find_first p l = Some x -> x ∈ l /\ p x = true.
Proof.
  intros (l1 & l2 & -> & Hp & _)%find_first_Some. split; [|done]. rewrite elem_of_app. right. left.
Qed.

(** what a scan works on.  A successful selection names a configured
    policy; artifacts are generated for exactly the targets that reference it.
    Without a target the policy is the one asked for and all these targets are
    scanned; with a target the policy is one the target references (its only
    one when none is asked for) and, unless the identifier has surrounding
    white space, that target alone is scanned. *)
Theorem select_scan_sound {hs : HostSyntax} cfg tf pf e policyTargets scanned :
  select_scan cfg tf pf = Ok (e, policyTargets, scanned) ->
  e ∈ WC_Policies cfg /\
  (forall t, t ∈ policyTargets <-> t ∈ WC_Targets cfg /\ EffectiveID e ∈ T_Policies t) /\
  (tf = "" -> scanned = policyTargets /\ pf <> "" /\ EffectiveID e = trim_space pf) /\
  (tf <> "" -> exists t pid, t ∈ WC_Targets cfg /\ T_ID t = tf /\ pid ∈ T_Policies t /\
     EffectiveID e = trim_space pid /\
     (pf = "" -> T_Policies t = [pid]) /\ (pf <> "" -> pid = pf) /\
     (trim_space pid = pid -> scanned = [t])).
Proof.
  unfold select_scan. intros (u & _ & Hs)%result_bind_ok.
  apply result_bind_ok in Hs as (target & Ht & Hs). apply result_bind_ok in Hs as (pid & Hpid & Hsel).
  unfold FindPolicy in Hsel. destruct (find_first _ (WC_Policies cfg)) as [e'|] eqn:Ef; [|done].
  simplify_eq. apply find_first_prop in Ef as Hin. destruct Hin as [Hin He%bool_decide_eq_true].
  split_and!; [done| | |].
  - intros t. unfold filterTargetsForPolicy. rewrite list_elem_of_filter. tauto.
  - intros ->. rewrite (bool_decide_eq_true_2 ("" = "")) in Ht |- * by done. cbn [negb] in *.
    simplify_eq. unfold resolvePolicy in Hpid. case_bool_decide; [done|]. simplify_eq. by split_and!.
  - intros Htf. rewrite (bool_decide_eq_false_2 (tf = "")) in Ht |- * by done. cbn [negb] in *.
    unfold resolveTarget in Ht. destruct (find_first _ (WC_Targets cfg)) as [t|] eqn:Et; [|done].
    cbn in Ht. simplify_eq. apply find_first_prop in Et as Hint.
    destruct Hint as [Hint Hid%bool_decide_eq_true]. exists t, pid. split_and!; try done.
    all: unfold resolvePolicy in Hpid; case_bool_decide; cbn [negb] in Hpid.
    + destruct (T_Policies t) as [|p [|]]; simplify_eq. left.
    + destruct (contains pf (T_Policies t)) eqn:Ec; simplify_eq. by apply contains_spec.
    + intros _. by destruct (T_Policies t) as [|p [|]]; simplify_eq.
    + done.
    + done.
    + intros _. by destruct (contains pf (T_Policies t)); simplify_eq.
    + intros Htr. unfold filterTargetByID, filterTargetsForPolicy.
      rewrite (find_first_filter _ _ _ t Et); [done|]. rewrite He, Htr.
      destruct (T_Policies t) as [|p [|]]; simplify_eq. left.
    + intros Htr. unfold filterTargetByID, filterTargetsForPolicy.
      rewrite (find_first_filter _ _ _ t Et); [done|]. rewrite He, Htr.
      destruct (contains pf (T_Policies t)) eqn:Ec; simplify_eq. by apply contains_spec.
Qed.

(** ** Identifier maps: the last write wins *)

Definition put (m : gmap string string) (kv : string * string) : gmap string string := <[kv.1 := kv.2]> m.
Definition assoc (l : list (string * string)) : gmap string string := fold_left put l ∅.

Lemma assoc_snoc l kv : assoc (l ++ [kv]) = put (assoc l) kv.
Proof. unfold assoc. by rewrite fold_left_app. Qed.

Lemma assoc_Some l k v : assoc l !! k = Some v -> (k, v) ∈ l.
Proof.
  induction l as [|[k' v'] l IH] using rev_ind; [done|]. rewrite assoc_snoc, elem_of_app, list_elem_of_singleton.
  unfold put. cbn. destruct (decide (k' = k)) as [->|].
  - rewrite lookup_insert_eq. naive_solver.
  - rewrite lookup_insert_ne by done. auto.
Qed.

Lemma assoc_is_Some l k : is_Some (assoc l !! k) <-> k ∈ l.*1.
Proof.
  induction l as [|[k' v'] l IH] using rev_ind; [split; [by intros [? ?]|by intros ?%elem_of_nil]|].
  rewrite assoc_snoc, fmap_app, elem_of_app, <-IH. unfold put. cbn [fmap list_fmap fst snd].
  rewrite list_elem_of_singleton. destruct (decide (k' = k)) as [->|].
  - rewrite lookup_insert_eq. naive_solver.
  - rewrite lookup_insert_ne by done. naive_solver.
Qed.

(** With one value per key, every entry is found. *)
Lemma assoc_functional l k v :
  (k, v) ∈ l -> (forall v', (k, v') ∈ l -> v' = v) -> assoc l !! k = Some v.
Proof.
  intros Hin Hf. destruct (assoc l !! k) as [v'|] eqn:E; [by rewrite (Hf v') by (by apply assoc_Some)|].
  assert (k ∈ l.*1) as Hk by (by apply list_elem_of_fmap_2 with (f := fst) in Hin).
  apply assoc_is_Some in Hk. rewrite E in Hk. by destruct Hk.
Qed.

Lemma fold_put_flat {A} (f : A -> list (string * string)) (step : gmap string string -> A -> gmap string string)
    (l : list A) m :
  (forall m x, step m x = fold_left put (f x) m) -> fold_left step l m = fold_left put (flat_map f l) m.
Proof.
  intros Hs. revert m. induction l as [|x l IH]; intros m; [done|].
  cbn [fold_left flat_map]. by rewrite fold_left_app, IH, Hs.
Qed.

Lemma fold_put_map {A} (f : A -> string * string) (l : list A) m :
  fold_left (fun m x => <[(f x).1 := (f x).2]> m) l m = fold_left put (f <$> l) m.
Proof. revert m. induction l as [|x l IH]; intros m; [done|]. apply IH. Qed.

Definition catalog_pairs (catalog : ControlCatalog) : list (string * string) :=
  flat_map (fun c => (fun ar => (ar, GC_Id c)) <$> GC_Requirements c) (CC_Controls catalog).
Definition control_pairs (graph : DependencyGraph) : list (string * string) :=
  flat_map (fun ctrl => match Ctl_Parsed ctrl with None => [] | Some c => catalog_pairs c end)
    (DG_Controls graph).
Definition plan_pairs (graph : DependencyGraph) : list (string * string) :=
  (fun a => (A_ID a, A_RequirementID a)) <$> filter (fun a => A_RequirementID a <> "") (DG_Assessments graph).

Lemma extractReqToControlMap_assoc graph : extractReqToControlMap graph = assoc (control_pairs graph).
Proof.
  apply (fold_put_flat (fun ctrl => match Ctl_Parsed ctrl with None => [] | Some c => catalog_pairs c end)).
  intros m ctrl. destruct (Ctl_Parsed ctrl) as [c|]; [|done].
  apply (fold_put_flat (fun c => (fun ar => (ar, GC_Id c)) <$> GC_Requirements c)). intros m' c'.
  apply (fold_put_map (fun ar => (ar, GC_Id c'))).
Qed.

Lemma extractPlanToReqMap_assoc graph : extractPlanToReqMap graph = assoc (plan_pairs graph).
Proof.
  unfold extractPlanToReqMap, assoc, plan_pairs. generalize (∅ : gmap string string).
  induction (DG_Assessments graph) as [|a l IH]; intros m; [done|]. cbn [fold_left]. rewrite IH, filter_cons.
  destruct (decide (A_RequirementID a = "")) as [E|E].
  - rewrite bool_decide_eq_true_2, decide_False by tauto. done.
  - rewrite bool_decide_eq_false_2, decide_True by done. done.
Qed.

Lemma reverse_loop_assoc entries : reverse_loop entries = assoc ((fun kv => (kv.2, kv.1)) <$> entries).
Proof. apply (fold_put_map (fun kv : string * string => (kv.2, kv.1))). Qed.

(** Reversal in whatever order the iteration delivers the entries. *)
Lemma reverse_loop_any_order m entries v :
  entries ≡ₚ map_to_list m ->
  (forall k, reverse_loop entries !! v = Some k -> m !! k = Some v) /\
  (is_Some (reverse_loop entries !! v) <-> exists k, m !! k = Some v).
Proof.
  intros Hp. rewrite reverse_loop_assoc. split.
  - intros k Hk%assoc_Some. apply list_elem_of_fmap in Hk as ([k' v'] & [= -> ->] & Hin).
    apply elem_of_map_to_list. by rewrite <-Hp.
  - rewrite assoc_is_Some, list_elem_of_fmap. setoid_rewrite list_elem_of_fmap.
    setoid_rewrite Hp. split.
    + intros (p & -> & [k' v'] & -> & Hin%elem_of_map_to_list). by exists k'.
    + intros [k Hk%elem_of_map_to_list]. exists (v, k). split; [done|]. by exists (k, v).
Qed.

(** provider identifiers become requirements of the policy.  When the
    identifier an assessment is matched by is a plan of the graph, the
    assessment gets the requirement of a plan of that identifier, and the map
    from requirements back to plans names, in any iteration order, a plan of
    exactly that requirement; otherwise the assessment keeps its requirement,
    or takes the identifier when it has none.  Nothing else changes, and no
    identifier ends up empty unless the provider gave none at all. *)
Theorem assessment_ids_resolved graph entries a :
  let m := extractPlanToReqMap graph in
  let a' := resolve_assessment m a in
  let planned := fun p => p ∈ DG_Assessments graph /\ A_ID p = match_id a /\ A_RequirementID p <> "" in
  entries ≡ₚ map_to_list m ->
  with_requirement (AL_RequirementID a) a' = a /\
  (match_id a <> "" -> AL_RequirementID a' <> "") /\
  ((exists p, planned p) ->
     (exists p, planned p /\ AL_RequirementID a' = A_RequirementID p) /\
     (exists q, q ∈ DG_Assessments graph /\ reverse_loop entries !! AL_RequirementID a' = Some (A_ID q) /\
                A_RequirementID q = AL_RequirementID a')) /\
  (~ (exists p, planned p) ->
     AL_RequirementID a' = if bool_decide (AL_RequirementID a = "") then match_id a else AL_RequirementID a).
Proof.
  intros m a' planned Hperm.
  assert (Hin : forall k v, m !! k = Some v -> exists p, p ∈ DG_Assessments graph /\ A_ID p = k /\
                 A_RequirementID p = v /\ v <> "").
  { intros k v. unfold m. rewrite extractPlanToReqMap_assoc. intros Hk%assoc_Some.
    apply list_elem_of_fmap in Hk as (p & [= -> ->] & Hp). apply list_elem_of_filter in Hp. naive_solver. }
  assert (Hsome : is_Some (m !! match_id a) <-> exists p, planned p).
  { unfold m. rewrite extractPlanToReqMap_assoc, assoc_is_Some. unfold plan_pairs, planned.
    rewrite <-list_fmap_compose, list_elem_of_fmap. setoid_rewrite list_elem_of_filter. naive_solver. }
  unfold a', resolve_assessment. fold m. destruct (m !! match_id a) as [r|] eqn:E.
  - destruct (Hin _ _ E) as (p & Hp & Hid & Hr & Hne). split_and!; [by destruct a|intros _; exact Hne| |].
    + intros _. cbn. split; [exists p; unfold planned; subst r; done|].
      destruct (reverse_loop_any_order m entries r Hperm) as [Hback [_ Hex]].
      destruct (Hex (ex_intro _ _ E)) as [k Hk]. apply Hback in Hk as Hm.
      destruct (Hin _ _ Hm) as (q & Hq & Hqid & Hqr & _). exists q. by rewrite Hqid.
    + intros Hno. destruct Hno. apply Hsome. by eexists.
  - split_and!.
    + destruct (bool_decide (AL_RequirementID a = "")); by destruct a.
    + intros Hne. destruct (decide (AL_RequirementID a = "")) as [Hr|Hr].
      * rewrite bool_decide_eq_true_2 by done. exact Hne.
      * rewrite bool_decide_eq_false_2 by done. exact Hr.
    + intros Hex%Hsome. by destruct Hex.
    + intros _. by destruct (bool_decide (AL_RequirementID a = "")).
Qed.

(** ** Complypack references *)

Definition ref_pairs (packs : list (string * PolicyState)) : list (string * string) :=
  (fun kv => (EvaluatorID kv.2, kv.1 +:+ "@" +:+ Digest kv.2)) <$>
    filter (fun kv => Digest kv.2 <> "" /\ EvaluatorID kv.2 <> "") packs.

Lemma evaluator_refs_assoc packs : evaluator_refs packs = assoc (ref_pairs packs).
Proof.
  unfold evaluator_refs, assoc, ref_pairs. generalize (∅ : gmap string string).
  induction packs as [|[repo ps] l IH]; intros m; [done|]. cbn [fold_left]. rewrite IH, filter_cons. cbn [snd].
  destruct (decide (Digest ps = "")) as [E|E];
    [rewrite bool_decide_eq_true_2, decide_False by tauto; done|].
  rewrite bool_decide_eq_false_2 by done. cbn [orb].
  destruct (decide (EvaluatorID ps = "")) as [E'|E'].
  - rewrite bool_decide_eq_true_2, decide_False by tauto. done.
  - rewrite bool_decide_eq_false_2, decide_True by tauto. done.
Qed.

Definition match_pairs (refs : gmap string string) (groups : list (string * EvaluatorGroup))
    : list (string * string) :=
  flat_map (fun g => match refs !! g.1 with
                     | None => []
                     | Some ref => (fun cfg => (MatchID cfg, ref)) <$> EG_Configs g.2
                     end) groups.

Lemma pack_refs_assoc refs groups : pack_refs refs groups = assoc (match_pairs refs groups).
Proof.
  apply (fold_put_flat (fun g => match refs !! g.1 with None => []
    | Some ref => (fun cfg => (MatchID cfg, ref)) <$> EG_Configs g.2 end)).
  intros m g. destruct (refs !! g.1); [|done]. apply (fold_put_map (fun cfg => (MatchID cfg, s))).
Qed.

Lemma match_pairs_elem refs groups k ref :
  (k, ref) ∈ match_pairs refs groups <->
  exists g cfg, g ∈ groups /\ refs !! g.1 = Some ref /\ cfg ∈ EG_Configs g.2 /\ MatchID cfg = k.
Proof.
  unfold match_pairs. rewrite list_elem_of_In, in_flat_map. setoid_rewrite <-list_elem_of_In. split.
  - intros (g & Hg & Hin). destruct (refs !! g.1) eqn:E; [|by apply elem_of_nil in Hin].
    apply list_elem_of_fmap in Hin as (cfg & [= -> ->] & Hc). eauto 10.
  - intros (g & cfg & Hg & Hr & Hc & <-). exists g. split; [done|]. rewrite Hr.
    apply list_elem_of_fmap. by exists cfg.
Qed.

(** Complypack provenance is never invented and never dropped.
    In whatever order the cached packs and the groups are visited, a reference
    given to an identifier is repository@digest of a cached pack that has a
    digest and serves an evaluator one of whose configurations is matched by
    that identifier; and every identifier such a configuration is matched by
    gets a reference. *)
Theorem complypack_refs_exact packs groups k :
  let refs := pack_refs (evaluator_refs packs) groups in
  let serves_k := fun g repo ps => g ∈ groups /\ (exists cfg, cfg ∈ EG_Configs g.2 /\ MatchID cfg = k) /\
    (repo, ps) ∈ packs /\ EvaluatorID ps = g.1 /\ g.1 <> "" /\ Digest ps <> "" in
  (forall ref, refs !! k = Some ref ->
     exists g repo ps, serves_k g repo ps /\ ref = repo +:+ "@" +:+ Digest ps) /\
  ((exists g repo ps, serves_k g repo ps) -> is_Some (refs !! k)).
Proof.
  cbv zeta. rewrite pack_refs_assoc. split.
  - intros ref Href%assoc_Some. apply match_pairs_elem in Href as (g & cfg & Hg & Hr & Hc & Hk).
    rewrite evaluator_refs_assoc in Hr. apply assoc_Some, list_elem_of_fmap in Hr as ([repo ps] & [= Hid ->] & Hp).
    apply list_elem_of_filter in Hp as [[Hd He] Hp]. cbn [fst snd] in *. exists g, repo, ps.
    split_and!; eauto. congruence.
  - intros (g & repo & ps & Hg & (cfg & Hc & Hk) & Hp & Hid & Hne & Hd). apply assoc_is_Some.
    assert (is_Some (evaluator_refs packs !! g.1)) as [ref Hr].
    { rewrite evaluator_refs_assoc, assoc_is_Some. unfold ref_pairs. rewrite <-list_fmap_compose.
      apply list_elem_of_fmap. exists (repo, ps). split; [done|]. apply list_elem_of_filter. cbn. split; [|done].
      split; congruence. }
    apply list_elem_of_fmap. exists (k, ref). split; [done|]. apply match_pairs_elem. eauto 10.
Qed.

(** The map is keyed by the identifiers configurations are matched by, the
    plan's when there is one; the evaluator looks references up by
    requirement.  A requirement that is not itself such an identifier has no
    reference, whatever is cached, and its steps are written unprefixed. *)
Theorem plan_scoped_requirement_has_no_ref packs groups p t r2c r2p mrefs r step :
  (forall g cfg, g ∈ groups -> cfg ∈ EG_Configs g.2 -> MatchID cfg <> r) ->
  let e := NewEvaluator p t r2c r2p (pack_refs (evaluator_refs packs) groups) mrefs in
  formatStepIdentity (resolveComplypackRef e r) step = step.
Proof.
  intros Hno. cbv zeta. unfold resolveComplypackRef. cbn [ev_reqToComplypackRef NewEvaluator].
  destruct (pack_refs (evaluator_refs packs) groups !! r) as [ref|] eqn:E; [|done].
  rewrite pack_refs_assoc in E. apply assoc_Some, match_pairs_elem in E as (g & cfg & Hg & _ & Hc & Hk).
  by destruct (Hno g cfg).
Qed.

(** ** Generation *)

Section generation_facts.
  Context {stCodec : Codec State} {packCodec : Codec PackConfig} {gsCodec : Codec GenerationState}.
  Context {times : TimeText}.

Lemma preserves_LoadState P d : preserves P (LoadState d).
Proof.
  apply preserves_bind; [apply preserves_ReadFile|]. intros [data|e].
  - by destruct (unmarshal data).
  - by destruct (error_is e ErrNotExist).
Qed.

(** The calls one group makes with one content path. *)
Definition group_calls (workspace : string) (targets : list TargetConfig)
    (g : string * EvaluatorGroup) (content : string) : list gen_call :=
  (fun t => MkGenCall g.1 (WithWorkspaceVar (T_Variables t) workspace) (EG_Configs g.2) content) <$> targets.

Definition accepted (mgr : plugins) (globalVars : gmap string string) (c : gen_call) : Prop :=
  (RouteGenerate mgr (gc_evaluator c) globalVars (gc_targetVars c) (gc_configs c) (gc_content c)).1 = Ok tt.

Lemma generate_targets_ok mgr ev cfgs content ws gv targets calls :
  generate_targets mgr ev cfgs content ws gv targets = Ok calls ->
  calls = group_calls ws targets (ev, MkEvaluatorGroup ev cfgs) content /\ Forall (accepted mgr gv) calls.
Proof.
  revert calls. induction targets as [|t rest IH]; intros calls; cbn [generate_targets].
  { intros [= <-]. by split. }
  intros ([] & Hr & H)%result_bind_ok. apply result_bind_ok in H as (more & Hm & [= <-]).
  destruct (IH more Hm) as [-> Hall]. split; [done|]. by constructor.
Qed.

Lemma preserves_generate_groups P cache st mgr groups targets ws gv :
  preserves P (generate_groups cache st mgr groups targets ws gv).
Proof.
  induction groups as [|[ev g] rest IH]; cbn [generate_groups]; [done|].
  apply preserves_try; [apply preserves_LookupByEvaluatorID|intros hit].
  apply preserves_try; [done|intros calls]. by apply preserves_try.
Qed.

(** The evaluators whose content path is not empty. *)
Definition available_of (groups : list (string * EvaluatorGroup)) (contents : list string) : list string :=
  (filter (fun gc => gc.2 <> "") (zip groups.*1 contents)).*1.

Lemma generate_groups_ok cache st mgr groups targets ws gv w avail calls w' :
  generate_groups cache st mgr groups targets ws gv w = (Ok (avail, calls), w') ->
  exists contents, length contents = length groups /\
    calls = concat (zip_with (group_calls ws targets) groups contents) /\
    avail = available_of groups contents /\ Forall (accepted mgr gv) calls.
Proof.
  revert w avail calls. induction groups as [|[ev g] rest IH]; intros w avail calls; cbn [generate_groups].
  { intros [= <- <-]. exists []. by split_and!. }
  unfold io_try, io_bind, io_lift, io_ret.
  destruct (LookupByEvaluatorID _ _ _ w) as [[hit|] w1]; [|done].
  set (content := match hit with Some (p, _) => path_text p | None => "" end).
  destruct (generate_targets _ _ _ _ _ _ _) as [cs|] eqn:Ecs; [|done].
  destruct (generate_groups _ _ _ rest _ _ _ w1) as [[[av more]|] w2] eqn:Erest; [|done].
  cbn [fst snd]. intros H. simplify_eq. destruct (IH _ _ _ Erest) as (contents & Hlen & -> & -> & Hall).
  apply generate_targets_ok in Ecs as [-> Hacc].
  exists (content :: contents). split_and!; [cbn; by rewrite Hlen| | |by apply Forall_app].
  - cbn [zip_with concat]. f_equal.
  - unfold available_of. rewrite fmap_cons. cbn [zip_with fst]. rewrite filter_cons. cbn [snd].
    destruct (decide (content = "")) as [->|Hne].
    + by rewrite bool_decide_eq_true_2, decide_False by tauto.
    + by rewrite bool_decide_eq_false_2, decide_True by done.
Qed.

End generation_facts.

(** ** When artifacts are reused *)

Lemma keep_digest_lookup all m x ev :
  keep_digest all m x !! ev = if decide (x = ev) then match all !! ev with Some d => Some d | None => m !! ev end
                              else m !! ev.
Proof.
  unfold keep_digest. case_decide as Hd; [subst x|]; destruct (all !! _) eqn:E; try done.
  - by rewrite lookup_insert_eq.
  - by rewrite lookup_insert_ne.
Qed.

Lemma filterComplypackDigests_lookup all available ev :
  filterComplypackDigests all available !! ev = if decide (ev ∈ available) then all !! ev else None.
Proof.
  unfold filterComplypackDigests. induction available as [|x l IH] using rev_ind; [done|].
  rewrite fold_left_app. cbn [fold_left]. rewrite keep_digest_lookup, IH. clear IH.
  destruct (decide (x = ev)) as [->|Hne].
  - rewrite (decide_True (P := ev ∈ l ++ [ev])) by (rewrite elem_of_app; right; left).
    destruct (all !! ev); [done|]. by case_decide.
  - destruct (decide (ev ∈ l)) as [Hl|Hl].
    + by rewrite decide_True by (rewrite elem_of_app; auto).
    + rewrite decide_False; [done|]. rewrite elem_of_app, list_elem_of_singleton. naive_solver.
Qed.

(** A directory with something in it. *)
Definition has_artifacts (base : path) (n : node) (ev : string) : bool :=
  match get (path_join (base ++ [WorkspaceDir]) ev) n with
  | Some (Dir m) => negb (bool_decide (size m = 0%nat))
  | _ => false
  end.

Lemma dir_list_nil m : dir_list m = [] <-> size m = 0%nat.
Proof.
  unfold dir_list. rewrite <-length_map_to_list. pose proof (merge_sort_Permutation name_le (map_to_list m)) as Hp.
  apply Permutation_length in Hp. rewrite <-Hp. by destruct (merge_sort _ _).
Qed.

Lemma evaluatorArtifactsExist_run base evs w :
  no_faults w -> (evaluatorArtifactsExist base evs w).1 = forallb (has_artifacts base (w_fs w)) evs.
Proof.
  revert w. induction evs as [|ev rest IH]; intros w Hnf; [done|].
  cbn [evaluatorArtifactsExist forallb]. unfold has_artifacts at 1.
  unfold io_bind at 1, os_Stat, os_call. rewrite Hnf.
  destruct (get _ (w_fs w)) as [[d pm|m]|] eqn:E; cbn [is_dir negb io_ret fst]; [done| |done].
  unfold io_bind, os_ReadDir, os_call. cbn [w_fault tick set_fs w_tick]. rewrite Hnf. cbn [w_fs].
  change (w_fs (tick (set_fs (w_fs w) w))) with (w_fs w). rewrite E. pose proof (dir_list_nil m) as Hn.
  destruct (dir_list m) as [|x l]; cbn [io_ret fst].
  - by rewrite bool_decide_eq_true_2 by (by apply Hn).
  - rewrite bool_decide_eq_false_2 by (intros Hs; by apply Hn in Hs). cbn [negb andb].
    rewrite IH; [done|]. intros t. apply Hnf.
Qed.

(** C23: artifacts are reused exactly when nothing they depend on changed.
    With the generation state left by a run in which the evaluators
    [available] had complypack content, and no file access failing, a later
    run regenerates unless: the policy digest is the same; for every evaluator
    that was available the complypack digest (or its absence) is the same, and
    no other evaluator has a complypack in the cache; and every evaluator of the
    policy still has a non-empty artifact directory. *)
Theorem reuse_iff_unchanged base stamp repo d0 d evs all0 all available w :
  no_faults w ->
  (needsRegeneration base (Some (NewGenerationState stamp repo d0 evs (filterComplypackDigests all0 available)))
     d all w).1 = false <->
  d0 = d /\
  (forall ev, ev ∈ available -> all !! ev = all0 !! ev) /\
  (forall ev, ev ∉ available -> all !! ev = None) /\
  (forall ev, ev ∈ evs -> exists m, get (path_join (base ++ [WorkspaceDir]) ev) (w_fs w) = Some (Dir m) /\ m <> ∅).
Proof.
  intros Hnf. unfold needsRegeneration, IsFresh, NewGenerationState. cbn [GS_PolicyDigest GS_ComplypackDigests GS_EvaluatorIDs].
  assert (Hmap : filterComplypackDigests all0 available = all <->
    (forall ev, ev ∈ available -> all !! ev = all0 !! ev) /\ (forall ev, ev ∉ available -> all !! ev = None)).
  { split.
    - intros <-. split; intros ev Hev; rewrite filterComplypackDigests_lookup; by case_decide.
    - intros [H1 H2]. apply map_eq. intros ev. rewrite filterComplypackDigests_lookup.
      case_decide; symmetry; auto. }
  assert (Hart : forallb (has_artifacts base (w_fs w)) evs = true <->
    forall ev, ev ∈ evs -> exists m, get (path_join (base ++ [WorkspaceDir]) ev) (w_fs w) = Some (Dir m) /\ m <> ∅).
  { rewrite forallb_forall. setoid_rewrite <-list_elem_of_In. apply forall_proper. intros ev.
    apply forall_proper. intros _. unfold has_artifacts.
    destruct (get _ _) as [[|m]|]; [naive_solver| |naive_solver].
    rewrite negb_true_iff, bool_decide_eq_false, map_size_empty_iff. naive_solver. }
  destruct (decide (d0 = d)) as [->|Hd].
  2:{ rewrite (bool_decide_eq_false_2 (d0 = d)) by done. cbn. naive_solver. }
  rewrite (bool_decide_eq_true_2 (d = d)) by done. cbn [negb].
  destruct (decide (filterComplypackDigests all0 available = all)) as [Hm|Hm].
  - rewrite (bool_decide_eq_true_2 _ Hm). cbn [negb]. unfold io_bind.
    pose proof (evaluatorArtifactsExist_run base evs w Hnf) as Hrun.
    destruct (evaluatorArtifactsExist base evs w) as [b w1]. cbn [fst] in Hrun. subst b.
    cbn [io_ret fst]. rewrite negb_false_iff, Hart.
    apply Hmap in Hm as [? ?]. split; [intros; by split_and!|by intros (_ & _ & _ & ?)].
  - rewrite (bool_decide_eq_false_2 _ Hm). split; [done|]. intros (_ & H1 & H2 & _). destruct Hm. by apply Hmap.
Qed.

(** So a complypack in the cache for an evaluator the policy does not use makes
    every scan of the policy regenerate: the digests that were saved are
    filtered by availability, the ones they are compared with are not. *)
Theorem foreign_complypack_regenerates base stamp repo d evs all available ev dg w :
  all !! ev = Some dg -> ev ∉ available ->
  (needsRegeneration base (Some (NewGenerationState stamp repo d evs (filterComplypackDigests all available)))
     d all w).1 = true.
Proof.
  intros Hev Hav. unfold needsRegeneration, IsFresh, NewGenerationState.
  cbn [GS_PolicyDigest GS_ComplypackDigests GS_EvaluatorIDs].
  rewrite bool_decide_eq_true_2 by done. cbn [negb]. rewrite bool_decide_eq_false_2; [done|].
  intros Heq. rewrite <-Heq, filterComplypackDigests_lookup in Hev. by rewrite decide_False in Hev.
Qed.

(** ** Attribution of results to targets *)

Section attribution.
  Context (deadline : string -> string -> bool).

Lemma assessments_of_app tid l1 t1 l2 t2 :
  length l1 = length t1 -> assessments_of tid (l1 ++ l2) (t1 ++ t2) = assessments_of tid l1 t1 ++ assessments_of tid l2 t2.
Proof.
  intros Hl. unfold assessments_of. by rewrite zip_with_app, filter_app, fmap_app.
Qed.

Lemma assessments_of_const tid tid' (l : list AssessmentLog) :
  assessments_of tid l ((fun _ => tid') <$> l) = if decide (tid' = tid) then l else [].
Proof.
  unfold assessments_of. induction l as [|a l IH]; [by case_decide|].
  rewrite fmap_cons. cbn [zip_with]. rewrite filter_cons. cbn [snd].
  case_decide; [rewrite fmap_cons; cbn [fst]; by rewrite IH|done].
Qed.

Lemma assessments_of_map tid (f : AssessmentLog -> AssessmentLog) l ts :
  assessments_of tid (f <$> l) ts = f <$> assessments_of tid l ts.
Proof.
  unfold assessments_of. revert ts. induction l as [|a l IH]; intros [|t ts]; [done..|].
  rewrite fmap_cons. cbn [zip_with]. rewrite !filter_cons. cbn [snd].
  case_decide; [rewrite !fmap_cons; cbn [fst]; by rewrite IH|apply IH].
Qed.

(** The answers of the providers for one target. *)
Definition answers (mgr : plugins) (groups : gmap string EvaluatorGroup) (t : TargetConfig)
    (x : list AssessmentLog * list string * list MappingReference) : Prop :=
  scanSingleTarget deadline mgr groups t = Ok x.

Lemma scan_targets_spec mgr groups targets out0 out :
  NoDup (T_ID <$> targets) ->
  length (so_assessments out0) = length (so_assessmentTargets out0) ->
  scan_targets deadline mgr groups targets out0 = Ok out ->
  length (so_assessments out) = length (so_assessmentTargets out) /\
  (forall tid, tid ∉ T_ID <$> targets ->
     assessments_of tid (so_assessments out) (so_assessmentTargets out) =
       assessments_of tid (so_assessments out0) (so_assessmentTargets out0) /\
     so_mappingReferences out !! tid = so_mappingReferences out0 !! tid) /\
  exists xs, Forall2 (answers mgr groups) targets xs /\
    so_assessments out = so_assessments out0 ++ flat_map (fun x => x.1.1) xs /\
    so_errors out = so_errors out0 ++ flat_map (fun x => x.1.2) xs /\
    Forall2 (fun t x =>
      assessments_of (T_ID t) (so_assessments out) (so_assessmentTargets out) =
        assessments_of (T_ID t) (so_assessments out0) (so_assessmentTargets out0) ++ x.1.1 /\
      so_mappingReferences out !! T_ID t = Some (default [] (so_mappingReferences out0 !! T_ID t) ++ x.2))
      targets xs.
Proof.
  revert out0. induction targets as [|t rest IH]; intros out0 Hnd Hlen; cbn [scan_targets].
  { intros [= <-]. split_and!; [done|done|]. exists []. simpl. rewrite !app_nil_r. by repeat split. }
  rewrite fmap_cons in *. apply NoDup_cons in Hnd as [Ht Hnd].
  intros ([[results errs] refs] & Hx & H)%result_bind_ok.
  apply IH in H as (Hl & Hother & xs & Hans & Hassess & Herrs & Hall); [|done|].
  2:{ cbn. by rewrite !length_app, length_fmap, Hlen. }
  cbn [so_assessments so_assessmentTargets so_errors so_mappingReferences] in *. split_and!; [done| |].
  - intros tid Hn. rewrite not_elem_of_cons in Hn. destruct Hn as [Hne Hn].
    destruct (Hother tid Hn) as [-> ->]. rewrite assessments_of_app by done.
    rewrite assessments_of_const, decide_False, app_nil_r by done. split; [done|].
    by rewrite lookup_insert_ne.
  - exists ((results, errs, refs) :: xs). cbn [flat_map fst snd]. split_and!.
    + by constructor.
    + by rewrite Hassess, <-app_assoc.
    + by rewrite Herrs, <-app_assoc.
    + constructor.
      * cbn [fst snd]. destruct (Hother (T_ID t) Ht) as [-> ->].
        rewrite assessments_of_app, assessments_of_const, decide_True by done.
        by rewrite lookup_insert_eq.
      * apply Forall2_same_length_lookup_2; [by eapply Forall2_length|].
        intros i t' x Hi Hxi. pose proof (Forall2_lookup_lr _ _ _ _ _ _ Hall Hi Hxi) as [Ha Hm].
        assert (T_ID t <> T_ID t') as Hne.
        { intros He. apply Ht. rewrite He. apply list_elem_of_fmap_2. by eapply list_elem_of_lookup_2. }
        rewrite Ha, Hm. rewrite assessments_of_app, assessments_of_const, decide_False, app_nil_r by done.
        by rewrite lookup_insert_ne.
Qed.

End attribution.

(** ** The exit status and the files of a scan *)

Section exit_status.
  Context {times : TimeText} {enc : LogEncoders} {oscal : Oscal} {sarif : Sarif}.
  Context (now : string -> nat -> string).

Lemma preserves_write_report what outDir filename data :
  preserves (diverges outDir) (write_report what outDir filename data).
Proof.
  apply preserves_try.
  { eapply preserves_weaken; [apply preserves_MkdirAll|]. intros q [_ H]. exact H. }
  intros _. apply preserves_try; [|done].
  eapply preserves_weaken; [apply preserves_WriteFile|]. intros q Hq.
  apply diverges_sym, diverges_app, diverges_sym, Hq.
Qed.

Lemma preserves_stamped {A} P (m : string -> io (result A)) :
  (forall ts, preserves P (m ts)) -> preserves P (stamped m).
Proof. intros H. apply preserves_bind; [apply preserves_Now|auto]. Qed.

Lemma preserves_Evaluator_Write e ts outDir fmt : preserves (diverges outDir) (Evaluator_Write e ts outDir fmt).
Proof.
  unfold Evaluator_Write. cbv zeta.
  destruct (if bool_decide (fmt = "json") then _ else _) as [ext data].
  apply preserves_try; [done|]. intros d. apply preserves_write_report.
Qed.

Lemma preserves_format_writer f eval logPath outDir repo m :
  format_writer f eval logPath outDir repo = Some m -> preserves (diverges outDir) m.
Proof.
  unfold format_writer. repeat case_bool_decide; intros [= <-].
  - apply preserves_bind; [apply preserves_Now|]. intros t.
    apply preserves_try; [apply preserves_stamped|done]. intros ts. unfold Markdown_Write.
    apply preserves_bind; [|intros; apply preserves_write_report].
    unfold writeEvaluationLog. destruct (_ || _); [done|].
    apply preserves_bind; [apply preserves_ReadFile|done].
  - apply preserves_try; [apply preserves_stamped|done]. intros ts.
    apply preserves_try; [done|intros; apply preserves_write_report].
  - apply preserves_try; [apply preserves_stamped|done]. intros ts.
    apply preserves_try; [done|intros; apply preserves_write_report].
Qed.

Lemma preserves_write_all formats fmt evals outDir repo :
  preserves (diverges outDir) (write_all_reports formats fmt evals outDir repo).
Proof.
  induction evals as [|e evals IH]; cbn [write_all_reports]; [done|].
  apply preserves_try; [|intros ws; by apply preserves_try].
  apply preserves_try; [apply preserves_stamped; intros; apply preserves_Evaluator_Write|].
  intros logPath. apply preserves_bind; [|done].
  clear IH. induction formats as [|f rest IHf]; cbn [writeFormatReports]; [done|].
  apply preserves_bind; [|intros; by apply preserves_bind].
  destruct (format_writer _ _ _ _ _) as [m|] eqn:Ef; [|done].
  apply preserves_bind; [by eapply preserves_format_writer|done].
Qed.

End exit_status.
