(* ===== verification/Lifecycle.v ===== *)
(** * From get to scan (internal/cache/sync.go, internal/policy/loader.go,
      cmd/complyctl/cli/scan.go)

    What synchronisation leaves and what the loader finds, across components.  The
    tags of a store are the library's: [TagLaws] says what the program relies on, that
    opening a store keeps its tags and that resolving one succeeds exactly when the
    store has it, while no call fails. *)
From stdpp Require Import gmap.
From S2P Require Import Prelude GoStrings Digest OciRef World Settled State Complypack Sync Config Workspace.
From S2P Require Import Provider Generation Resolver Evaluator Report Scan.

Class TagLaws `{Oras} {reader : StoreReader} := {
  (** the store at a path opens and resolves the tag *)
  holds_tag : path -> string -> node -> Prop;
  New_keeps p w : settled w -> let '(r, w') := oci_New p w in
    settled w' /\ (r = Ok tt -> forall t, holds_tag p t (w_fs w') <-> holds_tag p t (w_fs w));
  New_opens p t w : settled w -> holds_tag p t (w_fs w) -> (oci_New p w).1 = Ok tt;
  Resolve_tag p t w : settled w -> is_ok (store_Resolve p t w).1 = true <-> holds_tag p t (w_fs w);
  holds_tag_local p t n n' :
    (forall q, p `prefix_of` q -> get q n' = get q n) -> holds_tag p t n -> holds_tag p t n';
}.

Section lifecycle.
  Context `{TagLaws} {stCodec : Codec State}.

(** Opening the store of a policy that has one. *)
Lemma NewPolicyStore_existing cache id w :
  settled w -> is_Some (get (PolicyStorePath cache id ++ [oci_layout]) (w_fs w)) ->
  exists w1, w_fs w1 = w_fs w /\ settled w1 /\
    match oci_New (PolicyStorePath cache id) w1 with
    | (Ok _, w2) => NewPolicyStore cache id w = (Ok (PolicyStorePath cache id), w2)
    | (Err _, w2) => exists e, NewPolicyStore cache id w = (Err e, w2)
    end.
Proof.
  intros Hf [x Hx]. rewrite get_app in Hx.
  assert (is_dir (get (PolicyStorePath cache id) (w_fs w)) = true) as Hd.
  { destruct (get _ (w_fs w)) as [[|m]|]; [discriminate|done|discriminate]. }
  unfold NewPolicyStore, io_try, io_bind, os_MkdirAll.
  rewrite (os_call_settled _ w tt (w_fs w)) by (done || by rewrite mkdir_all_id).
  exists (tick (set_fs (w_fs w) w)). split; [done|]. split; [intros t Ht; apply Hf; cbn in Ht; lia|].
  destruct (oci_New _ _) as [[[]|e] w2]; [done|by eexists].
Qed.

(** The loader finds exactly the tags of the store. *)
Lemma PolicyExists_tag cache id t w :
  id <> "" -> t <> "" -> settled w -> is_Some (get (PolicyStorePath cache id ++ [oci_layout]) (w_fs w)) ->
  (Loader_PolicyExists cache id t w).1 = true <-> holds_tag (PolicyStorePath cache id) t (w_fs w).
Proof.
  intros Hid Ht Hf Hm. unfold Loader_PolicyExists. rewrite !bool_decide_eq_false_2 by done. cbn [orb].
  unfold io_bind. destruct (NewPolicyStore_existing cache id w Hf Hm) as (w1 & Hfs & Hf1 & Hn).
  pose proof (New_keeps (PolicyStorePath cache id) w1 Hf1) as Hk.
  pose proof (New_opens (PolicyStorePath cache id) t w1 Hf1) as Ho. rewrite Hfs in Hk, Ho.
  destruct (oci_New _ w1) as [[[]|e] w2].
  - rewrite Hn. destruct Hk as [Hf2 Hk]. rewrite <- (Hk eq_refl t), <- Resolve_tag by done.
    by destruct (store_Resolve _ _ w2).
  - destruct Hn as [e' ->]. split; [done|]. intros Hh. by apply Ho in Hh.
Qed.

(** What a fetch leaves in the store of the policy. *)
Lemma fetched_tag s st id v d rv w st' w' :
  SyncPolicy s st id v w = ((Ok true, st'), w') ->
  (let '(tag, dg) := classifyVersion v in
   Src_DefinitionVersion (sync_source s) (BuildLookupRef "" id tag dg) = io_ret (Ok (d, rv))) ->
  (forall t p w1 ds w2, Src_Copy (sync_source s) id t p w1 = (Ok ds, w2) -> holds_tag p t (w_fs w2)) ->
  diverges (sync_dataDir s) (PolicyStorePath (sync_cache s) id) ->
  holds_tag (PolicyStorePath (sync_cache s) id) (version_or v rv) (w_fs w').
Proof.
  intros Hrun Hreg Hcopy Hdir. apply SyncPolicy_run in Hrun. destruct (classifyVersion v) as [tag dg].
  destruct Hrun as [(_ & ? & _)|(w1 & d' & rv' & w2 & w3 & vr & w4 & _ & Hd & _ & Hc)]; [done|].
  rewrite Hreg in Hd. unfold io_ret in Hd. simplify_eq. unfold sync_copy, sync_fail, io_bind in Hc.
  destruct (NewPolicyStore _ _ w4) as [[p|e] w5] eqn:E1; [|done].
  assert (p = PolicyStorePath (sync_cache s) id) as ->.
  { unfold NewPolicyStore, io_try, io_bind in E1. destruct (os_MkdirAll _ w4) as [[]]; [|done].
    destruct (oci_New _ _) as [[]]; [|done]. unfold io_ret in E1. by simplify_eq. }
  destruct (Src_Copy _ _ _ _ w5) as [[ds|e] w6] eqn:E2; [|done]. apply Hcopy in E2.
  destruct (time_Now w6) as [n1 w7] eqn:E3, (time_Now w7) as [n2 w8] eqn:E4.
  assert (w_fs w8 = w_fs w6) as Hfs by (unfold time_Now in *; by simplify_eq).
  destruct (UpdatePolicyStateWithVerification _ _ _ _ _ _ _) as [st1|e]; [|done].
  pose proof (preserves_SaveState st1 (sync_dataDir s) w8) as HS.
  destruct (SaveState _ _ w8) as [[[]|e] w9]; [|done]. unfold io_ret in Hc. simplify_eq. cbn in HS.
  eapply holds_tag_local; [|exact E2]. intros q [k ->]. rewrite HS by by apply diverges_app. by rewrite Hfs.
Qed.

(** What get fetched, scan finds.  After a successful fetch the loader
    resolves the version that is recorded for the policy to itself; for a version that
    is pinned this is the version of the configuration. *)
Theorem fetched_version_resolves s st id v d rv w st' w' :
  SyncPolicy s st id v w = ((Ok true, st'), w') ->
  (let '(tag, dg) := classifyVersion v in
   Src_DefinitionVersion (sync_source s) (BuildLookupRef "" id tag dg) = io_ret (Ok (d, rv))) ->
  (forall t p w1 ds w2, Src_Copy (sync_source s) id t p w1 = (Ok ds, w2) ->
     is_Some (get (p ++ [oci_layout]) (w_fs w2)) /\ holds_tag p t (w_fs w2)) ->
  diverges (sync_dataDir s) (PolicyStorePath (sync_cache s) id) -> no_faults w' -> rv <> "" ->
  exists ps, GetPolicyState st' id = Some ps /\ (v <> "" -> v <> "latest" -> Version ps = v) /\
    (Loader_ResolveVersion (sync_cache s) id (Version ps) w').1 = Ok (Version ps).
Proof.
  intros Hrun Hreg Hcopy Hdir Hf Hrv.
  destruct (SyncPolicy_fetched _ _ _ _ _ _ _ Hrun (fun t p w1 ds w2 E => proj1 (Hcopy t p w1 ds w2 E)) Hdir)
    as (Hid & _ & Hm).
  pose proof (fetched_tag _ _ _ _ _ _ _ _ _ Hrun Hreg (fun t p w1 ds w2 E => proj2 (Hcopy t p w1 ds w2 E)) Hdir) as Ht.
  destruct (SyncPolicy_entry _ _ _ _ _ _ _ _ _ Hrun Hreg) as (ps & vr & Hps & (Hver & _) & _).
  assert (version_or v rv <> "") as Hne by (unfold version_or; repeat case_bool_decide; done).
  exists ps. split; [done|]. rewrite Hver. split.
  { intros. unfold version_or. by rewrite !bool_decide_eq_false_2. }
  unfold Loader_ResolveVersion. rewrite bool_decide_eq_false_2 by done. unfold io_bind.
  pose proof (PolicyExists_tag (sync_cache s) id (version_or v rv) w' Hid Hne (fun t _ => Hf t) Hm) as He.
  destruct (Loader_PolicyExists _ _ _ w') as [b w2]. cbn in He. by rewrite (proj2 He Ht).
Qed.

(** C33: A second tag of cached content is never cached.  Once a policy was
    fetched, let its configuration pin another tag that the registry resolves to the
    same digest, and that the store does not have.  Then get reports an up-to-date
    cache and changes no file, however often it is run, and after each of these runs
    generate and scan cannot resolve the version and ask for get. *)
Theorem retagged_version_stuck s st id v d rv w st' w' ref rv' :
  SyncPolicy s st id v w = ((Ok true, st'), w') ->
  (let '(tag, dg) := classifyVersion v in
   Src_DefinitionVersion (sync_source s) (BuildLookupRef "" id tag dg) = io_ret (Ok (d, rv))) ->
  (forall t p w1 ds w2, Src_Copy (sync_source s) id t p w1 = (Ok ds, w2) ->
     is_Some (get (p ++ [oci_layout]) (w_fs w2))) ->
  diverges (sync_dataDir s) (PolicyStorePath (sync_cache s) id) -> no_faults w' ->
  PR_Repository ref = id -> VersionString ref <> "" -> VersionString ref <> "latest" ->
  (let '(tag, dg) := classifyVersion (VersionString ref) in
   Src_DefinitionVersion (sync_source s) (BuildLookupRef "" id tag dg) = io_ret (Ok (d, rv'))) ->
  ~ holds_tag (PolicyStorePath (sync_cache s) id) (VersionString ref) (w_fs w') ->
  forall n, exists w'',
    Nat.iter n (fun r => SyncPolicy s r.1.2 id (VersionString ref) r.2) ((Ok false, st'), w') = ((Ok false, st'), w'') /\
    w_fs w'' = w_fs w' /\
    forall yaml : GemaraYAML, exists cached,
      (resolveVersionAndGraph (loader := Loader (sync_cache s)) ref w'').1 =
      Err (not_cached id (VersionString ref) cached).
Proof.
  intros Hrun Hreg Hcopy Hdir Hf Hrepo Hne Hnl Hreg2 Hno n.
  destruct (SyncPolicy_fetched _ _ _ _ _ _ _ Hrun Hcopy Hdir) as (Hid & Hh & Hm).
  destruct (SyncPolicy_entry _ _ _ _ _ _ _ _ _ Hrun Hreg) as (ps & vr & Hps & (_ & Hdg & _) & _).
  destruct (SyncPolicy_stays s st' id (VersionString ref) d rv' ps w' Hid Hh Hreg2 Hps Hdg Hm Hf n) as (w2 & -> & Hfs & Hf2).
  exists w2. split; [done|]. split; [done|]. intros yaml.
  unfold resolveVersionAndGraph, io_try, io_bind. cbn [ResolveVersion Loader]. rewrite Hrepo.
  unfold Loader_ResolveVersion. rewrite !bool_decide_eq_false_2 by done. unfold io_bind.
  rewrite <- Hfs in Hm, Hno.
  pose proof (PolicyExists_tag (sync_cache s) id (VersionString ref) w2 Hid Hne (fun t _ => Hf2 t) Hm) as He.
  destruct (Loader_PolicyExists _ _ _ w2) as [b w3]. cbn in He.
  destruct b; [by destruct Hno; apply He|]. destruct (cached_or_none _ _ w3) as [cached w4]. by exists cached.
Qed.
End lifecycle.
