(* ===== verification/Get.v ===== *)
(** * The get and list commands (cmd/complyctl/cli/{get,list}.go)

    Fetching every policy and complypack of the workspace: the verifier each
    entry gets, the loops that attempt every entry and join the errors, the
    invalidation of generated artifacts, the check for conflicting evaluators,
    and the table of cached policies. *)
From stdpp Require Import gmap.
From S2P Require Import Prelude GoStrings Digest OciRef World State Complypack Sync Config.
From S2P Require Import Workspace Provider Generation Resolver.

(** ** Verifiers (get.go) *)

#[export] Instance VerificationConfig_countable : Countable VerificationConfig.
Proof.
  refine (inj_countable' (fun v => (VC_Issuer v, VC_Identity v, VC_Key v, VC_TrustedRoot v))
    (fun '(a, b, c, d) => MkVerificationConfig a b c d) _). by intros [].
Defined.

(** The verifiers built in one invocation; Go's nil map is [None]. *)
Abbreviation verifier_cache := (option (gmap VerificationConfig VerifyFunc)).

(** [cache.NewKeyedVerifier] and [cache.NewKeylessVerifier] read a key file or
    fetch a TUF root through sigstore. *)
Class Verifiers := {
  NewKeyedVerifier : string -> io (result VerifyFunc);
  NewKeylessVerifier : string -> string -> string -> io (result VerifyFunc);
}.

Section get.
  Context {vs : Verifiers} {hs : HostSyntax}.

Definition buildVerifierFromConfig (cfg : VerificationConfig) : io (result VerifyFunc) :=
  if negb (bool_decide (VC_Key cfg = "")) then NewKeyedVerifier (VC_Key cfg)
  else NewKeylessVerifier (VC_Issuer cfg) (VC_Identity cfg) (VC_TrustedRoot cfg).

(** The configuration an entry is verified with: its own, else the workspace's. *)
Definition effective_config (entry : PolicyEntry) (wsCfg : option VerificationConfig)
    : option VerificationConfig :=
  if IsConfigured (PE_Verification entry) then PE_Verification entry
  else if IsConfigured wsCfg then wsCfg else None.

(** The answer holds the verifier, if any, and the cache as it is left. *)
Definition resolveVerifier (entry : PolicyEntry) (wsCfg : option VerificationConfig)
    (vfCache : verifier_cache) : io (result (option VerifyFunc) * verifier_cache) :=
  if PE_SkipVerify entry then io_ret (Ok None, vfCache)
  else match effective_config entry wsCfg with
  | None => io_ret (Ok None, vfCache)
  | Some cfg =>
      match vfCache with
      | None => io_ret (Ok None, vfCache)
      | Some m =>
          match m !! cfg with
          | Some vf => io_ret (Ok (Some vf), vfCache)
          | None =>
              let! r := buildVerifierFromConfig cfg in
              io_ret (match r with
                      | Err e => (Err (Wrapf ("verification configured but initialization failed " +:+
                                              "(use --skip-verify to bypass): ") e ""), vfCache)
                      | Ok vf => (Ok (Some vf), Some (<[cfg := vf]> m))
                      end)
          end
      end
  end.

(** ** Policies *)

Definition hasMetadata (ps : PolicyState) : bool :=
  negb (bool_decide (PolicyTitle ps = "")) || negb (bool_decide (PolicyEvaluator ps = "")) ||
  (0 <? ControlCount ps)%Z || (0 <? AssessmentCount ps)%Z.

Definition nl : string := String "010" "".

Definition formatPolicySummary (meta : PolicyMetadata) : string :=
  let hasTitle := negb (bool_decide (PM_Title meta = "")) in
  let hasEval := negb (bool_decide (PM_EvaluatorID meta = "")) in
  (if hasTitle && hasEval then "  Policy: " +:+ PM_Title meta +:+ " (" +:+ PM_EvaluatorID meta +:+ ")" +:+ nl
   else if hasTitle then "  Policy: " +:+ PM_Title meta +:+ nl
   else if hasEval then "  Policy: " +:+ PM_EvaluatorID meta +:+ nl
   else "") +:+
  (if hasTitle || hasEval || (0 <? PM_ControlCount meta)%nat || (0 <? PM_AssessmentCount meta)%nat
   then "  Controls: " +:+ itoa (Z.of_nat (PM_ControlCount meta)) +:+ " | Assessments: " +:+
        itoa (Z.of_nat (PM_AssessmentCount meta)) +:+ nl
   else "").

Context `{Oras} {net : RegistryNetwork} {stCodec : Codec State} {packCodec : Codec PackConfig}
  {gsCodec : Codec GenerationState} {yaml : GemaraYAML} {loader : PolicyLoader}.

Definition resolveLatestVersion (client : OciRef.Client) (repository : string) : string :=
  match DefinitionVersion client repository with
  | Ok (_, resolvedVersion) => resolvedVersion
  | Err _ => "latest"
  end.

(** The version asked for, or the registry's latest. *)
Definition wanted_version (ref : PolicyRef) : string :=
  if bool_decide (VersionString ref = "") then resolveLatestVersion (NewClient (PR_Registry ref)) (PR_Repository ref)
  else VersionString ref.

(** The state in memory and the verifier cache are threaded through the loops. *)
Record get_state := MkGetState { gs_state : State; gs_verifiers : verifier_cache }.

(** The metadata step of [syncSinglePolicy]; a failure is only logged. *)
Definition extract_metadata (st : State) (repository : string) (fetched : bool) : io State :=
  let ps := default PolicyState_zero (GetPolicyState st repository) in
  if fetched || negb (hasMetadata ps) then
    let! meta := ExtractPolicyMetadata repository (Version ps) in
    io_ret (match meta with
            | Err _ => st
            | Ok meta => SetPolicyMetadata st repository (PM_Title meta) (PM_EvaluatorID meta)
                           (Z.of_nat (PM_ControlCount meta)) (Z.of_nat (PM_AssessmentCount meta))
            end)
  else io_ret st.

Definition syncSinglePolicy (cacheDir dataDir : path) (entry : PolicyEntry)
    (wsCfg : option VerificationConfig) (s : get_state) : io (result unit * get_state) :=
  match ParsePolicyRef (PE_URL entry) with
  | (_, Some e) => io_ret (Err (Wrapf ("invalid policy reference " +:+ PE_URL entry +:+ ": ") e ""), s)
  | (ref, None) =>
  let! rv := resolveVerifier entry wsCfg (gs_verifiers s) in
  let '(r, vfCache) := rv in
  let s := MkGetState (gs_state s) vfCache in
  match r with
  | Err e => io_ret (Err (Wrapf ("policy " +:+ EffectiveID entry +:+ ": ") e ""), s)
  | Ok verifier =>
  let source := RegistrySource (NewClient (PR_Registry ref)) in
  let sync := NewSync cacheDir source dataDir (PR_Registry ref) verifier in
  let! sr := SyncPolicy sync (gs_state s) (PR_Repository ref) (wanted_version ref) in
  let '(r, st) := sr in
  let s := MkGetState st vfCache in
  match r with
  | Err e => io_ret (Err e, s)
  | Ok fetched =>
  let! st := extract_metadata st (PR_Repository ref) fetched in
  io_ret (Ok tt, MkGetState st vfCache)
  end end end.

(** The loop: every entry is attempted, the errors are collected. *)
Fixpoint sync_each (one : PolicyEntry -> get_state -> io (result unit * get_state))
    (entries : list PolicyEntry) (s : get_state) : io (list error * get_state) :=
  match entries with
  | [] => io_ret ([], s)
  | entry :: rest =>
      let! r := one entry s in
      let '(r, s) := r in
      let! more := sync_each one rest s in
      io_ret (match r with Ok _ => more | Err e => (e :: more.1, more.2) end)
  end.

(** A failure to save the metadata is only logged. *)
Definition syncAllPolicies (cacheDir dataDir : path) (policies : list PolicyEntry)
    (wsCfg : option VerificationConfig) (s : get_state) : io (option error * get_state) :=
  let! r := sync_each (fun entry s => syncSinglePolicy cacheDir dataDir entry wsCfg s) policies s in
  let! _ := SaveState (gs_state r.2) dataDir in
  io_ret (errors_join r.1, r.2).

(** ** Complypacks *)

Context (os_TempDir : path).

(** Errors are logged: the command goes on. *)
Definition invalidateGenerationForComplypack (st : State) (repository : string) (baseDir : path) : io unit :=
  match GetComplypackState st repository with
  | None => io_ret tt
  | Some ps =>
      let evalID := EvaluatorID ps in
      if bool_decide (evalID = "") then io_ret tt
      else
        let! r := InvalidateForEvaluator baseDir evalID in
        match r with
        | Err _ => io_ret tt
        | Ok _ => let! _ := RemoveEvaluatorArtifacts baseDir evalID in io_ret tt
        end
  end.

Definition syncSingleComplypack (cacheDir dataDir baseDir : path) (entry : PolicyEntry)
    (wsCfg : option VerificationConfig) (s : get_state) : io (result unit * get_state) :=
  match ParsePolicyRef (PE_URL entry) with
  | (_, Some e) => io_ret (Err (Wrapf ("invalid complypack reference " +:+ PE_URL entry +:+ ": ") e ""), s)
  | (ref, None) =>
  let! rv := resolveVerifier entry wsCfg (gs_verifiers s) in
  let '(r, vfCache) := rv in
  let s := MkGetState (gs_state s) vfCache in
  match r with
  | Err e => io_ret (Err (Wrapf ("complypack " +:+ EffectiveID entry +:+ ": ") e ""), s)
  | Ok verifier =>
  let source := RegistryComplypackSource (NewClient (PR_Registry ref)) in
  let! cache := (fun w => (NewComplypackCache cacheDir (w_env w), w)) in
  let cpSync := NewComplypackSync cache source dataDir (PR_Registry ref) verifier in
  let! sr := SyncComplypack os_TempDir cpSync (gs_state s) (PR_Repository ref) (wanted_version ref) in
  let '(r, st) := sr in
  let s := MkGetState st vfCache in
  match r with
  | Err e => io_ret (Err (Wrapf ("failed to sync complypack " +:+ PR_Repository ref +:+ ": ") e ""), s)
  | Ok fetched =>
      let! _ := (if (fetched : bool) then invalidateGenerationForComplypack st (PR_Repository ref) baseDir
                 else io_ret tt) in
      io_ret (Ok tt, s)
  end end end.

Definition syncAllComplypacks (cacheDir dataDir baseDir : path) (complypacks : list PolicyEntry)
    (wsCfg : option VerificationConfig) (s : get_state) : io (option error * get_state) :=
  let! r := sync_each (fun entry s => syncSingleComplypack cacheDir dataDir baseDir entry wsCfg s)
              complypacks s in
  io_ret (errors_join r.1, r.2).

(** [validateUniqueEvaluatorIDs]: the repositories of each evaluator among the
    configured entries, in the order of the entries. *)
Definition evaluator_repos (st : State) (complypacks : list PolicyEntry) : gmap string (list string) :=
  fold_left (fun m entry =>
    match ParsePolicyRef (PE_URL entry) with
    | (_, Some _) => m
    | (ref, None) =>
        match GetComplypackState st (PR_Repository ref) with
        | None => m
        | Some ps => if bool_decide (EvaluatorID ps = "") then m
                     else <[EvaluatorID ps := default [] (m !! EvaluatorID ps) ++ [PR_Repository ref]]> m
        end
    end) complypacks ∅.

Definition conflict_text (kv : string * list string) : option string :=
  if (1 <? length kv.2)%nat then
    Some ("duplicate evaluator-id " +:+ kv.1 +:+ " found in complypack entries:" +:+ nl +:+
          join nl ((fun r => "  - " +:+ r) <$> sort_strings kv.2))
  else None.

Definition validateUniqueEvaluatorIDs (st : State) (complypacks : list PolicyEntry) : option error :=
  match omap conflict_text (map_to_list (evaluator_repos st complypacks)) with
  | [] => None
  | conflicts => Some (Errorf (join nl (sort_strings conflicts) +:+ nl +:+
                               "remove one of the conflicting entries from complytime.yaml"))
  end.

(** ** The command *)

(** [registry.NewCredentialFunc] reads the Docker credential store. *)
Context (NewCredentialFunc : result unit).

Definition syncPolicies (cacheDir dataDir : path) (cfg : WorkspaceConfig)
    (wsCfg : option VerificationConfig) (vfCache : verifier_cache)
    : io (option error * verifier_cache) :=
  let! st := LoadState dataDir in
  match st with
  | Err e => io_ret (Some (Wrapf "failed to load cache state: " e ""), vfCache)
  | Ok state =>
  match NewCredentialFunc with
  | Err e => io_ret (Some (Wrapf "authentication setup failed: " e ""), vfCache)
  | Ok _ =>
  let! r := syncAllPolicies cacheDir dataDir (WC_Policies cfg) wsCfg (MkGetState state vfCache) in
  io_ret (r.1, gs_verifiers r.2)
  end end.

Definition syncComplypacks (cacheDir dataDir baseDir : path) (cfg : WorkspaceConfig)
    (wsCfg : option VerificationConfig) (vfCache : verifier_cache) : io (option error) :=
  if bool_decide (WC_Complypacks cfg = []) then io_ret None
  else
  let! st := LoadState dataDir in
  match st with
  | Err e => io_ret (Some (Wrapf "failed to load cache state: " e ""))
  | Ok state =>
  match NewCredentialFunc with
  | Err e => io_ret (Some (Wrapf "authentication setup failed: " e ""))
  | Ok _ =>
  let! r := syncAllComplypacks cacheDir dataDir baseDir (WC_Complypacks cfg) wsCfg
              (MkGetState state vfCache) in
  io_ret (match r.1 with
          | Some e => Some e
          | None => validateUniqueEvaluatorIDs (gs_state r.2) (WC_Complypacks cfg)
          end)
  end end.

(** Both groups are synchronised whatever happens to the first. *)
Definition syncAll (cacheDir dataDir baseDir : path) (cfg : WorkspaceConfig)
    (wsCfg : option VerificationConfig) (vfCache : verifier_cache) : io (option error) :=
  let vfCache := match wsCfg, vfCache with
                 | Some _, None => Some ∅
                 | _, _ => vfCache
                 end in
  let! p := syncPolicies cacheDir dataDir cfg wsCfg vfCache in
  let! c := syncComplypacks cacheDir dataDir baseDir cfg wsCfg p.2 in
  io_ret (errors_join (omap id [p.1; c])).

Definition get_run (cacheDir dataDir baseDir : path) (cfg : WorkspaceConfig) (skipVerify : bool)
    : io (option error) :=
  if skipVerify then syncAll cacheDir dataDir baseDir cfg None None
  else syncAll cacheDir dataDir baseDir cfg (WC_Verification cfg) None.
End get.

(** ** The list command (list.go) *)

Definition abbreviateDigest (dgst : string) : string :=
  if bool_decide (dgst = "") then "-"
  else match cut dgst ":" with
       | None => dgst
       | Some (algorithm, hex) => algorithm +:+ ":" +:+ str_take 12 hex
       end.

Definition policyMetadataFields (st : State) (repository : string) : string * string :=
  match GetPolicyState st repository with
  | None => ("-", "-")
  | Some ps =>
      if negb (hasMetadata ps) then ("-", "-")
      else (if bool_decide (PolicyEvaluator ps = "") then "-" else PolicyEvaluator ps, itoa (ControlCount ps))
  end.

Definition policyDigestField (st : State) (repository : string) : string :=
  match GetPolicyState st repository with
  | None => "-"
  | Some ps => abbreviateDigest (Digest ps)
  end.

Definition verificationStatus (st : State) (repository : string) : string :=
  match GetPolicyState st repository with
  | None => "-"
  | Some ps => if Verified ps then "Yes" else "No"
  end.

(** [sort.SliceStable] by the first column. *)
Definition row_key (row : list string) : string := default "" (head row).
Fixpoint insert_row (row : list string) (rows : list (list string)) : list (list string) :=
  match rows with
  | [] => [row]
  | r :: rest => if str_leb (row_key row) (row_key r) then row :: rows else r :: insert_row row rest
  end.
Definition sort_rows (rows : list (list string)) : list (list string) := foldr insert_row [] rows.

Section list_command.
  Context {hs : HostSyntax} `{Oras} {reader : StoreReader}.

Definition list_row (st : State) (p : PolicyEntry) (ref : PolicyRef) (versions : list string) : list string :=
  let versionStr := match versions with [] => "-" | _ => join ", " (sort_strings versions) end in
  let '(evaluatorStr, controlsStr) := policyMetadataFields st (PR_Repository ref) in
  [EffectiveID p; versionStr; evaluatorStr; controlsStr; policyDigestField st (PR_Repository ref);
   verificationStatus st (PR_Repository ref)].

(** The loop of [run]; an error listing the cached versions is ignored. *)
Fixpoint list_rows (cacheMgr : path) (st : State) (policyFlag : string) (policies : list PolicyEntry)
    : io (result (list (list string))) :=
  match policies with
  | [] => io_ret (Ok [])
  | p :: rest =>
      if negb (bool_decide (policyFlag = "")) && negb (bool_decide (EffectiveID p = policyFlag))
      then list_rows cacheMgr st policyFlag rest
      else match ParsePolicyRef (PE_URL p) with
           | (_, Some e) => io_ret (Err (Wrapf ("invalid policy reference " +:+ PE_URL p +:+ ": ") e ""))
           | (ref, None) =>
               let! versions := cached_or_none cacheMgr (PR_Repository ref) in
               do! more := list_rows cacheMgr st policyFlag rest orelse (fun e => e) in
               io_ret (Ok (list_row st p ref versions :: more))
           end
  end.

(** The rows of the table, in the order of the configuration. *)
Definition collect_rows {stCodec : Codec State} (cacheDir dataDir : path) (cfg : WorkspaceConfig)
    (policyFlag : string) : io (result (list (list string))) :=
  do! st := LoadState dataDir orelse (fun e => Wrapf "failed to load cache state: " e "") in
  list_rows cacheDir st policyFlag (WC_Policies cfg).

(** In the order they are printed. *)
Definition list_table {stCodec : Codec State} (cacheDir dataDir : path) (cfg : WorkspaceConfig)
    (policyFlag : string) : io (result (list (list string))) :=
  do! rows := collect_rows cacheDir dataDir cfg policyFlag orelse (fun e => e) in
  io_ret (Ok (sort_rows rows)).
End list_command.

(** ** Verifiers: what an entry gets *)

Section verifier_facts.
  Context {vs : Verifiers}.

(** [vf] was built from [cfg] in this invocation. *)
Definition built (cfg : VerificationConfig) (vf : VerifyFunc) : Prop :=
  exists w w', buildVerifierFromConfig cfg w = (Ok vf, w').

(** Every cached verifier was built from the configuration it is filed under. *)
Definition cache_sound (m : gmap VerificationConfig VerifyFunc) : Prop :=
  forall cfg vf, m !! cfg = Some vf -> built cfg vf.

Lemma resolveVerifier_run entry wsCfg m cfg w r c' w' :
  PE_SkipVerify entry = false -> effective_config entry wsCfg = Some cfg ->
  resolveVerifier entry wsCfg (Some m) w = ((r, c'), w') ->
  match r with
  | Ok (Some vf) => c' = Some (<[cfg := vf]> m) /\
      (m !! cfg = Some vf /\ w' = w \/ m !! cfg = None /\ buildVerifierFromConfig cfg w = (Ok vf, w'))
  | Ok None => False
  | Err _ => c' = Some m /\ m !! cfg = None /\ exists e, buildVerifierFromConfig cfg w = (Err e, w')
  end.
Proof.
  intros Hs He. unfold resolveVerifier. rewrite Hs, He. destruct (m !! cfg) as [vf|] eqn:Em.
  - intros [= <- <- <-]. rewrite insert_id by done. auto.
  - unfold io_bind. destruct (buildVerifierFromConfig cfg w) as [[vf|e] w1] eqn:Eb; intros [= <- <- <-].
    + split; [done|]. by right.
    + split_and!; eauto.
Qed.

Lemma cache_sound_insert m cfg vf : cache_sound m -> built cfg vf -> cache_sound (<[cfg := vf]> m).
Proof. intros Hm Hb cfg' vf' [[<- <-]|[_ H]]%lookup_insert_Some; auto. Qed.

(** the verifier of an entry.  With a verifier cache, an entry that does
    not opt out and for which its own block or else the workspace's is
    configured never goes without a verifier: it gets the one built from
    exactly that block (the entry's block wins), at most one per block and
    invocation, or an error; every other entry gets none. *)
Theorem resolveVerifier_fail_closed entry wsCfg m w :
  cache_sound m ->
  let cfg := if IsConfigured (PE_Verification entry) then PE_Verification entry
             else if IsConfigured wsCfg then wsCfg else None in
  let '((r, c'), w') := resolveVerifier entry wsCfg (Some m) w in
  (exists m', c' = Some m' /\ m ⊆ m' /\ cache_sound m') /\
  match r with
  | Ok (Some vf) => PE_SkipVerify entry = false /\ exists v, cfg = Some v /\ built v vf /\
      (m !! v = Some vf -> w' = w)
  | Ok None => PE_SkipVerify entry = true \/ cfg = None
  | Err _ => PE_SkipVerify entry = false /\ exists v e, cfg = Some v /\ m !! v = None /\
      buildVerifierFromConfig v w = (Err e, w')
  end.
Proof.
  intros Hm cfg.
  assert (Hkeep : exists m', Some m = Some m' /\ m ⊆ m' /\ cache_sound m') by (exists m; by split_and!).
  destruct (resolveVerifier entry wsCfg (Some m) w) as [[r c'] w'] eqn:E.
  destruct (PE_SkipVerify entry) eqn:Es.
  { unfold resolveVerifier in E. rewrite Es in E. unfold io_ret in E. simplify_eq. split; [done|auto]. }
  destruct (effective_config entry wsCfg) as [v|] eqn:Ee.
  2:{ unfold resolveVerifier in E. rewrite Es, Ee in E. unfold io_ret in E. simplify_eq.
      split; [done|]. right. exact Ee. }
  apply (resolveVerifier_run _ _ _ v) in E; [|done..]. change cfg with (effective_config entry wsCfg).
  rewrite Ee. destruct r as [[vf|]|e]; [|done|].
  - destruct E as [-> Hc]. assert (built v vf) as Hb.
    { destruct Hc as [[Hc _]|[_ Hc]]; [by apply Hm|by eexists _, _]. }
    split.
    + eexists. split_and!; [done| |by apply cache_sound_insert].
      destruct Hc as [[Hc _]|[Hc _]]; [by rewrite insert_id|by apply insert_subseteq].
    + split; [done|]. exists v. split_and!; [done|done|]. intros Hl.
      destruct Hc as [[_ ->]|[Hc _]]; [done|by rewrite Hl in Hc].
  - destruct E as (-> & Hn & e' & He'). split; [done|]. split; [done|]. by exists v, e'.
Qed.

End verifier_facts.

(** ** Verified fetches end to end *)

Section get_facts.
  Context {vs : Verifiers} {hs : HostSyntax} `{Oras} {net : RegistryNetwork} {stCodec : Codec State}
    {packCodec : Codec PackConfig} {gsCodec : Codec GenerationState} {yaml : GemaraYAML}
    {loader : PolicyLoader}.

(** The security relevant part of an entry. *)
Definition trust (ps : PolicyState) : string * bool * string * string :=
  (Digest ps, Verified ps, SignerIdentity ps, Issuer ps).

Lemma extract_metadata_trust st repo fetched w st' w' ps' :
  extract_metadata st repo fetched w = (st', w') -> GetPolicyState st' repo = Some ps' ->
  exists ps, GetPolicyState st repo = Some ps /\ trust ps' = trust ps.
Proof.
  unfold extract_metadata. destruct (fetched || _); [|intros [= <- <-]; eauto].
  unfold io_bind. destruct (ExtractPolicyMetadata _ _ w) as [[meta|e] w1]; intros [= <- <-]; [|eauto].
  unfold SetPolicyMetadata. destruct (Policies st !! repo) as [ps|] eqn:E; [|eauto].
  unfold GetPolicyState. cbn [Policies]. rewrite lookup_insert_eq. intros [= <-]. eauto.
Qed.

Lemma SyncPolicy_trust s st id v w b st' w' :
  SyncPolicy s st id v w = ((Ok b, st'), w') ->
  st' = st \/
  let '(tag, dg) := classifyVersion v in
  exists ps vr w3 w4, GetPolicyState st' id = Some ps /\
    run_verifier (sync_verifier s) (BuildLookupRef (sync_registryHost s) id tag dg) (sync_insecure s) w3
      = (Ok vr, w4) /\
    (sync_verifier s = None \/ sync_registryHost s <> "") /\ records ps (Version ps) (Digest ps) vr.
Proof.
  intros Hrun. apply SyncPolicy_run in Hrun. destruct (classifyVersion v) as [tag dg].
  destruct Hrun as [(-> & _)|(w1 & d & rv & w2 & w3 & vr & w4 & Hh & _ & Hv & Hc)]; [by left|right].
  apply sync_copy_Ok in Hc as (_ & n1 & n2 & w5 & Hu & _).
  unfold UpdatePolicyStateWithVerification in Hu. destruct (ValidateDigest d); [done|]. simplify_eq.
  exists (mk_entry (version_or v rv) d "" n1 vr), vr, w3, w4. split_and!; [apply lookup_insert_eq|done|done|].
  by destruct vr.
Qed.

(** C3: a policy configured to be verified is never fetched unverified.
    When [syncSinglePolicy] succeeds for such an entry (and verification is in
    force, that is, there is a verifier cache), what the state then says about
    the policy was either said before, because the cache was up to date, or
    is the verdict of a verifier built from exactly the effective configuration
    on the reference qualified with the entry's registry host. *)
Theorem configured_policy_verified cacheDir dataDir entry ws s m cfg w s' w' :
  gs_verifiers s = Some m -> cache_sound m ->
  PE_SkipVerify entry = false -> effective_config entry ws = Some cfg ->
  syncSinglePolicy cacheDir dataDir entry ws s w = ((Ok tt, s'), w') ->
  exists ref vf, ParsePolicyRef (PE_URL entry) = (ref, None) /\ built cfg vf /\
    let '(tag, dg) := classifyVersion (wanted_version ref) in
    let '(host, insecure) := SplitHostScheme (PR_Registry ref) in
    forall ps', GetPolicyState (gs_state s') (PR_Repository ref) = Some ps' ->
      (exists ps, GetPolicyState (gs_state s) (PR_Repository ref) = Some ps /\ trust ps' = trust ps) \/
      (host <> "" /\ exists x w1 w2,
         vf (BuildLookupRef host (PR_Repository ref) tag dg) insecure w1 = (Ok x, w2) /\
         trust ps' = (Digest ps', VR_Verified x, VR_SignerIdentity x, VR_Issuer x)).
Proof.
  intros Hm Hsound Hskip Heff. unfold syncSinglePolicy.
  destruct (ParsePolicyRef (PE_URL entry)) as [ref [e|]]; [done|]. unfold io_bind, io_ret.
  destruct (resolveVerifier entry ws (gs_verifiers s) w) as [[r c'] w1] eqn:Ev. rewrite Hm in Ev.
  apply (resolveVerifier_run _ _ _ cfg) in Ev; [|done..]. destruct r as [[vf|]|e]; [|done|done].
  assert (built cfg vf) as Hb.
  { destruct Ev as [_ [[Hc _]|[_ Hc]]]; [by apply Hsound|by eexists _, _]. }
  cbn [gs_state]. destruct (SyncPolicy _ _ _ _ w1) as [[[fetched|e] st] w2] eqn:Es; [|done].
  destruct (extract_metadata st _ _ w2) as [st2 w3] eqn:Ex. intros [= <- <-].
  exists ref, vf. split; [done|]. split; [done|]. apply SyncPolicy_trust in Es.
  destruct (classifyVersion (wanted_version ref)) as [tag dg].
  unfold NewSync in Es. destruct (SplitHostScheme (PR_Registry ref)) as [host insecure].
  cbn [gs_state sync_verifier sync_registryHost sync_insecure] in *. intros ps' Hps'.
  destruct (extract_metadata_trust _ _ _ _ _ _ _ Ex Hps') as (ps & Hps & Htr).
  destruct Es as [->|(ps0 & vr & w4 & w5 & Hps0 & Hrun & Hh & Hrec)]; [left; eauto|right].
  rewrite Hps0 in Hps. simplify_eq. destruct Hh as [?|Hh]; [done|]. split; [done|].
  apply run_verifier_ok in Hrun as (x & -> & Hvf). exists x, w4, w5. split; [done|].
  unfold records in Hrec. destruct Hrec as (_ & _ & Hv & Hs & Hi & _). unfold trust in *. congruence.
Qed.

(** ** Every entry is attempted *)

(** The entries processed one after the other, with the result of each. *)
Inductive attempts (one : PolicyEntry -> get_state -> io (result unit * get_state))
    : list PolicyEntry -> get_state -> world -> list (result unit) -> get_state -> world -> Prop :=
  | attempts_done s w : attempts one [] s w [] s w
  | attempts_next entry rest s w r s1 w1 rs s2 w2 :
      one entry s w = ((r, s1), w1) -> attempts one rest s1 w1 rs s2 w2 ->
      attempts one (entry :: rest) s w (r :: rs) s2 w2.

Definition error_of {A} (r : result A) : option error := match r with Ok _ => None | Err e => Some e end.

Lemma sync_each_attempts one entries s w :
  let '((es, s'), w') := sync_each one entries s w in
  exists rs, attempts one entries s w rs s' w' /\ length rs = length entries /\ es = omap error_of rs.
Proof.
  revert s w. induction entries as [|entry rest IH]; intros s w; cbn [sync_each].
  { exists []. split_and!; [constructor|done|done]. }
  unfold io_bind at 1. destruct (one entry s w) as [[r s1] w1] eqn:E1. unfold io_bind.
  specialize (IH s1 w1). destruct (sync_each one rest s1 w1) as [[es s2] w2].
  destruct IH as (rs & Hrs & Hlen & ->).
  assert (attempts one (entry :: rest) s w (r :: rs) s2 w2) as Ha by (by econstructor).
  unfold io_ret. destruct r as [u|e]; cbn [fst snd];
    (eexists; split_and!; [exact Ha|cbn; by rewrite Hlen|done]).
Qed.

Lemma errors_join_None es : errors_join es = None <-> es = [].
Proof. by destruct es. Qed.

(** one failing policy does not stop the others.  [syncAllPolicies]
    attempts every policy in order, each from the state the previous one left;
    it reports no error exactly when all succeeded, and otherwise joins the
    errors in order. *)
Theorem syncAllPolicies_attempts_all cacheDir dataDir policies ws s w :
  let one := fun entry s => syncSinglePolicy cacheDir dataDir entry ws s in
  let '((err, s'), w') := syncAllPolicies cacheDir dataDir policies ws s w in
  exists rs w1, attempts one policies s w rs s' w1 /\ length rs = length policies /\
    err = errors_join (omap error_of rs) /\
    (err = None <-> Forall (fun r => r = Ok tt) rs) /\
    w' = (SaveState (gs_state s') dataDir w1).2.
Proof.
  cbv zeta. unfold syncAllPolicies. unfold io_bind at 1.
  pose proof (sync_each_attempts (fun entry s => syncSinglePolicy cacheDir dataDir entry ws s) policies s w) as Hat.
  destruct (sync_each _ policies s w) as [[es s'] w1]. destruct Hat as (rs & Hrs & Hlen & ->).
  unfold io_bind. cbn [fst snd]. destruct (SaveState (gs_state s') dataDir w1) as [sv w2] eqn:Esv.
  cbn [io_ret]. exists rs, w1. rewrite Esv. split_and!; try done. rewrite errors_join_None. clear.
  induction rs as [|[[]|e] rs IH]; [split; [constructor|done]| |].
  - cbn. rewrite Forall_cons, <-IH. naive_solver.
  - cbn. rewrite Forall_cons. naive_solver.
Qed.
End get_facts.

(** ** Conflicting evaluators *)

Section conflicts.
  Context {hs : HostSyntax} (st : State).

(** The evaluator and repository of a configured entry, once synchronised. *)
Definition entry_evaluator (entry : PolicyEntry) : option (string * string) :=
  match ParsePolicyRef (PE_URL entry) with
  | (_, Some _) => None
  | (ref, None) =>
      match GetComplypackState st (PR_Repository ref) with
      | None => None
      | Some ps => if bool_decide (EvaluatorID ps = "") then None
                   else Some (EvaluatorID ps, PR_Repository ref)
      end
  end.

Lemma evaluator_repos_lookup entries ev :
  default [] (evaluator_repos st entries !! ev) =
    (filter (fun x => x.1 = ev) (omap entry_evaluator entries)).*2 /\
  (evaluator_repos st entries !! ev = None <->
   (filter (fun x => x.1 = ev) (omap entry_evaluator entries)).*2 = []).
Proof.
  induction entries as [|entry entries IH] using rev_ind; [done|].
  unfold evaluator_repos in *. rewrite fold_left_app, omap_app, filter_app, fmap_app.
  cbn [fold_left]. unfold entry_evaluator at 2 4. cbn [omap list_omap].
  destruct (ParsePolicyRef (PE_URL entry)) as [ref [e|]]; [by rewrite app_nil_r|].
  destruct (GetComplypackState st (PR_Repository ref)) as [ps|]; [|by rewrite app_nil_r].
  case_bool_decide; [by rewrite app_nil_r|]. set (m := fold_left _ entries ∅) in *.
  rewrite filter_cons. cbn [fst]. destruct (decide (EvaluatorID ps = ev)) as [<-|Hne].
  - rewrite lookup_insert_eq. destruct IH as [-> _]. cbn. split; [done|]. split; [done|].
    intros [_ ?]%app_nil. done.
  - rewrite lookup_insert_ne by done. by rewrite app_nil_r.
Qed.

(** conflicting evaluators are always reported.  The check after a sync
    passes exactly when no two configured complypack entries resolved to the
    same evaluator. *)
Theorem validateUniqueEvaluatorIDs_exact entries :
  validateUniqueEvaluatorIDs st entries = None <-> NoDup (omap entry_evaluator entries).*1.
Proof.
  unfold validateUniqueEvaluatorIDs.
  transitivity (forall ev, (length (filter (fun x => x.1 = ev) (omap entry_evaluator entries)) <= 1)%nat).
  - destruct (omap conflict_text _) as [|c cs] eqn:E.
    + split; [intros _ ev|done].
      destruct (evaluator_repos_lookup entries ev) as [Hl Hn].
      destruct (evaluator_repos st entries !! ev) as [repos|] eqn:El.
      * destruct (decide (1 < length repos)%nat) as [Hlt|Hle].
        -- assert (is_Some (conflict_text (ev, repos))) as [t Ht].
           { unfold conflict_text. cbn [snd]. by rewrite (proj2 (Nat.ltb_lt _ _) Hlt). }
           assert (t ∈ omap conflict_text (map_to_list (evaluator_repos st entries))) as Hin.
           { apply list_elem_of_omap. exists (ev, repos). split; [by apply elem_of_map_to_list|done]. }
           rewrite E in Hin. by apply elem_of_nil in Hin.
        -- cbn in Hl. rewrite Hl, length_fmap in Hle. lia.
      * apply proj1 in Hn. specialize (Hn eq_refl). apply fmap_nil_inv in Hn. rewrite Hn. cbn. lia.
    + split; [done|]. intros Hall. exfalso.
      assert (c ∈ omap conflict_text (map_to_list (evaluator_repos st entries))) as Hin by (rewrite E; left).
      apply list_elem_of_omap in Hin as ([ev repos] & Hin & Hc). apply elem_of_map_to_list in Hin.
      destruct (evaluator_repos_lookup entries ev) as [Hl _]. rewrite Hin in Hl. cbn in Hl.
      unfold conflict_text in Hc. cbn [snd] in Hc. destruct (1 <? length repos)%nat eqn:Elt; [|done].
      apply Nat.ltb_lt in Elt. rewrite Hl, length_fmap in Elt. specialize (Hall ev). lia.
  - clear. induction (omap entry_evaluator entries) as [|[ev repo] l IH].
    { split; [constructor|]. intros. cbn. lia. }
    rewrite fmap_cons, NoDup_cons, <-IH. cbn [fst]. split.
    + intros Hall. split.
      * intros (x & Hx & Hin)%list_elem_of_fmap. specialize (Hall ev). rewrite filter_cons in Hall. cbn [fst] in Hall.
        rewrite decide_True in Hall by done. cbn [length] in Hall.
        assert (x ∈ filter (fun y => y.1 = ev) l) as Hf by (by apply list_elem_of_filter).
        destruct (filter _ l); [by apply elem_of_nil in Hf|cbn in Hall; lia].
      * intros ev'. specialize (Hall ev'). rewrite filter_cons in Hall. case_decide; cbn in *; lia.
    + intros [Hnin Hall] ev'. rewrite filter_cons. cbn [fst]. case_decide as Hd; [|apply Hall].
      subst ev'. rewrite filter_none; [cbn; lia|]. apply Forall_forall. intros x Hx Heq. apply Hnin.
      rewrite <-Heq. by apply list_elem_of_fmap_2.
Qed.
End conflicts.

(** ** The table *)

Definition row_le (r r' : list string) : Prop := str_leb (row_key r) (row_key r') = true.

Lemma str_leb_total a b : str_leb a b = true \/ str_leb b a = true.
Proof.
  revert b. induction a as [|x a IH]; intros [|y b]; cbn [str_leb]; auto.
  rewrite (Ascii.eqb_sym y x). destruct (Ascii.eqb_spec x y) as [->|Hne]; [apply IH|].
  unfold byte_of. rewrite !Nat.ltb_lt.
  assert (nat_of_ascii x <> nat_of_ascii y); [|lia].
  intros He. apply Hne. rewrite <-(ascii_nat_embedding x), <-(ascii_nat_embedding y). by rewrite He.
Qed.

Lemma str_leb_trans a b c : str_leb a b = true -> str_leb b c = true -> str_leb a c = true.
Proof.
  revert b c. induction a as [|x a IH]; intros [|y b] [|z c]; cbn [str_leb]; try done.
  destruct (Ascii.eqb_spec x y) as [->|Hxy], (Ascii.eqb_spec y z) as [->|Hyz].
  - apply IH.
  - done.
  - destruct (Ascii.eqb_spec x z); [by subst|done].
  - rewrite !Nat.ltb_lt. intros H1 H2. destruct (Ascii.eqb_spec x z) as [->|]; [lia|].
    apply Nat.ltb_lt. lia.
Qed.

Lemma insert_row_perm row rows : insert_row row rows ≡ₚ row :: rows.
Proof.
  induction rows as [|r rows IH]; cbn [insert_row]; [done|]. destruct (str_leb _ _); [done|].
  rewrite IH. constructor.
Qed.

Lemma sort_rows_perm rows : sort_rows rows ≡ₚ rows.
Proof. induction rows as [|r rows IH]; [done|]. cbn. by rewrite insert_row_perm, IH. Qed.

Lemma insert_row_sorted row rows : StronglySorted row_le rows -> StronglySorted row_le (insert_row row rows).
Proof.
  induction 1 as [|r rows Hs IH Hall]; cbn [insert_row]; [by repeat constructor|].
  destruct (str_leb (row_key row) (row_key r)) eqn:E.
  - constructor; [by constructor|]. constructor; [done|]. eapply Forall_impl; [exact Hall|].
    intros r'. by apply str_leb_trans.
  - constructor; [done|]. rewrite insert_row_perm. constructor; [|done].
    destruct (str_leb_total (row_key r) (row_key row)) as [?|H]; [done|congruence].
Qed.

Lemma sort_rows_sorted rows : StronglySorted row_le (sort_rows rows).
Proof. induction rows; cbn; [constructor|by apply insert_row_sorted]. Qed.

Section table.
  Context {hs : HostSyntax} `{Oras} {reader : StoreReader} {stCodec : Codec State}.

Definition listed (flag : string) (p : PolicyEntry) : Prop := flag = "" \/ EffectiveID p = flag.
#[export] Instance listed_dec flag p : Decision (listed flag p).
Proof. unfold listed. apply _. Defined.

Lemma list_rows_ok cacheMgr st flag policies w rows w' :
  list_rows cacheMgr st flag policies w = (Ok rows, w') ->
  Forall2 (fun p row => exists ref versions, ParsePolicyRef (PE_URL p) = (ref, None) /\
             row = list_row st p ref versions) (filter (listed flag) policies) rows.
Proof.
  revert w rows w'. induction policies as [|p rest IH]; intros w rows w'; cbn [list_rows].
  { intros [= <- _]. constructor. }
  rewrite filter_cons. destruct (_ && _) eqn:Ef.
  - rewrite decide_False; [apply IH|]. apply andb_true_iff in Ef as [H1 H2].
    apply negb_true_iff, bool_decide_eq_false in H1, H2. unfold listed. tauto.
  - rewrite decide_True.
    2:{ apply andb_false_iff in Ef. unfold listed. rewrite !negb_false_iff, !bool_decide_eq_true in Ef. done. }
    destruct (ParsePolicyRef (PE_URL p)) as [ref [e|]] eqn:Ep; [done|].
    unfold io_try, io_bind, io_ret. destruct (cached_or_none _ _ w) as [versions w1].
    destruct (list_rows _ _ _ rest w1) as [[more|e] w2] eqn:Er; [|done].
    intros [= <- _]. constructor; [eauto|]. by eapply IH.
Qed.

(** The table of policies.  A successful listing has exactly one row per
    configured policy (of the identifier asked for, if any), in the order of
    the identifiers; a row shows the policy's identifier, the abbreviated
    digest and the verification status recorded in the cache state, with a dash
    for a policy that was never fetched. *)
Theorem list_table_complete cacheDir dataDir cfg flag w rows w' :
  list_table cacheDir dataDir cfg flag w = (Ok rows, w') ->
  exists st, (LoadState dataDir w).1 = Ok st /\
    StronglySorted row_le rows /\
    row_key <$> rows ≡ₚ EffectiveID <$> filter (listed flag) (WC_Policies cfg) /\
    Forall (fun row => exists p ref versions evaluator controls, p ∈ WC_Policies cfg /\
      ParsePolicyRef (PE_URL p) = (ref, None) /\
      row = [EffectiveID p; versions; evaluator; controls;
             match GetPolicyState st (PR_Repository ref) with
             | None => "-" | Some ps => abbreviateDigest (Digest ps) end;
             match GetPolicyState st (PR_Repository ref) with
             | None => "-" | Some ps => if Verified ps then "Yes" else "No" end]) rows.
Proof.
  unfold list_table, collect_rows, io_try, io_bind, io_ret. destruct (LoadState dataDir w) as [[st|e] w1]; [|done].
  destruct (list_rows cacheDir st flag (WC_Policies cfg) w1) as [[rows0|e] w2] eqn:E; [|done].
  intros [= <- _]. apply list_rows_ok in E. exists st.
  split_and!; [done|apply sort_rows_sorted| |].
  - rewrite sort_rows_perm. apply reflexive_eq.
    induction E as [|p row ps rows (ref & versions & _ & ->) _ IH]; [done|].
    rewrite !fmap_cons, IH. unfold list_row at 1. by destruct (policyMetadataFields _ _).
  - rewrite sort_rows_perm. apply Forall_forall. intros row Hrow.
    apply list_elem_of_lookup in Hrow as [i Hi].
    destruct (Forall2_lookup_r _ _ _ _ _ E Hi) as (p & Hp & ref & versions & Href & ->).
    apply list_elem_of_lookup_2, list_elem_of_filter in Hp as [_ Hp]. unfold list_row.
    destruct (policyMetadataFields st (PR_Repository ref)) as [ev ctl].
    exists p, ref. eexists _, ev, ctl. split_and!; done.
Qed.
End table.

(** ** Without a workspace-level block nothing is verified *)

Section no_workspace_block.
  Context {hs : HostSyntax} `{Oras} {net : RegistryNetwork} {stCodec : Codec State}
    {packCodec : Codec PackConfig} {gsCodec : Codec GenerationState} {yaml : GemaraYAML}
    {loader : PolicyLoader}.
  Context (vs vs' : Verifiers).

Lemma resolveVerifier_nil (vs0 : Verifiers) entry ws w :
  resolveVerifier (vs := vs0) entry ws None w = ((Ok None, None), w).
Proof. unfold resolveVerifier. destruct (PE_SkipVerify entry); [done|]. by destruct (effective_config entry ws). Qed.

(** Two ways of processing an entry that agree, and keep the nil cache. *)
Definition agree_nil (one one' : PolicyEntry -> get_state -> io (result unit * get_state)) : Prop :=
  forall entry s w, gs_verifiers s = None ->
    one entry s w = one' entry s w /\ gs_verifiers (one entry s w).1.2 = None.

Lemma syncSinglePolicy_nil cacheDir dataDir ws :
  agree_nil (fun e s => syncSinglePolicy (vs := vs) cacheDir dataDir e ws s)
            (fun e s => syncSinglePolicy (vs := vs') cacheDir dataDir e ws s).
Proof.
  intros entry s w Hs. unfold syncSinglePolicy. destruct (ParsePolicyRef _) as [ref [e|]]; [done|].
  unfold io_bind. rewrite Hs, !resolveVerifier_nil. cbn [gs_state].
  destruct (SyncPolicy _ _ _ _ w) as [[[b|e] st] w1]; [|done].
  by destruct (extract_metadata _ _ _ w1).
Qed.

Lemma syncSingleComplypack_nil tmp cacheDir dataDir baseDir ws :
  agree_nil (fun e s => syncSingleComplypack (vs := vs) tmp cacheDir dataDir baseDir e ws s)
            (fun e s => syncSingleComplypack (vs := vs') tmp cacheDir dataDir baseDir e ws s).
Proof.
  intros entry s w Hs. unfold syncSingleComplypack. destruct (ParsePolicyRef _) as [ref [e|]]; [done|].
  unfold io_bind. rewrite Hs, !resolveVerifier_nil. cbn [gs_state].
  destruct (SyncComplypack _ _ _ _ _ w) as [[[b|e] st] w1]; [|done].
  destruct b; [|done]. by destruct (invalidateGenerationForComplypack _ _ _ w1).
Qed.

Lemma sync_each_nil one one' entries s w :
  agree_nil one one' -> gs_verifiers s = None ->
  sync_each one entries s w = sync_each one' entries s w /\
  gs_verifiers (sync_each one entries s w).1.2 = None.
Proof.
  intros Hag. revert s w. induction entries as [|entry rest IH]; intros s w Hs; [done|].
  cbn [sync_each]. unfold io_bind. destruct (Hag entry s w Hs) as [<- Hn].
  destruct (one entry s w) as [[r s1] w1]. cbn [fst snd] in Hn. destruct (IH s1 w1 Hn) as [<- Hn2].
  destruct (sync_each one rest s1 w1) as [[es s2] w2]. split; [done|]. by destruct r.
Qed.

Lemma syncPolicies_nil creds cacheDir dataDir cfg ws w :
  syncPolicies (vs := vs) creds cacheDir dataDir cfg ws None w =
  syncPolicies (vs := vs') creds cacheDir dataDir cfg ws None w /\
  (syncPolicies (vs := vs) creds cacheDir dataDir cfg ws None w).1.2 = None.
Proof.
  unfold syncPolicies, syncAllPolicies, io_bind.
  destruct (LoadState dataDir w) as [[st|e] w1]; [|done]. destruct creds; [|done].
  destruct (sync_each_nil _ _ (WC_Policies cfg) (MkGetState st None) w1
    (syncSinglePolicy_nil cacheDir dataDir ws) eq_refl) as [<- Hn].
  destruct (sync_each _ _ _ w1) as [[es s] w2]. cbn [fst snd] in *.
  by destruct (SaveState _ _ w2).
Qed.

Lemma syncComplypacks_nil tmp creds cacheDir dataDir baseDir cfg ws w :
  syncComplypacks (vs := vs) tmp creds cacheDir dataDir baseDir cfg ws None w =
  syncComplypacks (vs := vs') tmp creds cacheDir dataDir baseDir cfg ws None w.
Proof.
  unfold syncComplypacks. case_bool_decide; [done|]. unfold syncAllComplypacks, io_bind.
  destruct (LoadState dataDir w) as [[st|e] w1]; [|done]. destruct creds; [|done].
  destruct (sync_each_nil _ _ (WC_Complypacks cfg) (MkGetState st None) w1
    (syncSingleComplypack_nil tmp cacheDir dataDir baseDir ws) eq_refl) as [<- Hn].
  done.
Qed.

(** C39: The verifier cache is created only when the workspace has a verification
    block of its own, and without a cache no entry gets a verifier.  So in a
    workspace whose entries alone configure verification, [complyctl get] runs
    exactly as with --skip-verify, and its outcome, files included, does not
    depend on the verifiers at all: no signature is ever checked. *)
Theorem entry_verification_needs_workspace_block tmp creds cacheDir dataDir baseDir cfg w :
  WC_Verification cfg = None ->
  get_run (vs := vs) tmp creds cacheDir dataDir baseDir cfg false w =
  get_run (vs := vs) tmp creds cacheDir dataDir baseDir cfg true w /\
  get_run (vs := vs) tmp creds cacheDir dataDir baseDir cfg false w =
  get_run (vs := vs') tmp creds cacheDir dataDir baseDir cfg false w.
Proof.
  intros Hv. unfold get_run. rewrite Hv. split; [done|]. unfold syncAll, io_bind.
  destruct (syncPolicies_nil creds cacheDir dataDir cfg None w) as [<- Hn].
  destruct (syncPolicies _ _ _ _ _ _ w) as [[e c] w1]. cbn [fst snd] in *. subst c.
  by rewrite syncComplypacks_nil.
Qed.
End no_workspace_block.
