(* ===== verification/ProgressPacks.v ===== *)
(** * What the complypacks of a workspace do to its policies
      (internal/cache/{complypack,complypack_sync}.go, internal/policy/generation_state.go)

    Synchronising a complypack and invalidating what was generated from it write below
    the complypack directory, the directory for temporary files and the workspace
    directory, and save the state without touching its policies.  Stated once, for
    every class of programs with these parts. *)
From stdpp Require Import gmap.
From S2P Require Import Prelude GoStrings Digest OciRef World Settled State Complypack Sync Config.
From S2P Require Import Workspace Provider Generation Progress.

(** ** Calls below a directory *)

Lemma store_op_above {A} p q (m : io A) : p `prefix_of` q -> store_op q m -> store_op p m.
Proof. intros Hp [Ho Hm]. split; [done|]. intros w. by eapply confined_above. Qed.

Lemma store_op_touches {A} p d names (m : io A) : p `prefix_of` d -> onward m -> touches d names m -> store_op p m.
Proof. intros Hp Ho Hm. split; [done|]. intros w. eapply confined_above; [done|]. apply Hm. Qed.

Lemma store_op_reads {A} p (m : io A) : reads m /\ onward m -> store_op p m.
Proof.
  intros [Hr Ho]. split; [done|]. intros w. split; [intros; by apply Hr|].
  intros q d pm _. by rewrite (Hr w q I).
Qed.

Lemma touches_CreateExcl d name perm : touches d [name] (os_CreateExcl (d ++ [name]) perm).
Proof.
  apply touches_call. intros n a n' Hop. rewrite split_last_snoc in Hop. repeat case_match; simplify_eq/=.
  eapply entries_only_alter; [eassumption|]. intros m m' x Hm Hx. unfold create_entry in Hm.
  case_match; simplify_eq. by rewrite lookup_insert_ne.
Qed.

Lemma store_op_create_temp p d a b x : p `prefix_of` d -> store_op p (os_create_temp d a b x).
Proof.
  intros Hp. apply (store_op_above _ d); [done|]. split; [apply onward_create_temp|]. intros w.
  destruct (os_create_temp d a b x w) as [[name|e] w'] eqn:E.
  - by apply create_temp_frame in E as (_ & _ & Hc & _).
  - unfold os_create_temp in E. cbn [snd]. rewrite (os_call_Err _ _ _ _ E). apply confined_refl.
Qed.

Lemma store_op_RemoveAll p q : p `prefix_of` q -> store_op p (os_RemoveAll q).
Proof.
  intros Hp. apply (store_op_above _ q); [done|]. split; [apply onward_call|]. intros w.
  unfold os_RemoveAll, os_call. destruct (w_fault w _); [apply confined_refl|].
  destruct (split_last q) as [[d x]|] eqn:E; [|apply confined_refl]. apply split_last_Some in E as ->.
  destruct (alter_at _ d _) as [n'|] eqn:Ea; [|apply confined_refl]. by apply confined_delete.
Qed.

Lemma store_op_Rename p d a d' b :
  p `prefix_of` d -> p `prefix_of` d' -> store_op p (os_Rename (d ++ [a]) (d' ++ [b])).
Proof.
  intros Hp Hp'. split; [apply onward_call|]. intros w. unfold os_Rename, os_call.
  destruct (w_fault w _); [apply confined_refl|]. rewrite !split_last_snoc.
  destruct (get (d ++ [a]) (w_fs w)) as [x|]; [|apply confined_refl].
  destruct (is_dir _); [apply confined_refl|]. destruct (_ && _); [apply confined_refl|].
  destruct (alter_at (delete_entry a) d _) as [n1|] eqn:E1; [|apply confined_refl].
  destruct (alter_at (add_entry b x) d' n1) as [n2|] eqn:E2; [|apply confined_refl].
  eapply confined_trans; eapply confined_above; [exact Hp| |exact Hp'|]; by eapply confined_alter_at.
Qed.

Lemma store_op_try {A B} p (m : io (result A)) h (k : A -> io (result B)) :
  store_op p m -> (forall a, store_op p (k a)) -> store_op p (io_try m h k).
Proof. intros. apply store_op_bind; [done|]. intros [a|e]; [auto|apply store_op_ret]. Qed.

Lemma store_op_Close p : store_op p os_Close.
Proof. apply (store_op_touches p p []); [done|apply onward_call|apply touches_Close]. Qed.

Lemma store_op_ReadDir p q : store_op p (os_ReadDir q).
Proof. apply store_op_reads. split; [apply preserves_ReadDir|apply onward_call]. Qed.

Lemma store_op_ReadFile p q : store_op p (os_ReadFile q).
Proof. apply store_op_reads. split; [apply preserves_ReadFile|apply onward_call]. Qed.

Lemma store_op_WriteFile p d x data perm : p `prefix_of` d -> store_op p (os_WriteFile (d ++ [x]) data perm).
Proof. intros. eapply store_op_touches; [done|apply onward_call|apply touches_WriteFile]. Qed.

Lemma store_op_CreateExcl p d x perm : p `prefix_of` d -> store_op p (os_CreateExcl (d ++ [x]) perm).
Proof. intros. eapply store_op_touches; [done|apply onward_call|apply touches_CreateExcl]. Qed.

Lemma store_op_Remove p d x : p `prefix_of` d -> store_op p (os_Remove (d ++ [x])).
Proof. intros. eapply store_op_touches; [done|apply onward_call|apply touches_Remove]. Qed.

Lemma store_op_MkdirAll_below p q : p `prefix_of` q -> store_op p (os_MkdirAll q).
Proof. intros. eapply store_op_above; [done|apply store_op_MkdirAll]. Qed.

Create HintDb store_op.
#[export] Hint Resolve store_op_ret store_op_Close store_op_ReadDir store_op_ReadFile store_op_WriteFile
  store_op_CreateExcl store_op_Remove store_op_RemoveAll store_op_MkdirAll_below store_op_create_temp
  store_op_Rename prefix_app_r : store_op.

(** Follows the binds of a program. *)
Ltac go_store := repeat first
  [ progress eauto with store_op
  | apply store_op_bind; [|intros ?]
  | apply store_op_try; [|intros ?]
  | progress unfold io_lift
  | case_match ].

(** ** The cache of complypacks *)

Section packs.
  Context {cfgCodec : Codec PackConfig}.

Lemma remove_each_below p d names : p `prefix_of` d -> store_op p (remove_each d names).
Proof. intros Hp. induction names; cbn [remove_each]; go_store. Qed.

Lemma evict_below p d v N st : p `prefix_of` d -> store_op p (evictOldVersions d v N st).
Proof. intros Hp. pose proof (fun l => remove_each_below p d l Hp). unfold evictOldVersions. go_store. Qed.

Lemma publish_below p cfg content d v d' name :
  p `prefix_of` d -> p `prefix_of` d' -> store_op p (store_publish cfg content (d ++ [v]) (d' ++ [name])).
Proof.
  intros Hp Hp'. unfold store_publish, abandon. go_store.
Qed.

(** The directory of a version lies below the directory of complypacks, unless both
    names are the single dot. *)
Lemma complypackDir_below c ev v :
  ValidatePathComponent ev = None -> ValidatePathComponent v = None -> ev <> "." \/ v <> "." ->
  exists d x, complypackDir c ev v = d ++ [x] /\ (cacheDir c ++ [ComplypacksSubdir]) `prefix_of` d.
Proof.
  intros He Hv Hne. unfold complypackDir, evaluatorDir.
  destruct (decide (ev = ".")) as [->|Hev]; destruct (decide (v = ".")) as [->|Hv'].
  - naive_solver.
  - rewrite (path_join_component _ v) by done. by eexists _, _.
  - rewrite (path_join_component _ ev) by done. by eexists _, _.
  - rewrite (path_join_component _ v), (path_join_component _ ev) by done. eexists _, _. split; [done|]. by eexists.
Qed.

Lemma Store_below c st cfg content :
  Pack_EvaluatorID cfg <> "." \/ Pack_Version cfg <> "." ->
  store_op (cacheDir c ++ [ComplypacksSubdir]) (Store c st cfg content).
Proof.
  intros Hne. unfold Store, io_lift.
  destruct (validate_component "evaluator-id" _) as [[]|e] eqn:He; [|exact (store_op_ret _ (Err e))].
  destruct (validate_component "version" _) as [[]|e] eqn:Hv; [|exact (store_op_ret _ (Err e))].
  apply validate_component_ok in He, Hv.
  destruct (complypackDir_below c _ _ He Hv Hne) as (d & x & -> & Hp). rewrite removelast_last.
  pose proof (fun name => publish_below _ cfg content d x d name Hp Hp) as Hpub.
  pose proof (fun N => evict_below _ d (Pack_Version cfg) N st Hp) as Hev.
  unfold store_tail, os_MkdirTemp. go_store.
Qed.

Lemma Lookup_onward c ev v : onward (Lookup c ev v).
Proof. unfold Lookup, os_Stat, os_ReadFile. go_onward. Qed.

Lemma LookupByEvaluatorID_onward c st ev : onward (LookupByEvaluatorID c st ev).
Proof.
  assert (forall l, onward (scan_entries (evaluatorDir c ev) ev l)) as Hs.
  { induction l as [|[name x] l IH]; cbn [scan_entries]; unfold os_Stat, os_ReadFile; go_onward. }
  pose proof (fun v => Lookup_onward c ev v).
  unfold LookupByEvaluatorID, lookupByDirScan, os_ReadDir. go_onward.
Qed.

(** ** Invalidation *)

Section invalidation.
  Context {gsCodec : Codec GenerationState}.

Lemma invalidate_dir_below p fuel ev dir : p `prefix_of` dir -> store_op p (invalidate_dir fuel ev dir).
Proof.
  revert dir. induction fuel as [|fuel IH]; intros dir Hp; cbn [invalidate_dir]; [go_store|].
  assert (forall es, store_op p (invalidate_entries (invalidate_dir fuel ev) ev dir es)) as He.
  { induction es as [|[name x] es IHes]; cbn [invalidate_entries]; [go_store|].
    pose proof (IH (dir ++ [name]) ltac:(by apply prefix_app_r)).
    unfold invalidate_file. go_store. }
  go_store.
Qed.

Lemma InvalidateForEvaluator_below baseDir ev :
  store_op (baseDir ++ [WorkspaceDir]) (InvalidateForEvaluator baseDir ev).
Proof.
  assert ((baseDir ++ [WorkspaceDir]) `prefix_of` generation_dir baseDir) as Hp.
  { exists ["generation"]. unfold generation_dir. by rewrite <-app_assoc. }
  pose proof (fun n => invalidate_dir_below _ n ev _ Hp) as Hd.
  assert (forall n, store_op (baseDir ++ [WorkspaceDir])
    (let! r := os_ReadDir (generation_dir baseDir) in
     match r with
     | Err e => if error_is e ErrNotExist then io_ret (Ok [])
                else io_ret (Err (Wrapf "failed to open generation directory: " e ""))
     | Ok _ => invalidate_dir n ev (generation_dir baseDir)
     end)) as Hall by (intros n; go_store).
  split; intros w; unfold InvalidateForEvaluator; apply (Hall (node_size (w_fs w))).
Qed.

Lemma RemoveEvaluatorArtifacts_below baseDir ev :
  store_op (baseDir ++ [WorkspaceDir]) (RemoveEvaluatorArtifacts baseDir ev).
Proof.
  unfold RemoveEvaluatorArtifacts. destruct (ValidatePathComponent ev) eqn:E; [go_store|].
  pose proof (path_join_prefix (baseDir ++ [WorkspaceDir]) ev E). go_store.
Qed.
End invalidation.
End packs.

(** ** Synchronisation *)

(** A class of programs closed under sequence that contains the reads, what stays
    below one of the directories [regions], and saving a state with the policies
    [pol]. *)
Record pack_class `{!Codec State} (dataDir : path) (regions : list path) (pol : gmap string PolicyState)
    (Q : forall A, io A -> Prop) : Prop := {
  pack_ret A (a : A) : Q A (io_ret a);
  pack_bind A B (m : io A) (k : A -> io B) :
    Q A m -> (forall w a w', m w = (a, w') -> Q B (k a)) -> Q B (io_bind m k);
  pack_reads A (m : io A) : reads m /\ onward m -> Q A m;
  pack_store A p (m : io A) : p ∈ regions -> store_op p m -> Q A m;
  pack_save st : Policies st = pol -> Q _ (SaveState st dataDir);
}.
Arguments pack_ret {_ _ _ _ _} _ {A} a.
Arguments pack_bind {_ _ _ _ _} _ {A B} m k.
Arguments pack_reads {_ _ _ _ _} _ {A} m.
Arguments pack_store {_ _ _ _ _} _ {A} p m.
Arguments pack_save {_ _ _ _ _} _ st.

(** What a complypack is synchronised with. *)
Record pack_behaved `{Oras} (dataDir tmp : path) (regions : list path) (s : ComplypackSync) : Prop := {
  pb_data : csync_dataDir s = dataDir;
  pb_cache : cacheDir (csync_cache s) ++ [ComplypacksSubdir] ∈ regions;
  pb_tmp : tmp ∈ regions;
  pb_source x : reads (Src_DefinitionVersion (csync_source s) x) /\ onward (Src_DefinitionVersion (csync_source s) x);
  pb_verifier vf x i : csync_verifier s = Some vf -> reads (vf x i) /\ onward (vf x i);
  pb_New p : store_op p (oci_New p);
  pb_Copy r t p : store_op p (Src_Copy (csync_source s) r t p);
  pb_Unpack p d : reads (complypack_Unpack p d) /\ onward (complypack_Unpack p d);
  pb_names p d w cfg content w' : complypack_Unpack p d w = (Ok (cfg, content), w') ->
    Pack_EvaluatorID cfg <> "." \/ Pack_Version cfg <> ".";
}.

Section sync_policies.
  Context `{Oras} {stCodec : Codec State} {cfgCodec : Codec PackConfig} (tmp : path) (s : ComplypackSync).

(** The policies of the state in memory never change. *)
Lemma update_and_save_policies st r v d ev vr f w res st' w' :
  update_and_save s st r v d ev vr f w = ((res, st'), w') -> Policies st' = Policies st.
Proof.
  unfold update_and_save, sync_fail, io_bind, io_ret, UpdateComplypackStateWithVerification.
  destruct (time_Now w) as [n1 w1], (time_Now w1) as [n2 w2]. destruct (ValidateDigest d); [by intros; simplify_eq|].
  destruct (SaveState _ _ w2) as [[]]; by intros; simplify_eq.
Qed.

Lemma switch_policies st r v d tag dg w res st' w' :
  switch_version s st r v d tag dg w = ((res, st'), w') -> Policies st' = Policies st.
Proof.
  unfold switch_version, tryLocalCacheHit, sync_fail, io_bind, io_ret.
  destruct (GetComplypackState st r) as [ps|]; [|by intros; simplify_eq].
  destruct (_ && _); [|by intros; simplify_eq]. destruct (Lookup _ _ _ w) as [[]]; [|by intros; simplify_eq].
  destruct (run_verifier _ _ _ _) as [[] ?]; [apply update_and_save_policies|by intros; simplify_eq].
Qed.

Lemma fetch_policies st r v d tag dg w res st' w' :
  fetch_complypack tmp s st r v d tag dg w = ((res, st'), w') -> Policies st' = Policies st.
Proof.
  unfold fetch_complypack, fetch_into, sync_fail, io_bind, io_ret.
  destruct (run_verifier _ _ _ w) as [[vr|e] w1]; [|by intros; simplify_eq].
  destruct (os_MkdirTemp _ _ w1) as [[name|e] w2]; [|by intros; simplify_eq].
  set (res0 := match oci_New _ w2 with (a, b) => _ end).
  assert (Policies res0.1.2 = Policies st) as Hres.
  { subst res0. destruct (oci_New _ w2) as [[] w3]; [|done]. destruct (Src_Copy _ _ _ _ w3) as [[] w4]; [|done].
    destruct (complypack_Unpack _ _ w4) as [[[cfg content]|e] w5]; [|done].
    destruct (Store _ _ _ _ w5) as [[] w6]; [|done].
    destruct (update_and_save _ _ _ _ _ _ _ _ w6) as [[r7 st7] w7] eqn:E. by eapply update_and_save_policies. }
  destruct res0 as [[r3 st3] w3]. destruct (os_RemoveAll _ w3). by intros; simplify_eq.
Qed.

Lemma SyncComplypack_policies st r v w res st' w' :
  SyncComplypack tmp s st r v w = ((res, st'), w') -> Policies st' = Policies st.
Proof.
  unfold SyncComplypack, sync_fail, io_bind, io_ret. case_bool_decide; [by intros; simplify_eq|].
  destruct (_ && _); [by intros; simplify_eq|]. destruct (classifyVersion v) as [tag dg].
  destruct (Src_DefinitionVersion _ _ w) as [[[d rv]|e] w1].
  - destruct (complypack_up_to_date _ _ _ _ w1) as [[] w2]; [by intros; simplify_eq|].
    destruct (switch_version _ _ _ _ _ _ _ w2) as [[[[|]|e] st1] w3] eqn:E; apply switch_policies in E;
      [by intros; simplify_eq| |]; intros Hf%fetch_policies; congruence.
  - destruct (GetComplypackState st r) as [ps|]; [|by intros; simplify_eq].
    destruct (cacheExistsForState s st ps w1) as [[] w2]; by intros; simplify_eq.
Qed.
End sync_policies.

#[local] Set Default Proof Using "All".

Section sync_class.
  Context `{Oras} {stCodec : Codec State} {cfgCodec : Codec PackConfig}.
  Context (dataDir tmp : path) (regions : list path) (pol : gmap string PolicyState).
  Context (Q : forall A, io A -> Prop) (HQ : pack_class dataDir regions pol Q).
  Context (s : ComplypackSync) (Hb : pack_behaved dataDir tmp regions s).

Lemma pack_verify_class ref : Q _ (run_verifier (csync_verifier s) ref (csync_insecure s)).
Proof.
  apply (pack_reads HQ). unfold run_verifier.
  destruct (csync_verifier s) as [vf|] eqn:Ev; [|split; [apply preserves_ret|apply onward_ret]].
  destruct (pb_verifier _ _ _ _ Hb vf ref (csync_insecure s) Ev). split.
  - apply preserves_try; [done|]. intros. apply preserves_ret.
  - apply onward_try; [done|]. intros. apply onward_ret.
Qed.

Lemma update_and_save_class st r v d ev vr f :
  Policies st = pol -> Q _ (update_and_save s st r v d ev vr f).
Proof.
  intros Hp. unfold update_and_save, sync_fail.
  do 2 (apply (pack_bind HQ); [apply (pack_reads HQ); split; [apply preserves_Now|apply onward_Now]|intros _ ? _ _]).
  unfold UpdateComplypackStateWithVerification. destruct (ValidateDigest d); [apply (pack_ret HQ)|].
  rewrite (pb_data _ _ _ _ Hb). apply (pack_bind HQ); [by apply (pack_save HQ)|].
  intros _ [?|?] _ _; apply (pack_ret HQ).
Qed.

Lemma cacheExists_class st ps : Q _ (cacheExistsForState s st ps).
Proof.
  apply (pack_reads HQ). split; [apply cacheExistsForState_reads|].
  pose proof (fun ev => LookupByEvaluatorID_onward (csync_cache s) (Some st) ev).
  unfold cacheExistsForState. go_onward.
Qed.

Lemma up_to_date_class st r d : Q _ (complypack_up_to_date s st r d).
Proof.
  unfold complypack_up_to_date. destruct (GetComplypackState st r); [|apply (pack_ret HQ)].
  case_bool_decide; [apply cacheExists_class|apply (pack_ret HQ)].
Qed.

Lemma switch_class st r v d tag dg : Policies st = pol -> Q _ (switch_version s st r v d tag dg).
Proof.
  intros Hp. unfold switch_version, tryLocalCacheHit, sync_fail.
  destruct (GetComplypackState st r) as [ps|]; [|apply (pack_ret HQ)].
  destruct (_ && _); [|apply (pack_ret HQ)]. apply (pack_bind HQ).
  { apply (pack_reads HQ). split; [apply preserves_Lookup|apply Lookup_onward]. }
  intros _ [?|?] _ _; [|apply (pack_ret HQ)]. apply (pack_bind HQ); [apply pack_verify_class|].
  intros _ [?|?] _ _; [by apply update_and_save_class|apply (pack_ret HQ)].
Qed.

Lemma fetch_class st r v d tag dg : Policies st = pol -> Q _ (fetch_complypack tmp s st r v d tag dg).
Proof.
  intros Hp. unfold fetch_complypack, sync_fail, os_MkdirTemp.
  assert (forall A name (m : io A), store_op (tmp ++ [name]) m -> Q A m) as Htmp.
  { intros A name m Hm. apply (pack_store HQ tmp); [apply Hb|]. eapply store_op_above; [|exact Hm]. by eexists. }
  apply (pack_bind HQ); [apply pack_verify_class|]. intros _ [vr|e] _ _; [|apply (pack_ret HQ)].
  apply (pack_bind HQ); [apply (pack_store HQ tmp); [apply Hb|by apply store_op_create_temp]|].
  intros _ [name|e] _ _; [|apply (pack_ret HQ)].
  apply (pack_bind HQ).
  2:{ intros _ res _ _. apply (pack_bind HQ); [|intros _ ? _ _; apply (pack_ret HQ)].
      apply (pack_store HQ tmp); [apply Hb|]. apply store_op_RemoveAll. by eexists. }
  unfold fetch_into, sync_fail. apply (pack_bind HQ); [eapply Htmp, Hb|]. intros _ [?|?] _ _; [|apply (pack_ret HQ)].
  apply (pack_bind HQ); [eapply Htmp, Hb|]. intros _ [ds|?] _ _; [|apply (pack_ret HQ)].
  apply (pack_bind HQ); [apply (pack_reads HQ), Hb|]. intros w [[cfg content]|?] w' E; [|apply (pack_ret HQ)].
  apply (pack_bind HQ).
  { apply (pack_store HQ (cacheDir (csync_cache s) ++ [ComplypacksSubdir])); [apply Hb|].
    apply Store_below. by eapply (pb_names _ _ _ _ Hb). }
  intros _ [?|?] _ _; [by apply update_and_save_class|apply (pack_ret HQ)].
Qed.

Lemma SyncComplypack_class st r v : Policies st = pol -> Q _ (SyncComplypack tmp s st r v).
Proof.
  intros Hp. unfold SyncComplypack, sync_fail. case_bool_decide; [apply (pack_ret HQ)|].
  destruct (_ && _); [apply (pack_ret HQ)|]. destruct (classifyVersion v) as [tag dg].
  apply (pack_bind HQ); [apply (pack_reads HQ), Hb|]. intros _ [[d rv]|e] _ _.
  - apply (pack_bind HQ); [apply up_to_date_class|]. intros _ [] _ _; [apply (pack_ret HQ)|].
    apply (pack_bind HQ); [by apply switch_class|]. intros w [[[|]|e] st1] w' E; try apply (pack_ret HQ);
      apply fetch_class; rewrite <-Hp; by eapply switch_policies.
  - apply (pack_bind HQ); [destruct (GetComplypackState st r); [apply cacheExists_class|apply (pack_ret HQ)]|].
    intros _ [] _ _; apply (pack_ret HQ).
Qed.
End sync_class.
