(* ===== verification/PackProgress.v ===== *)
(** * Progress of complypack synchronisation (internal/cache/{complypack,complypack_sync}.go)

    Once nothing fails, storing an unpacked complypack and synchronising one succeed,
    by every way that synchronisation may take. *)
From stdpp Require Import gmap.
From S2P Require Import Prelude GoStrings Digest OciRef World Settled State Complypack Sync.
From S2P Require Import Progress ProgressPacks.

(** ** Calls that succeed *)

Lemma settled_tick n w : settled w -> settled (tick (set_fs n w)).
Proof. intros Hw t Ht. apply Hw. cbn in Ht. lia. Qed.

(** Writing an entry of a directory that is not itself a directory. *)
Lemma write_entry_settled d x data perm m w :
  settled w -> get d (w_fs w) = Some (Dir m) -> is_dir (m !! x) = false ->
  exists w' pm, os_WriteFile (d ++ [x]) data perm w = (Ok tt, w') /\ settled w' /\
    get d (w_fs w') = Some (Dir (<[x := File data pm]> m)).
Proof.
  intros Hw Hd Hx.
  assert (exists pm, write_entry x data perm m = Some (<[x := File data pm]> m)) as [pm He].
  { unfold write_entry. destruct (m !! x) as [[old pm|]|]; [by eexists|done|by eexists]. }
  destruct (alter_at_run _ d (w_fs w) m _ Hd He) as (n' & En & Hn). exists (tick (set_fs n' w)), pm.
  split; [|split; [by apply settled_tick|done]]. apply os_call_settled; [done|]. by rewrite split_last_snoc, En.
Qed.

Lemma create_excl_settled d x perm m w :
  settled w -> get d (w_fs w) = Some (Dir m) -> m !! x = None ->
  exists w', os_CreateExcl (d ++ [x]) perm w = (Ok tt, w') /\ settled w' /\
    get d (w_fs w') = Some (Dir (<[x := File "" perm]> m)).
Proof.
  intros Hw Hd Hx.
  destruct (alter_at_run (create_entry x perm) d (w_fs w) m (<[x := File "" perm]> m) Hd) as (n' & En & Hn).
  { unfold create_entry. by rewrite Hx. }
  exists (tick (set_fs n' w)). split; [|split; [by apply settled_tick|done]].
  apply os_call_settled; [done|]. by rewrite split_last_snoc, En.
Qed.

Lemma close_settled w : settled w -> exists w', os_Close w = (Ok tt, w') /\ settled w' /\ w_fs w' = w_fs w.
Proof.
  intros Hw. exists (tick (set_fs (w_fs w) w)). split; [by apply os_call_settled|].
  split; [by apply settled_tick|done].
Qed.

Lemma remove_all_settled d x m w :
  settled w -> get d (w_fs w) = Some (Dir m) ->
  exists w', os_RemoveAll (d ++ [x]) w = (Ok tt, w') /\ settled w' /\ get d (w_fs w') = Some (Dir (delete x m)).
Proof.
  intros Hw Hd. destruct (alter_at_run (delete_entry x) d (w_fs w) m (delete x m) Hd eq_refl) as (n' & En & Hn).
  exists (tick (set_fs n' w)). split; [|split; [by apply settled_tick|done]].
  apply os_call_settled; [done|]. by rewrite split_last_snoc, En.
Qed.

(** Renaming an entry to a name that is free. *)
Lemma rename_free_settled d a b x m w :
  settled w -> get d (w_fs w) = Some (Dir m) -> m !! a = Some x -> m !! b = None ->
  exists w', os_Rename (d ++ [a]) (d ++ [b]) w = (Ok tt, w') /\ settled w'.
Proof.
  intros Hw Hd Ha Hb.
  destruct (alter_at_run (delete_entry a) d (w_fs w) m (delete a m) Hd eq_refl) as (n1 & E1 & Hd1).
  destruct (alter_at_run (add_entry b x) d n1 _ _ Hd1 eq_refl) as (n2 & E2 & _).
  exists (tick (set_fs n2 w)). split; [|by apply settled_tick]. apply os_call_settled; [done|].
  rewrite !split_last_snoc, !get_snoc, Hd, Ha, Hb. cbn [is_dir]. rewrite andb_false_r by idtac. by rewrite E1, E2.
Qed.

(** ** Storing *)

Section storing.
  Context {cfgCodec : Codec PackConfig}.

Lemma store_publish_settled cfg data configData d name v w :
  settled w -> get (d ++ [name]) (w_fs w) = Some (Dir ∅) -> marshal cfg = Ok configData -> name <> v ->
  exists w', store_publish cfg (Ok data) (d ++ [v]) (d ++ [name]) w = (Ok tt, w') /\ settled w'.
Proof.
  intros Hw Ht Hm Hne. unfold store_publish, io_bind, io_ret.
  destruct (create_excl_settled (d ++ [name]) complypackContentFile 384 ∅ w Hw Ht) as (w1 & -> & Hw1 & Ht1); [done|].
  destruct (write_entry_settled (d ++ [name]) complypackContentFile data 384 _ w1 Hw1 Ht1) as (w2 & pm2 & -> & Hw2 & Ht2);
    [by rewrite lookup_insert_eq|].
  destruct (close_settled w2 Hw2) as (w3 & -> & Hw3 & Hfs3). rewrite Hm. rewrite <-Hfs3 in Ht2.
  destruct (write_entry_settled (d ++ [name]) complypackConfigFile configData 384 _ w3 Hw3 Ht2) as (w4 & pm4 & -> & Hw4 & Ht4).
  { by rewrite !lookup_insert_ne by done. }
  apply get_file_dir in Ht4 as (m & Hd & Hn).
  destruct (remove_all_settled d v m w4 Hw4 Hd) as (w5 & -> & Hw5 & Hd5).
  destruct (rename_free_settled d name v (Dir (<[complypackConfigFile := File configData pm4]>
    (<[complypackContentFile := File data pm2]> (<[complypackContentFile := File "" 384]> ∅)))) _ w5 Hw5 Hd5)
    as (w6 & -> & Hw6).
  - by rewrite lookup_delete_ne.
  - apply lookup_delete_eq.
  - by exists w6.
Qed.

(** A complypack with proper names can be stored once nothing fails. *)
Lemma Store_settled c st cfg data configData pick w :
  settled w -> ValidatePathComponent (Pack_EvaluatorID cfg) = None -> Pack_EvaluatorID cfg <> "." ->
  ValidatePathComponent (Pack_Version cfg) = None -> Pack_Version cfg <> "." ->
  (forall r, Pack_Version cfg <> ".complypack-tmp-" +:+ r) -> marshal cfg = Ok configData ->
  let d := cacheDir c ++ [ComplypacksSubdir; Pack_EvaluatorID cfg] in
  room d (w_fs w) -> (forall t, pick t < temp_tries) -> unused d ".complypack-tmp-" "" pick w ->
  exists p w', Store c st cfg (Ok data) w = (Ok p, w') /\ settled w'.
Proof.
  intros Hw He He1 Hv Hv1 Hv2 Hm d Hroom Hp Hu. unfold Store, io_try, io_lift, io_ret, validate_component.
  assert (complypackDir c (Pack_EvaluatorID cfg) (Pack_Version cfg) = d ++ [Pack_Version cfg]) as ->.
  { unfold complypackDir, evaluatorDir, d. rewrite !path_join_component by done. by rewrite <-!app_assoc. }
  rewrite He, Hv, removelast_last. destruct (room_mkdir_all d _ Hroom) as [n1 E1].
  unfold io_bind, os_MkdirAll. rewrite (os_call_settled _ w tt n1) by (done || by rewrite E1).
  set (w1 := tick (set_fs n1 w)).
  assert (settled w1) as Hw1 by by apply settled_tick.
  destruct (create_temp_settled d ".complypack-tmp-" "" (Dir ∅) w1 pick Hw1 Hp) as (name & w2 & E2).
  { intros t Ht. cbn. rewrite (mkdir_all_other d _ (w_fs w) n1 E1 (snoc_not_prefix _ _)). apply Hu. cbn in Ht. lia. }
  { by apply (mkdir_all_get d (w_fs w)). }
  unfold os_MkdirTemp. rewrite E2.
  pose proof (settled_onward _ _ _ _ (onward_create_temp _ _ _ _) E2 Hw1) as Hw2.
  apply os_create_temp_spec in E2 as ([r Hr] & _ & Ht & _). unfold store_tail, io_try, io_bind, io_ret.
  destruct (store_publish_settled cfg data configData d name (Pack_Version cfg) w2 Hw2 Ht Hm) as (w3 & -> & Hw3).
  { rewrite Hr. rewrite append_nil_r. intros Heq. by apply (Hv2 r). }
  pose proof (evict_below [] d (Pack_Version cfg) (retentionCount c) st (prefix_nil _)) as [Hev _].
  destruct (evictOldVersions _ _ _ _ w3) as [u w4] eqn:E4. eexists _, w4. split; [done|].
  by apply (settled_onward _ _ _ _ Hev E4).
Qed.
End storing.

(** ** Synchronising *)

#[local] Set Default Proof Using "All".

Section syncing.
  Context `{Oras} {stCodec : Codec State} {cfgCodec : Codec PackConfig}.
  Context {dataDir : path} {regions : list path} {layout : Layout dataDir regions} (pick : nat -> nat).
  Context (tmp : path) (s : ComplypackSync) (Hb : pack_behaved dataDir tmp regions s).
  Context (r v d rv : string) (cfg : PackConfig) (data configData : string).
  Hypothesis tmp_off_cache : diverges tmp (cacheDir (csync_cache s) ++ [ComplypacksSubdir]).
  Local Abbreviation good := (good (dataDir := dataDir) (stores := regions) pick).
  Local Abbreviation harmless := (harmless (dataDir := dataDir) (stores := regions) pick).
  Local Abbreviation versions := (cacheDir (csync_cache s) ++ [ComplypacksSubdir; Pack_EvaluatorID cfg]).

(** The registry serves the repository under [d], the verifier, if any, accepts, and
    the artifact unpacks to [cfg] and [data], whenever nothing fails. *)
Record pack_served : Prop := {
  ps_repo : r <> "";
  ps_host : csync_verifier s = None \/ csync_registryHost s <> "";
  ps_digest : ValidateDigest d = None;
  ps_version : let '(tag, dg) := classifyVersion v in
    service (Src_DefinitionVersion (csync_source s) (BuildLookupRef "" r tag dg)) (eq (d, rv));
  ps_verifier vf : csync_verifier s = Some vf -> let '(tag, dg) := classifyVersion v in
    service (vf (BuildLookupRef (csync_registryHost s) r tag dg) (csync_insecure s)) (fun _ => True);
  ps_fetch p w : settled w -> is_dir (get p (w_fs w)) = true ->
    exists ds w1 w2 w3, oci_New p w = (Ok tt, w1) /\
      Src_Copy (csync_source s) r (version_or v rv) p w1 = (Ok ds, w2) /\
      complypack_Unpack p ds w2 = (Ok (cfg, Ok data), w3);
  ps_evaluator : ValidatePathComponent (Pack_EvaluatorID cfg) = None /\ Pack_EvaluatorID cfg <> ".";
  ps_pack_version : ValidatePathComponent (Pack_Version cfg) = None /\ Pack_Version cfg <> "." /\
    forall x, Pack_Version cfg <> ".complypack-tmp-" +:+ x;
  ps_config : marshal cfg = Ok configData;
}.

(** A version directory can be made, and both temporary directories. *)
Record pack_ready (w : world) : Prop := {
  pr_room : room versions (w_fs w);
  pr_tmp : is_dir (get tmp (w_fs w)) = true;
  pr_tmp_names : unused tmp "complypack-oci-" "" pick w;
  pr_store_names : unused versions ".complypack-tmp-" "" pick w;
}.

(** Before the artifact is stored only the directory for temporary files changes. *)
Definition storable (w : world) : Prop :=
  room versions (w_fs w) /\ unused versions ".complypack-tmp-" "" pick w.

Lemma versions_off_tmp q : diverges tmp (versions ++ q).
Proof.
  replace (versions ++ q) with ((cacheDir (csync_cache s) ++ [ComplypacksSubdir]) ++ Pack_EvaluatorID cfg :: q)
    by by rewrite <-!app_assoc. by apply diverges_app.
Qed.

Lemma storable_kept {A} (m : io A) w a w' :
  store_op tmp m -> m w = (a, w') -> storable w -> storable w'.
Proof.
  intros [Ho Hm] E [Hr Hu]. destruct (Ho w) as (_ & Hrand & Ht). specialize (Hm w). rewrite E in *. cbn in *. split.
  - eapply room_confined; [done| |done]. left. pose proof (versions_off_tmp []) as Hd. by rewrite app_nil_r in Hd.
  - apply (unused_touched _ _ _ _ w _ []); auto; [|intros; apply not_elem_of_nil].
    intros y _. apply Hm, versions_off_tmp.
Qed.

Lemma pack_ready_reads {A} (m : io A) w a w' :
  reads m -> onward m -> m w = (a, w') -> pack_ready w -> pack_ready w'.
Proof.
  intros Hr Ho E [H1 H2 H3 H4]. destruct (Ho w) as (_ & Hrand & Ht).
  pose proof (fun q => reads_fs _ _ _ _ q Hr E) as Hfs. rewrite E in *. cbn in *. split.
  - by eapply room_reads.
  - by rewrite Hfs.
  - apply (unused_touched _ _ _ _ w _ []); auto. intros; apply not_elem_of_nil.
  - apply (unused_touched _ _ _ _ w _ []); auto. intros; apply not_elem_of_nil.
Qed.

Lemma run_pack_verifier ref w :
  (forall vf, csync_verifier s = Some vf -> service (vf ref (csync_insecure s)) (fun _ => True)) ->
  good w -> pack_ready w ->
  exists vr w', run_verifier (csync_verifier s) ref (csync_insecure s) w = (Ok vr, w') /\ good w' /\ pack_ready w'.
Proof.
  intros Hv Hg Hp. unfold run_verifier. destruct (csync_verifier s) as [vf|]; [|by eexists _, _].
  specialize (Hv vf eq_refl). destruct (service_settled Hv w (proj1 Hg)) as (a & w' & E & _).
  unfold io_try, io_bind, io_ret. rewrite E. eexists _, _. split; [done|]. split.
  - eapply good_run; [|exact E|done]. apply harmless_reads. split; [apply (service_reads Hv)|apply (service_onward Hv)].
  - by eapply (pack_ready_reads _ _ _ _ (service_reads Hv) (service_onward Hv) E).
Qed.

(** A call on the directory for temporary files, between the check and the store. *)
Lemma tmp_step {A} (m : io A) w a w' :
  store_op tmp m -> m w = (a, w') -> good w /\ storable w -> good w' /\ storable w'.
Proof.
  intros Hm E [Hg Hs]. split; [|by eapply storable_kept].
  eapply good_run; [eapply (harmless_store pick tmp); [apply Hb|done]|done|done].
Qed.

Lemma update_and_save_settled st ver ev vr f w :
  ValidateDigest d = None -> good w ->
  exists st' w', update_and_save s st r ver d ev vr f w = ((Ok true, st'), w') /\
    exists ps, GetComplypackState st' r = Some ps /\ Digest ps = d.
Proof.
  intros Hd Hg. unfold update_and_save, io_bind, io_ret.
  destruct (time_Now w) as [n1 w1] eqn:E1. pose proof (good_run pick _ _ _ _ (harmless_Now pick) E1 Hg) as Hg1.
  destruct (time_Now w1) as [n2 w2] eqn:E2. pose proof (good_run pick _ _ _ _ (harmless_Now pick) E2 Hg1) as Hg2.
  unfold UpdateComplypackStateWithVerification. rewrite Hd, (pb_data _ _ _ _ Hb). set (st' := MkState _ _ _).
  destruct (SaveState_good pick st' w2 Hg2) as (w3 & ->). exists st', w3. split; [done|].
  eexists. split; [apply lookup_insert_eq|apply mk_entry_digest].
Qed.

Lemma fetch_settled st w :
  pack_served -> good w -> pack_ready w -> let '(tag, dg) := classifyVersion v in
  exists st' w', fetch_complypack tmp s st r (version_or v rv) d tag dg w = ((Ok true, st'), w') /\
    exists ps, GetComplypackState st' r = Some ps /\ Digest ps = d.
Proof.
  intros Hs Hg Hp. pose proof (ps_verifier Hs) as Hver. destruct (classifyVersion v) as [tag dg].
  destruct (run_pack_verifier (BuildLookupRef (csync_registryHost s) r tag dg) w Hver Hg) as (vr & w1 & E1 & Hg1 & [Hroom Htmp Hut Hus]);
    [done|].
  unfold fetch_complypack, io_bind, io_ret. rewrite E1.
  pose proof (ready_spare _ _ _ _ (proj2 Hg1)) as [Hpick _].
  destruct (create_temp_settled tmp "complypack-oci-" "" (Dir ∅) w1 pick (proj1 Hg1) Hpick Hut Htmp) as (name & w2 & E2).
  unfold os_MkdirTemp. rewrite E2.
  destruct (tmp_step _ _ _ _ (store_op_create_temp tmp tmp _ _ _ (reflexivity _)) E2 (conj Hg1 (conj Hroom Hus))) as [Hg2 Hs2].
  apply os_create_temp_spec in E2 as (_ & _ & Hnew & _). set (p := tmp ++ [name]) in *.
  assert (forall A (m : io A), store_op p m -> store_op tmp m) as Habove.
  { intros A m. apply store_op_above. by eexists. }
  destruct (ps_fetch Hs p w2 (proj1 Hg2)) as (ds & w3 & w4 & w5 & E3 & E4 & E5); [by rewrite Hnew|].
  unfold fetch_into, io_bind, io_ret. rewrite E3, E4, E5.
  destruct (tmp_step _ _ _ _ (Habove _ _ (pb_New _ _ _ _ Hb p)) E3 (conj Hg2 Hs2)) as [Hg3 Hs3].
  destruct (tmp_step _ _ _ _ (Habove _ _ (pb_Copy _ _ _ _ Hb _ _ p)) E4 (conj Hg3 Hs3)) as [Hg4 Hs4].
  destruct (tmp_step _ _ _ _ (store_op_reads _ _ (pb_Unpack _ _ _ _ Hb p ds)) E5 (conj Hg4 Hs4)) as [Hg5 [Hr5 Hu5]].
  destruct (ps_evaluator Hs) as [He1 He2], (ps_pack_version Hs) as (Hv1 & Hv2 & Hv3).
  destruct (Store_settled (csync_cache s) (Some st) cfg data configData pick w5 (proj1 Hg5) He1 He2 Hv1 Hv2 Hv3
              (ps_config Hs) Hr5 Hpick Hu5) as (path & w6 & E6 & _). rewrite E6.
  assert (good w6) as Hg6.
  { eapply good_run; [|exact E6|done]. eapply harmless_store; [apply (pb_cache _ _ _ _ Hb)|]. apply Store_below. by left. }
  destruct (update_and_save_settled st (Pack_Version cfg) (Pack_EvaluatorID cfg) vr
    (fun e => Wrapf "failed to save state after complypack sync: " e " (complypack blobs are valid)") w6 (ps_digest Hs) Hg6)
    as (st' & w7 & E7 & Hps). rewrite E7. destruct (os_RemoveAll p w7) as [x w8]. by exists st', w8.
Qed.

(** Switching to a cached version succeeds or has only looked. *)
Lemma switch_settled st w :
  pack_served -> good w -> pack_ready w -> let '(tag, dg) := classifyVersion v in
  let '((res, st'), w') := switch_version s st r (version_or v rv) d tag dg w in
  (res = Ok true /\ exists ps, GetComplypackState st' r = Some ps /\ Digest ps = d) \/
  (res <> Ok true /\ st' = st /\ good w' /\ pack_ready w').
Proof.
  intros Hs Hg Hp. pose proof (ps_verifier Hs) as Hver. destruct (classifyVersion v) as [tag dg].
  unfold switch_version, tryLocalCacheHit, sync_fail, io_bind, io_ret.
  destruct (GetComplypackState st r) as [ps|]; [|by right]. destruct (_ && _); [|by right].
  destruct (Lookup (csync_cache s) (EvaluatorID ps) (version_or v rv) w) as [[hit|e] w1] eqn:E1.
  all: pose proof (preserves_Lookup (fun _ => True) (csync_cache s) (EvaluatorID ps) (version_or v rv)) as Hr.
  all: pose proof (Lookup_onward (csync_cache s) (EvaluatorID ps) (version_or v rv)) as Ho.
  all: pose proof (good_run pick _ _ _ _ (harmless_reads pick _ (conj Hr Ho)) E1 Hg) as Hg1.
  all: pose proof (pack_ready_reads _ _ _ _ Hr Ho E1 Hp) as Hp1.
  2: { by right. }
  destruct (run_pack_verifier (BuildLookupRef (csync_registryHost s) r tag dg) w1 Hver Hg1 Hp1) as (vr & w2 & E2 & Hg2 & _).
  rewrite E2. destruct (update_and_save_settled st (version_or v rv) (EvaluatorID ps) vr (fun e => e) w2 (ps_digest Hs) Hg2)
    as (st' & w3 & -> & Hps). by left.
Qed.

Lemma SyncComplypack_settled st w :
  pack_served -> good w -> pack_ready w ->
  exists b st' w', SyncComplypack tmp s st r v w = ((Ok b, st'), w') /\
    exists ps, GetComplypackState st' r = Some ps /\ Digest ps = d.
Proof.
  intros Hs Hg Hp. unfold SyncComplypack, sync_fail, io_bind, io_ret. rewrite bool_decide_eq_false_2 by apply Hs.
  replace (_ && _) with false.
  2:{ symmetry. apply andb_false_iff. destruct (ps_host Hs) as [->|Hh]; [by left|]. right. by apply bool_decide_eq_false. }
  pose proof (ps_version Hs) as Hv. pose proof (fun w => switch_settled st w Hs) as Hsw.
  pose proof (fun w => fetch_settled st w Hs) as Hf. destruct (classifyVersion v) as [tag dg].
  destruct (service_settled Hv w (proj1 Hg)) as (? & w1 & E1 & <-). rewrite E1.
  pose proof (good_run pick _ _ _ _ (harmless_reads pick _ (conj (service_reads Hv) (service_onward Hv))) E1 Hg) as Hg1.
  pose proof (pack_ready_reads _ _ _ _ (service_reads Hv) (service_onward Hv) E1 Hp) as Hp1.
  assert (onward (complypack_up_to_date s st r d)) as Ho.
  { pose proof (fun ev => LookupByEvaluatorID_onward (csync_cache s) (Some st) ev).
    unfold complypack_up_to_date, cacheExistsForState. go_onward. }
  pose proof (complypack_up_to_date_reads s st r d) as Hr.
  destruct (complypack_up_to_date s st r d w1) as [b w2] eqn:E2.
  pose proof (good_run pick _ _ _ _ (harmless_reads pick _ (conj Hr Ho)) E2 Hg1) as Hg2.
  pose proof (pack_ready_reads _ _ _ _ Hr Ho E2 Hp1) as Hp2. destruct b.
  { exists false, st, w2. split; [done|]. unfold complypack_up_to_date in E2.
    destruct (GetComplypackState st r) as [ps|]; [|done]. case_bool_decide; [|done]. by exists ps. }
  specialize (Hsw w2 Hg2 Hp2).
  destruct (switch_version s st r (version_or v rv) d tag dg w2) as [[res st1] w3].
  destruct Hsw as [[-> Hps]|(Hres & -> & Hg3 & Hp3)]; [by exists true, st1, w3|].
  destruct (Hf w3 Hg3 Hp3) as (st2 & w4 & E4 & Hps).
  exists true, st2, w4. split; [|done]. destruct res as [[|]|e]; [done|exact E4|exact E4].
Qed.

End syncing.
