(* ===== verification/Liveness.v ===== *)
(** * get succeeds eventually (cmd/complyctl/cli/get.go, internal/policy/loader.go)

    Progress of the whole command, over the loop that attempts every entry of the
    workspace.  The parties outside the program may fail in any way while the faults
    last; afterwards those of the entry in question answer.  Another entry may go on
    failing for ever. *)
From stdpp Require Import gmap.
From S2P Require Import Prelude GoStrings Digest OciRef World Settled State Complypack Sync Config.
From S2P Require Import Workspace Provider Generation Resolver Get Progress ProgressPacks.

(** The stores of the policies of a workspace. *)
Definition entry_store `{HostSyntax} (cacheDir : path) (entry : PolicyEntry) : option path :=
  match ParsePolicyRef (PE_URL entry) with
  | (ref, None) => Some (PolicyStorePath cacheDir (PR_Repository ref))
  | (_, Some _) => None
  end.

Definition policy_stores `{HostSyntax} (cacheDir : path) (policies : list PolicyEntry) : list path :=
  omap (entry_store cacheDir) policies.

(** The store at [p] is an OCI layout. *)
Definition marker (p : path) (w : world) : Prop := is_Some (get (p ++ [oci_layout]) (w_fs w)).

(** A call on the store at [p] that does not undo [J]. *)
Definition stays {A} (J : path -> world -> Prop) (p : path) (m : io A) : Prop :=
  store_op p m /\ forall w, J p w -> J p (m w).2.

Section stays_facts.
  Context (J : path -> world -> Prop).

Lemma stays_ret {A} p (a : A) : stays J p (io_ret a).
Proof. split; [apply store_op_ret|done]. Qed.

Lemma stays_bind {A B} p (m : io A) (k : A -> io B) :
  stays J p m -> (forall w a w', m w = (a, w') -> stays J p (k a)) -> stays J p (io_bind m k).
Proof.
  intros [[Om Cm] Mm] Hk. split; [split|]; intros w; [specialize (Om w)|specialize (Cm w)|intros Hw; specialize (Mm w Hw)];
    unfold io_bind; destruct (m w) as [a w1] eqn:E; destruct (Hk w a w1 E) as [[Ok Ck] Mk].
  - destruct Om as (? & ? & ?), (Ok w1) as (? & ? & ?). cbn in *. split_and!; [congruence|congruence|lia].
  - eapply confined_trans; [exact Cm|apply Ck].
  - by apply Mk.
Qed.

Lemma stays_try {A B} p (m : io (result A)) h (k : A -> io (result B)) :
  stays J p m -> (forall w a w', m w = (Ok a, w') -> stays J p (k a)) -> stays J p (io_try m h k).
Proof. intros Hm Hk. apply stays_bind; [done|]. intros w [a|e] w' E; [by eapply Hk|apply stays_ret]. Qed.
End stays_facts.

Lemma marker_MkdirAll p : stays marker p (os_MkdirAll p).
Proof.
  split; [apply store_op_MkdirAll|]. intros w. unfold marker. destruct (touches_MkdirAll p [] w) as [_ Hf].
  rewrite Hf; [done|]. apply not_elem_of_nil.
Qed.

(** ** The loader stays in the store *)

(** The library opens and reads a store without leaving it, and without undoing [J]. *)
Class ReaderStays `{Oras} {reader : StoreReader} (J : path -> world -> Prop) := {
  New_stays p : stays J p (oci_New p);
  Resolve_stays p v : stays J p (store_Resolve p v);
  Fetch_stays p d : stays J p (store_Fetch p d);
  Unpack_stays p v : stays J p (bundle_Unpack p v);
}.

(** The hypotheses of a section are shared by its lemmas. *)
#[local] Set Default Proof Using "All".

Section loader_stays.
  Context `{Oras} {reader : StoreReader} (J : path -> world -> Prop) {rstays : ReaderStays J}.
  Context {yaml : GemaraYAML} (cacheDir : path) (mkdir_stays : forall p, stays J p (os_MkdirAll p)).

Lemma NewPolicyStore_stays id :
  stays J (PolicyStorePath cacheDir id) (NewPolicyStore cacheDir id).
Proof.
  apply stays_try; [apply mkdir_stays|]. intros _ _ _ _.
  apply stays_try; [apply New_stays|]. intros _ _ _ _. apply stays_ret.
Qed.

Lemma resolveManifest_stays p v: stays J p (resolveManifest p v).
Proof.
  apply stays_try; [apply Resolve_stays|]. intros _ ds _ _.
  apply stays_try; [apply Fetch_stays|]. intros _ data _ _.
  apply stays_try; [apply stays_ret|]. intros _ ? _ _. apply stays_ret.
Qed.

(** What the loader does once the store is open. *)
Ltac opened := intros ? ? ? ?%NewPolicyStore_path; subst.

Lemma PolicyExists_stays id v :
  stays J (PolicyStorePath cacheDir id) (Loader_PolicyExists cacheDir id v).
Proof.
  unfold Loader_PolicyExists. destruct (_ || _); [apply stays_ret|].
  apply stays_bind; [apply NewPolicyStore_stays|]. intros w [p|e] w' E; [|apply stays_ret].
  apply NewPolicyStore_path in E as ->.
  apply stays_bind; [apply Resolve_stays|]. intros _ ? _ _. apply stays_ret.
Qed.

Lemma LoadLayer_stays id v t :
  stays J (PolicyStorePath cacheDir id) (Loader_LoadLayerByMediaType cacheDir id v t).
Proof.
  unfold Loader_LoadLayerByMediaType. do 3 (case_bool_decide; [apply stays_ret|]).
  apply stays_try; [apply NewPolicyStore_stays|]. opened.
  apply stays_try; [apply resolveManifest_stays|]. intros _ mf _ _.
  destruct (find_first _ _) as [[? layer]|]; [|apply stays_ret].
  apply stays_try; [apply Fetch_stays|]. intros _ ? _ _. apply stays_ret.
Qed.

Lemma LoadBundle_stays id v :
  stays J (PolicyStorePath cacheDir id) (Loader_LoadBundleFiles cacheDir id v).
Proof.
  unfold Loader_LoadBundleFiles. do 2 (case_bool_decide; [apply stays_ret|]).
  apply stays_try; [apply NewPolicyStore_stays|]. opened.
  apply stays_try; [apply Unpack_stays|]. intros _ ? _ _. apply stays_ret.
Qed.

Lemma DetectShape_stays id v :
  stays J (PolicyStorePath cacheDir id) (Loader_DetectManifestShape cacheDir id v).
Proof.
  unfold Loader_DetectManifestShape. destruct (_ || _); [apply stays_ret|].
  apply stays_try; [apply NewPolicyStore_stays|]. opened.
  apply stays_try; [apply resolveManifest_stays|]. intros _ ? _ _. apply stays_ret.
Qed.

Lemma ExtractPolicyMetadata_stays id v :
  stays J (PolicyStorePath cacheDir id) (ExtractPolicyMetadata (loader := Loader cacheDir) id v).
Proof.
  unfold ExtractPolicyMetadata, with_shape. do 2 (case_bool_decide; [apply stays_ret|]).
  apply stays_bind; [apply PolicyExists_stays|]. intros _ [] _ _; [|apply stays_ret].
  apply stays_try; [apply DetectShape_stays|]. intros _ [] _ _.
  - apply stays_try; [apply LoadBundle_stays|]. intros _ files _ _.
    destruct (files !! "Policy"); [|apply stays_ret].
    do 2 (apply stays_try; [apply stays_ret|]; intros _ ? _ _). apply stays_ret.
  - apply stays_try; [apply LoadLayer_stays|]. intros _ data _ _.
    apply stays_try; [apply stays_ret|]. intros _ layer _ _.
    apply stays_bind; [apply LoadLayer_stays|]. intros _ cat _ _.
    apply stays_try; [apply stays_ret|]. intros _ ? _ _. apply stays_ret.
Qed.
End loader_stays.

(** ** One entry *)

(** The other parties stay out of the files, apart from the copy, which stays in the
    store it is given; nothing is said about their answers, except that a complypack
    does not have the single dot for both of its names. *)
Class PartiesStay `{Oras} {vs : Verifiers} := {
  Copy_stays h r t p : store_op p (oras_Copy h r t p);
  Fetch_reads p d : reads (store_Fetch p d) /\ onward (store_Fetch p d);
  Pack_reads p d : reads (complypack_Unpack p d) /\ onward (complypack_Unpack p d);
  Pack_names p d w cfg content w' : complypack_Unpack p d w = (Ok (cfg, content), w') ->
    Pack_EvaluatorID cfg <> "." \/ Pack_Version cfg <> ".";
  build_stays cfg : reads (buildVerifierFromConfig cfg) /\ onward (buildVerifierFromConfig cfg);
  verifier_stays cfg vf x i : built cfg vf -> reads (vf x i) /\ onward (vf x i);
}.

(** Where complypacks, temporary files and generated artifacts go. *)
Definition pack_regions (cacheDir tmp baseDir : path) : list path :=
  [cacheDir ++ [ComplypacksSubdir]; tmp; baseDir ++ [WorkspaceDir]].

(** The places of a workspace: the stores of its policies are apart from each other and
    from everything else, and so is the data directory. *)
Class Places `{HostSyntax} `{!Codec State} (cacheDir dataDir tmp baseDir : path) (policies : list PolicyEntry) := {
  places_layout :: Layout dataDir (policy_stores cacheDir policies ++ pack_regions cacheDir tmp baseDir);
  places_apart p q : p ∈ pack_regions cacheDir tmp baseDir -> q ∈ policy_stores cacheDir policies -> diverges p q;
}.

Section liveness.
  Context {hs : HostSyntax} {net : RegistryNetwork} `{Oras} {reader : StoreReader} {vs : Verifiers}.
  Context {stCodec : Codec State} {yaml : GemaraYAML}.
  Context (cacheDir dataDir tmp baseDir : path) (policies : list PolicyEntry) (wsCfg : option VerificationConfig).
  Local Abbreviation regions := (pack_regions cacheDir tmp baseDir).
  Local Abbreviation stores := (policy_stores cacheDir policies ++ pack_regions cacheDir tmp baseDir).
  Context {places : Places cacheDir dataDir tmp baseDir policies} {rstays : ReaderStays marker} {pstays : PartiesStay}.
  Context (pick : nat -> nat).

Local Abbreviation one := (fun entry s => syncSinglePolicy (loader := Loader cacheDir) cacheDir dataDir entry wsCfg s).
Local Abbreviation harmless := (harmless (dataDir := dataDir) (stores := stores) pick).
Local Abbreviation good := (good (dataDir := dataDir) (stores := stores) pick).

(** The synchroniser of an entry. *)
Definition entry_sync (ref : PolicyRef) (verifier : option VerifyFunc) : Sync :=
  NewSync cacheDir (RegistrySource (NewClient (PR_Registry ref))) dataDir (PR_Registry ref) verifier.

(** The registry serves the entry under [d]: the version resolves, and once nothing
    fails the store opens, the copy leaves an OCI layout and the configured verifier is
    built and accepts. *)
Record servable (entry : PolicyEntry) (ref : PolicyRef) (d rv : string) : Prop := {
  servable_ref : ParsePolicyRef (PE_URL entry) = (ref, None);
  servable_id : PR_Repository ref <> "";
  servable_digest : ValidateDigest d = None;
  servable_version : let '(tag, dg) := classifyVersion (wanted_version ref) in
    DefinitionVersion (NewClient (PR_Registry ref)) (BuildLookupRef "" (PR_Repository ref) tag dg) = Ok (d, rv);
  servable_New w : let p := PolicyStorePath cacheDir (PR_Repository ref) in
    settled w -> is_dir (get p (w_fs w)) = true ->
    exists w', oci_New p w = (Ok tt, w') /\ is_dir (get p (w_fs w')) = true;
  servable_Copy w : let p := PolicyStorePath cacheDir (PR_Repository ref) in
    settled w -> is_dir (get p (w_fs w)) = true ->
    exists ds w', CopyPolicy (NewClient (PR_Registry ref)) (PR_Repository ref)
                    (version_or (wanted_version ref) rv) p w = (Ok ds, w') /\ marker p w';
  servable_verifier cfg : PE_SkipVerify entry = false -> effective_config entry wsCfg = Some cfg ->
    let '(host, insecure) := SplitHostScheme (PR_Registry ref) in
    let '(tag, dg) := classifyVersion (wanted_version ref) in
    host <> "" /\
    (forall w, settled w -> exists vf w', buildVerifierFromConfig cfg w = (Ok vf, w')) /\
    (forall vf, built cfg vf ->
       service (vf (BuildLookupRef host (PR_Repository ref) tag dg) insecure) (fun _ => True));
}.

(** The verifiers of this invocation. *)
Definition verifiers_sound (c : verifier_cache) : Prop := forall m, c = Some m -> cache_sound m.

Lemma resolveVerifier_sound entry c w r c' w' :
  verifiers_sound c -> resolveVerifier entry wsCfg c w = ((r, c'), w') ->
  verifiers_sound c' /\ forall vf, r = Ok (Some vf) -> exists cfg, PE_SkipVerify entry = false /\
    effective_config entry wsCfg = Some cfg /\ built cfg vf.
Proof.
  intros Hc. unfold resolveVerifier, io_ret. destruct (PE_SkipVerify entry); [intros; simplify_eq; naive_solver|].
  destruct (effective_config entry wsCfg) as [cfg|]; [|intros; simplify_eq; naive_solver].
  destruct c as [m|]; [|intros; simplify_eq; naive_solver]. specialize (Hc m eq_refl).
  destruct (m !! cfg) as [vf|] eqn:Em.
  - intros; simplify_eq. split; [by intros ? [= <-]|]. intros vf' [= <-]. eauto.
  - unfold io_bind. destruct (buildVerifierFromConfig cfg w) as [[vf|e] w1] eqn:Eb; intros; simplify_eq.
    + assert (built cfg vf) as Hb by by eexists _, _.
      split; [intros ? [= <-]; by apply cache_sound_insert|]. intros vf' [= <-]. eauto.
    + split; [by intros ? [= <-]|done].
Qed.

Lemma resolveVerifier_reads entry c :
  reads (resolveVerifier entry wsCfg c) /\ onward (resolveVerifier entry wsCfg c).
Proof.
  assert (forall cfg m, let k := fun r : result VerifyFunc => io_ret (match r with
     | Err e => (Err (Wrapf ("verification configured but initialization failed " +:+
                             "(use --skip-verify to bypass): ") e ""), c)
     | Ok vf => (Ok (Some vf), Some (<[cfg := vf]> (m : gmap VerificationConfig VerifyFunc)))
     end) in reads (io_bind (buildVerifierFromConfig cfg) k) /\ onward (io_bind (buildVerifierFromConfig cfg) k)).
  { intros cfg m k. destruct (build_stays cfg).
    split; [apply preserves_bind; [done|]|apply onward_bind; [done|]]; intros; [apply preserves_ret|apply onward_ret]. }
  assert (forall A (a : A), reads (io_ret a) /\ onward (io_ret a)) as Hr.
  { split; [apply preserves_ret|apply onward_ret]. }
  unfold resolveVerifier. destruct (PE_SkipVerify entry); [apply Hr|].
  destruct (effective_config entry wsCfg) as [cfg|]; [|apply Hr].
  destruct c as [m|]; [|apply Hr]. destruct (m !! cfg); [apply Hr|]. auto.
Qed.

Lemma resolveVerifier_harmless entry c : harmless (resolveVerifier entry wsCfg c).
Proof. apply harmless_reads, resolveVerifier_reads. Qed.

Lemma entry_store_in entry ref :
  entry ∈ policies -> ParsePolicyRef (PE_URL entry) = (ref, None) ->
  PolicyStorePath cacheDir (PR_Repository ref) ∈ policy_stores cacheDir policies.
Proof.
  intros Hin Href. apply list_elem_of_omap. exists entry. split; [done|]. unfold entry_store. by rewrite Href.
Qed.

Lemma entry_place_in entry ref :
  entry ∈ policies -> ParsePolicyRef (PE_URL entry) = (ref, None) ->
  PolicyStorePath cacheDir (PR_Repository ref) ∈ stores.
Proof. intros. apply elem_of_app. left. by eapply entry_store_in. Qed.

Lemma entry_behaved entry ref verifier :
  entry ∈ policies -> ParsePolicyRef (PE_URL entry) = (ref, None) ->
  (forall vf, verifier = Some vf -> exists cfg, built cfg vf) ->
  behaved (dataDir := dataDir) (stores := stores) (entry_sync ref verifier) (PR_Repository ref).
Proof.
  intros Hin Href Hvf. pose proof (entry_place_in entry ref Hin Href) as Hp.
  unfold entry_sync, NewSync. destruct (SplitHostScheme (PR_Registry ref)) as [host insecure]. split.
  - done.
  - done.
  - intros x. split; [apply preserves_ret|apply onward_ret].
  - cbn. intros vf x i Hv. destruct (Hvf vf Hv) as [cfg Hb]. by eapply verifier_stays.
  - apply (New_stays (J := marker)).
  - intros t. cbn. unfold CopyPolicy. apply store_op_bind; [apply store_op_ret|].
    intros [repo|e]; [apply Copy_stays|apply store_op_ret].
Qed.

Lemma extract_metadata_stays st id fetched :
  stays marker (PolicyStorePath cacheDir id) (extract_metadata (loader := Loader cacheDir) st id fetched).
Proof.
  unfold extract_metadata. destruct (_ || _); [|apply stays_ret].
  apply stays_bind; [apply (ExtractPolicyMetadata_stays marker cacheDir marker_MkdirAll)|]. intros _ ? _ _. apply stays_ret.
Qed.

Lemma syncSinglePolicy_harmless entry s :
  entry ∈ policies -> verifiers_sound (gs_verifiers s) -> harmless (one entry s).
Proof.
  intros Hin Hs. unfold syncSinglePolicy.
  destruct (ParsePolicyRef (PE_URL entry)) as [ref [e|]] eqn:Href; [apply harmless_ret|].
  apply harmless_bind; [apply resolveVerifier_harmless|]. intros w [r c] w' Er.
  destruct (resolveVerifier_sound _ _ _ _ _ _ Hs Er) as [_ Hv].
  destruct r as [verifier|e]; [|apply harmless_ret].
  apply harmless_bind.
  { assert (behaved (dataDir := dataDir) (stores := stores) (entry_sync ref verifier) (PR_Repository ref)) as Hb.
    { apply (entry_behaved entry); [done|done|]. intros vf ->.
      destruct (Hv vf eq_refl) as (cfg & _ & _ & Hb). by exists cfg. }
    apply (SyncPolicy_class _ _ _ (harmless_class pick _ (behaved_store _ _ Hb)) Hb). }
  intros _ [[fetched|e] st] _ _; [|apply harmless_ret].
  apply harmless_bind; [|intros _ ? _ _; apply harmless_ret].
  eapply harmless_store; [by eapply entry_place_in|]. apply extract_metadata_stays.
Qed.

Lemma syncSinglePolicy_sound entry s w r s' w' :
  verifiers_sound (gs_verifiers s) -> one entry s w = ((r, s'), w') -> verifiers_sound (gs_verifiers s').
Proof.
  intros Hs. unfold syncSinglePolicy, io_bind, io_ret.
  destruct (ParsePolicyRef (PE_URL entry)) as [ref [e|]]; [by intros; simplify_eq|].
  destruct (resolveVerifier _ _ _ w) as [[rv c] w1] eqn:Er. apply resolveVerifier_sound in Er as [Hc _]; [|done].
  destruct rv as [verifier|e]; [|by intros; simplify_eq].
  destruct (SyncPolicy _ _ _ _ w1) as [[[fetched|e] st] w2]; [|by intros; simplify_eq].
  destruct (extract_metadata _ _ _ w2). by intros; simplify_eq.
Qed.

Lemma sync_each_harmless entries s :
  (forall e, e ∈ entries -> e ∈ policies) -> verifiers_sound (gs_verifiers s) ->
  harmless (sync_each one entries s).
Proof.
  revert s. induction entries as [|entry rest IH]; intros s Hin Hs; cbn [sync_each]; [apply harmless_ret|].
  apply harmless_bind; [apply syncSinglePolicy_harmless; [apply Hin; left|done]|].
  intros w [r s1] w1 E. apply harmless_bind; [|intros _ ? _ _; apply harmless_ret].
  apply IH; [intros; apply Hin; by right|]. by eapply syncSinglePolicy_sound.
Qed.

Lemma LoadState_reads d : reads (LoadState d) /\ onward (LoadState d).
Proof.
  unfold LoadState. split.
  - apply preserves_bind; [apply preserves_ReadFile|]. intros [?|?]; [apply preserves_ret|].
    case_match; apply preserves_ret.
  - unfold os_ReadFile. go_onward.
Qed.

Lemma LoadState_tick d w : w_tick (LoadState d w).2 = S (w_tick w).
Proof. unfold LoadState, io_bind, os_ReadFile, os_call. repeat (case_match; simplify_eq/=; try done). Qed.

Lemma syncAllPolicies_harmless st c :
  verifiers_sound c ->
  harmless (syncAllPolicies (loader := Loader cacheDir) cacheDir dataDir policies wsCfg (MkGetState st c)).
Proof.
  intros Hc. unfold syncAllPolicies. apply harmless_bind; [by apply sync_each_harmless|]. intros _ r _ _.
  apply harmless_bind; [apply harmless_SaveState|]. intros _ ? _ _. apply harmless_ret.
Qed.

(** The command leaves the world ready, and takes a step of the oracle. *)
Lemma syncPolicies_harmless creds cfg c :
  WC_Policies cfg = policies -> verifiers_sound c ->
  let m := syncPolicies (loader := Loader cacheDir) creds cacheDir dataDir cfg wsCfg c in
  harmless m /\ forall w, w_tick w < w_tick (m w).2.
Proof.
  intros Hp Hc m. pose proof (fun st => syncAllPolicies_harmless st c Hc) as Hall.
  unfold m, syncPolicies. rewrite Hp. split.
  - apply harmless_bind; [apply harmless_reads, LoadState_reads|].
    intros _ [st|e] _ _; [|apply harmless_ret]. destruct creds; [|apply harmless_ret].
    apply harmless_bind; [apply Hall|intros _ ? _ _; apply harmless_ret].
  - intros w. unfold io_bind. pose proof (LoadState_tick dataDir w) as Ht.
    destruct (LoadState dataDir w) as [[st|e] w1]; cbn in Ht; [|cbn; lia].
    destruct creds; [|cbn; lia]. destruct (Hall st) as [_ Ho]. specialize (Ho w1).
    destruct (syncAllPolicies _ _ _ _ _ w1) as [r w2]. cbn in *. lia.
Qed.

(** ** Success *)

(** The policy is recorded under [d] and its store is an OCI layout. *)
Definition cached (ref : PolicyRef) (d : string) (st : State) (w : world) : Prop :=
  (exists ps, GetPolicyState st (PR_Repository ref) = Some ps /\ Digest ps = d) /\
  marker (PolicyStorePath cacheDir (PR_Repository ref)) w.

Lemma held_cached ref verifier d st w :
  held (entry_sync ref verifier) (PR_Repository ref) d st w <-> cached ref d st w.
Proof. unfold held, cached, entry_sync, NewSync. by destruct (SplitHostScheme _). Qed.

Lemma extract_metadata_keeps st repo fetched w st' w' k d :
  extract_metadata (loader := Loader cacheDir) st repo fetched w = (st', w') ->
  (exists ps, GetPolicyState st k = Some ps /\ Digest ps = d) ->
  exists ps, GetPolicyState st' k = Some ps /\ Digest ps = d.
Proof.
  unfold extract_metadata, io_bind, io_ret. intros Hrun (ps & Hps & Hd).
  destruct (_ || _); [|simplify_eq; eauto].
  destruct (ExtractPolicyMetadata _ _ w) as [[m|e] w1]; simplify_eq; [|eauto].
  unfold SetPolicyMetadata. destruct (Policies st !! repo) as [ps0|] eqn:E; [|eauto].
  unfold GetPolicyState in *. cbn. destruct (decide (k = repo)) as [->|Hne].
  - rewrite lookup_insert_eq. simplify_eq. by eexists.
  - rewrite lookup_insert_ne by done. eauto.
Qed.

Lemma entry_served entry ref d rv verifier :
  servable entry ref d rv ->
  (forall vf, verifier = Some vf -> exists cfg, PE_SkipVerify entry = false /\
    effective_config entry wsCfg = Some cfg /\ built cfg vf) ->
  served (entry_sync ref verifier) (PR_Repository ref) (wanted_version ref) d rv.
Proof.
  intros Hs Hv. pose proof (servable_verifier _ _ _ _ Hs) as Hsv. pose proof (servable_version _ _ _ _ Hs) as Hver.
  unfold entry_sync, NewSync. destruct (SplitHostScheme (PR_Registry ref)) as [host insecure].
  destruct (classifyVersion (wanted_version ref)) as [tag dg] eqn:Ec. split; cbn [sync_verifier sync_registryHost sync_insecure sync_source sync_cache]; rewrite ?Ec.
  - apply Hs.
  - destruct verifier as [vf|]; [right|by left]. destruct (Hv vf eq_refl) as (cfg & Hk & He & _).
    by apply (Hsv cfg Hk He).
  - apply Hs.
  - cbn. rewrite Hver. split; [apply preserves_ret|apply onward_ret|]. intros w _. by eexists _, _.
  - intros vf ->. destruct (Hv vf eq_refl) as (cfg & Hk & He & Hb). by apply (Hsv cfg Hk He).
  - apply Hs.
  - apply Hs.
Qed.

Lemma resolveVerifier_settled entry ref d rv c w :
  servable entry ref d rv -> settled w ->
  exists v c' w', resolveVerifier entry wsCfg c w = ((Ok v, c'), w').
Proof.
  intros Hs Hw. pose proof (servable_verifier _ _ _ _ Hs) as Hsv. unfold resolveVerifier, io_ret.
  destruct (PE_SkipVerify entry); [by eexists _, _, _|].
  destruct (effective_config entry wsCfg) as [cfg|]; [|by eexists _, _, _].
  destruct c as [m|]; [|by eexists _, _, _]. destruct (m !! cfg); [by eexists _, _, _|].
  specialize (Hsv cfg eq_refl eq_refl). destruct (SplitHostScheme _), (classifyVersion _).
  destruct Hsv as (_ & Hb & _). destruct (Hb w Hw) as (vf & w' & E). unfold io_bind. rewrite E. by eexists _, _, _.
Qed.

(** A servable entry is synchronised. *)
Lemma syncSinglePolicy_settled entry ref d rv s w :
  entry ∈ policies -> servable entry ref d rv -> verifiers_sound (gs_verifiers s) -> good w ->
  exists s' w', one entry s w = ((Ok tt, s'), w') /\ cached ref d (gs_state s') w'.
Proof.
  intros Hin Hs Hc Hg. pose proof (servable_ref _ _ _ _ Hs) as Href.
  unfold syncSinglePolicy, io_bind, io_ret. rewrite Href.
  destruct (resolveVerifier_settled _ _ _ _ (gs_verifiers s) w Hs (proj1 Hg)) as (v & c & w1 & E1). rewrite E1.
  destruct (resolveVerifier_sound _ _ _ _ _ _ Hc E1) as [_ Hv].
  pose proof (good_run _ _ _ _ _ (resolveVerifier_harmless entry (gs_verifiers s)) E1 Hg) as Hg1.
  assert (behaved (dataDir := dataDir) (stores := stores) (entry_sync ref v) (PR_Repository ref)) as Hb.
  { apply (entry_behaved entry); [done|done|]. intros vf ->. destruct (Hv vf eq_refl) as (cfg & _ & _ & ?). by exists cfg. }
  assert (served (entry_sync ref v) (PR_Repository ref) (wanted_version ref) d rv) as Hsv.
  { apply (entry_served entry); [done|]. intros vf ->. by apply Hv. }
  destruct (SyncPolicy_settled pick _ (gs_state s) _ _ _ _ w1 Hb Hsv Hg1) as (b & st & w2 & E2 & Hh & _).
  unfold entry_sync in E2. cbn [gs_state]. rewrite E2.
  destruct (extract_metadata _ _ _ w2) as [st2 w3] eqn:E3. eexists _, _. split; [done|].
  destruct (proj1 (held_cached _ _ _ _ _) Hh) as [Hd Hm]. split; [exact (extract_metadata_keeps _ _ _ _ _ _ _ _ E3 Hd)|].
  destruct (extract_metadata_stays st (PR_Repository ref) b) as [_ Hk].
  specialize (Hk w2 Hm). by rewrite E3 in Hk.
Qed.

(** Another entry leaves it alone, whatever becomes of it. *)
Lemma SyncPolicy_other_entries s st id v w r st' w' k :
  SyncPolicy s st id v w = ((r, st'), w') -> k <> id -> GetPolicyState st' k = GetPolicyState st k.
Proof.
  intros Hrun Hk. apply SyncPolicy_run in Hrun. destruct (classifyVersion v) as [tag dg].
  destruct Hrun as [(-> & _)|(w1 & d & rv & w2 & w3 & vr & w4 & _ & _ & _ & Hc)]; [done|].
  unfold sync_copy, sync_fail, io_bind, io_ret in Hc.
  destruct (NewPolicyStore _ _ w4) as [[p|e] w5]; [|by simplify_eq].
  destruct (Src_Copy _ _ _ _ w5) as [[ds|e] w6]; [|by simplify_eq].
  destruct (time_Now w6) as [n1 w7], (time_Now w7) as [n2 w8].
  destruct (UpdatePolicyStateWithVerification st _ _ _ _ _ _) as [st1|e] eqn:Eu; [|by simplify_eq].
  unfold UpdatePolicyStateWithVerification in Eu. destruct (ValidateDigest d); [done|].
  destruct (SaveState _ _ w8) as [[|] w9]; simplify_eq; by apply lookup_insert_ne.
Qed.

Lemma syncSinglePolicy_other entry ref d entry' s w r s' w' :
  entry ∈ policies -> ParsePolicyRef (PE_URL entry) = (ref, None) -> entry' ∈ policies ->
  (forall p, entry_store cacheDir entry' = Some p -> p <> PolicyStorePath cacheDir (PR_Repository ref)) ->
  verifiers_sound (gs_verifiers s) -> one entry' s w = ((r, s'), w') ->
  cached ref d (gs_state s) w -> cached ref d (gs_state s') w'.
Proof.
  intros Hin Href Hin' Hne Hc. pose proof (entry_place_in entry ref Hin Href) as Hp. set (p := PolicyStorePath _ _) in *.
  unfold syncSinglePolicy, io_bind, io_ret. unfold entry_store in Hne.
  destruct (ParsePolicyRef (PE_URL entry')) as [ref' [e|]] eqn:Href'; [by intros; simplify_eq|].
  pose proof (entry_place_in entry' ref' Hin' Href') as Hp'. specialize (Hne _ eq_refl).
  assert (diverges (PolicyStorePath cacheDir (PR_Repository ref')) p) as Hdiv.
  { by destruct (stores_apart (dataDir := dataDir) _ _ Hp' Hp). }
  assert (PR_Repository ref <> PR_Repository ref') as Hid by (intros Heq; apply Hne; unfold p; by rewrite Heq).
  destruct (resolveVerifier entry' wsCfg (gs_verifiers s) w) as [[rv c] w1] eqn:E1.
  destruct (resolveVerifier_sound _ _ _ _ _ _ Hc E1) as [_ Hv].
  destruct (resolveVerifier_reads entry' (gs_verifiers s)) as [Hr _].
  pose proof (fun q => reads_fs _ _ _ _ q Hr E1) as F1.
  destruct rv as [verifier|e]; [|intros; simplify_eq; unfold cached, marker in *; by rewrite F1].
  assert (behaved (dataDir := dataDir) (stores := stores) (entry_sync ref' verifier) (PR_Repository ref')) as Hb.
  { apply (entry_behaved entry'); [done|done|]. intros vf ->. destruct (Hv vf eq_refl) as (cfg & _ & _ & ?). by exists cfg. }
  pose proof (SyncPolicy_class _ _ _ (off_store_class _) Hb (gs_state s) (wanted_version ref') w1 (p ++ [oci_layout])) as F2.
  unfold entry_sync in F2. cbn [gs_state] in *.
  destruct (SyncPolicy _ _ _ _ w1) as [[r2 st] w2] eqn:E2.
  pose proof (SyncPolicy_other_entries _ _ _ _ _ _ _ _ (PR_Repository ref) E2 Hid) as Hst.
  assert (get (p ++ [oci_layout]) (w_fs w2) = get (p ++ [oci_layout]) (w_fs w)) as F3.
  { rewrite <-F1. apply F2. unfold NewSync. destruct (SplitHostScheme _). cbn.
    split; apply diverges_app; [done|by apply (stores_off_data (stores := stores))]. }
  intros Hrun. unfold cached, marker. fold p. intros [(ps & Hps & Hd) Hm]. rewrite <-F3 in Hm. rewrite <-Hst in Hps.
  destruct r2 as [fetched|e]; [|simplify_eq; split; [by exists ps|done]].
  destruct (extract_metadata _ _ _ w2) as [st2 w3] eqn:E3. simplify_eq. split.
  - eapply extract_metadata_keeps; [exact E3|eauto].
  - destruct (extract_metadata_stays st (PR_Repository ref') fetched) as [[_ Hk] _].
    destruct (Hk w2) as [Hk' _]. rewrite E3 in Hk'. cbn in Hk'.
    rewrite Hk'; [done|]. by apply diverges_app.
Qed.

(** No other entry of the workspace uses the store of [entry]. *)
Definition own_store (entry : PolicyEntry) : Prop :=
  forall e, e ∈ policies -> entry_store cacheDir e = entry_store cacheDir entry -> e = entry.

Lemma attempts_settled entry ref d rv entries s w rs s' w' :
  entry ∈ policies -> own_store entry -> servable entry ref d rv ->
  attempts one entries s w rs s' w' ->
  (forall e, e ∈ entries -> e ∈ policies) -> verifiers_sound (gs_verifiers s) -> good w ->
  entry ∈ entries \/ cached ref d (gs_state s) w ->
  good w' /\ cached ref d (gs_state s') w'.
Proof.
  intros Hin Hown Hs Hat. pose proof (servable_ref _ _ _ _ Hs) as Href.
  assert (entry_store cacheDir entry = Some (PolicyStorePath cacheDir (PR_Repository ref))) as Hp.
  { unfold entry_store. by rewrite Href. }
  induction Hat as [s w|e rest s w r s1 w1 rs s2 w2 Hone Hrest IH]; intros Hall Hc Hg Hor.
  { destruct Hor as [Hnil|?]; [by apply elem_of_nil in Hnil|done]. }
  pose proof (Hall e ltac:(left)) as He.
  pose proof (good_run _ _ _ _ _ (syncSinglePolicy_harmless e s He Hc) Hone Hg) as Hg1.
  pose proof (syncSinglePolicy_sound _ _ _ _ _ _ Hc Hone) as Hc1.
  assert (forall x, x ∈ rest -> x ∈ policies) as Hall' by (intros; apply Hall; by right).
  destruct (decide (entry_store cacheDir e = entry_store cacheDir entry)) as [Heq|Hne].
  - apply Hown in Heq as ->; [|done]. apply IH; try done. right.
    destruct (syncSinglePolicy_settled entry ref d rv s w Hin Hs Hc Hg) as (s3 & w3 & E & Hk).
    rewrite Hone in E. by simplify_eq.
  - apply IH; try done. destruct Hor as [Hor|Hk].
    + apply elem_of_cons in Hor as [<-|?]; [done|by left].
    + right. apply (syncSinglePolicy_other entry ref d e s w r s1 w1); try done.
      intros p Hp' ->. by rewrite Hp', Hp in Hne.
Qed.

Lemma attempts_all_settled entries s w rs s' w' :
  attempts one entries s w rs s' w' ->
  (forall e, e ∈ entries -> e ∈ policies /\ exists ref d rv, servable e ref d rv) ->
  verifiers_sound (gs_verifiers s) -> good w -> omap error_of rs = [].
Proof.
  induction 1 as [s w|e rest s w r s1 w1 rs s2 w2 Hone Hrest IH]; intros Hall Hc Hg; [done|].
  destruct (Hall e ltac:(left)) as (He & ref & d & rv & Hs).
  destruct (syncSinglePolicy_settled e ref d rv s w He Hs Hc Hg) as (s3 & w3 & E & _).
  pose proof (good_run _ _ _ _ _ (syncSinglePolicy_harmless e s He Hc) Hone Hg) as Hg1.
  pose proof (syncSinglePolicy_sound _ _ _ _ _ _ Hc Hone) as Hc1.
  rewrite Hone in E. simplify_eq. cbn. apply IH; try done. intros; apply Hall; by right.
Qed.

(** ** The command *)

Lemma LoadState_good w : good w -> exists st w', LoadState dataDir w = (Ok st, w').
Proof.
  intros [Hw Hr]. pose proof (ready_state _ _ _ _ Hr) as Hst.
  unfold LoadState, os_ReadFile, os_call, io_bind, io_ret. rewrite (Hw (w_tick w)) by lia.
  destruct (get _ (w_fs w)) as [[data pm|m]|]; cbn; [|done|by eexists _, _].
  destruct Hst as [st ->]. by eexists _, _.
Qed.

(** state.json records the policy under [d]. *)
Definition on_disk (ref : PolicyRef) (d : string) (w : world) : Prop :=
  exists st data perm, get (dataDir ++ [StateFileName]) (w_fs w) = Some (File data perm) /\
    unmarshal data = Ok st /\ cached ref d (excludeMalformedDigests st) w.

Lemma LoadState_on_disk ref d w :
  settled w -> on_disk ref d w -> exists st w', LoadState dataDir w = (Ok st, w') /\ cached ref d st w'.
Proof.
  intros Hw (st & data & pm & Hf & Hu & Hk).
  unfold LoadState, os_ReadFile, os_call, io_bind, io_ret. rewrite (Hw (w_tick w)) by lia.
  rewrite Hf, Hu. by eexists _, _.
Qed.

Lemma excludeMalformedDigests_keeps st k ps :
  ValidateDigest (Digest ps) = None -> GetPolicyState st k = Some ps ->
  GetPolicyState (excludeMalformedDigests st) k = Some ps.
Proof. intros Hd Hps. by apply map_lookup_filter_Some. Qed.

Lemma SaveState_on_disk ref d st w :
  ValidateDigest d = None -> PolicyStorePath cacheDir (PR_Repository ref) ∈ stores ->
  good w -> cached ref d st w -> on_disk ref d (SaveState st dataDir w).2.
Proof.
  intros Hd Hp Hg [(ps & Hps & Hdg) Hm]. destruct (SaveState_good pick st w Hg) as (w' & E).
  pose proof (SaveState_outcome st dataDir w) as Hout. pose proof (preserves_SaveState st dataDir w) as Hpr.
  rewrite E in *. cbn in Hpr. destruct Hout as (data & Hj & Hf).
  destruct (codec_roundtrip (dataDir := dataDir) (stores := stores) st) as (data' & Hj' & Hu).
  exists st, data, 384%Z. split; [done|]. split; [congruence|]. split.
  - exists ps. split; [|done]. apply excludeMalformedDigests_keeps; congruence.
  - unfold marker. cbn. rewrite Hpr; [done|]. by apply diverges_app, (stores_off_data (stores := stores)).
Qed.

Lemma syncPolicies_settled entry ref d rv cfg c w :
  WC_Policies cfg = policies -> verifiers_sound c -> good w ->
  entry ∈ policies -> own_store entry -> servable entry ref d rv ->
  on_disk ref d (syncPolicies (loader := Loader cacheDir) (Ok tt) cacheDir dataDir cfg wsCfg c w).2 /\
  ((forall e, e ∈ policies -> exists ref d rv, servable e ref d rv) ->
   (syncPolicies (loader := Loader cacheDir) (Ok tt) cacheDir dataDir cfg wsCfg c w).1.1 = None).
Proof.
  intros Hp Hc Hg Hin Hown Hs. unfold syncPolicies, io_bind, io_ret.
  destruct (LoadState_good w Hg) as (st & w1 & E1). rewrite E1.
  pose proof (good_run _ _ _ _ _ (harmless_reads _ _ (LoadState_reads dataDir)) E1 Hg) as Hg1.
  unfold syncAllPolicies, io_bind. rewrite Hp.
  pose proof (sync_each_attempts one policies (MkGetState st c) w1) as Hat.
  destruct (sync_each _ policies _ w1) as [[es s2] w2]. destruct Hat as (rs & Hat & _ & ->).
  destruct (attempts_settled entry ref d rv _ _ _ _ _ _ Hin Hown Hs Hat) as [Hg2 Hk]; [done|done|done|by left|].
  pose proof (SaveState_on_disk ref d (gs_state s2) w2 (servable_digest _ _ _ _ Hs)
                (entry_place_in entry ref Hin (servable_ref _ _ _ _ Hs)) Hg2 Hk) as Hdisk.
  cbn [fst snd]. destruct (SaveState (gs_state s2) dataDir w2) as [sv w3]. split; [exact Hdisk|].
  intros Hall. cbn. rewrite (attempts_all_settled _ _ _ _ _ _ Hat); [done| |done|done].
  intros e He. split; [done|]. by apply Hall.
Qed.

(** ** Complypacks do not disturb the policies *)

Section packs.
  Context {pc : Codec PackConfig} {gc : Codec GenerationState}.

Local Abbreviation onec := (fun entry s => syncSingleComplypack tmp cacheDir dataDir baseDir entry wsCfg s).

Lemma pack_entry_behaved ref verifier env :
  (forall vf, verifier = Some vf -> exists cfg, built cfg vf) ->
  pack_behaved dataDir tmp regions
    (NewComplypackSync (NewComplypackCache cacheDir env) (RegistryComplypackSource (NewClient (PR_Registry ref)))
       dataDir (PR_Registry ref) verifier).
Proof.
  intros Hvf. unfold NewComplypackSync. destruct (SplitHostScheme (PR_Registry ref)) as [host insecure]. split.
  - done.
  - cbn. unfold pack_regions. set_solver.
  - unfold pack_regions. set_solver.
  - intros x. split; [apply preserves_ret|apply onward_ret].
  - cbn. intros vf x i Hv. destruct (Hvf vf Hv) as [cfg Hb]. by eapply verifier_stays.
  - intros p. apply (New_stays (J := marker)).
  - intros r t p. cbn. unfold CopyComplypack, VerifyComplypackArtifactType. pose proof (fun h r t => Copy_stays h r t p).
    pose proof (fun d => store_op_reads p _ (Fetch_reads p d)). go_store.
  - apply Pack_reads.
  - apply Pack_names.
Qed.

Lemma single_pack_class pol Q entry s :
  pack_class dataDir regions pol Q -> Policies (gs_state s) = pol -> verifiers_sound (gs_verifiers s) ->
  Q _ (onec entry s).
Proof.
  intros HQ Hp Hs. unfold syncSingleComplypack.
  destruct (ParsePolicyRef (PE_URL entry)) as [ref [e|]]; [apply (pack_ret HQ)|].
  apply (pack_bind HQ); [apply (pack_reads HQ), resolveVerifier_reads|]. intros w [r c] w' Er.
  destruct (resolveVerifier_sound _ _ _ _ _ _ Hs Er) as [_ Hv]. destruct r as [verifier|e]; [|apply (pack_ret HQ)].
  apply (pack_bind HQ); [by apply (pack_reads HQ)|]. intros w1 cache w1' [= <- _].
  apply (pack_bind HQ).
  { apply (SyncComplypack_class dataDir tmp regions pol Q HQ); [|done]. apply pack_entry_behaved.
    intros vf ->. destruct (Hv vf eq_refl) as (cfg & _ & _ & Hb). by exists cfg. }
  intros _ [[fetched|e] st] _ _; [|apply (pack_ret HQ)].
  apply (pack_bind HQ); [|intros _ ? _ _; apply (pack_ret HQ)]. destruct fetched; [|apply (pack_ret HQ)].
  apply (pack_store HQ (baseDir ++ [WorkspaceDir])); [unfold pack_regions; set_solver|].
  pose proof (InvalidateForEvaluator_below baseDir). pose proof (RemoveEvaluatorArtifacts_below baseDir).
  unfold invalidateGenerationForComplypack. go_store.
Qed.

Lemma single_pack_state entry s w r s' w' :
  verifiers_sound (gs_verifiers s) -> onec entry s w = ((r, s'), w') ->
  Policies (gs_state s') = Policies (gs_state s) /\ verifiers_sound (gs_verifiers s').
Proof.
  intros Hs. unfold syncSingleComplypack, io_bind, io_ret.
  destruct (ParsePolicyRef (PE_URL entry)) as [ref [e|]]; [by intros; simplify_eq|].
  destruct (resolveVerifier _ _ _ w) as [[rv c] w1] eqn:Er. apply resolveVerifier_sound in Er as [Hc _]; [|done].
  destruct rv as [verifier|e]; [|by intros; simplify_eq]. cbn [gs_state].
  destruct (SyncComplypack _ _ _ _ _ w1) as [[[fetched|e] st] w2] eqn:E; apply SyncComplypack_policies in E;
    [|by intros; simplify_eq].
  destruct fetched; [destruct (invalidateGenerationForComplypack _ _ _ w2)|]; by intros; simplify_eq.
Qed.

Lemma packs_class pol Q entries s :
  pack_class dataDir regions pol Q -> Policies (gs_state s) = pol -> verifiers_sound (gs_verifiers s) ->
  Q _ (sync_each onec entries s).
Proof.
  intros HQ. revert s. induction entries as [|entry rest IH]; intros s Hp Hs; cbn [sync_each]; [apply (pack_ret HQ)|].
  apply (pack_bind HQ); [by apply (single_pack_class pol)|]. intros w [r s1] w1 E.
  destruct (single_pack_state _ _ _ _ _ _ Hs E) as [Hp1 Hs1].
  apply (pack_bind HQ); [apply IH; [congruence|done]|intros _ ? _ _; apply (pack_ret HQ)].
Qed.

Lemma harmless_packs pol : pack_class dataDir regions pol (@Progress.harmless stCodec dataDir stores pick).
Proof.
  split; intros.
  - apply harmless_ret.
  - by apply harmless_bind.
  - by apply harmless_reads.
  - eapply harmless_store; [|done]. apply elem_of_app. by right.
  - apply harmless_SaveState.
Qed.

(** What a policy on disk survives. *)
Definition keeps_disk (ref : PolicyRef) (d : string) (A : Type) (m : io A) : Prop :=
  harmless m /\ forall w, good w -> on_disk ref d w -> on_disk ref d (m w).2.

Lemma keeps_disk_packs entry ref d pol ps :
  entry ∈ policies -> ParsePolicyRef (PE_URL entry) = (ref, None) -> ValidateDigest d = None ->
  pol !! PR_Repository ref = Some ps -> Digest ps = d ->
  pack_class dataDir regions pol (keeps_disk ref d).
Proof.
  intros Hin Href Hd Hps Hdg. pose proof (entry_place_in entry ref Hin Href) as Hp.
  destruct (harmless_packs pol) as [Hret Hbind Hreads Hstore Hsave].
  assert (forall A (m : io A) w, (forall x, get (dataDir ++ [x]) (w_fs (m w).2) = get (dataDir ++ [x]) (w_fs w)) ->
    get (PolicyStorePath cacheDir (PR_Repository ref) ++ [oci_layout]) (w_fs (m w).2) =
    get (PolicyStorePath cacheDir (PR_Repository ref) ++ [oci_layout]) (w_fs w) ->
    on_disk ref d w -> on_disk ref d (m w).2) as Hsame.
  { intros A m w H1 H2 (st & data & pm & Hf & Hu & Hk & Hm). exists st, data, pm. rewrite H1. split_and!; [done|done|].
    split; [done|]. unfold marker. by rewrite H2. }
  split.
  - intros A a. split; [apply harmless_ret|done].
  - intros A B m k [Hm1 Hm2] Hk. split; [apply harmless_bind; [done|intros; by eapply Hk]|].
    intros w Hg Hw. specialize (Hm2 w Hg Hw). unfold io_bind. destruct (m w) as [a w1] eqn:E.
    apply (Hk w a w1 E); [by eapply good_run|done].
  - intros A m Hm. split; [by apply harmless_reads|]. intros w _. apply Hsame; [intros x|]; by apply Hm.
  - intros A p m Hpr Hm. split; [by apply (Hstore A p)|]. intros w _. destruct Hm as [_ Hm]. destruct (Hm w) as [Hf _].
    apply Hsame; [intros x|]; apply Hf; apply diverges_app.
    + apply diverges_sym, (stores_off_data (stores := stores)), elem_of_app. by right.
    + apply (places_apart (dataDir := dataDir)); [done|]. by eapply entry_store_in.
  - intros st Hst. split; [apply harmless_SaveState|]. intros w Hg (st0 & data & pm & _ & _ & _ & Hm).
    apply SaveState_on_disk; [done|done|done|]. split; [|done]. exists ps. unfold GetPolicyState. by rewrite Hst.
Qed.

(** The phase of the complypacks. *)
Lemma syncComplypacks_keeps creds cfg c :
  verifiers_sound c ->
  let m := syncComplypacks tmp creds cacheDir dataDir baseDir cfg wsCfg c in
  harmless m /\
  forall entry ref d w, entry ∈ policies -> ParsePolicyRef (PE_URL entry) = (ref, None) ->
    ValidateDigest d = None -> good w -> on_disk ref d w -> on_disk ref d (m w).2.
Proof.
  intros Hc m. unfold m, syncComplypacks. case_bool_decide; [split; [apply harmless_ret|done]|]. split.
  - apply harmless_bind; [apply harmless_reads, LoadState_reads|]. intros _ [st|e] _ _; [|apply harmless_ret].
    destruct creds; [|apply harmless_ret].
    apply harmless_bind; [|intros _ ? _ _; apply harmless_ret]. unfold syncAllComplypacks.
    apply harmless_bind; [|intros _ ? _ _; apply harmless_ret].
    by apply (packs_class (Policies st) _ _ _ (harmless_packs _)).
  - intros entry ref d w Hin Href Hd Hg Hw. unfold io_bind at 1.
    destruct (LoadState_on_disk ref d w (proj1 Hg) Hw) as (st & w1 & E1 & [(ps & Hps & Hdg) _]).
    pose proof (keeps_disk_packs entry ref d (Policies st) ps Hin Href Hd Hps Hdg) as HK.
    assert (good w1) as Hg1 by by eapply good_run; [apply harmless_reads, LoadState_reads| |].
    assert (on_disk ref d w1) as Hw1.
    { pose proof (pack_reads HK _ (LoadState_reads dataDir)) as [_ H2]. specialize (H2 w Hg Hw). by rewrite E1 in H2. }
    rewrite E1. destruct creds; [|done].
    assert (keeps_disk ref d _ (syncAllComplypacks tmp cacheDir dataDir baseDir (WC_Complypacks cfg) wsCfg (MkGetState st c)))
      as [_ Hk].
    { apply (pack_bind HK); [|intros _ ? _ _; apply (pack_ret HK)]. by apply (packs_class (Policies st) _ _ _ HK). }
    specialize (Hk w1 Hg1 Hw1). unfold io_bind. by destruct (syncAllComplypacks _ _ _ _ _ _ _ w1).
Qed.

(** ** The command *)

Lemma no_verifiers_sound : verifiers_sound (match wsCfg with Some _ => Some ∅ | None => None end).
Proof. intros m Hm. destruct wsCfg; simplify_eq. intros cfg vf. by rewrite lookup_empty. Qed.

Lemma attempts_sound entries s w rs s' w' :
  attempts one entries s w rs s' w' -> verifiers_sound (gs_verifiers s) -> verifiers_sound (gs_verifiers s').
Proof. induction 1 as [|e rest s w r s1 w1 rs s2 w2 Hone _ IH]; [done|]. intros Hs. by eapply IH, syncSinglePolicy_sound. Qed.

Lemma syncPolicies_sound creds cfg c w :
  verifiers_sound c -> verifiers_sound (syncPolicies (loader := Loader cacheDir) creds cacheDir dataDir cfg wsCfg c w).1.2.
Proof.
  intros Hc. unfold syncPolicies, io_bind, io_ret. destruct (LoadState dataDir w) as [[st|e] w1]; [|done].
  destruct creds; [|done]. unfold syncAllPolicies, io_bind.
  pose proof (sync_each_attempts one (WC_Policies cfg) (MkGetState st c) w1) as Hat.
  destruct (sync_each _ _ _ w1) as [[es s2] w2]. destruct Hat as (rs & Hat & _ & _).
  apply attempts_sound in Hat; [|done]. by destruct (SaveState _ _ w2).
Qed.

Section runs.
  Context (cfg : WorkspaceConfig) (skipVerify : bool).
  Hypothesis cfg_policies : WC_Policies cfg = policies.
  Hypothesis cfg_verification : wsCfg = if skipVerify then None else WC_Verification cfg.

Local Abbreviation run := (get_run (loader := Loader cacheDir) tmp (Ok tt) cacheDir dataDir baseDir cfg skipVerify).

(** Both phases, one after the other. *)
Lemma run_phases w :
  let '((err, c), w1) := syncPolicies (loader := Loader cacheDir) (Ok tt) cacheDir dataDir cfg wsCfg
                           (match wsCfg with Some _ => Some ∅ | None => None end) w in
  verifiers_sound c /\
  run w = (let '(err', w2) := syncComplypacks tmp (Ok tt) cacheDir dataDir baseDir cfg wsCfg c w1 in
           (errors_join (omap id [err; err']), w2)).
Proof.
  pose proof (syncPolicies_sound (Ok tt) cfg _ w no_verifiers_sound) as Hs.
  assert (run w = syncAll (loader := Loader cacheDir) tmp (Ok tt) cacheDir dataDir baseDir cfg wsCfg None w) as ->.
  { unfold get_run. destruct skipVerify; by rewrite cfg_verification. }
  unfold syncAll, io_bind. replace (match wsCfg, (None : verifier_cache) with Some _, None => Some ∅ | _, _ => (None : verifier_cache) end)
    with (match wsCfg with Some _ => Some (∅ : gmap VerificationConfig VerifyFunc) | None => None end) by by destruct wsCfg.
  destruct (syncPolicies _ _ _ _ _ _ w) as [[err c] w1]. split; [done|].
  cbn [fst snd]. by destruct (syncComplypacks _ _ _ _ _ _ _ _ w1).
Qed.

Lemma run_harmless : harmless run /\ forall w, w_tick w < w_tick (run w).2.
Proof.
  destruct (syncPolicies_harmless (Ok tt) cfg _ cfg_policies no_verifiers_sound) as [[Hk Ho] Ht].
  split; [split|]; intros w; pose proof (run_phases w) as Hg;
    [specialize (Hk w)|specialize (Ho w)|specialize (Ht w); specialize (Ho w)];
    destruct (syncPolicies _ _ _ _ _ _ w) as [[err c] w1]; destruct Hg as [Hs ->];
    destruct (syncComplypacks_keeps (Ok tt) cfg c Hs) as [[Hk' Ho'] _];
    [specialize (Hk' w1)|specialize (Ho' w1)|specialize (Ho' w1)];
    destruct (syncComplypacks _ _ _ _ _ _ _ _ w1) as [err' w2]; cbn in *.
  - auto.
  - destruct Ho as (? & ? & ?), Ho' as (? & ? & ?). split_and!; [congruence|congruence|lia].
  - destruct Ho' as (_ & _ & ?). lia.
Qed.

Lemma runs_good T n w :
  (forall t, T <= t -> w_fault w t = None) -> ready dataDir stores pick w -> T <= n ->
  good (Nat.iter n (fun w => (run w).2) w).
Proof.
  intros HT Hw Hn. destruct run_harmless as [[Hk Ho] Ht].
  assert (ready dataDir stores pick (Nat.iter n (fun w => (run w).2) w) /\
          w_fault (Nat.iter n (fun w => (run w).2) w) = w_fault w /\
          n <= w_tick (Nat.iter n (fun w => (run w).2) w)) as (H1 & H2 & H3).
  { clear Hn. induction n as [|n (IH1 & IH2 & IH3)]; [split_and!; [done|done|lia]|]. cbn [Nat.iter nat_rect].
    set (w1 := Nat.iter n _ w) in *. change (nat_rect _ _ _ n) with w1.
    destruct (Ho w1) as (Hf & _ & _). split_and!; [by apply Hk|congruence|]. specialize (Ht w1). lia. }
  split; [|done]. apply (settled_after T); [by rewrite H2|lia].
Qed.

Lemma run_settled entry ref d rv w :
  good w -> entry ∈ policies -> own_store entry -> servable entry ref d rv ->
  on_disk ref d (run w).2 /\
  (WC_Complypacks cfg = [] -> (forall e, e ∈ policies -> exists ref d rv, servable e ref d rv) -> (run w).1 = None).
Proof.
  intros Hg Hin Hown Hs.
  pose proof (syncPolicies_settled entry ref d rv cfg _ w cfg_policies no_verifiers_sound Hg Hin Hown Hs) as [Hd Hnone].
  destruct (syncPolicies_harmless (Ok tt) cfg _ cfg_policies no_verifiers_sound) as [Hh _].
  pose proof (run_phases w) as E. destruct (syncPolicies _ _ _ _ _ _ w) as [[err c] w1] eqn:E1. destruct E as [Hc ->].
  pose proof (good_run pick _ _ _ _ Hh E1 Hg) as Hg1. cbn [fst snd] in *.
  destruct (syncComplypacks_keeps (Ok tt) cfg c Hc) as [_ Hkeep].
  specialize (Hkeep entry ref d w1 Hin (servable_ref _ _ _ _ Hs) (servable_digest _ _ _ _ Hs) Hg1 Hd).
  split.
  - by destruct (syncComplypacks _ _ _ _ _ _ _ _ w1).
  - intros Hn Hall. rewrite (Hnone Hall). unfold syncComplypacks. by rewrite bool_decide_eq_true_2.
Qed.

End runs.
End packs.
End liveness.
