(* ===== verification/Fallback.v ===== *)
(** * What the fallback of the complypack lookup hides
      (internal/cache/{complypack,complypack_sync}.go)

    [LookupByEvaluatorID] falls back to any version on disk when the recorded one is not
    there, and [SyncComplypack] takes its answer for the presence of the recorded
    version. *)
From stdpp Require Import gmap.
From S2P Require Import Prelude GoStrings Digest OciRef World Settled State Complypack Sync.
From S2P Require Import Progress ProgressPacks.

Section fallback.
  Context {cfgCodec : Codec PackConfig}.

(** A version directory of the evaluator with content, and its configuration. *)
Definition has_content (c : ComplypackCache) (ev v : string) (n : node) : Prop :=
  is_Some (get (evaluatorDir c ev ++ [v; complypackContentFile]) n).
Definition readable_config (c : ComplypackCache) (ev v : string) (n : node) : Prop :=
  exists data perm cfg, get (evaluatorDir c ev ++ [v; complypackConfigFile]) n = Some (File data perm) /\
    unmarshal data = Ok cfg.

Lemma no_faults_onward {A} (m : io A) w a w' : onward m -> m w = (a, w') -> no_faults w -> no_faults w'.
Proof. intros Ho E Hf t. destruct (Ho w) as (H & _). rewrite E in H. cbn in H. rewrite H. apply Hf. Qed.

Lemma Stat_run p w : no_faults w ->
  os_Stat p w = (match get p (w_fs w) with Some x => Ok x | None => not_exist end, tick w).
Proof. intros Hf. unfold os_Stat, os_call. rewrite Hf. by destruct w, (get p _). Qed.

(** The first visible version with content is found. *)
Lemma scan_entries_hit c ev entries w :
  no_faults w ->
  (forall x n, (x, n) ∈ entries -> visible_version (x, n) -> has_content c ev x (w_fs w) -> readable_config c ev x (w_fs w)) ->
  (exists e, e ∈ entries /\ visible_version e /\ has_content c ev e.1 (w_fs w)) ->
  exists v cfg w', scan_entries (evaluatorDir c ev) ev entries w =
      (Ok (Some (evaluatorDir c ev ++ [v; complypackContentFile], cfg)), w') /\
    has_content c ev v (w_fs w).
Proof.
  revert w. induction entries as [|[x n] rest IH]; intros w Hf Hr ([x0 n0] & Hin & Hvis & Hc); [by apply elem_of_nil in Hin|].
  cbn [scan_entries].
  assert (~ (visible_version (x, n) /\ has_content c ev x (w_fs w)) ->
    exists e, e ∈ rest /\ visible_version e /\ has_content c ev e.1 (w_fs w)) as Hrest.
  { intros Hn. apply elem_of_cons in Hin as [[= -> ->]|?]; [by destruct Hn|]. by exists (x0, n0). }
  assert (forall w1, no_faults w1 -> w_fs w1 = w_fs w -> ~ (visible_version (x, n) /\ has_content c ev x (w_fs w)) ->
    exists v cfg w', scan_entries (evaluatorDir c ev) ev rest w1 =
      (Ok (Some (evaluatorDir c ev ++ [v; complypackContentFile], cfg)), w') /\ has_content c ev v (w_fs w)) as Hnext.
  { intros w1 Hf1 Hfs Hn. rewrite <-Hfs. apply IH; [done| |by rewrite Hfs; apply Hrest].
    intros x' n' Hx'. rewrite Hfs. apply (Hr x' n'). by right. }
  destruct (is_dir (Some n)) eqn:Ed; cbn [negb]; [|apply Hnext; [done|done|]; unfold visible_version; cbn; naive_solver congruence].
  destruct (has_prefix x ".") eqn:Ep; [apply Hnext; [done|done|]; unfold visible_version; cbn; naive_solver congruence|].
  unfold io_bind at 1. rewrite Stat_run by done.
  destruct (get (evaluatorDir c ev ++ [x; complypackContentFile]) (w_fs w)) as [y|] eqn:Ey.
  2:{ apply Hnext; [done|done|]. unfold has_content. rewrite Ey. intros [_ [? ?]]. done. }
  destruct (Hr x n) as (data & pm & cfg & Hg & Hu); [left|done|by eexists|].
  exists x, cfg. unfold io_try, io_bind, io_lift, io_ret, os_ReadFile, os_call. cbn [w_fault w_tick tick w_fs].
  rewrite Hf, Hg, Hu. eexists. split; [done|]. by eexists.
Qed.

(** The recorded version is gone, another one is there. *)
Record lost (c : ComplypackCache) (st : State) (ps : PolicyState) (n : node) : Prop := {
  lost_evaluator : EvaluatorID ps <> "" /\ ValidatePathComponent (EvaluatorID ps) = None;
  lost_recorded : EvaluatorIDToVersion (Some st) (EvaluatorID ps) = Ok (Version ps, true);
  lost_content : get (complypackDir c (EvaluatorID ps) (Version ps) ++ [complypackContentFile]) n = None;
  lost_other : exists m x, get (evaluatorDir c (EvaluatorID ps)) n = Some (Dir m) /\
    x ∈ visible_names m /\ has_content c (EvaluatorID ps) x n;
  lost_readable : forall m x, get (evaluatorDir c (EvaluatorID ps)) n = Some (Dir m) ->
    x ∈ visible_names m -> has_content c (EvaluatorID ps) x n -> readable_config c (EvaluatorID ps) x n;
}.

(** A program that only reads leaves the tree as it is. *)
Lemma reads_tree {A} (m : io A) w a w' : reads m -> m w = (a, w') -> w_fs w' = w_fs w.
Proof. intros Hm E. pose proof (reads_fs m w a w' [] Hm E) as H. cbn in H. congruence. Qed.

Lemma lookupByDirScan_hit c st ps w :
  no_faults w -> lost c st ps (w_fs w) ->
  exists v cfg w', lookupByDirScan c (EvaluatorID ps) w =
      (Ok (Some (evaluatorDir c (EvaluatorID ps) ++ [v; complypackContentFile], cfg)), w') /\
    has_content c (EvaluatorID ps) v (w_fs w).
Proof.
  intros Hf [_ _ _ (m & x & Hm & Hx & Hc) Hread]. unfold lookupByDirScan, io_bind, os_ReadDir, os_call.
  rewrite Hf, Hm. set (w1 := tick (set_fs (w_fs w) w)).
  change (w_fs w) with (w_fs w1) in Hc, Hread |- *. apply scan_entries_hit.
  - exact Hf.
  - intros y n Hin Hvis Hy. apply (Hread m y Hm); [|done]. apply list_elem_of_fmap.
    exists (y, n). split; [done|]. by apply list_elem_of_filter.
  - apply list_elem_of_fmap in Hx as ([y n] & -> & [Hvis Hin]%list_elem_of_filter). by exists (y, n).
Qed.

Lemma lost_lookup c st ps w :
  no_faults w -> lost c st ps (w_fs w) ->
  exists p cfg w', LookupByEvaluatorID c (Some st) (EvaluatorID ps) w = (Ok (Some (p, cfg)), w') /\
    no_faults w' /\ w_fs w' = w_fs w /\ is_Some (get p (w_fs w)) /\
    p <> complypackDir c (EvaluatorID ps) (Version ps) ++ [complypackContentFile].
Proof.
  intros Hf Hl. pose proof Hl as [[_ Hv] Hrec Hgone _ _].
  destruct (LookupByEvaluatorID c (Some st) (EvaluatorID ps) w) as [r w'] eqn:E.
  pose proof (no_faults_onward _ _ _ _ (LookupByEvaluatorID_onward _ _ _) E Hf) as Hf'.
  pose proof (reads_tree _ _ _ _ (preserves_LookupByEvaluatorID _ _ _ _) E) as Hfs.
  revert E. unfold LookupByEvaluatorID, io_try, io_bind, io_lift, io_ret, validate_component.
  rewrite Hv, Hrec. destruct (Lookup c (EvaluatorID ps) (Version ps) w) as [[hit|e] w1] eqn:E1.
  { apply Lookup_files in E1 as (_ & [y Hy] & _). congruence. }
  pose proof (no_faults_onward _ _ _ _ (Lookup_onward _ _ _) E1 Hf) as Hf1.
  pose proof (reads_tree _ _ _ _ (preserves_Lookup _ _ _ _) E1) as Hfs1. rewrite <-Hfs1 in Hl.
  destruct (lookupByDirScan_hit c st ps w1 Hf1 Hl) as (v & cfg & w2 & -> & Hc). intros [= <- <-].
  eexists _, cfg, w2. split_and!; [done|done|done|by rewrite <-Hfs1|].
  intros Heq. unfold has_content in Hc. rewrite Heq, Hfs1, Hgone in Hc. by destruct Hc.
Qed.
End fallback.

Section lost_pack.
  Context `{Oras} {stCodec : Codec State} {cfgCodec : Codec PackConfig} (tmp : path).

(** C34: A lost version is never fetched again.  Let the state record for a repository the
    digest that the registry resolves, under an evaluator of its own, let the content
    of the recorded version be gone from the cache while another version of the
    evaluator is there.  Then synchronising the complypack reports an up-to-date cache
    and changes no file, any number of times, and what the lookup serves for the
    evaluator is the content of another version than the one recorded. *)
Theorem lost_version_not_refetched s st r v d rv ps w :
  r <> "" -> csync_registryHost s <> "" \/ csync_verifier s = None ->
  (let '(tag, dg) := classifyVersion v in
   Src_DefinitionVersion (csync_source s) (BuildLookupRef "" r tag dg) = io_ret (Ok (d, rv))) ->
  GetComplypackState st r = Some ps -> Digest ps = d -> lost (csync_cache s) st ps (w_fs w) -> no_faults w ->
  forall n, exists w',
    Nat.iter n (fun x => SyncComplypack tmp s x.1.2 r v x.2) ((Ok false, st), w) = ((Ok false, st), w') /\
    w_fs w' = w_fs w /\
    exists p cfg, (LookupByEvaluatorID (csync_cache s) (Some st) (EvaluatorID ps) w').1 = Ok (Some (p, cfg)) /\
      p <> complypackDir (csync_cache s) (EvaluatorID ps) (Version ps) ++ [complypackContentFile].
Proof.
  intros Hr Hh Hreg Hps Hd Hl Hf n.
  assert (exists w', Nat.iter n (fun x => SyncComplypack tmp s x.1.2 r v x.2) ((Ok false, st), w) = ((Ok false, st), w') /\
    w_fs w' = w_fs w /\ no_faults w') as (w' & E & Hfs & Hf').
  { induction n as [|n (w1 & E1 & Hfs1 & Hf1)]; [by exists w|]. cbn [Nat.iter nat_rect].
    change (nat_rect _ _ _ n) with (Nat.iter n (fun x => SyncComplypack tmp s x.1.2 r v x.2) ((Ok false, st), w)).
    rewrite E1. cbn [fst snd]. rewrite <-Hfs1 in Hl.
    destruct (lost_lookup _ _ _ _ Hf1 Hl) as (p & cfg & w2 & E2 & Hf2 & Hfs2 & _).
    exists w2. split; [|split; [congruence|done]]. unfold SyncComplypack. rewrite bool_decide_eq_false_2 by done.
    replace (_ && _) with false.
    2:{ symmetry. apply andb_false_iff. destruct Hh as [Hh|Hh]; [right|left]; apply bool_decide_eq_false; [done|].
        rewrite Hh. by intros [? ?]. }
    destruct (classifyVersion v) as [tag dg]. rewrite Hreg. unfold io_bind, io_ret, complypack_up_to_date.
    rewrite Hps, bool_decide_eq_true_2 by done. unfold cacheExistsForState.
    rewrite bool_decide_eq_false_2 by apply Hl. unfold io_bind, io_ret. by rewrite E2. }
  exists w'. split; [done|]. split; [done|]. rewrite <-Hfs in Hl.
  destruct (lost_lookup _ _ _ _ Hf' Hl) as (p & cfg & w2 & E2 & _ & _ & _ & Hne). exists p, cfg. by rewrite E2.
Qed.
End lost_pack.
