(* ===== verification/Scannable.v ===== *)
(** * What get has cached, generate and scan resolve (cmd/complyctl/cli/get.go,
      internal/cache/sync.go, internal/policy/loader.go)

    An up-to-date cache is recognised by the digest in the state and the layout file of
    the store; generate and scan ask the store for a tag.  Here: a state on disk never
    records a policy under the registry's digest unless its store has the recorded tag,
    whatever fails while it is fetched; so once get succeeds the loader resolves the
    version. *)
From stdpp Require Import gmap.
From S2P Require Import Prelude GoStrings Digest OciRef World Settled State Complypack Sync Config.
From S2P Require Import Workspace Provider Generation Resolver Evaluator Report Scan Lifecycle Get.
From S2P Require Import Progress ProgressPacks Liveness Fallback.

(** The library never takes a tag from a store, and a copy leaves its tag. *)
Class TagsStay `{TagLaws} := {
  tag_dir p t n : holds_tag p t n -> is_dir (get p n) = true;
  tag_reader t :: ReaderStays (fun p w => holds_tag p t (w_fs w));
  tag_copy h r t' p t w : holds_tag p t (w_fs w) -> holds_tag p t (w_fs (oras_Copy h r t' p w).2);
  copy_tag h r t p w ds w' : oras_Copy h r t p w = (Ok ds, w') -> holds_tag p t (w_fs w');
}.

Lemma tag_MkdirAll `{TagsStay} t p : stays (fun p w => holds_tag p t (w_fs w)) p (os_MkdirAll p).
Proof.
  split; [apply store_op_MkdirAll|]. intros w Ht. unfold os_MkdirAll, os_call.
  destruct (w_fault w (w_tick w)); [done|]. by rewrite mkdir_all_id by by eapply tag_dir.
Qed.

#[local] Set Default Proof Using "All".

Section scannable.
  Context {hs : HostSyntax} {net : RegistryNetwork} `{Oras} {reader : StoreReader} {vs : Verifiers}.
  Context {stCodec : Codec State} {yaml : GemaraYAML} {tags : TagLaws} {tstay : TagsStay}.
  Context {pc : Codec PackConfig} {gc : Codec GenerationState}.
  Context (cacheDir dataDir tmp baseDir : path) (policies : list PolicyEntry) (wsCfg : option VerificationConfig).
  Local Abbreviation regions := (pack_regions cacheDir tmp baseDir).
  Local Abbreviation stores := (policy_stores cacheDir policies ++ pack_regions cacheDir tmp baseDir).
  Context {places : Places cacheDir dataDir tmp baseDir policies} {rstays : ReaderStays marker} {pstays : PartiesStay}.
  Context (pick : nat -> nat).
  (** The lemmas of [Liveness] at this workspace. *)
  Local Abbreviation our_entry_place_in := (entry_place_in cacheDir dataDir tmp baseDir policies wsCfg pick).
  Local Abbreviation our_resolveVerifier_sound := (resolveVerifier_sound cacheDir dataDir tmp baseDir policies wsCfg pick).
  Local Abbreviation our_resolveVerifier_reads := (resolveVerifier_reads cacheDir dataDir tmp baseDir policies wsCfg pick).
  Local Abbreviation our_entry_behaved := (entry_behaved cacheDir dataDir tmp baseDir policies wsCfg pick).
  Local Abbreviation our_extract_metadata_stays := (extract_metadata_stays cacheDir dataDir tmp baseDir policies wsCfg pick).
  Local Abbreviation our_syncSinglePolicy_sound := (syncSinglePolicy_sound cacheDir dataDir tmp baseDir policies wsCfg pick).
  Local Abbreviation our_LoadState_reads := (LoadState_reads cacheDir dataDir tmp baseDir policies wsCfg pick).
  Local Abbreviation our_packs_class := (packs_class cacheDir dataDir tmp baseDir policies wsCfg pick).
  Local Abbreviation our_run_phases := (run_phases cacheDir dataDir tmp baseDir policies wsCfg pick).
  Local Abbreviation our_run_settled := (run_settled cacheDir dataDir tmp baseDir policies wsCfg pick).
  Local Abbreviation our_runs_good := (runs_good cacheDir dataDir tmp baseDir policies wsCfg pick).
  Local Abbreviation our_LoadState_on_disk := (LoadState_on_disk cacheDir dataDir tmp baseDir policies wsCfg pick).
  Local Abbreviation our_no_verifiers_sound := (no_verifiers_sound cacheDir dataDir tmp baseDir policies wsCfg pick).
  (** The entry in question. *)
  Context (entry : PolicyEntry) (ref : PolicyRef) (d rv : string).
  Hypothesis entry_in : entry ∈ policies.
  Hypothesis entry_own : own_store cacheDir policies entry.
  Hypothesis entry_ref : ParsePolicyRef (PE_URL entry) = (ref, None).
  Hypothesis entry_version : let '(tag, dg) := classifyVersion (wanted_version ref) in
    DefinitionVersion (NewClient (PR_Registry ref)) (BuildLookupRef "" (PR_Repository ref) tag dg) = Ok (d, rv).
  Hypothesis rv_some : rv <> "".
  Local Abbreviation id := (PR_Repository ref).
  Local Abbreviation P := (PolicyStorePath cacheDir (PR_Repository ref)).

(** ** Records that the store bears out *)

Definition borne_out (pol : gmap string PolicyState) (w : world) : Prop :=
  forall ps, pol !! id = Some ps -> Digest ps = d -> Version ps <> "" /\ holds_tag P (Version ps) (w_fs w).

Definition disk_borne_out (w : world) : Prop := forall st data perm,
  get (dataDir ++ [StateFileName]) (w_fs w) = Some (File data perm) -> unmarshal data = Ok st ->
  borne_out (Policies st) w.

(** In memory and on disk. *)
Definition sound (pol : gmap string PolicyState) (w : world) : Prop := borne_out pol w /\ disk_borne_out w.

(** A program that leaves state.json and takes no tag. *)
Definition quiet {A} (m : io A) : Prop := forall w,
  get (dataDir ++ [StateFileName]) (w_fs (m w).2) = get (dataDir ++ [StateFileName]) (w_fs w) /\
  forall t, holds_tag P t (w_fs w) -> holds_tag P t (w_fs (m w).2).

Lemma quiet_keeps {A} (m : io A) w pol : quiet m -> sound pol w -> sound pol (m w).2.
Proof.
  intros Hm [Hp Hd]. destruct (Hm w) as [Hf Ht]. split.
  - intros ps Hps Hdg. destruct (Hp ps Hps Hdg). auto.
  - intros st data pm Hg Hu ps Hps Hdg. rewrite Hf in Hg. destruct (Hd st data pm Hg Hu ps Hps Hdg). auto.
Qed.

(** The same for a run. *)
Lemma quiet_run {A} (m : io A) w a w' pol : quiet m -> m w = (a, w') -> sound pol w -> sound pol w'.
Proof. intros Hm E. pose proof (quiet_keeps m w pol Hm) as H1. by rewrite E in H1. Qed.

(** Nothing is said about the clock. *)
Lemma sound_fs pol w w' : w_fs w' = w_fs w -> sound pol w -> sound pol w'.
Proof. intros Hfs. unfold sound, disk_borne_out, borne_out. by rewrite Hfs. Qed.

Lemma quiet_ret {A} (a : A) : quiet (io_ret a).
Proof. by intros w. Qed.

Lemma quiet_reads {A} (m : io A) : reads m -> quiet m.
Proof.
  intros Hm w. destruct (m w) as [a w'] eqn:E. cbn. by rewrite (reads_tree m w a w' Hm E).
Qed.

Lemma P_in : P ∈ stores.
Proof. by apply (our_entry_place_in entry). Qed.

(** Work on another place. *)
Lemma quiet_elsewhere {A} p (m : io A) : p ∈ stores -> diverges p P -> store_op p m -> quiet m.
Proof.
  intros Hp Hd [_ Hm] w. destruct (Hm w) as [Hf _]. split.
  - apply Hf, diverges_app, diverges_sym. by apply (stores_off_data (stores := stores)).
  - intros t. apply holds_tag_local. intros q [k ->]. apply Hf. by apply diverges_app.
Qed.

(** Work on the store of the policy itself. *)
Lemma quiet_own {A} (m : io A) :
  (forall t, stays (fun p w => holds_tag p t (w_fs w)) P m) -> quiet m.
Proof.
  intros Hm w. destruct (Hm "") as [[_ Hc] _]. split; [|intros t; apply (Hm t)].
  apply Hc, diverges_app, diverges_sym, (stores_off_data (stores := stores)), P_in.
Qed.

Lemma SaveState_sound st w pol : borne_out (Policies st) w -> sound pol w -> sound pol (SaveState st dataDir w).2.
Proof.
  intros Hst [Hp Hd]. pose proof (SaveState_outcome st dataDir w) as Hout. pose proof (preserves_SaveState st dataDir w) as Hpr.
  destruct (SaveState st dataDir w) as [r w']. cbn in *.
  assert (forall pol, borne_out pol w -> borne_out pol w') as Hpol.
  { intros pol' H1 ps Hps Hdg. destruct (H1 ps Hps Hdg) as [Hv Ht]. split; [done|]. revert Ht.
    apply holds_tag_local. intros q [k ->]. apply Hpr, diverges_app, (stores_off_data (stores := stores)), P_in. }
  split; [auto|]. intros st' data' pm Hg Hu. apply Hpol. destruct r as [u|e].
  - destruct Hout as (data & Hj & Hg'). rewrite Hg' in Hg.
    destruct (codec_roundtrip (dataDir := dataDir) (stores := stores) st) as (data2 & Hj2 & Hu2).
    by assert (st' = st) as -> by congruence.
  - rewrite Hout in Hg. by eapply Hd.
Qed.

(** ** One policy *)

Lemma own_version : version_or (wanted_version ref) rv <> "".
Proof. unfold version_or. repeat case_bool_decide; done. Qed.

(** Opening and filling the store of any policy is quiet. *)
Lemma other_diverges k : PolicyStorePath cacheDir k ∈ stores -> PolicyStorePath cacheDir k <> P ->
  diverges (PolicyStorePath cacheDir k) P.
Proof. intros Hk Hne. by destruct (stores_apart (dataDir := dataDir) _ _ Hk P_in). Qed.

Lemma quiet_open k : PolicyStorePath cacheDir k ∈ stores -> quiet (NewPolicyStore cacheDir k).
Proof.
  intros Hk. destruct (decide (PolicyStorePath cacheDir k = P)) as [Heq|Hne].
  - apply quiet_own. intros t. rewrite <- Heq.
    apply (NewPolicyStore_stays (fun p w => holds_tag p t (w_fs w))). intros p. apply tag_MkdirAll.
  - apply (quiet_elsewhere (PolicyStorePath cacheDir k)); [done|by apply other_diverges|].
    apply (NewPolicyStore_stays marker cacheDir marker_MkdirAll).
Qed.

Lemma quiet_copy c r t p : p ∈ stores -> quiet (CopyPolicy c r t p).
Proof.
  intros Hp. unfold CopyPolicy, io_try, io_bind, io_lift, io_ret.
  destruct (NewRemoteRepository c r) as [repo|e]; [|exact (quiet_ret _)].
  destruct (decide (p = P)) as [->|Hne].
  - intros w. split; [|intros t'; apply tag_copy]. destruct (Copy_stays (plainHTTP c) repo t P) as [_ Hc]. destruct (Hc w) as [Hf _].
    apply Hf, diverges_app, diverges_sym, (stores_off_data (stores := stores)), P_in.
  - apply (quiet_elsewhere p); [done| |apply Copy_stays]. by destruct (stores_apart (dataDir := dataDir) _ _ Hp P_in).
Qed.

Lemma copy_policy_tag c r t p w ds w' : CopyPolicy c r t p w = (Ok ds, w') -> holds_tag p t (w_fs w').
Proof.
  unfold CopyPolicy, io_try, io_bind, io_lift, io_ret. destruct (NewRemoteRepository c r); [apply copy_tag|done].
Qed.

(** An entry for the policy in question is the one of the registry; other entries do
    not matter. *)
Lemma sync_copy_sound s st k v dg vr w r st' w' :
  behaved (dataDir := dataDir) (stores := stores) s k -> sync_cache s = cacheDir ->
  (forall t, quiet (Src_Copy (sync_source s) k t (PolicyStorePath cacheDir k))) ->
  (k = id -> v <> "" /\ forall w ds w', Src_Copy (sync_source s) k v P w = (Ok ds, w') -> holds_tag P v (w_fs w')) ->
  sync_copy s st k v dg vr w = ((r, st'), w') -> sound (Policies st) w -> sound (Policies st') w'.
Proof.
  intros Hb Hcache Hq Hown Hrun Hs. unfold sync_copy, sync_fail, io_bind, io_ret in Hrun. rewrite Hcache in Hrun.
  pose proof (behaved_store _ _ Hb) as Hk. rewrite Hcache in Hk.
  destruct (NewPolicyStore cacheDir k w) as [[p|e] w1] eqn:E1.
  2:{ simplify_eq. by eapply quiet_run; [apply (quiet_open k)| |]. }
  pose proof (quiet_run _ _ _ _ _ (quiet_open k Hk) E1 Hs) as Hs1. apply NewPolicyStore_path in E1 as ->.
  destruct (Src_Copy _ _ _ _ w1) as [[ds|e] w2] eqn:E2.
  2:{ simplify_eq. by eapply quiet_run. }
  pose proof (quiet_run _ _ _ _ _ (Hq v) E2 Hs1) as [Hp2 Hd2].
  destruct (time_Now w2) as [n1 w3] eqn:E3, (time_Now w3) as [n2 w4] eqn:E4.
  assert (w_fs w4 = w_fs w2) as Hfs by (unfold time_Now in *; by simplify_eq).
  assert (sound (Policies st) w4) as Hs4 by by apply (sound_fs _ w2).
  unfold UpdatePolicyStateWithVerification in Hrun. destruct (ValidateDigest dg); [by simplify_eq|].
  set (st1 := MkState _ _ _) in Hrun. rewrite (behaved_data _ _ Hb) in Hrun.
  assert (borne_out (Policies st1) w4) as Hst1.
  { intros ps Hps Hdg. cbn in Hps. destruct (decide (k = id)) as [->|Hne].
    - rewrite lookup_insert_eq in Hps. simplify_eq. destruct (Hown eq_refl) as [Hv Ht].
      assert (Version (mk_entry v dg "" n1 vr) = v) as -> by by destruct vr. rewrite Hfs. eauto.
    - rewrite lookup_insert_ne in Hps by done. by apply Hs4. }
  pose proof (SaveState_sound st1 w4 (Policies st1) Hst1 (conj Hst1 (proj2 Hs4))) as HS.
  destruct (SaveState st1 dataDir w4) as [[u|e] w5]; by simplify_eq.
Qed.

Lemma SyncPolicy_sound r verifier st w res st' w' :
  PolicyStorePath cacheDir (PR_Repository r) ∈ stores ->
  (PR_Repository r = id -> r = ref) ->
  behaved (dataDir := dataDir) (stores := stores) (entry_sync cacheDir dataDir r verifier) (PR_Repository r) ->
  SyncPolicy (entry_sync cacheDir dataDir r verifier) st (PR_Repository r) (wanted_version r) w = ((res, st'), w') ->
  sound (Policies st) w -> sound (Policies st') w'.
Proof.
  intros Hin Hsame Hb Hrun Hs.
  pose proof entry_version as Hver.
  destruct (classifyVersion (wanted_version r)) as [tag dg] eqn:Ec.
  revert Hrun. unfold SyncPolicy, sync_fail, io_bind, io_ret. rewrite Ec.
  case_bool_decide; [by intros; simplify_eq|]. destruct (_ && _); [by intros; simplify_eq|].
  unfold entry_sync in *.
  set (s := NewSync _ _ _ _ _) in *.
  assert (sync_cache s = cacheDir /\ sync_source s = RegistrySource (NewClient (PR_Registry r))) as [Hcache Hsrc].
  { unfold s, NewSync. by destruct (SplitHostScheme _). }
  rewrite Hsrc in *. cbn [Src_DefinitionVersion RegistrySource]. unfold io_lift, io_ret.
  destruct (DefinitionVersion _ _) as [[d' rv']|e] eqn:Ed.
  2:{ destruct (error_is _ _); by intros; simplify_eq. }
  destruct (policy_up_to_date _ _ _ _ w) as [up w1] eqn:E1.
  pose proof (sound_fs _ _ _ (reads_tree _ _ _ _ (policy_up_to_date_reads _ _ _ _) E1) Hs) as Hs1.
  destruct up; [by intros; simplify_eq|].
  destruct (run_verifier _ _ _ w1) as [rr w2] eqn:E2.
  assert (reads (run_verifier (sync_verifier s) (BuildLookupRef (sync_registryHost s) (PR_Repository r) tag dg) (sync_insecure s))) as Hr.
  { unfold run_verifier. destruct (sync_verifier s) as [vf|] eqn:Ev; [|apply preserves_ret].
    apply preserves_try; [by eapply behaved_verifier|]. intros. apply preserves_ret. }
  pose proof (sound_fs _ _ _ (reads_tree _ _ _ _ Hr E2) Hs1) as Hs2.
  destruct rr as [vr|e]; [|by intros; simplify_eq].
  intros Hc. eapply sync_copy_sound; [exact Hb|done| | |exact Hc|exact Hs2]; rewrite Hsrc; cbn [Src_Copy RegistrySource].
  - intros t. by apply quiet_copy.
  - intros Hid. rewrite (Hsame Hid) in *. rewrite Ec, Ed in Hver. simplify_eq. split; [apply own_version|].
    apply copy_policy_tag.
Qed.

Lemma extract_metadata_quiet st k fetched :
  PolicyStorePath cacheDir k ∈ stores -> quiet (extract_metadata (loader := Loader cacheDir) st k fetched).
Proof.
  intros Hk. destruct (decide (PolicyStorePath cacheDir k = P)) as [Heq|Hne].
  - apply quiet_own. intros t. rewrite <- Heq. unfold extract_metadata.
    destruct (_ || _); [|apply stays_ret]. apply stays_bind; [|intros _ ? _ _; apply stays_ret].
    apply (ExtractPolicyMetadata_stays (fun p w => holds_tag p t (w_fs w))). intros p. apply tag_MkdirAll.
  - apply (quiet_elsewhere (PolicyStorePath cacheDir k)); [done|by apply other_diverges|].
    by apply our_extract_metadata_stays.
Qed.

(** Metadata changes neither versions nor digests. *)
Lemma SetPolicyMetadata_borne st k a b c e w :
  borne_out (Policies st) w -> borne_out (Policies (SetPolicyMetadata st k a b c e)) w.
Proof.
  intros Hp ps. unfold SetPolicyMetadata. destruct (Policies st !! k) as [ps0|] eqn:E; [|apply Hp]. cbn.
  destruct (decide (k = id)) as [->|Hne]; [rewrite lookup_insert_eq|rewrite lookup_insert_ne by done; apply Hp].
  intros [= <-] Hdg. by apply (Hp ps0).
Qed.

Lemma extract_metadata_sound st k fetched w st' w' :
  PolicyStorePath cacheDir k ∈ stores -> extract_metadata (loader := Loader cacheDir) st k fetched w = (st', w') ->
  sound (Policies st) w -> sound (Policies st') w'.
Proof.
  intros Hk E Hs. pose proof (quiet_run _ _ _ _ _ (extract_metadata_quiet st k fetched Hk) E Hs) as [Hp Hd].
  split; [|done]. revert E. unfold extract_metadata, io_bind, io_ret. destruct (_ || _); [|intros; by simplify_eq].
  destruct (ExtractPolicyMetadata _ _ w) as [[m|e] w1]; intros; simplify_eq; [by apply SetPolicyMetadata_borne|done].
Qed.

(** ** The command *)

Local Abbreviation one := (fun entry s => syncSinglePolicy (loader := Loader cacheDir) cacheDir dataDir entry wsCfg s).

Lemma syncSinglePolicy_bears e s w r s' w' :
  e ∈ policies -> verifiers_sound (gs_verifiers s) -> one e s w = ((r, s'), w') ->
  sound (Policies (gs_state s)) w -> sound (Policies (gs_state s')) w'.
Proof.
  intros Hin Hvs. unfold syncSinglePolicy.
  destruct (ParsePolicyRef (PE_URL e)) as [re [er|]] eqn:Href; [by intros [= <- <- <-]|].
  pose proof (our_entry_place_in e re Hin Href) as Hp.
  unfold io_bind, io_ret. destruct (resolveVerifier e wsCfg (gs_verifiers s) w) as [[rv0 c] w1] eqn:E1.
  destruct (our_resolveVerifier_sound _ _ _ _ _ _ Hvs E1) as [_ Hv].
  destruct (our_resolveVerifier_reads e (gs_verifiers s)) as [Hr _]. intros Hrun Hs.
  apply (sound_fs _ _ _ (reads_tree _ _ _ _ Hr E1)) in Hs.
  destruct rv0 as [verifier|er]; [|by simplify_eq].
  assert (behaved (dataDir := dataDir) (stores := stores) (entry_sync cacheDir dataDir re verifier) (PR_Repository re)) as Hb.
  { apply (our_entry_behaved e); [done|done|]. intros vf ->. destruct (Hv vf eq_refl) as (cfg & _ & _ & ?). by exists cfg. }
  assert (PR_Repository re = id -> re = ref) as Hsame.
  { intros Hid. assert (e = entry) as -> by (apply entry_own; [done|]; unfold entry_store; by rewrite Href, entry_ref, Hid).
    congruence. }
  cbn [gs_state] in Hrun. destruct (SyncPolicy _ _ _ _ w1) as [[r2 st] w2] eqn:E2.
  apply (SyncPolicy_sound re verifier) in E2; [|done|done|done|done].
  destruct r2 as [fetched|er]; [|by simplify_eq].
  destruct (extract_metadata _ _ _ w2) as [st2 w3] eqn:E3. simplify_eq. by eapply extract_metadata_sound.
Qed.

Lemma attempts_bear entries s w rs s' w' :
  attempts one entries s w rs s' w' ->
  (forall e, e ∈ entries -> e ∈ policies) -> verifiers_sound (gs_verifiers s) ->
  sound (Policies (gs_state s)) w -> sound (Policies (gs_state s')) w'.
Proof.
  induction 1 as [|e rest s w r s1 w1 rs s2 w2 Hone _ IH]; [done|]. intros Hall Hc Hs. apply IH.
  - intros x Hx. apply Hall. by right.
  - by eapply our_syncSinglePolicy_sound.
  - eapply syncSinglePolicy_bears; [apply Hall; left|exact Hc|exact Hone|exact Hs].
Qed.

(** The state that is loaded is as good as the disk. *)
Lemma LoadState_bears w r w' :
  LoadState dataDir w = (r, w') -> disk_borne_out w ->
  w_fs w' = w_fs w /\ forall st, r = Ok st -> sound (Policies st) w'.
Proof.
  intros E Hd. pose proof (reads_tree _ _ _ _ (proj1 (our_LoadState_reads dataDir)) E) as Hfs.
  split; [done|]. intros st ->. apply (sound_fs _ w); [done|]. split; [|done]. revert E.
  unfold LoadState, os_ReadFile, os_call, not_exist, io_bind, io_ret.
  assert (borne_out (Policies State_fresh) w) as Hfresh by (intros ps Hps; by destruct (lookup_empty_Some (M := gmap string) id ps)).
  destruct (w_fault w (w_tick w)) as [e|]; [cbn; destruct (error_is e ErrNotExist); intros; by simplify_eq|].
  destruct (get _ (w_fs w)) as [[data pm|m]|] eqn:Eg; cbn; [|repeat case_bool_decide; intros; by simplify_eq..].
  destruct (unmarshal data) as [st0|e] eqn:Eu; intros; simplify_eq.
  intros ps Hps. apply (Hd st0 data pm Eg Eu). by apply map_lookup_filter_Some in Hps as [Hps _].
Qed.

Lemma syncPolicies_bears creds cfg c w :
  WC_Policies cfg = policies -> verifiers_sound c -> disk_borne_out w ->
  disk_borne_out (syncPolicies (loader := Loader cacheDir) creds cacheDir dataDir cfg wsCfg c w).2.
Proof.
  intros Hp Hc Hd. unfold syncPolicies. rewrite Hp. unfold io_bind at 1.
  destruct (LoadState dataDir w) as [r w1] eqn:E1. apply LoadState_bears in E1 as [Hfs Hs]; [|done].
  assert (disk_borne_out w1) as Hd1 by (unfold disk_borne_out, borne_out in *; by rewrite Hfs).
  destruct r as [st|e]; [|done]. destruct creds; [|done]. specialize (Hs st eq_refl).
  unfold syncAllPolicies, io_bind, io_ret.
  pose proof (sync_each_attempts one policies (MkGetState st c) w1) as Hat.
  destruct (sync_each one policies _ w1) as [[es s2] w2]. destruct Hat as (rs & Hat & _ & _).
  apply attempts_bear in Hat as [Hp2 Hd2]; [|done|done|done].
  pose proof (SaveState_sound (gs_state s2) w2 _ Hp2 (conj Hp2 Hd2)) as [_ Hd3]. cbn [fst snd].
  by destruct (SaveState _ _ w2).
Qed.

(** Complypacks work elsewhere and save the policies they found. *)
Definition bears (pol : gmap string PolicyState) (A : Type) (m : io A) : Prop :=
  forall w, sound pol w -> sound pol (m w).2.

Lemma bears_packs pol : pack_class dataDir regions pol (bears pol).
Proof.
  split.
  - by intros A a w.
  - intros A B m k Hm Hk w Hs. specialize (Hm w Hs). unfold io_bind. destruct (m w) as [a w1] eqn:E. by apply (Hk w a w1 E).
  - intros A m [Hm _] w. by apply quiet_keeps, quiet_reads.
  - intros A p m Hp Hm w. apply quiet_keeps, (quiet_elsewhere p); [|by apply (places_apart (dataDir := dataDir)); [|eapply entry_store_in]|done].
    apply elem_of_app. by right.
  - intros st <- w Hs. by apply SaveState_sound; [apply Hs|].
Qed.

Lemma syncComplypacks_bears creds cfg c w :
  verifiers_sound c -> disk_borne_out w ->
  disk_borne_out (syncComplypacks tmp creds cacheDir dataDir baseDir cfg wsCfg c w).2.
Proof.
  intros Hc Hd. unfold syncComplypacks. case_bool_decide; [done|]. unfold io_bind at 1.
  destruct (LoadState dataDir w) as [r w1] eqn:E1. apply LoadState_bears in E1 as [Hfs Hs]; [|done].
  assert (disk_borne_out w1) as Hd1 by (unfold disk_borne_out, borne_out in *; by rewrite Hfs).
  destruct r as [st|e]; [|done]. destruct creds; [|done]. specialize (Hs st eq_refl).
  unfold syncAllComplypacks, io_bind, io_ret.
  pose proof (our_packs_class (Policies st) _ (WC_Complypacks cfg) (MkGetState st c) (bears_packs _) eq_refl Hc w1 Hs) as [_ H2].
  by destruct (sync_each _ _ _ w1).
Qed.

Section runs.
  Context (cfg : WorkspaceConfig) (skipVerify : bool).
  Hypothesis cfg_policies : WC_Policies cfg = policies.
  Hypothesis cfg_verification : wsCfg = if skipVerify then None else WC_Verification cfg.

Local Abbreviation run := (get_run (loader := Loader cacheDir) tmp (Ok tt) cacheDir dataDir baseDir cfg skipVerify).

Lemma run_bears w : disk_borne_out w -> disk_borne_out (run w).2.
Proof.
  intros Hd. pose proof (our_run_phases cfg skipVerify cfg_policies cfg_verification w) as E.
  pose proof (syncPolicies_bears (Ok tt) cfg _ w cfg_policies our_no_verifiers_sound Hd) as Hd1.
  destruct (syncPolicies _ _ _ _ _ _ w) as [[err c] w1]. destruct E as [Hc ->]. cbn [snd] in Hd1.
  pose proof (syncComplypacks_bears (Ok tt) cfg c w1 Hc Hd1) as Hd2.
  by destruct (syncComplypacks _ _ _ _ _ _ _ _ w1).
Qed.

Lemma runs_bear n w : disk_borne_out w -> disk_borne_out (Nat.iter n (fun w => (run w).2) w).
Proof. intros Hd. induction n as [|n IH]; [done|]. by apply run_bears. Qed.

End runs.
End scannable.
