(* ===== verification/Time.v ===== *)
(** * Date and time values (internal/doctor/doctor.go parseDatetime)

    The part of [time.Parse] that the three layouts of [parseDatetime] use, on
    the proleptic Gregorian calendar.  An instant is a number of nanoseconds
    since the Unix epoch, as the clock of a world counts them. *)
From S2P Require Import Prelude GoStrings.

Open Scope Z_scope.

(** ** The calendar *)

Definition is_leap (y : Z) : bool :=
  (y mod 4 =? 0) && (negb (y mod 100 =? 0) || (y mod 400 =? 0)).

Definition daysIn (m y : Z) : Z :=
  if m =? 2 then (if is_leap y then 29 else 28)
  else if (m =? 4) || (m =? 6) || (m =? 9) || (m =? 11) then 30 else 31.

(** The number of the day [d] of month [m] of year [y], from 1970-01-01 on;
    years are counted from March, so that the leap day comes last. *)
Definition day_number (y m d : Z) : Z :=
  let y' := if m <=? 2 then y - 1 else y in
  let m' := if m <=? 2 then m + 9 else m - 3 in
  365 * y' + y' / 4 - y' / 100 + y' / 400 + (153 * m' + 2) / 5 + d - 1 - 719468.

Definition nano : Z := 1000000000.

(** [time.Date] in UTC. *)
Definition instant (y mo d h mi s ns : Z) : Z :=
  (((day_number y mo d * 24 + h) * 60 + mi) * 60 + s) * nano + ns.

(** ** Layouts *)

(** The elements of the layouts in use ([nextStdChunk]): a literal byte, the
    long year, the zero-padded fields and the ISO 8601 zone with a colon. *)
Inductive chunk : Set :=
  | Lit (c : ascii) | LongYear | ZeroMonth | ZeroDay | Hour | ZeroMinute | ZeroSecond | ColonTZ.

Definition DateOnly : list chunk := [LongYear; Lit "-"; ZeroMonth; Lit "-"; ZeroDay].
Definition DateTimeT : list chunk :=
  DateOnly ++ [Lit "T"; Hour; Lit ":"; ZeroMinute; Lit ":"; ZeroSecond].
Definition RFC3339 : list chunk := DateTimeT ++ [ColonTZ].

Record fields := MkFields {
  f_year : Z; f_month : Z; f_day : Z; f_hour : Z; f_min : Z; f_sec : Z; f_nsec : Z; f_zone : Z }.

Definition fields_zero : fields := MkFields 0 0 0 0 0 0 0 0.

Definition digit_value (c : ascii) : Z := Z.of_nat (byte_of c - byte_of "0").

(** [getnum]: one or two digits; two when [fixed]. *)
Definition getnum (fixed : bool) (s : string) : option (Z * string) :=
  match s with
  | String a s' =>
      if negb (is_digit a) then None
      else match s' with
           | String b s'' =>
               if is_digit b then Some (10 * digit_value a + digit_value b, s'')
               else if fixed then None else Some (digit_value a, s')
           | EmptyString => if fixed then None else Some (digit_value a, s')
           end
  | EmptyString => None
  end.

(** A number in a range, else a range error. *)
Definition ranged (lo hi : Z) (r : option (Z * string)) : option (Z * string) :=
  match r with
  | Some (n, s) => if (lo <=? n) && (n <=? hi) then Some (n, s) else None
  | None => None
  end.

(** Four digits. *)
Definition getyear (s : string) : option (Z * string) :=
  match getnum true s with
  | Some (hi, s') => match getnum true s' with
                     | Some (lo, s'') => Some (100 * hi + lo, s'')
                     | None => None
                     end
  | None => None
  end.

(** [parseNanoseconds]: the digits after the point; those beyond the ninth are
    read and dropped. *)
Fixpoint fraction (scale : Z) (s : string) : Z * string :=
  match s with
  | String c s' => if is_digit c then let '(n, rest) := fraction (scale / 10) s' in
                                      (digit_value c * scale + n, rest)
                   else (0, s)
  | EmptyString => (0, EmptyString)
  end.

(** A fractional second is accepted after the seconds though no layout has one. *)
Definition opt_fraction (s : string) : Z * string :=
  match s with
  | String p (String d s') =>
      if in_set ".," p && is_digit d then fraction (nano / 10) (String d s') else (0, s)
  | _ => (0, s)
  end.

(** The offset of a zone: [Z], or a sign, two digits, a colon and two digits. *)
Definition getzone (s : string) : option (Z * string) :=
  match s with
  | String "Z" s' => Some (0, s')
  | String sign s' =>
      match ranged 0 24 (getnum true s') with
      | Some (hr, String ":" s'') =>
          match ranged 0 60 (getnum true s'') with
          | Some (mm, s''') =>
              let off := (hr * 60 + mm) * 60 in
              if Ascii.eqb sign "+" then Some (off, s''')
              else if Ascii.eqb sign "-" then Some (- off, s''')
              else None
          | None => None
          end
      | _ => None
      end
  | EmptyString => None
  end.

Definition parse_chunk (k : chunk) (f : fields) (s : string) : option (fields * string) :=
  let '(MkFields y mo d h mi sc ns z) := f in
  match k with
  | Lit c => match s with String c' s' => if Ascii.eqb c' c then Some (f, s') else None | _ => None end
  | LongYear => (fun r => (MkFields r.1 mo d h mi sc ns z, r.2)) <$> getyear s
  | ZeroMonth => (fun r => (MkFields y r.1 d h mi sc ns z, r.2)) <$> ranged 1 12 (getnum true s)
  | ZeroDay => (fun r => (MkFields y mo r.1 h mi sc ns z, r.2)) <$> getnum true s
  | Hour => (fun r => (MkFields y mo d r.1 mi sc ns z, r.2)) <$> ranged 0 23 (getnum false s)
  | ZeroMinute => (fun r => (MkFields y mo d h r.1 sc ns z, r.2)) <$> ranged 0 59 (getnum true s)
  | ZeroSecond =>
      match ranged 0 59 (getnum true s) with
      | Some (n, s') => let '(frac, s'') := opt_fraction s' in Some (MkFields y mo d h mi n frac z, s'')
      | None => None
      end
  | ColonTZ => (fun r => (MkFields y mo d h mi sc ns r.1, r.2)) <$> getzone s
  end.

Fixpoint parse_chunks (l : list chunk) (f : fields) (s : string) : option (fields * string) :=
  match l with
  | [] => Some (f, s)
  | k :: l' => match parse_chunk k f s with
               | Some (f', s') => parse_chunks l' f' s'
               | None => None
               end
  end.

(** [time.Parse] at one of the layouts: everything must be read, and the day
    must exist in its month. *)
Definition time_Parse (layout : list chunk) (s : string) : option Z :=
  match parse_chunks layout fields_zero s with
  | Some (f, EmptyString) =>
      if (1 <=? f_day f) && (f_day f <=? daysIn (f_month f) (f_year f))
      then Some (instant (f_year f) (f_month f) (f_day f) (f_hour f) (f_min f) (f_sec f) (f_nsec f)
                 - f_zone f * nano)
      else None
  | _ => None
  end.

Definition parseDatetime (s : string) : result Z :=
  match find_first (fun r => bool_decide (is_Some r))
          ((fun layout => time_Parse layout s) <$> [RFC3339; DateTimeT; DateOnly]) with
  | Some (Some t) => Ok t
  | _ => Err (Errorf ("unsupported datetime format: " +:+ s))
  end.

Example parse_epoch : parseDatetime "1970-01-01" = Ok 0.
Proof. reflexivity. Qed.
Example parse_zone : parseDatetime "2000-03-01T00:30:00.25+01:00" =
  parseDatetime "2000-02-29T23:30:00.250Z".
Proof. reflexivity. Qed.
Example parse_feb_30 : is_ok (parseDatetime "2024-02-30") = false.
Proof. reflexivity. Qed.

(** ** Facts *)

Lemma div_pred y k : 0 < k -> y / k = (y - 1) / k + (if y mod k =? 0 then 1 else 0).
Proof. intros Hk. destruct (Z.eqb_spec (y mod k) 0); Z.to_euclidean_division_equations; nia. Qed.

(** Decide the conditions that are closed. *)
Ltac eval_ifs :=
  repeat match goal with
  | |- context [if ?c then _ else _] =>
      let v := eval vm_compute in c in
      match v with true => change c with true | false => change c with false end; cbn iota
  end.

(** Days are numbered without gap or overlap: the first of a month follows the
    last day of the month before. *)
Lemma day_number_month y m : 1 <= m < 12 -> day_number y (m + 1) 1 = day_number y m (daysIn m y) + 1.
Proof.
  intros Hm. assert (m = 1 \/ m = 2 \/ m = 3 \/ m = 4 \/ m = 5 \/ m = 6 \/ m = 7 \/ m = 8 \/ m = 9 \/
    m = 10 \/ m = 11) as Hc by lia.
  destruct Hc as [->|[->|[->|[->|[->|[->|[->|[->|[->|[->| ->]]]]]]]]]];
    unfold day_number, daysIn, is_leap; eval_ifs;
    try (Z.to_euclidean_division_equations; lia).
  rewrite (div_pred y 4), (div_pred y 100), (div_pred y 400) by lia.
  change ((153 * (2 + 1 - 3) + 2) / 5) with 0. change ((153 * (2 + 9) + 2) / 5) with 337.
  assert (y mod 100 = 0 -> y mod 4 = 0) by (Z.to_euclidean_division_equations; lia).
  assert (y mod 400 = 0 -> y mod 100 = 0) by (Z.to_euclidean_division_equations; lia).
  destruct (Z.eqb_spec (y mod 4) 0), (Z.eqb_spec (y mod 100) 0), (Z.eqb_spec (y mod 400) 0);
    simpl; lia.
Qed.

Lemma day_number_year y : day_number (y + 1) 1 1 = day_number y 12 31 + 1.
Proof. unfold day_number. cbn -[Z.div Z.mul Z.add Z.sub]. Z.to_euclidean_division_equations. lia. Qed.

(** A day that exists. *)
Definition valid_date (y m d : Z) : Prop := 1 <= m <= 12 /\ 1 <= d <= daysIn m y.
Definition valid_time (h mi s : Z) : Prop := 0 <= h < 24 /\ 0 <= mi < 60 /\ 0 <= s < 60.

Lemma day_number_day y m d : day_number y m d = day_number y m 1 + d - 1.
Proof. unfold day_number. lia. Qed.

Lemma daysIn_range m y : 28 <= daysIn m y <= 31.
Proof. unfold daysIn. repeat case_match; lia. Qed.

Lemma day_number_months y m k : 1 <= m -> 0 <= k -> m + k <= 12 -> day_number y m 1 + 28 * k <= day_number y (m + k) 1.
Proof.
  intros Hm Hk. revert m Hm. pattern k. apply natlike_ind; [|intros j Hj IH|done]; intros m Hm H.
  - rewrite (Z.add_0_r m). lia.
  - specialize (IH (m + 1) ltac:(lia) ltac:(lia)). replace (m + Z.succ j) with (m + 1 + j) by lia.
    rewrite day_number_month in IH by lia. rewrite (day_number_day y m (daysIn m y)) in IH.
    pose proof (daysIn_range m y). lia.
Qed.

Lemma day_number_years y k : 0 <= k -> day_number y 1 1 + k <= day_number (y + k) 1 1.
Proof.
  intros Hk. pattern k. apply natlike_ind; [|intros j Hj IH|done]; [rewrite (Z.add_0_r y); lia|].
  replace (y + Z.succ j) with (y + j + 1) by lia. rewrite day_number_year, (day_number_day (y + j) 12 31).
  pose proof (day_number_months (y + j) 1 11 ltac:(lia) ltac:(lia) ltac:(lia)).
  change (1 + 11) with 12 in *. unfold daysIn in *. simpl in *. lia.
Qed.

(** The order of instants is the order of calendars. *)
Lemma day_number_lt y m d y' m' d' :
  valid_date y m d -> valid_date y' m' d' ->
  y < y' \/ y = y' /\ (m < m' \/ m = m' /\ d < d') -> day_number y m d < day_number y' m' d'.
Proof.
  intros [Hm Hd] [Hm' Hd'] Hlt. rewrite (day_number_day y), (day_number_day y').
  assert (y < y' -> day_number y m 1 + daysIn m y <= day_number y' 1 1) as Hy.
  { intros Hy. pose proof (day_number_years (y + 1) (y' - (y + 1)) ltac:(lia)) as H1.
    replace (y + 1 + (y' - (y + 1))) with y' in H1 by lia.
    rewrite day_number_year, (day_number_day y 12 31) in H1.
    destruct (decide (m = 12)) as [->|Hne]; [unfold daysIn; simpl; lia|].
    pose proof (day_number_month y m ltac:(lia)) as H2. rewrite (day_number_day y m (daysIn m y)) in H2.
    pose proof (day_number_months y (m + 1) (12 - (m + 1)) ltac:(lia) ltac:(lia) ltac:(lia)) as H3.
    replace (m + 1 + (12 - (m + 1))) with 12 in H3 by lia. lia. }
  destruct Hlt as [Hlt|[-> [Hlt|[-> Hlt]]]].
  - pose proof (day_number_months y' 1 (m' - 1) ltac:(lia) ltac:(lia) ltac:(lia)) as H1. replace (1 + (m' - 1)) with m' in H1 by lia. lia.
  - pose proof (day_number_month y' m ltac:(lia)) as H2. rewrite (day_number_day y' m (daysIn m y')) in H2.
    pose proof (day_number_months y' (m + 1) (m' - (m + 1)) ltac:(lia) ltac:(lia) ltac:(lia)) as H1.
    replace (m + 1 + (m' - (m + 1))) with m' in H1 by lia. lia.
  - lia.
Qed.

(** ** Reading what is written *)

Definition digit_char (n : Z) : ascii := ascii_of_nat (48 + Z.to_nat n).
Definition pad2 (n : Z) : string := String (digit_char (n / 10)) (String (digit_char (n mod 10)) "").
Definition date_text (y m d : Z) : string :=
  pad2 (y / 100) +:+ pad2 (y mod 100) +:+ "-" +:+ pad2 m +:+ "-" +:+ pad2 d.
Definition time_text (h mi s : Z) : string := pad2 h +:+ ":" +:+ pad2 mi +:+ ":" +:+ pad2 s.
Definition zone_text (negative : bool) (hh mm : Z) : string :=
  (if negative then "-" else "+") +:+ pad2 hh +:+ ":" +:+ pad2 mm.

Lemma getnum_pad2 fixed n rest : 0 <= n < 100 -> getnum fixed (pad2 n +:+ rest) = Some (n, rest).
Proof.
  intros Hn. unfold pad2.
  assert (0 <= n / 10 < 10) by (Z.to_euclidean_division_equations; lia).
  assert (0 <= n mod 10 < 10) by (Z.to_euclidean_division_equations; lia).
  rewrite (Z.div_mod n 10) at 3 by lia.
  generalize dependent (n / 10). generalize dependent (n mod 10). intros b Hb a Ha.
  assert (exists i, a = Z.of_nat i /\ (i < 10)%nat) as (i & -> & Hi) by (exists (Z.to_nat a); lia).
  assert (exists j, b = Z.of_nat j /\ (j < 10)%nat) as (j & -> & Hj) by (exists (Z.to_nat b); lia).
  do 10 (destruct i as [|i]; [clear Ha Hi; do 10 (destruct j as [|j]; [reflexivity|]); lia|]). lia.
Qed.

Lemma ranged_pad2 lo hi fixed n rest :
  0 <= lo -> lo <= n <= hi -> hi < 100 -> ranged lo hi (getnum fixed (pad2 n +:+ rest)) = Some (n, rest).
Proof.
  intros. rewrite getnum_pad2 by lia. simpl.
  by rewrite (proj2 (Z.leb_le lo n)), (proj2 (Z.leb_le n hi)) by lia.
Qed.

Lemma getyear_text y rest :
  0 <= y < 10000 -> getyear (pad2 (y / 100) +:+ pad2 (y mod 100) +:+ rest) = Some (y, rest).
Proof.
  intros Hy. unfold getyear. rewrite getnum_pad2 by (Z.to_euclidean_division_equations; lia).
  rewrite getnum_pad2 by (Z.to_euclidean_division_equations; lia).
  do 2 f_equal. Z.to_euclidean_division_equations; lia.
Qed.

Lemma parse_date_text y m d rest :
  0 <= y < 10000 -> valid_date y m d ->
  parse_chunks DateOnly fields_zero (date_text y m d +:+ rest) =
    Some (MkFields y m d 0 0 0 0 0, rest).
Proof.
  intros Hy [Hm Hd]. pose proof (daysIn_range m y). unfold date_text. rewrite !append_assoc.
  cbn -[pad2 getnum ranged getyear]. rewrite getyear_text by done.
  cbn -[pad2 getnum ranged getyear]. rewrite ranged_pad2 by lia.
  cbn -[pad2 getnum ranged getyear]. by rewrite getnum_pad2 by lia.
Qed.

Lemma parse_chunks_app l1 l2 f s :
  parse_chunks (l1 ++ l2) f s =
    match parse_chunks l1 f s with Some (f', s') => parse_chunks l2 f' s' | None => None end.
Proof.
  revert f s. induction l1 as [|k l1 IH]; intros f s; simpl; [done|].
  destruct (parse_chunk k f s) as [[f' s']|]; [apply IH|done].
Qed.

Lemma parse_time_text y m d h mi s rest :
  valid_time h mi s -> opt_fraction rest = (0, rest) ->
  parse_chunks [Lit "T"; Hour; Lit ":"; ZeroMinute; Lit ":"; ZeroSecond]
    (MkFields y m d 0 0 0 0 0) ("T" +:+ time_text h mi s +:+ rest) =
  Some (MkFields y m d h mi s 0 0, rest).
Proof.
  intros (Hh & Hmi & Hs) Hr. unfold time_text. rewrite !append_assoc.
  cbn -[pad2 getnum ranged opt_fraction]. rewrite ranged_pad2 by lia.
  cbn -[pad2 getnum ranged opt_fraction]. rewrite ranged_pad2 by lia.
  cbn -[pad2 getnum ranged opt_fraction]. rewrite ranged_pad2 by lia. by rewrite Hr.
Qed.

Lemma getzone_text negative hh mm rest :
  0 <= hh <= 24 -> 0 <= mm <= 60 ->
  getzone (zone_text negative hh mm +:+ rest) =
    Some ((if negative then -1 else 1) * ((hh * 60 + mm) * 60), rest).
Proof.
  intros Hh Hm. unfold zone_text. rewrite !append_assoc.
  destruct negative; cbn -[pad2 getnum ranged Z.mul Z.add];
    rewrite ranged_pad2 by lia; cbn -[pad2 getnum ranged Z.mul Z.add];
    rewrite ranged_pad2 by lia; do 2 f_equal; lia.
Qed.

Lemma time_Parse_fields layout s f :
  parse_chunks layout fields_zero s = Some (f, "") -> valid_date (f_year f) (f_month f) (f_day f) ->
  time_Parse layout s =
    Some (instant (f_year f) (f_month f) (f_day f) (f_hour f) (f_min f) (f_sec f) (f_nsec f)
          - f_zone f * nano).
Proof.
  intros Hp [_ Hd]. unfold time_Parse. rewrite Hp.
  by rewrite (proj2 (Z.leb_le _ _)), (proj2 (Z.leb_le _ _)) by lia.
Qed.

Section written.
  Context (y m d h mi s : Z) (Hy : 0 <= y < 10000) (Hd : valid_date y m d) (Ht : valid_time h mi s).

Let local := date_text y m d +:+ "T" +:+ time_text h mi s.

Lemma parse_local_text rest :
  opt_fraction rest = (0, rest) ->
  parse_chunks DateTimeT fields_zero (local +:+ rest) = Some (MkFields y m d h mi s 0 0, rest).
Proof using Hy Hd Ht.
  intros Hr. unfold DateTimeT, local. rewrite parse_chunks_app, !append_assoc.
  rewrite parse_date_text by done. by rewrite parse_time_text.
Qed.

Lemma parse_zoned_text zone off :
  opt_fraction zone = (0, zone) -> getzone zone = Some (off, "") ->
  time_Parse RFC3339 (local +:+ zone) = Some (instant y m d h mi s 0 - off * nano).
Proof using Hy Hd Ht.
  intros Hz1 Hz2. apply (time_Parse_fields _ _ (MkFields y m d h mi s 0 off)); [|done].
  unfold RFC3339. rewrite parse_chunks_app, parse_local_text by done.
  cbn -[getzone]. by rewrite Hz2.
Qed.

(** Every existing date and time is read back as its instant from each of the
    notations a policy may use: with a zone, without one (UTC) and the date
    alone (midnight UTC). *)
Lemma parseDatetime_written negative hh mm :
  0 <= hh <= 24 -> 0 <= mm <= 60 ->
  parseDatetime (local +:+ zone_text negative hh mm) =
    Ok (instant y m d h mi s 0 - (if negative then -1 else 1) * ((hh * 60 + mm) * 60) * nano) /\
  parseDatetime (local +:+ "Z") = Ok (instant y m d h mi s 0) /\
  parseDatetime local = Ok (instant y m d h mi s 0) /\
  parseDatetime (date_text y m d) = Ok (instant y m d 0 0 0 0).
Proof using Hy Hd Ht.
  intros Hh Hm. pose proof (parse_local_text "" eq_refl) as HT.
  pose proof (parse_date_text y m d "" Hy Hd) as HD. rewrite append_nil_r in HT, HD.
  unfold parseDatetime. cbn [fmap list_fmap]. split_and!.
  - rewrite (parse_zoned_text _ ((if negative then -1 else 1) * ((hh * 60 + mm) * 60))); [done| |].
    + by destruct negative.
    + rewrite <-(append_nil_r (zone_text _ _ _)). by apply getzone_text.
  - rewrite (parse_zoned_text "Z" 0) by done. simpl. f_equal. lia.
  - assert (time_Parse RFC3339 local = None) as ->.
    { unfold time_Parse, RFC3339. by rewrite parse_chunks_app, HT. }
    rewrite (time_Parse_fields _ _ _ HT) by done. cbn. f_equal. lia.
  - assert (time_Parse DateTimeT (date_text y m d) = None) as HN.
    { unfold time_Parse, DateTimeT. by rewrite parse_chunks_app, HD. }
    assert (time_Parse RFC3339 (date_text y m d) = None) as ->.
    { unfold time_Parse, RFC3339, DateTimeT. by rewrite !parse_chunks_app, HD. }
    rewrite HN, (time_Parse_fields _ _ _ HD) by done. cbn. f_equal. lia.
Qed.
End written.
