(* ===== verification/Diagnostics.v ===== *)
(** * The checks of doctor on the installation (internal/doctor/doctor.go)

    The results of diagnostic checks and the checks that look at one thing each:
    signature status, directory layout, configuration, providers, cached policy
    versions and the policy cache.  Deadlines are not modelled: a call that runs
    into one answers an error. *)
From stdpp Require Import gmap.
From S2P Require Import Prelude GoStrings Digest OciRef World State Complypack Sync Config.
From S2P Require Import Workspace Provider Generation Resolver.

(** ** Results *)

Abbreviation CheckStatus := string.
Definition StatusPass : CheckStatus := "pass".
Definition StatusFail : CheckStatus := "fail".
Definition StatusWarn : CheckStatus := "warn".

Abbreviation CheckGroup := string.
Definition GroupProviders : CheckGroup := "Providers".
Definition GroupVariables : CheckGroup := "Variables".
Definition GroupPolicies : CheckGroup := "Policies".
Definition GroupCache : CheckGroup := "Cache".
Definition GroupComplypacks : CheckGroup := "Complypacks".
Definition GroupWorkspace : CheckGroup := "Workspace".
Definition GroupVerify : CheckGroup := "Verification".

Definition GroupOrder : list CheckGroup :=
  [GroupProviders; GroupPolicies; GroupCache; GroupComplypacks; GroupWorkspace; GroupVerify].

Inductive CheckResult : Type := MkCheckResult {
  CR_Name : string;
  CR_Label : string;
  CR_Group : CheckGroup;
  CR_Status : CheckStatus;
  CR_Message : string;
  CR_Blocking : bool;
  CR_Children : list CheckResult;
}.

(** A result without children; most have a label, some do not. *)
Definition result_of (name label : string) (group : CheckGroup) (status : CheckStatus)
    (message : string) (blocking : bool) : CheckResult :=
  MkCheckResult name label group status message blocking [].

Definition add_child (c r : CheckResult) : CheckResult :=
  MkCheckResult (CR_Name r) (CR_Label r) (CR_Group r) (CR_Status r) (CR_Message r) (CR_Blocking r)
    (CR_Children r ++ [c]).
Definition with_children (l : list CheckResult) (r : CheckResult) : CheckResult :=
  MkCheckResult (CR_Name r) (CR_Label r) (CR_Group r) (CR_Status r) (CR_Message r) (CR_Blocking r) l.
Definition with_group (g : CheckGroup) (r : CheckResult) : CheckResult :=
  MkCheckResult (CR_Name r) (CR_Label r) g (CR_Status r) (CR_Message r) (CR_Blocking r) (CR_Children r).

Record ProviderHealth := MkProviderHealth {
  PH_EvaluatorID : string;
  PH_RequiredGlobalVariables : list string;
  PH_RequiredTargetVariables : list string;
  PH_OptionalTargetVariableGroups : list string;
}.

(** ** The interfaces doctor is written against *)

Record PolicyGraphResolver := MkPolicyGraphResolver {
  pg_ResolveVersion : string -> string -> io (result string);
  pg_ResolvePolicyGraph : string -> string -> io (result DependencyGraph);
}.

Record VersionResolver := MkVersionResolver {
  vr_ResolveLatestVersion : string -> string -> io (result string);
  vr_ResolveVersion : string -> string -> string -> io (result string);
}.

(** [policy.NewResolver(loader)] *)
Definition NewResolver {yaml : GemaraYAML} {loader : PolicyLoader} : PolicyGraphResolver :=
  MkPolicyGraphResolver ResolveVersion ResolvePolicyGraph.

(** ** Signatures *)

Definition count_verified (m : gmap string PolicyState) (acc : Z * Z) : Z * Z :=
  fold_left (fun '(verified, unverified) kv =>
      if Verified kv.2 then ((verified + 1)%Z, unverified) else (verified, (unverified + 1)%Z))
    (map_to_list m) acc.

Section installation.
  Context {stCodec : Codec State}.

Definition CheckVerification (dataDir : path) : io CheckResult :=
  let res := result_of "verification" "" GroupVerify in
  let! st := LoadState dataDir in
  io_ret (match st with
  | Err e => res StatusWarn ("cannot load cache state: " +:+ error_text e) false
  | Ok state =>
      let '(verified, unverified) := count_verified (Complypacks state) (count_verified (Policies state) (0, 0)%Z) in
      let total := (verified + unverified)%Z in
      if (total =? 0)%Z then res StatusPass "no cached artifacts to verify" false
      else if (unverified =? 0)%Z
      then res StatusPass ("all " +:+ itoa verified +:+ " cached artifacts verified") false
      else res StatusWarn (itoa unverified +:+ "/" +:+ itoa total +:+
             " cached artifacts unverified (configure verification: in complytime.yaml)") false
  end).

(** ** Directories *)

Definition layout_warn (message : string) : CheckResult :=
  result_of "directory-layout" "" GroupWorkspace StatusWarn message false.

Definition CheckDirectoryLayout (cacheDir dataDir : path) : io CheckResult :=
  let! r := os_Stat cacheDir in
  match r with
  | Err e =>
      io_ret (layout_warn (if error_is e ErrNotExist
                           then "cache directory does not exist: " +:+ path_text cacheDir
                           else "cache directory not accessible: " +:+ error_text e))
  | Ok _ =>
  let! r := os_Stat dataDir in
  match r with
  | Err e =>
      io_ret (layout_warn (if error_is e ErrNotExist
                           then "data directory does not exist: " +:+ path_text dataDir +:+
                                " — run complyctl get to initialize"
                           else "data directory not accessible: " +:+ error_text e))
  | Ok _ =>
  let cacheStatePath := cacheDir ++ [StateFileName] in
  let dataStatePath := dataDir ++ [StateFileName] in
  let! cacheErr := os_Stat cacheStatePath in
  let! dataErr := os_Stat dataStatePath in
  io_ret (match cacheErr, dataErr with
          | Ok _, Err e =>
              if error_is e ErrNotExist
              then layout_warn ("state.json found in cache directory (" +:+ path_text cacheDir +:+
                     ") but not in data directory (" +:+ path_text dataDir +:+ ") — move it with: mv " +:+
                     path_text cacheStatePath +:+ " " +:+ path_text dataStatePath)
              else result_of "directory-layout" "" GroupWorkspace StatusPass "XDG directory layout valid" false
          | _, _ => result_of "directory-layout" "" GroupWorkspace StatusPass "XDG directory layout valid" false
          end)
  end end.

(** ** Configuration *)

Context {hs : HostSyntax} {cfgCodec : Codec WorkspaceConfig} (cwd : path).

(** [CheckConfig] once the file is not known to be missing. *)
Definition check_loaded (configPath : path) : io CheckResult :=
  let res := result_of "config" "" GroupWorkspace in
  let! r := LoadFrom cwd configPath in
  match r with
  | Err e => io_ret (res StatusFail ("config load failed: " +:+ error_text e) true)
  | Ok cfg =>
  let! r := Validate cwd cfg in
  io_ret (match r with
          | Err e => res StatusFail ("config validation failed: " +:+ error_text e) true
          | Ok _ => res StatusPass (path_text configPath +:+ " valid") true
          end)
  end.

Definition CheckConfig (configPath : path) : io CheckResult :=
  let! r := os_Stat configPath in
  match r with
  | Err e => if error_is e ErrNotExist
             then io_ret (result_of "config" "" GroupWorkspace StatusFail
                            (path_text configPath +:+ " not found") true)
             else check_loaded configPath
  | Ok _ => check_loaded configPath
  end.

(** ** Providers *)

Definition provider_result (lp : LoadedProvider) : CheckStatus -> string -> bool -> CheckResult :=
  result_of ("provider/" +:+ PI_EvaluatorID (Info lp)) (PI_EvaluatorID (Info lp)) GroupProviders.

(** One iteration over the providers: a failed or unhealthy one has no health
    data. *)
Definition check_provider (lp : LoadedProvider) : CheckResult * list ProviderHealth :=
  match Describe (Client lp) tt with
  | Err e => (provider_result lp StatusFail ("Describe failed: " +:+ error_text e) true, [])
  | Ok resp =>
      if negb (Desc_Healthy resp)
      then (provider_result lp StatusFail ("unhealthy: " +:+ Desc_ErrorMessage resp) true, [])
      else (provider_result lp StatusPass ("healthy (v" +:+ Desc_Version resp +:+ ")") true,
            [MkProviderHealth (PI_EvaluatorID (Info lp)) (Desc_RequiredGlobalVariables resp)
               (Desc_RequiredTargetVariables resp) (Desc_OptionalTargetVariableGroups resp)])
  end.

Definition CheckProviders {launcher : Launcher} (providerDir : path)
    : io (list CheckResult * list ProviderHealth) := fun w =>
  let sysDir := ResolveSystemProviderDir (w_env w) in
  (let! r := LoadProviders providerDir (path_join [] sysDir) ∅ in
   io_ret (match r with
   | (Err e, _) =>
       ([result_of "providers" "" GroupProviders StatusFail
           ("provider discovery failed: " +:+ error_text e) true], [])
   | (Ok _, m) =>
       match ListProviders m with
       | [] => ([result_of "providers" "" GroupProviders StatusWarn
                   ("no providers found in " +:+ path_text providerDir +:+ " or " +:+ sysDir) false], [])
       | providers =>
           let checked := check_provider <$> providers in
           (fst <$> checked, flat_map snd checked)
       end
   end)) w.

(** ** Cached versions of policies *)

(** A question put to a registry, with its answer: the latest version of a
    repository, or whether a pinned version exists. *)
Record asked := MkAsked {
  ask_registry : string;
  ask_repository : string;
  ask_version : option string;
  ask_answer : result string;
}.

Definition policy_result (eid : string) : CheckStatus -> string -> bool -> CheckResult :=
  result_of ("policy/" +:+ eid) eid GroupPolicies.

Definition resolvePinnedFallback (resolver : VersionResolver) (ref : PolicyRef)
    (eid cachedVersion : string) (latestErr : error) : io (CheckResult * list asked) :=
  let pinnedVersion := VersionString ref in
  let isRegistryReachable := error_is latestErr ErrVersionNotFound in
  let fallback := 
    (if isRegistryReachable
     then policy_result eid StatusWarn
            (if negb (bool_decide (pinnedVersion = ""))
             then "version " +:+ pinnedVersion +:+ " not found in registry"
             else "latest tag not found — pin a specific version with @<tag>") false
     else policy_result eid StatusWarn
            ("version check skipped (registry unreachable: " +:+ PR_Registry ref +:+ ")") false) in
  if negb (bool_decide (pinnedVersion = "")) && isRegistryReachable then
    let! r := vr_ResolveVersion resolver (PR_Registry ref) (PR_Repository ref) pinnedVersion in
    let trace := [MkAsked (PR_Registry ref) (PR_Repository ref) (Some pinnedVersion) r] in
    io_ret (match r with
            | Ok _ => (policy_result eid StatusPass
                         (cachedVersion +:+ " (pinned — latest tag unavailable for staleness check)") false, trace)
            | Err _ => (fallback, trace)
            end)
  else io_ret (fallback, []).

(** The comparison once the latest version is known. *)
Definition compare_versions (eid cachedVersion pinnedVersion latestVersion : string) : CheckResult :=
  if negb (bool_decide (pinnedVersion = "")) then
    if bool_decide (cachedVersion = pinnedVersion) then
      policy_result eid StatusPass
        (if negb (bool_decide (latestVersion = cachedVersion))
         then cachedVersion +:+ " (pinned — latest available: " +:+ latestVersion +:+ ")"
         else cachedVersion +:+ " (pinned)") false
    else policy_result eid StatusWarn
           ("cached " +:+ cachedVersion +:+ " does not match configured pin @" +:+ pinnedVersion +:+
            " — run complyctl get") false
  else if bool_decide (cachedVersion = latestVersion)
  then policy_result eid StatusPass (cachedVersion +:+ " (latest)") false
  else policy_result eid StatusWarn
         ("cached " +:+ cachedVersion +:+ ", available " +:+ latestVersion +:+
          " — run complyctl get to update") false.

(** One iteration: the result, the remembered registry errors, the questions. *)
Definition check_version (resolver : VersionResolver) (state : State) (p : PolicyEntry)
    (registryErrors : gmap string error) : io (CheckResult * gmap string error * list asked) :=
  let eid := EffectiveID p in
  match ParsePolicyRef (PE_URL p) with
  | (_, Some e) =>
      io_ret (policy_result eid StatusFail ("invalid policy reference: " +:+ error_text e) true,
              registryErrors, [])
  | (ref, None) =>
  match GetPolicyState state (PR_Repository ref) with
  | None => io_ret (policy_result eid StatusWarn "not cached — run complyctl get first" false,
                    registryErrors, [])
  | Some cachedState =>
  match registryErrors !! PR_Registry ref with
  | Some cachedErr =>
      let! r := resolvePinnedFallback resolver ref eid (Version cachedState) cachedErr in
      io_ret (r.1, registryErrors, r.2)
  | None =>
  let! latest := vr_ResolveLatestVersion resolver (PR_Registry ref) (PR_Repository ref) in
  let here := MkAsked (PR_Registry ref) (PR_Repository ref) None latest in
  match latest with
  | Err err =>
      let registryErrors := (if error_is err ErrVersionNotFound then registryErrors
                             else <[PR_Registry ref := err]> registryErrors) in
      let! r := resolvePinnedFallback resolver ref eid (Version cachedState) err in
      io_ret (r.1, registryErrors, here :: r.2)
  | Ok latestVersion =>
      io_ret (compare_versions eid (Version cachedState) (VersionString ref) latestVersion,
              registryErrors, [here])
  end end end end.

Fixpoint versions_loop (resolver : VersionResolver) (state : State) (policies : list PolicyEntry)
    (registryErrors : gmap string error) : io (list CheckResult * list asked) :=
  match policies with
  | [] => io_ret ([], [])
  | p :: rest =>
      let! r := check_version resolver state p registryErrors in
      let! more := versions_loop resolver state rest r.1.2 in
      io_ret (r.1.1 :: more.1, r.2 ++ more.2)
  end.

Definition CheckPolicyVersions (cfg : option WorkspaceConfig) (dataDir : path)
    (versionResolver : option VersionResolver) : io (list CheckResult * list asked) :=
  match cfg, versionResolver with
  | Some cfg, Some resolver =>
      if bool_decide (WC_Policies cfg = []) then io_ret ([], [])
      else
        let! st := LoadState dataDir in
        match st with
        | Err e =>
            io_ret ([result_of "policy" "" GroupPolicies StatusWarn
                       ("cannot load cache state for version comparison: " +:+ error_text e) false], [])
        | Ok state => versions_loop resolver state (WC_Policies cfg) ∅
        end
  | _, _ => io_ret ([], [])
  end.

(** ** The policy cache *)

Definition cache_fail (message : string) : CheckResult :=
  result_of "cache" "" GroupCache StatusFail message true.

(** The path is never empty here: the caller joins it. *)
Definition CheckCache (policiesDir : path) : io CheckResult :=
  let read_entries :=
    (let! entries := os_ReadDir policiesDir in
     io_ret (match entries with
             | Err e => cache_fail ("cannot read cache directory: " +:+ error_text e)
             | Ok [] => cache_fail "policy cache is empty — run complyctl get first"
             | Ok l => result_of "cache" "" GroupCache StatusPass
                         (itoa (Z.of_nat (length l)) +:+ " cached policy store(s)") true
             end)) in
  let! r := os_Stat policiesDir in
  match r with
  | Err e => if error_is e ErrNotExist
             then io_ret (cache_fail "policy cache not found — run complyctl get first")
             else read_entries
  | Ok _ => read_entries
  end.
End installation.

(** ** Registries are not asked in vain *)

Section versions.
  Context {stCodec : Codec State} {hs : HostSyntax}.

(** A failed question for the latest version that is not "there is none". *)
Definition unreachable (q : asked) : Prop :=
  ask_version q = None /\ exists e, ask_answer q = Err e /\ error_is e ErrVersionNotFound = false.

Definition all_unreachable (errs : gmap string error) : Prop :=
  map_Forall (fun _ e => error_is e ErrVersionNotFound = false) errs.

Lemma resolvePinnedFallback_run resolver ref eid cached err w :
  let '((r, t), w') := resolvePinnedFallback resolver ref eid cached err w in
  exists status msg, r = policy_result eid status msg false /\
  if negb (bool_decide (VersionString ref = "")) && error_is err ErrVersionNotFound then
    exists a, t = [MkAsked (PR_Registry ref) (PR_Repository ref) (Some (VersionString ref)) a] /\
      vr_ResolveVersion resolver (PR_Registry ref) (PR_Repository ref) (VersionString ref) w = (a, w') /\
      status = (if is_ok a then StatusPass else StatusWarn)
  else t = [] /\ w' = w /\ status = StatusWarn.
Proof.
  unfold resolvePinnedFallback, io_bind, io_ret. destruct (negb _ && _) eqn:E.
  - destruct (vr_ResolveVersion _ _ _ _ w) as [[v|e] w1]; [by eauto 10|].
    destruct (error_is err ErrVersionNotFound); do 2 eexists; (split; [done|]); by exists (Err e).
  - destruct (error_is err ErrVersionNotFound); do 2 eexists; (split; [done|]); by split_and!.
Qed.

(** What one iteration does to the remembered errors. *)
Definition asks_well (errs errs' : gmap string error) (t : list asked) : Prop :=
  errs ⊆ errs' /\ all_unreachable errs' /\ (forall q, q ∈ t -> errs !! ask_registry q = None) /\
  (forall t1 q t2, t = t1 ++ q :: t2 -> unreachable q -> t2 = [] /\ is_Some (errs' !! ask_registry q)).

Lemma asks_nothing errs : all_unreachable errs -> asks_well errs errs [].
Proof. intros H. split_and!; [done|done|set_solver|]. by intros []. Qed.

Lemma check_version_trace resolver st p errs w r errs' t w' :
  check_version resolver st p errs w = ((r, errs', t), w') -> all_unreachable errs ->
  asks_well errs errs' t.
Proof.
  unfold check_version, io_bind, io_ret. intros H Hu.
  destruct (ParsePolicyRef (PE_URL p)) as [ref [e|]]; [simplify_eq; by apply asks_nothing|].
  destruct (GetPolicyState st (PR_Repository ref)) as [ps|]; [|simplify_eq; by apply asks_nothing].
  destruct (errs !! PR_Registry ref) as [err|] eqn:Herr.
  - pose proof (resolvePinnedFallback_run resolver ref (EffectiveID p) (Version ps) err w) as HF.
    destruct (resolvePinnedFallback _ _ _ _ _ w) as [[r1 t1] w1]. simplify_eq/=.
    rewrite (Hu _ _ Herr), andb_false_r in HF. destruct HF as (? & ? & _ & -> & _).
    by apply asks_nothing.
  - destruct (vr_ResolveLatestVersion _ _ _ w) as [[v|err] w1].
    + simplify_eq. split_and!; [done|done|set_solver|].
      intros t1 q t2 Ht (_ & e & He & _). destruct t1 as [|? [|]]; by simplify_eq/=.
    + pose proof (resolvePinnedFallback_run resolver ref (EffectiveID p) (Version ps) err w1) as HF.
      destruct (resolvePinnedFallback _ _ _ _ _ w1) as [[r1 t1] w2]. simplify_eq/=.
      destruct HF as (? & ? & _ & HF). destruct (error_is err ErrVersionNotFound) eqn:Hnf.
      * split_and!; [done|done| |].
        -- intros q [->|Hq]%elem_of_cons; [done|]. destruct (negb _); simpl in HF; [|by destruct HF as [-> _]; apply not_elem_of_nil in Hq].
           destruct HF as (a & -> & _). apply list_elem_of_singleton in Hq. by subst.
        -- intros t0 q t2 Ht (Hn & e & He & Hf). destruct t0 as [|q0 t0]; simplify_eq/=; [congruence|].
           destruct (negb _); simpl in HF; [|by destruct HF as [HF _]; destruct t0].
           destruct HF as (a & HF & _). destruct t0 as [|? [|]]; simplify_eq/=.
      * rewrite andb_false_r in HF. destruct HF as (-> & _).
        split_and!; [by apply insert_subseteq|by apply map_Forall_insert_2| |].
        -- intros q ->%list_elem_of_singleton. done.
        -- intros t0 q t2 Ht _. destruct t0 as [|? [|]]; simplify_eq/=.
           split; [done|]. rewrite lookup_insert_eq. by eexists.
Qed.

Lemma versions_loop_trace resolver st policies errs w rs t w' :
  versions_loop resolver st policies errs w = ((rs, t), w') -> all_unreachable errs ->
  (forall q, q ∈ t -> errs !! ask_registry q = None) /\
  (forall t1 q t2, t = t1 ++ q :: t2 -> unreachable q ->
     forall q', q' ∈ t2 -> ask_registry q' <> ask_registry q).
Proof.
  revert errs w rs t w'. induction policies as [|p rest IH]; intros errs w rs t w'; simpl.
  { intros [= <- <- <-] _. split; [set_solver|]. by intros []. }
  unfold io_bind, io_ret. intros H Hu.
  destruct (check_version _ _ _ _ w) as [[[r errs1] t1] w1] eqn:E1. simpl in H.
  destruct (versions_loop _ _ _ errs1 w1) as [[rs2 t2] w2] eqn:E2. simplify_eq/=.
  destruct (check_version_trace _ _ _ _ _ _ _ _ _ E1 Hu) as (Hsub & Hu1 & Hfresh & Hfail).
  destruct (IH _ _ _ _ _ E2 Hu1) as [Hfresh2 Hfail2].
  split.
  - intros q [Hq|Hq]%elem_of_app; [by apply Hfresh|].
    eapply lookup_weaken_None; [by apply Hfresh2|done].
  - intros ta q tb Ht Hq. apply app_eq_app in Ht as [l [[-> Ht]|[-> Ht]]].
    + destruct l as [|q0 l].
      * simpl in Ht. subst. simpl in *. by apply (Hfail2 [] q tb).
      * simplify_eq/=. destruct (Hfail ta q0 l eq_refl Hq) as [-> [e He]].
        intros q' Hq' Heq. simpl in Hq'. specialize (Hfresh2 q' Hq'). congruence.
    + apply (Hfail2 l q tb); done.
Qed.

(** a registry that cannot be reached is asked once.  Once a question
    for a latest version has failed for another reason than that there is none,
    doctor puts no further question to that registry, neither for another
    policy nor for a pinned version, so its time-outs do not add up. *)
Theorem unreachable_registry_asked_once cfg dataDir resolver w rs t w' t1 q t2 :
  CheckPolicyVersions cfg dataDir resolver w = ((rs, t), w') ->
  t = t1 ++ q :: t2 -> unreachable q ->
  forall q', q' ∈ t2 -> ask_registry q' <> ask_registry q.
Proof.
  unfold CheckPolicyVersions, io_bind, io_ret. intros H.
  assert (t = [] -> t = t1 ++ q :: t2 -> unreachable q ->
    forall q', q' ∈ t2 -> ask_registry q' <> ask_registry q) as Hnil.
  { intros -> Ht. by destruct t1. }
  destruct cfg as [cfg|], resolver as [resolver|]; try (simplify_eq; by apply Hnil).
  destruct (bool_decide _); [simplify_eq; by apply Hnil|].
  destruct (LoadState dataDir w) as [[st|e] w1]; [|simplify_eq; by apply Hnil].
  eapply versions_loop_trace in H as [_ H]; [by apply H|apply map_Forall_empty].
Qed.

(** What backs a pass: the registry's own answers, among the questions [t]. *)
Definition backed (t : list asked) (ref : PolicyRef) (cachedVersion : string) : Prop :=
  let q := MkAsked (PR_Registry ref) (PR_Repository ref) in
  let pin := VersionString ref in
  (exists v, q None (Ok v) ∈ t /\ cachedVersion = if bool_decide (pin = "") then v else pin) \/
  (pin <> "" /\ (exists v, q (Some pin) (Ok v) ∈ t) /\
   exists e, error_is e ErrVersionNotFound = true /\ q None (Err e) ∈ t).

(** What the result of one policy says. *)
Definition honest (st : State) (t : list asked) (p : PolicyEntry) (r : CheckResult) : Prop :=
  CR_Name r = "policy/" +:+ EffectiveID p /\ CR_Label r = EffectiveID p /\
  CR_Group r = GroupPolicies /\ CR_Children r = [] /\
  CR_Blocking r = bool_decide (CR_Status r = StatusFail) /\
  (CR_Status r = StatusFail <-> (ParsePolicyRef (PE_URL p)).2 <> None) /\
  (CR_Status r <> StatusFail -> CR_Status r <> StatusWarn -> CR_Status r = StatusPass /\
   exists ref ps, ParsePolicyRef (PE_URL p) = (ref, None) /\
     GetPolicyState st (PR_Repository ref) = Some ps /\ backed t ref (Version ps)).

Lemma honest_mono st t t' p r : t ⊆ t' -> honest st t p r -> honest st t' p r.
Proof. unfold honest, backed. intros Ht H. naive_solver. Qed.

(** A result that is neither a pass nor a failure. *)
Lemma honest_warn st t p ref msg :
  ParsePolicyRef (PE_URL p) = (ref, None) -> honest st t p (policy_result (EffectiveID p) StatusWarn msg false).
Proof. intros Hp. unfold honest. rewrite Hp. by split_and!. Qed.

Lemma honest_pass st t p ref ps msg :
  ParsePolicyRef (PE_URL p) = (ref, None) -> GetPolicyState st (PR_Repository ref) = Some ps ->
  backed t ref (Version ps) -> honest st t p (policy_result (EffectiveID p) StatusPass msg false).
Proof. intros Hp Hs Hb. unfold honest. rewrite Hp. split_and!; try done. eauto 10. Qed.

Lemma compare_versions_honest st t p ref ps v :
  ParsePolicyRef (PE_URL p) = (ref, None) -> GetPolicyState st (PR_Repository ref) = Some ps ->
  MkAsked (PR_Registry ref) (PR_Repository ref) None (Ok v) ∈ t ->
  honest st t p (compare_versions (EffectiveID p) (Version ps) (VersionString ref) v).
Proof.
  intros Hp Hs Hq. unfold compare_versions.
  assert (Version ps = (if bool_decide (VersionString ref = "") then v else VersionString ref) ->
    backed t ref (Version ps)) as Hb by (intros ?; left; by exists v).
  destruct (bool_decide_reflect (VersionString ref = "")) as [Hn|Hn]; simpl.
  - case_bool_decide; [eapply honest_pass; eauto|by eapply honest_warn].
  - case_bool_decide; [eapply honest_pass; eauto|by eapply honest_warn].
Qed.

Lemma check_version_honest resolver st p errs w r errs' t w' :
  check_version resolver st p errs w = ((r, errs', t), w') -> all_unreachable errs -> honest st t p r.
Proof.
  unfold check_version, io_bind, io_ret. intros H Hu.
  destruct (ParsePolicyRef (PE_URL p)) as [ref [e|]] eqn:Hp.
  { simplify_eq. unfold honest. rewrite Hp. by split_and!. }
  destruct (GetPolicyState st (PR_Repository ref)) as [ps|] eqn:Hs; [|simplify_eq; by eapply honest_warn].
  destruct (errs !! PR_Registry ref) as [err|] eqn:Herr.
  - pose proof (resolvePinnedFallback_run resolver ref (EffectiveID p) (Version ps) err w) as HF.
    destruct (resolvePinnedFallback _ _ _ _ _ w) as [[r1 t1] w1]. simplify_eq/=.
    rewrite (Hu _ _ Herr), andb_false_r in HF. destruct HF as (? & ? & -> & _ & _ & ->).
    by eapply honest_warn.
  - destruct (vr_ResolveLatestVersion _ _ _ w) as [[v|err] w1].
    { simplify_eq. eapply compare_versions_honest; [done..|]. by apply list_elem_of_singleton. }
    pose proof (resolvePinnedFallback_run resolver ref (EffectiveID p) (Version ps) err w1) as HF.
    destruct (resolvePinnedFallback _ _ _ _ _ w1) as [[r1 t1] w2]. simplify_eq/=.
    destruct HF as (status & msg & -> & HF).
    destruct (negb _ && _) eqn:E; [|destruct HF as (_ & _ & ->); by eapply honest_warn].
    destruct HF as (a & -> & _ & ->). apply andb_true_iff in E as [Hpin%negb_true_iff Hnf].
    destruct a as [v|e]; [|by eapply honest_warn].
    eapply honest_pass; [done|done|]. right. rewrite bool_decide_eq_false in Hpin.
    split_and!; [done|exists v|exists err; split; [done|]]; set_solver.
Qed.

(** what doctor says of a policy version is backed by the registry.
    There is one result per configured policy, in order and under its effective
    id.  It is a failure, and then blocking, exactly when the reference does not
    parse.  It is a pass only if the policy is in the cache and either the
    registry named its latest version and the cached version is that one, or the
    pinned one when there is a pin, or the registry has no latest version but
    confirmed the pinned one; everything else is a warning. *)
Theorem policy_versions_honest cfg dataDir resolver w st w1 :
  LoadState dataDir w = (Ok st, w1) ->
  let '((rs, t), w') := CheckPolicyVersions (Some cfg) dataDir (Some resolver) w in
  Forall2 (honest st t) (WC_Policies cfg) rs.
Proof.
  intros Hload. unfold CheckPolicyVersions, io_bind, io_ret.
  case_bool_decide as Hn; [rewrite Hn; constructor|]. rewrite Hload.
  assert (all_unreachable ∅) as Hu by apply map_Forall_empty.
  clear Hload Hn. revert w1 Hu. generalize (∅ : gmap string error) as errs.
  induction (WC_Policies cfg) as [|p rest IH]; intros errs w1 Hu; simpl; [constructor|].
  unfold io_bind, io_ret. destruct (check_version _ _ _ _ w1) as [[[r errs1] t1] w2] eqn:E1. simpl.
  pose proof (check_version_trace _ _ _ _ _ _ _ _ _ E1 Hu) as (_ & Hu1 & _).
  specialize (IH errs1 w2 Hu1). destruct (versions_loop _ _ _ errs1 w2) as [[rs t2] w3]. simpl.
  constructor.
  - eapply honest_mono; [|by eapply check_version_honest]. set_solver.
  - eapply Forall2_impl; [exact IH|]. intros; eapply honest_mono; [|done]. set_solver.
Qed.

(** The confirmation of a pin is not compared with the cached version: when the
    registry has no latest tag, a policy pinned to a version it has passes
    whatever version is cached. *)
Theorem pinned_fallback_ignores_cached resolver st p ref ps v e w w1 w2 :
  ParsePolicyRef (PE_URL p) = (ref, None) -> GetPolicyState st (PR_Repository ref) = Some ps ->
  VersionString ref <> "" -> Version ps <> VersionString ref ->
  vr_ResolveLatestVersion resolver (PR_Registry ref) (PR_Repository ref) w = (Err e, w1) ->
  error_is e ErrVersionNotFound = true ->
  vr_ResolveVersion resolver (PR_Registry ref) (PR_Repository ref) (VersionString ref) w1 = (Ok v, w2) ->
  CR_Status (check_version resolver st p ∅ w).1.1.1 = StatusPass.
Proof.
  intros Hp Hs Hpin _ Hl Hnf Hr. unfold check_version, io_bind, io_ret.
  rewrite Hp, Hs, lookup_empty, Hl, Hnf. unfold resolvePinnedFallback, io_bind, io_ret.
  rewrite (bool_decide_eq_false_2 _ Hpin), Hnf. simpl. by rewrite Hr.
Qed.
End versions.
