(* ===== verification/DoctorVars.v ===== *)
(** * The variable checks of doctor (internal/doctor/doctor.go)

    Whether the workspace sets the variables the providers declare: global ones
    once, target ones for every target a policy of which is evaluated by the
    provider. *)
From stdpp Require Import gmap.
From S2P Require Import Prelude GoStrings Digest OciRef World State Complypack Sync Config.
From S2P Require Import Workspace Provider Generation Resolver Diagnostics.

(** ** From evaluators to targets *)

(** What [resolveEvaluatorTargets] accumulates. *)
Record resolution := MkResolution {
  evaluatorTargets : gmap string (list TargetConfig);
  resolveFailures : Z;
  resolveResults : list CheckResult;
}.

Definition resolution_empty : resolution := MkResolution ∅ 0 [].

Definition resolve_warn (label message : string) : CheckResult :=
  result_of ("variables/resolve/" +:+ label) label GroupProviders StatusWarn message false.

Definition unresolved (label message : string) (acc : resolution) : resolution :=
  MkResolution (evaluatorTargets acc) (resolveFailures acc + 1)
    (resolveResults acc ++ [resolve_warn label message]).

(** The evaluators of a graph get the target. *)
Definition add_target (target : TargetConfig) (m : gmap string (list TargetConfig)) (evalID : string)
    : gmap string (list TargetConfig) :=
  <[evalID := default [] (m !! evalID) ++ [target]]> m.

Definition graph_evaluators (graph : DependencyGraph) : list string :=
  (map_to_list (GroupByEvaluator (ExtractAssessmentConfigs graph) graph)).*1.

Section variables.
  Context {hs : HostSyntax}.

(** One policy of one target. *)
Definition resolve_policy (resolver : PolicyGraphResolver) (cfg : WorkspaceConfig)
    (target : TargetConfig) (pid : string) (acc : resolution) : io resolution :=
  match FindPolicy (WC_Policies cfg) pid with
  | None => io_ret (unresolved pid ("policy " +:+ pid +:+ " referenced by target " +:+ T_ID target +:+
                                    " not found in config") acc)
  | Some entry =>
  let eid := EffectiveID entry in
  match ParsePolicyRef (PE_URL entry) with
  | (_, Some e) => io_ret (unresolved eid ("invalid policy reference for " +:+ eid +:+ ": " +:+ error_text e) acc)
  | (ref, None) =>
  let! version := pg_ResolveVersion resolver (PR_Repository ref) (VersionString ref) in
  match version with
  | Err e => io_ret (unresolved eid ("cannot resolve version for policy " +:+ eid +:+ ": " +:+ error_text e) acc)
  | Ok version =>
  let! graph := pg_ResolvePolicyGraph resolver (PR_Repository ref) version in
  match graph with
  | Err e => io_ret (unresolved eid ("cannot resolve policy graph for " +:+ eid +:+ ": " +:+ error_text e) acc)
  | Ok graph =>
      io_ret (MkResolution (fold_left (add_target target) (graph_evaluators graph) (evaluatorTargets acc))
                (resolveFailures acc) (resolveResults acc))
  end end end end.

Fixpoint resolve_policies (resolver : PolicyGraphResolver) (cfg : WorkspaceConfig)
    (target : TargetConfig) (pids : list string) (acc : resolution) : io resolution :=
  match pids with
  | [] => io_ret acc
  | pid :: rest =>
      let! acc := resolve_policy resolver cfg target pid acc in
      resolve_policies resolver cfg target rest acc
  end.

Fixpoint resolve_targets (resolver : PolicyGraphResolver) (cfg : WorkspaceConfig)
    (targets : list TargetConfig) (acc : resolution) : io resolution :=
  match targets with
  | [] => io_ret acc
  | target :: rest =>
      let! acc := resolve_policies resolver cfg target (T_Policies target) acc in
      resolve_targets resolver cfg rest acc
  end.

Definition resolveEvaluatorTargets (cfg : WorkspaceConfig) (resolver : option PolicyGraphResolver)
    : io resolution :=
  match resolver with
  | None => io_ret resolution_empty
  | Some resolver => resolve_targets resolver cfg (WC_Targets cfg) resolution_empty
  end.

(** ** One provider *)

Definition effectiveGlobals (configVars : gmap string string) : gmap string string :=
  <[WorkspaceVarKey := "(auto-injected)"]> configVars.

Definition joinNames (names : list string) : string :=
  match names with
  | [] => ""
  | n :: rest => fold_left (fun result n => result +:+ ", " +:+ n) rest n
  end.

Definition has_var (vars : gmap string string) (v : string) : bool := bool_decide (is_Some (vars !! v)).

Definition countResolved (required : list string) (vars : gmap string string) : Z * Z :=
  (fold_left (fun resolved v => if has_var vars v then (resolved + 1)%Z else resolved) required 0%Z,
   Z.of_nat (length required)).

Definition groupSatisfied (group : string) (vars : gmap string string) : bool :=
  existsb (has_var vars) (str_split group "|").

Definition unmappedReason (resolver : option PolicyGraphResolver) (failures : Z) : string :=
  match resolver with
  | None => "no policy resolver available"
  | Some _ => if (0 <? failures)%Z
              then "policy graph unresolved (" +:+ itoa failures +:+ " error(s)) — run complyctl get"
              else "evaluator not referenced by any cached policy"
  end.

Record variableValidation := MkVariableValidation {
  VV_Name : string;
  VV_GlobalResolved : Z;
  VV_GlobalTotal : Z;
  VV_TargetResolved : Z;
  VV_TargetTotal : Z;
  VV_AllGlobalPresent : bool;
  VV_AllTargetPresent : bool;
  VV_UnmappedTargetVars : bool;
  VV_MissingGlobals : list string;
  VV_MissingTargetVars : list string;
  VV_Resolver : option PolicyGraphResolver;
  VV_ResolveFailures : Z;
}.

Definition ratio (a b : Z) : string := itoa a +:+ "/" +:+ itoa b.

Definition buildVariableSummary (v : variableValidation) : CheckResult :=
  let res := result_of (VV_Name v) "variables" GroupVariables in
  let globals := ratio (VV_GlobalResolved v) (VV_GlobalTotal v) +:+ " global vars" in
  let targets := ratio (VV_TargetResolved v) (VV_TargetTotal v) +:+ " target vars" in
  if VV_AllGlobalPresent v && VV_AllTargetPresent v then
    res StatusPass
      (if VV_UnmappedTargetVars v then globals +:+ ", no target mapping for this evaluator"
       else globals +:+ ", " +:+ targets) true
  else
    let globalPart := (if VV_AllGlobalPresent v then globals
                       else globals +:+ " — missing " +:+ joinNames (VV_MissingGlobals v)) in
    let targetPart :=
      (if VV_UnmappedTargetVars v
       then "target vars not validated — " +:+ unmappedReason (VV_Resolver v) (VV_ResolveFailures v)
       else if VV_AllTargetPresent v then targets
       else targets +:+ " — missing " +:+ joinNames (VV_MissingTargetVars v)) in
    res StatusFail (globalPart +:+ ", " +:+ targetPart) true.

(** What is asked of one target: whether it is met, and how it is reported. *)
Definition target_requirements (ph : ProviderHealth) (target : TargetConfig) : list (bool * string) :=
  ((fun v => (has_var (T_Variables target) v, v +:+ " for target " +:+ T_ID target))
     <$> PH_RequiredTargetVariables ph) ++
  ((fun g => (groupSatisfied g (T_Variables target), "one of (" +:+ g +:+ ") for target " +:+ T_ID target))
     <$> PH_OptionalTargetVariableGroups ph).

(** The counters of the target loop. *)
Definition count_requirement (acc : Z * Z * list string) (r : bool * string) : Z * Z * list string :=
  let '(total, resolved, missing) := acc in
  if r.1 then ((total + 1)%Z, (resolved + 1)%Z, missing)
  else ((total + 1)%Z, resolved, missing ++ [r.2]).

Definition hasTargetVarReqs (ph : ProviderHealth) : bool :=
  (0 <? length (PH_RequiredTargetVariables ph))%nat ||
  (0 <? length (PH_OptionalTargetVariableGroups ph))%nat.

Definition detail (ph : ProviderHealth) (status : CheckStatus) (message : string) : CheckResult :=
  result_of ("variables/" +:+ PH_EvaluatorID ph +:+ "/detail") "" GroupVariables status message false.

Definition pass_or_fail (b : bool) : CheckStatus := if b then StatusPass else StatusFail.

Definition buildVariableDetails (ph : ProviderHealth) (targets : list TargetConfig)
    (globals : gmap string string) (unmappedTargetVars : bool) : list CheckResult :=
  ((fun v => detail ph (pass_or_fail (has_var globals v)) ("global: " +:+ v))
     <$> PH_RequiredGlobalVariables ph) ++
  (if unmappedTargetVars then
     ((fun v => detail ph StatusWarn ("target: " +:+ v +:+ " (not validated)"))
        <$> PH_RequiredTargetVariables ph) ++
     ((fun g => detail ph StatusWarn ("target: one of (" +:+ g +:+ ") (not validated)"))
        <$> PH_OptionalTargetVariableGroups ph)
   else
     flat_map (fun t =>
       ((fun v => detail ph (pass_or_fail (has_var (T_Variables t) v)) ("target[" +:+ T_ID t +:+ "]: " +:+ v))
          <$> PH_RequiredTargetVariables ph) ++
       ((fun g => detail ph (pass_or_fail (groupSatisfied g (T_Variables t)))
                    ("target[" +:+ T_ID t +:+ "]: one of (" +:+ g +:+ ")"))
          <$> PH_OptionalTargetVariableGroups ph)) targets).

Definition validateProviderVariables (ph : ProviderHealth) (targets : list TargetConfig)
    (globals : gmap string string) (resolver : option PolicyGraphResolver) (failures : Z)
    (verbose : bool) : CheckResult :=
  let '(globalResolved, globalTotal) := countResolved (PH_RequiredGlobalVariables ph) globals in
  let missingGlobals := filter (fun v => has_var globals v = false) (PH_RequiredGlobalVariables ph) in
  let unmappedTargetVars := hasTargetVarReqs ph && (length targets =? 0)%nat in
  let '(targetTotal, targetResolved, missingTargetVars) :=
    fold_left count_requirement (flat_map (target_requirements ph) targets) (0, 0, [])%Z in
  let allGlobalPresent := (globalResolved =? globalTotal)%Z in
  let allTargetPresent :=
    (if unmappedTargetVars && (negb (bool_decide (is_Some resolver)) || (0 <? failures)%Z) then false
     else (targetResolved =? targetTotal)%Z) in
  let summary := buildVariableSummary
    (MkVariableValidation ("variables/" +:+ PH_EvaluatorID ph) globalResolved globalTotal
       targetResolved targetTotal allGlobalPresent allTargetPresent unmappedTargetVars
       missingGlobals missingTargetVars resolver failures) in
  if verbose then with_children (buildVariableDetails ph targets globals unmappedTargetVars) summary
  else summary.

(** ** All providers *)

(** Nothing to validate for a provider without requirements or targets. *)
Definition nothing_to_validate (ph : ProviderHealth) (targets : list TargetConfig) : bool :=
  (length (PH_RequiredGlobalVariables ph) =? 0)%nat && negb (hasTargetVarReqs ph) && (length targets =? 0)%nat.

Definition variable_results (cfg : WorkspaceConfig) (resolver : option PolicyGraphResolver)
    (verbose : bool) (r : resolution) (healthData : list ProviderHealth) : list CheckResult :=
  flat_map (fun ph =>
    let targets := default [] (evaluatorTargets r !! PH_EvaluatorID ph) in
    if nothing_to_validate ph targets then []
    else [validateProviderVariables ph targets (effectiveGlobals (WC_Variables cfg)) resolver
            (resolveFailures r) verbose]) healthData.

Definition CheckVariables (cfg : option WorkspaceConfig) (healthData : list ProviderHealth)
    (resolver : option PolicyGraphResolver) (verbose : bool) : io (list CheckResult) :=
  match healthData, cfg with
  | [], _ => io_ret []
  | _, None => io_ret [result_of "variables" "" GroupProviders StatusFail
                         "cannot validate variables — config not loaded" true]
  | _, Some cfg =>
      let! r := resolveEvaluatorTargets cfg resolver in
      io_ret (resolveResults r ++ variable_results cfg resolver verbose r healthData)
  end.
End variables.

(** ** What a pass means *)

Definition target_ok (ph : ProviderHealth) (t : TargetConfig) : Prop :=
  (forall v, v ∈ PH_RequiredTargetVariables ph -> is_Some (T_Variables t !! v)) /\
  (forall g, g ∈ PH_OptionalTargetVariableGroups ph ->
     exists v, v ∈ str_split g "|" /\ is_Some (T_Variables t !! v)).

Definition declares_target_vars (ph : ProviderHealth) : Prop :=
  PH_RequiredTargetVariables ph <> [] \/ PH_OptionalTargetVariableGroups ph <> [].

Lemma has_var_spec vars v : has_var vars v = true <-> is_Some (vars !! v).
Proof. apply bool_decide_eq_true. Qed.

Lemma groupSatisfied_spec g vars :
  groupSatisfied g vars = true <-> exists v, v ∈ str_split g "|" /\ is_Some (vars !! v).
Proof.
  unfold groupSatisfied. rewrite existsb_exists. setoid_rewrite has_var_spec.
  by setoid_rewrite list_elem_of_In.
Qed.

Lemma count_all {A} (f : A -> bool) l n :
  let k := fold_left (fun r x => if f x then (r + 1)%Z else r) l n in
  (n <= k <= n + Z.of_nat (length l))%Z /\
  (k = (n + Z.of_nat (length l))%Z <-> forall x, x ∈ l -> f x = true).
Proof.
  revert n. induction l as [|x l IH]; intros n; cbn [fold_left length].
  - split; [lia|]. split; [by intros _ x ?%elem_of_nil|lia].
  - specialize (IH (if f x then n + 1 else n)%Z). cbv zeta in *.
    destruct (f x) eqn:E; destruct IH as [H1 H2]; (split; [lia|]).
    + transitivity (forall y, y ∈ l -> f y = true); [rewrite <-H2; lia|].
      setoid_rewrite elem_of_cons. naive_solver.
    + split; [lia|]. intros H. specialize (H x (list_elem_of_here _ _)). congruence.
Qed.

Lemma count_requirement_all l total resolved missing :
  let '(t, r, m) := fold_left count_requirement l (total, resolved, missing) in
  t = (total + Z.of_nat (length l))%Z /\ (resolved <= r <= resolved + Z.of_nat (length l))%Z /\
  (r = (resolved + Z.of_nat (length l))%Z <-> Forall (fun x => x.1 = true) l) /\
  m = missing ++ (snd <$> filter (fun x => x.1 = false) l).
Proof.
  revert total resolved missing. induction l as [|[b s] l IH]; intros; cbn [fold_left length].
  - rewrite app_nil_r. repeat split; try lia; constructor.
  - unfold count_requirement at 2. destruct b; cbn [fst snd].
    + specialize (IH (total + 1)%Z (resolved + 1)%Z missing).
      destruct (fold_left _ _ _) as [[t r] m]. destruct IH as (-> & H1 & H2 & ->).
      rewrite Forall_cons, <-H2. split_and!; [lia|lia|lia| |by rewrite filter_cons_False].
      split; [intros; split; [done|lia]|intros [_ ?]; lia].
    + specialize (IH (total + 1)%Z resolved (missing ++ [s])).
      destruct (fold_left _ _ _) as [[t r] m]. destruct IH as (-> & H1 & H2 & ->).
      rewrite Forall_cons. split_and!; [lia|lia|lia| |by rewrite filter_cons_True, fmap_cons, <-app_assoc].
      split; [lia|by intros [? _]].
Qed.

Lemma target_requirements_all ph targets :
  Forall (fun x => x.1 = true) (flat_map (target_requirements ph) targets) <->
  forall t, t ∈ targets -> target_ok ph t.
Proof.
  rewrite Forall_flat_map, Forall_forall. apply forall_proper; intros t. apply imp_iff_compat_l.
  unfold target_requirements, target_ok. rewrite Forall_app, !Forall_fmap, !Forall_forall. simpl.
  setoid_rewrite has_var_spec. by setoid_rewrite groupSatisfied_spec.
Qed.

Lemma hasTargetVarReqs_spec ph : hasTargetVarReqs ph = true <-> declares_target_vars ph.
Proof.
  unfold hasTargetVarReqs, declares_target_vars. rewrite orb_true_iff, !Nat.ltb_lt.
  destruct (PH_RequiredTargetVariables ph), (PH_OptionalTargetVariableGroups ph); simpl; intuition (try lia; try done).
Qed.

(** One provider: the verdict on its variables. *)
Definition satisfied (ph : ProviderHealth) (targets : list TargetConfig) (globals : gmap string string)
    (all_resolved : Prop) : Prop :=
  (forall v, v ∈ PH_RequiredGlobalVariables ph -> is_Some (globals !! v)) /\
  (forall t, t ∈ targets -> target_ok ph t) /\
  (targets = [] -> declares_target_vars ph -> all_resolved).

Lemma validateProviderVariables_status ph targets globals resolver failures verbose :
  let r := validateProviderVariables ph targets globals resolver failures verbose in
  CR_Name r = "variables/" +:+ PH_EvaluatorID ph /\ CR_Label r = "variables" /\
  CR_Group r = GroupVariables /\ CR_Blocking r = true /\
  (CR_Status r = StatusPass <->
     satisfied ph targets globals (is_Some resolver /\ (failures <= 0)%Z)) /\
  (CR_Status r <> StatusPass -> CR_Status r = StatusFail).
Proof.
  unfold validateProviderVariables, countResolved.
  pose proof (count_all (has_var globals) (PH_RequiredGlobalVariables ph) 0) as [Hg1 Hg2].
  set (k := fold_left _ (PH_RequiredGlobalVariables ph) 0%Z) in *.
  pose proof (count_requirement_all (flat_map (target_requirements ph) targets) 0 0 []) as Ht.
  destruct (fold_left count_requirement _ _) as [[t r] m]. destruct Ht as (-> & Ht1 & Ht2 & _).
  rewrite target_requirements_all in Ht2. setoid_rewrite has_var_spec in Hg2.
  set (unmapped := hasTargetVarReqs ph && _).
  set (allT := if unmapped && _ then false else _).
  assert (allT = true <-> (forall t, t ∈ targets -> target_ok ph t) /\
    (targets = [] -> declares_target_vars ph -> is_Some resolver /\ (failures <= 0)%Z)) as HaT.
  { unfold allT, unmapped. rewrite <-hasTargetVarReqs_spec.
    destruct targets as [|t0 ts]; simpl in *.
    - assert (r = 0%Z) as -> by lia. rewrite andb_true_r. destruct (hasTargetVarReqs ph); simpl.
      + destruct (bool_decide_reflect (is_Some resolver)); simpl; [|naive_solver].
        destruct (Z.ltb_spec 0 failures); [naive_solver lia|].
        split; [|done]. intros _. split; [by intros ? ?%elem_of_nil|done].
      + split; [|done]. intros _. split; [by intros ? ?%elem_of_nil|done].
    - rewrite andb_false_r. simpl. rewrite Z.eqb_eq, <-Ht2. split; [intros; split; [lia|done]|lia]. }
  assert ((k =? Z.of_nat (length (PH_RequiredGlobalVariables ph)))%Z = true <->
    forall v, v ∈ PH_RequiredGlobalVariables ph -> is_Some (globals !! v)) as HaG.
  { rewrite Z.eqb_eq, <-Hg2. lia. }
  unfold satisfied. rewrite <-HaG, <-HaT, <-andb_true_iff. unfold buildVariableSummary. cbn -[String.append].
  destruct ((k =? _)%Z && allT), verbose; cbn -[String.append]; split_and!; done.
Qed.

(** ** Which targets an evaluator gets *)

Definition targets_of (m : gmap string (list TargetConfig)) (ev : string) : list TargetConfig :=
  default [] (m !! ev).

Lemma add_target_all t evs m ev x :
  x ∈ targets_of (fold_left (add_target t) evs m) ev <-> x ∈ targets_of m ev \/ (x = t /\ ev ∈ evs).
Proof.
  revert m. induction evs as [|e evs IH]; intros m; cbn [fold_left]; [rewrite elem_of_nil; naive_solver|].
  rewrite IH, elem_of_cons. unfold targets_of, add_target.
  destruct (decide (e = ev)) as [->|Hne].
  - rewrite lookup_insert_eq. simpl. rewrite elem_of_app, list_elem_of_singleton. naive_solver.
  - rewrite lookup_insert_ne by done. naive_solver.
Qed.

Lemma graph_evaluators_elem g ev :
  ev ∈ graph_evaluators g <-> is_Some (GroupByEvaluator (ExtractAssessmentConfigs g) g !! ev).
Proof.
  unfold graph_evaluators. rewrite list_elem_of_fmap. split.
  - intros ([k v] & -> & Hx). apply elem_of_map_to_list in Hx. by eexists.
  - intros [v Hv]. exists (ev, v). by rewrite elem_of_map_to_list.
Qed.

(** A note about a policy that could not be resolved. *)
Definition resolve_note (r : CheckResult) : Prop := exists label message, r = resolve_warn label message.

Section stable.
  Context {hs : HostSyntax} (R : PolicyGraphResolver) (cfg : WorkspaceConfig)
    (rv : string -> string -> result string) (rg : string -> string -> result DependencyGraph)
    (Hrv : forall id v w, (pg_ResolveVersion R id v w).1 = rv id v)
    (Hrg : forall id v w, (pg_ResolvePolicyGraph R id v w).1 = rg id v).

(** The graph of a policy of the workspace. *)
Definition resolved_graph (pid : string) (g : DependencyGraph) : Prop :=
  exists entry ref v, FindPolicy (WC_Policies cfg) pid = Some entry /\
    ParsePolicyRef (PE_URL entry) = (ref, None) /\ rv (PR_Repository ref) (VersionString ref) = Ok v /\
    rg (PR_Repository ref) v = Ok g.

(** [pid] is evaluated by [ev]. *)
Definition uses (pid ev : string) : Prop := exists g, resolved_graph pid g /\ ev ∈ graph_evaluators g.

(** How one step extends the accumulator. *)
Definition extends (P : TargetConfig -> string -> Prop) (ok : Prop) (a a' : resolution) : Prop :=
  (forall ev x, x ∈ targets_of (evaluatorTargets a') ev <->
     x ∈ targets_of (evaluatorTargets a) ev \/ P x ev) /\
  (resolveFailures a <= resolveFailures a')%Z /\ (resolveFailures a' = resolveFailures a <-> ok) /\
  (Forall resolve_note (resolveResults a) -> Forall resolve_note (resolveResults a')).

Lemma extends_trans P1 ok1 P2 ok2 a b c :
  extends P1 ok1 a b -> extends P2 ok2 b c ->
  extends (fun x ev => P1 x ev \/ P2 x ev) (ok1 /\ ok2) a c.
Proof.
  intros (Ht1 & Hf1 & Ho1 & Hn1) (Ht2 & Hf2 & Ho2 & Hn2). split_and!; [|lia| |tauto].
  - intros ev x. rewrite Ht2, Ht1. tauto.
  - rewrite <-Ho1, <-Ho2. lia.
Qed.

Lemma extends_proper P ok P' ok' a b :
  extends P ok a b -> (forall x ev, P x ev <-> P' x ev) -> (ok <-> ok') -> extends P' ok' a b.
Proof.
  intros (Ht & Hf & Ho & Hn) HP Hk. split_and!; [|done|by rewrite Ho|done].
  intros ev x. by rewrite Ht, HP.
Qed.

Lemma extends_unresolved label msg a : extends (fun _ _ => False) False a (unresolved label msg a).
Proof.
  unfold extends, unresolved. cbn. split_and!; [naive_solver|lia|split; [lia|done]|].
  intros H. apply Forall_app. split; [done|]. constructor; [by do 2 eexists|constructor].
Qed.

Lemma resolve_policy_extends t pid a w :
  extends (fun x ev => x = t /\ uses pid ev) (exists g, resolved_graph pid g) a
    (resolve_policy R cfg t pid a w).1.
Proof using Hrv Hrg.
  unfold resolve_policy, io_bind, io_ret.
  assert (forall l m, (forall g, ~ resolved_graph pid g) ->
    extends (fun x ev => x = t /\ uses pid ev) (exists g, resolved_graph pid g) a (unresolved l m a)) as Hno.
  { intros l m Hn. eapply extends_proper; [apply extends_unresolved| |];
      unfold uses; naive_solver. }
  destruct (FindPolicy (WC_Policies cfg) pid) as [entry|] eqn:E1;
    [|apply Hno; intros g (? & ? & ? & ? & _); congruence].
  destruct (ParsePolicyRef (PE_URL entry)) as [ref [e|]] eqn:E2;
    [apply Hno; intros g (? & ? & ? & ? & ? & _); simplify_eq; congruence|].
  pose proof (Hrv (PR_Repository ref) (VersionString ref) w) as E3.
  destruct (pg_ResolveVersion R _ _ w) as [[v|e] w1]; cbn [fst] in E3;
    [|apply Hno; intros g (? & ? & ? & ? & ? & ? & _); simplify_eq; congruence].
  pose proof (Hrg (PR_Repository ref) v w1) as E4.
  destruct (pg_ResolvePolicyGraph R _ _ w1) as [[g|e] w2]; cbn [fst] in E4;
    [|apply Hno; intros g (? & ? & ? & ? & ? & ? & ?); simplify_eq; congruence].
  assert (resolved_graph pid g) as Hg by (exists entry, ref, v; by split_and!).
  assert (forall g', resolved_graph pid g' -> g' = g) as Hu.
  { intros g' (? & ? & ? & ? & ? & ? & ?). simplify_eq. congruence. }
  split_and!; cbn; [|lia|naive_solver|done].
  intros ev x. rewrite add_target_all. unfold uses. naive_solver.
Qed.

Lemma resolve_policies_extends t pids a w :
  extends (fun x ev => x = t /\ exists pid, pid ∈ pids /\ uses pid ev)
    (forall pid, pid ∈ pids -> exists g, resolved_graph pid g) a (resolve_policies R cfg t pids a w).1.
Proof using Hrv Hrg.
  revert a w. induction pids as [|pid pids IH]; intros a w; cbn [resolve_policies].
  { split_and!; cbn; [|lia| |done]; [|setoid_rewrite elem_of_nil; naive_solver].
    intros ev x. setoid_rewrite elem_of_nil. naive_solver. }
  unfold io_bind. pose proof (resolve_policy_extends t pid a w) as H1.
  destruct (resolve_policy R cfg t pid a w) as [a1 w1]. cbn [fst] in H1.
  eapply extends_proper; [exact (extends_trans _ _ _ _ _ _ _ H1 (IH a1 w1))| |];
    setoid_rewrite elem_of_cons; naive_solver.
Qed.

Lemma resolve_targets_extends ts a w :
  extends (fun x ev => x ∈ ts /\ exists pid, pid ∈ T_Policies x /\ uses pid ev)
    (forall t pid, t ∈ ts -> pid ∈ T_Policies t -> exists g, resolved_graph pid g) a
    (resolve_targets R cfg ts a w).1.
Proof using Hrv Hrg.
  revert a w. induction ts as [|t ts IH]; intros a w; cbn [resolve_targets].
  { split_and!; cbn; [|lia| |done]; [|setoid_rewrite elem_of_nil; naive_solver].
    intros ev x. setoid_rewrite elem_of_nil. naive_solver. }
  unfold io_bind. pose proof (resolve_policies_extends t (T_Policies t) a w) as H1.
  destruct (resolve_policies R cfg t _ a w) as [a1 w1]. cbn [fst] in H1.
  eapply extends_proper; [exact (extends_trans _ _ _ _ _ _ _ H1 (IH a1 w1))| |];
    setoid_rewrite elem_of_cons; naive_solver.
Qed.

(** The targets doctor holds an evaluator's variables against. *)
Definition relevant (ev : string) (t : TargetConfig) : Prop :=
  t ∈ WC_Targets cfg /\ exists pid, pid ∈ T_Policies t /\ uses pid ev.

(** What a provider asks of the workspace. *)
Definition workspace_satisfies (ph : ProviderHealth) : Prop :=
  (forall v, v ∈ PH_RequiredGlobalVariables ph -> v = WorkspaceVarKey \/ is_Some (WC_Variables cfg !! v)) /\
  (forall t, relevant (PH_EvaluatorID ph) t -> target_ok ph t) /\
  ((forall t, ~ relevant (PH_EvaluatorID ph) t) -> declares_target_vars ph ->
   forall t pid, t ∈ WC_Targets cfg -> pid ∈ T_Policies t -> exists g, resolved_graph pid g).

Definition declares_vars (ph : ProviderHealth) : Prop :=
  PH_RequiredGlobalVariables ph <> [] \/ declares_target_vars ph.

Definition variables_verdict (ph : ProviderHealth) (r : CheckResult) : Prop :=
  CR_Name r = "variables/" +:+ PH_EvaluatorID ph /\ CR_Blocking r = true /\
  (CR_Status r = StatusPass <-> workspace_satisfies ph) /\
  (CR_Status r <> StatusPass -> CR_Status r = StatusFail).

Lemma effectiveGlobals_spec vars v :
  is_Some (effectiveGlobals vars !! v) <-> v = WorkspaceVarKey \/ is_Some (vars !! v).
Proof.
  unfold effectiveGlobals. destruct (decide (v = WorkspaceVarKey)) as [->|Hne].
  - rewrite lookup_insert_eq. split; [by left|by eexists].
  - rewrite lookup_insert_ne by done. naive_solver.
Qed.

(** C30: the variable check of doctor is exact.  For a resolver whose answers do
    not change during the run, every provider that declares variables has one
    blocking result; it passes exactly when the workspace sets every required
    global variable (the workspace variable is always set), every target one of
    whose policies resolves to a graph with that evaluator sets every required
    target variable and a member of every optional group, and, if there is no
    such target, every policy of every target could be resolved; otherwise it
    fails.  The other results are warnings about policies that did not resolve. *)
Theorem CheckVariables_exact health verbose w :
  let rs := (CheckVariables (Some cfg) health (Some R) verbose w).1 in
  (forall r, r ∈ rs -> resolve_note r \/ exists ph, ph ∈ health /\ variables_verdict ph r) /\
  (forall ph, ph ∈ health -> declares_vars ph -> exists r, r ∈ rs /\ variables_verdict ph r).
Proof using Hrv Hrg.
  cbv zeta. unfold CheckVariables.
  destruct health as [|h0 hs0]; [split; cbn; setoid_rewrite elem_of_nil; naive_solver|].
  set (health := h0 :: hs0). unfold resolveEvaluatorTargets, io_bind, io_ret.
  destruct (resolve_targets_extends (WC_Targets cfg) resolution_empty w) as (Ht & Hf & Ho & Hn).
  destruct (resolve_targets R cfg _ _ w) as [a w1]. cbn [fst] in *.
  specialize (Hn ltac:(constructor)). rewrite Forall_forall in Hn.
  assert (forall ev x, x ∈ targets_of (evaluatorTargets a) ev <-> relevant ev x) as Hrel.
  { intros ev x. rewrite Ht. unfold targets_of, relevant at 1. cbn. rewrite lookup_empty. cbn.
    rewrite elem_of_nil. naive_solver. }
  assert (forall ph, variables_verdict ph (validateProviderVariables ph
    (targets_of (evaluatorTargets a) (PH_EvaluatorID ph)) (effectiveGlobals (WC_Variables cfg)) (Some R)
    (resolveFailures a) verbose)) as Hv.
  { intros ph. destruct (validateProviderVariables_status ph
      (targets_of (evaluatorTargets a) (PH_EvaluatorID ph)) (effectiveGlobals (WC_Variables cfg)) (Some R)
      (resolveFailures a) verbose) as (H1 & _ & _ & H2 & H3 & H4). split_and!; try done.
    rewrite H3. unfold satisfied, workspace_satisfies. setoid_rewrite effectiveGlobals_spec.
    setoid_rewrite Hrel. cbn in Hf, Ho.
    assert (targets_of (evaluatorTargets a) (PH_EvaluatorID ph) = [] <->
      forall t, ~ relevant (PH_EvaluatorID ph) t) as ->.
    { setoid_rewrite <-Hrel. destruct (targets_of _ _) as [|t0 l]; [|].
      - split; [intros _ t; apply not_elem_of_nil|done].
      - split; [done|]. intros H. destruct (H t0). apply list_elem_of_here. }
    assert (is_Some (Some R) /\ (resolveFailures a <= 0)%Z <->
      forall t pid, t ∈ WC_Targets cfg -> pid ∈ T_Policies t -> exists g, resolved_graph pid g) as ->;
      [|done].
    rewrite <-Ho. split; [intros [_ ?]; lia|intros ->; split; [by eexists|lia]]. }
  unfold variable_results. split.
  - intros r [Hr|Hr]%elem_of_app; [left; by apply Hn|right].
    apply list_elem_of_In, in_flat_map in Hr as (ph & Hph & Hr). apply list_elem_of_In in Hph.
    destruct (nothing_to_validate _ _); [done|]. destruct Hr as [<-|[]]. by exists ph.
  - intros ph Hph Hd. eexists. split; [|apply Hv]. apply elem_of_app. right.
    apply list_elem_of_In, in_flat_map. exists ph. split; [by apply list_elem_of_In|]. fold (targets_of (evaluatorTargets a) (PH_EvaluatorID ph)).
    assert (nothing_to_validate ph (targets_of (evaluatorTargets a) (PH_EvaluatorID ph)) = false) as ->;
      [|by left].
    unfold nothing_to_validate. rewrite !andb_false_iff, negb_false_iff, hasTargetVarReqs_spec.
    destruct Hd as [Hd|Hd]; [|by left; right]. left; left. by destruct (PH_RequiredGlobalVariables ph).
Qed.
End stable.
