(* ===== verification/DoctorPacks.v ===== *)
(** * The checks of doctor on timelines and complypacks (internal/doctor/doctor.go)

    The active period of each policy, the complypacks the policies need, the
    size of the complypack cache and the versions in it nothing tracks. *)
From stdpp Require Import gmap.
From S2P Require Import Prelude GoStrings Digest OciRef World State Complypack Sync Config.
From S2P Require Import Workspace Provider Generation Resolver Time Diagnostics DoctorVars.

(** ** Active periods *)

Definition evaluateTimeline (startStr endStr label : string) (now : Z) : CheckStatus * string :=
  if bool_decide (startStr = "") then (StatusPass, "no " +:+ label +:+ " timeline defined")
  else match parseDatetime startStr with
  | Err _ => (StatusWarn, label +:+ " start date unparseable: " +:+ startStr)
  | Ok start =>
      if (now <? start)%Z then (StatusWarn, label +:+ " begins " +:+ startStr)
      else if bool_decide (endStr = "")
      then (StatusPass, label +:+ " active since " +:+ startStr +:+ " (open-ended)")
      else match parseDatetime endStr with
      | Err _ => (StatusWarn, label +:+ " end date unparseable: " +:+ endStr)
      | Ok e =>
          if (e <? now)%Z then (StatusWarn, label +:+ " ended " +:+ endStr)
          else (StatusPass, label +:+ " active (" +:+ startStr +:+ " to " +:+ endStr +:+ ")")
      end
  end.

(** The verbose lines below an active period. *)
Definition period_details (name : string) (tl : PolicyTimeline) (now : Z) : list CheckResult :=
  let line := result_of (name +:+ "/detail") "" GroupPolicies in
  let '(enfStatus, enfMsg) := evaluateTimeline (TL_EnforcementStart tl) (TL_EnforcementEnd tl) "enforcement" now in
  (if bool_decide (TL_EvaluationNotes tl = "") then []
   else [line StatusPass ("evaluation notes: " +:+ TL_EvaluationNotes tl) false]) ++
  [line enfStatus enfMsg false] ++
  (if bool_decide (TL_EnforcementNotes tl = "") then []
   else [line StatusPass ("enforcement notes: " +:+ TL_EnforcementNotes tl) false]).

Definition period_name (eid : string) : string := "policy/" +:+ eid +:+ "/active-period".

Definition active_period (eid : string) (timeline : option PolicyTimeline) (now : Z) (verbose : bool)
    : CheckResult :=
  let res := result_of (period_name eid) "active-period" GroupPolicies in
  match timeline with
  | None => res StatusPass "no evaluation timeline defined" false
  | Some tl =>
      let '(evalStatus, evalMsg) := evaluateTimeline (TL_EvaluationStart tl) (TL_EvaluationEnd tl) "evaluation" now in
      let r := res evalStatus evalMsg false in
      if verbose then with_children (period_details (period_name eid) tl now) r else r
  end.

Section checks.
  Context {hs : HostSyntax}.

(** The graph of a configured policy: an invalid reference is an error of its
    own, a policy that does not resolve is passed over. *)
Definition policy_graph (resolver : PolicyGraphResolver) (ref : PolicyRef) : io (option DependencyGraph) :=
  let! version := pg_ResolveVersion resolver (PR_Repository ref) (VersionString ref) in
  match version with
  | Err _ => io_ret None
  | Ok version =>
      let! graph := pg_ResolvePolicyGraph resolver (PR_Repository ref) version in
      io_ret (match graph with Ok g => Some g | Err _ => None end)
  end.

Fixpoint active_periods (resolver : PolicyGraphResolver) (now : Z) (verbose : bool)
    (policies : list PolicyEntry) : io (list CheckResult) :=
  match policies with
  | [] => io_ret []
  | p :: rest =>
      match ParsePolicyRef (PE_URL p) with
      | (_, Some e) =>
          let! more := active_periods resolver now verbose rest in
          io_ret (result_of (period_name (EffectiveID p)) "active-period" GroupPolicies StatusFail
                    ("invalid policy reference: " +:+ error_text e) true :: more)
      | (ref, None) =>
          let! graph := policy_graph resolver ref in
          let! more := active_periods resolver now verbose rest in
          io_ret (match graph with
                  | None => more
                  | Some g => active_period (EffectiveID p) (DG_Timeline g) now verbose :: more
                  end)
      end
  end.

Definition CheckPolicyActivePeriod (cfg : option WorkspaceConfig) (resolver : option PolicyGraphResolver)
    (verbose : bool) : io (list CheckResult) :=
  match cfg, resolver with
  | Some cfg, Some resolver =>
      if bool_decide (WC_Policies cfg = []) then io_ret []
      else let! now := time_Now in active_periods resolver now verbose (WC_Policies cfg)
  | _, _ => io_ret []
  end.
End checks.

(** ** The size of the complypack cache *)

(** Addition of int64 values. *)
Definition wrap64 (z : Z) : Z := ((z + 2 ^ 63) mod 2 ^ 64 - 2 ^ 63)%Z.

Definition file_size (n : node) : Z :=
  match n with File d _ => Z.of_nat (String.length d) | Dir _ => 0 end.

(** How a visit ends: the walk goes on, is ended ([filepath.SkipAll]) or fails. *)
Inductive walk_end : Type := WalkOn | WalkSkipAll | WalkErr (e : error).

(** The callback on an error: what is gone ends the walk. *)
Definition visit_error (e : error) : walk_end :=
  if error_is e ErrNotExist then WalkSkipAll else WalkErr e.

(** The callback on a file; [d.Info] is a system call. *)
Definition visit_file (p : path) (total : Z) : io (walk_end * Z) :=
  let! info := os_Stat p in
  io_ret (match info with
          | Err e => (WalkErr e, total)
          | Ok n => (WalkOn, wrap64 (total + file_size n))
          end).

Fixpoint visit_entries (visit : path -> Z -> io (walk_end * Z)) (p : path)
    (entries : list (string * node)) (total : Z) : io (walk_end * Z) :=
  match entries with
  | [] => io_ret (WalkOn, total)
  | (name, x) :: rest =>
      let! r := (if is_dir (Some x) then visit else visit_file) (p ++ [name]) total in
      match r.1 with
      | WalkOn => visit_entries visit p rest r.2
      | _ => io_ret r
      end
  end.

(** [filepath.WalkDir] on a directory the callback has accepted. *)
Fixpoint visit_dir (fuel : nat) (p : path) (total : Z) : io (walk_end * Z) :=
  match fuel with
  | O => io_ret (WalkErr (Errorf "walk: out of fuel"), total)
  | S fuel' =>
      let! r := os_ReadDir p in
      match r with
      | Err e => io_ret (visit_error e, total)
      | Ok entries => visit_entries (visit_dir fuel') p entries total
      end
  end.

(** Without symbolic links [EvalSymlinks] answers the path it is given. *)
Definition walkCacheSize (cacheDir : path) : io (result Z) := fun w =>
  let complypacksDir := cacheDir ++ [ComplypacksSubdir] in
  (let! r := os_Stat complypacksDir in
   match r with
   | Err e => if error_is e ErrNotExist then io_ret (Ok 0%Z)
              else io_ret (Err (Wrapf "failed to resolve complypack cache path: " e ""))
   | Ok _ =>
       let! root := os_Stat complypacksDir in
       let! r := (match root with
                  | Err e => io_ret (visit_error e, 0%Z)
                  | Ok (File d pm) => io_ret (WalkOn, wrap64 (0 + file_size (File d pm)))
                  | Ok (Dir _) => visit_dir (node_size (w_fs w)) complypacksDir 0%Z
                  end) in
       io_ret (match r with
               | (WalkErr e, _) => Err (Wrapf "failed to walk complypack cache: " e "")
               | (_, totalBytes) => Ok totalBytes
               end)
   end) w.

(** *** Human-readable sizes *)

(** [a / b] rounded to the nearest integer, ties to even. *)
Definition round_div (a b : Z) : Z :=
  let q := (a / b)%Z in
  let r := (a mod b)%Z in
  if (2 * r <? b)%Z then q else if (b <? 2 * r)%Z then (q + 1)%Z
  else if Z.even q then q else (q + 1)%Z.

(** [float64(n)] of a positive int64: 53 significant bits. *)
Definition to_float64 (n : Z) : Z :=
  if (n <? 2 ^ 53)%Z then n
  else let u := (2 ^ (Z.log2 n - 52))%Z in (round_div n u * u)%Z.

(** [%.1f] of [n / unit], [unit] a power of two. *)
Definition tenths (n unit : Z) : Z := round_div (10 * to_float64 n) unit.
Definition format_tenths (t : Z) : string := itoa (t / 10) +:+ "." +:+ itoa (t mod 10).

Definition formatBytes (bytes : Z) : string :=
  let kb := 1024%Z in
  let mb := (kb * 1024)%Z in
  let gb := (mb * 1024)%Z in
  if (gb <=? bytes)%Z then format_tenths (tenths bytes gb) +:+ " GB"
  else if (mb <=? bytes)%Z then format_tenths (tenths bytes mb) +:+ " MB"
  else if (kb <=? bytes)%Z then format_tenths (tenths bytes kb) +:+ " KB"
  else itoa bytes +:+ " B".

Example formatBytes_kb : formatBytes 1536 = "1.5 KB".
Proof. reflexivity. Qed.
Example formatBytes_below_mb : formatBytes 1048575 = "1024.0 KB".
Proof. reflexivity. Qed.

(** ** Versions nothing tracks *)

Record orphanedVersion := MkOrphanedVersion {
  OV_EvaluatorID : string;
  OV_Version : string;
  OV_Path : path;
  OV_Untracked : bool;
}.

Definition noState (state : option State) : bool :=
  match state with None => true | Some st => bool_decide (Complypacks st = ∅) end.

(** The (evaluator, version) pairs of the state. *)
Definition tracked_pairs (state : option State) : gset (string * string) :=
  match state with
  | None => ∅
  | Some st =>
      fold_left (fun s kv =>
          if negb (bool_decide (EvaluatorID kv.2 = "")) && negb (bool_decide (Version kv.2 = ""))
          then {[ (EvaluatorID kv.2, Version kv.2) ]} ∪ s else s)
        (map_to_list (Complypacks st)) ∅
  end.

Definition orphans_of (complypacksDir : path) (none : bool) (tracked : gset (string * string))
    (evaluatorID : string) (versionEntries : list (string * node)) : list orphanedVersion :=
  omap (fun v : string * node =>
    if negb (is_dir (Some v.2)) then None
    else if none || negb (bool_decide ((evaluatorID, v.1) ∈ tracked))
    then Some (MkOrphanedVersion evaluatorID v.1 (complypacksDir ++ [evaluatorID; v.1]) none)
    else None) versionEntries.

Fixpoint orphan_loop (complypacksDir : path) (none : bool) (tracked : gset (string * string))
    (evalEntries : list (string * node)) : io (list orphanedVersion) :=
  match evalEntries with
  | [] => io_ret []
  | (evaluatorID, x) :: rest =>
      if negb (is_dir (Some x)) then orphan_loop complypacksDir none tracked rest
      else
        let! r := os_ReadDir (complypacksDir ++ [evaluatorID]) in
        match r with
        | Err _ => orphan_loop complypacksDir none tracked rest
        | Ok versionEntries =>
            let! more := orphan_loop complypacksDir none tracked rest in
            io_ret (orphans_of complypacksDir none tracked evaluatorID versionEntries ++ more)
        end
  end.

Definition findOrphanedVersions (cacheDir : path) (state : option State) : io (list orphanedVersion) :=
  let complypacksDir := cacheDir ++ [ComplypacksSubdir] in
  let! r := os_ReadDir complypacksDir in
  match r with
  | Err _ => io_ret []
  | Ok evalEntries => orphan_loop complypacksDir (noState state) (tracked_pairs state) evalEntries
  end.

(** ** The complypack check *)

Section complypacks.
  Context {hs : HostSyntax} {stCodec : Codec State} {packCodec : Codec PackConfig}.

(** The evaluators of the policies, and the failures of their references. *)
Fixpoint needed_evaluators (resolver : PolicyGraphResolver) (policies : list PolicyEntry)
    (acc : gset string) : io (gset string * list CheckResult) :=
  match policies with
  | [] => io_ret (acc, [])
  | p :: rest =>
      match ParsePolicyRef (PE_URL p) with
      | (_, Some e) =>
          let! r := needed_evaluators resolver rest acc in
          io_ret (r.1, result_of ("complypacks/" +:+ EffectiveID p) (EffectiveID p) GroupComplypacks
                         StatusFail ("invalid policy reference: " +:+ error_text e) true :: r.2)
      | (ref, None) =>
          let! graph := policy_graph resolver ref in
          needed_evaluators resolver rest
            (match graph with
             | Some g => list_to_set (graph_evaluators g) ∪ acc
             | None => acc
             end)
      end
  end.

Definition pack_result (id : string) : CheckStatus -> string -> bool -> CheckResult :=
  result_of ("complypacks/" +:+ id) id GroupComplypacks.

Definition check_pack (c : ComplypackCache) (state : option State) (evalID : string) : io CheckResult :=
  let! r := LookupByEvaluatorID c state evalID in
  io_ret (match r with
  | Err e => pack_result evalID StatusWarn
               ("error checking complypack cache for " +:+ evalID +:+ ": " +:+ error_text e) false
  | Ok None => pack_result evalID StatusWarn "not cached — run complyctl get to download" false
  | Ok (Some _) => pack_result evalID StatusPass "cached" false
  end).

Fixpoint check_packs (c : ComplypackCache) (state : option State) (ids : list string) : io (list CheckResult) :=
  match ids with
  | [] => io_ret []
  | id :: rest =>
      let! r := check_pack c state id in
      let! more := check_packs c state rest in
      io_ret (r :: more)
  end.

Definition size_result (r : result Z) : CheckResult :=
  match r with
  | Err e => pack_result "cache-size" StatusWarn ("unable to calculate cache size: " +:+ error_text e) false
  | Ok n => pack_result "cache-size" StatusPass (formatBytes n) false
  end.

Definition orphan_result (o : orphanedVersion) : CheckResult :=
  pack_result (OV_EvaluatorID o +:+ "/" +:+ OV_Version o) StatusWarn
    (if OV_Untracked o then "complypack not tracked in state — run complyctl get to rebuild state"
     else "orphaned complypack version " +:+ OV_Version o +:+ " for evaluator " +:+ OV_EvaluatorID o +:+
          " — not referenced in state.json") false.

Definition CheckComplypacks (cfg : option WorkspaceConfig) (cacheDir dataDir : path)
    (resolver : option PolicyGraphResolver) : io (list CheckResult) :=
  match cfg, resolver with
  | Some cfg, Some resolver =>
      if bool_decide (WC_Complypacks cfg = []) then io_ret []
      else
        let! st := LoadState dataDir in
        let '(cacheState, stateResults) :=
          (match st with
           | Err e => (None, [pack_result "state" StatusWarn ("cannot load state: " +:+ error_text e) false])
           | Ok s => (Some s, [])
           end) in
        let! cpCache := (fun w => (NewComplypackCache cacheDir (w_env w), w)) in
        let! needed := needed_evaluators resolver (WC_Policies cfg) ∅ in
        let! packs := check_packs cpCache cacheState (elements needed.1) in
        let! size := walkCacheSize cacheDir in
        let! orphans := findOrphanedVersions cacheDir cacheState in
        io_ret (stateResults ++ needed.2 ++ packs ++ [size_result size] ++ (orphan_result <$> orphans))
  | _, _ => io_ret []
  end.
End complypacks.

(** ** Facts *)

(** a timeline is reported active exactly when it is.  The status is
    a pass if there is no start date, or the start date is a date that is not in
    the future and the end date is absent or a date that is not in the past,
    the instants compared being those the dates denote; it is a warning in
    every other case, never a failure.  A date written in any of the notations
    of the policy format denotes its instant. *)
Theorem evaluateTimeline_active startStr endStr label now :
  let status := (evaluateTimeline startStr endStr label now).1 in
  (status = StatusPass <->
     startStr = "" \/ exists s, parseDatetime startStr = Ok s /\ (s <= now)%Z /\
       (endStr = "" \/ exists e, parseDatetime endStr = Ok e /\ (now <= e)%Z)) /\
  (status = StatusPass \/ status = StatusWarn) /\
  forall y m d h mi s negative hh mm,
    (0 <= y < 10000)%Z -> valid_date y m d -> valid_time h mi s ->
    (0 <= hh <= 24)%Z -> (0 <= mm <= 60)%Z ->
    parseDatetime (date_text y m d) = Ok (instant y m d 0 0 0 0) /\
    parseDatetime (date_text y m d +:+ "T" +:+ time_text h mi s) = Ok (instant y m d h mi s 0) /\
    parseDatetime ((date_text y m d +:+ "T" +:+ time_text h mi s) +:+ "Z") = Ok (instant y m d h mi s 0) /\
    parseDatetime ((date_text y m d +:+ "T" +:+ time_text h mi s) +:+ zone_text negative hh mm) =
      Ok (instant y m d h mi s 0 - (if negative then -1 else 1) * ((hh * 60 + mm) * 60) * nano)%Z.
Proof.
  cbv zeta. split; [|split].
  - unfold evaluateTimeline. case_bool_decide; [naive_solver|].
    destruct (parseDatetime startStr) as [s|e]; [|naive_solver].
    destruct (Z.ltb_spec now s); cbn.
    { split; [done|]. intros [?|(s' & [= <-] & ? & _)]; [done|lia]. }
    case_bool_decide; [naive_solver|].
    destruct (parseDatetime endStr) as [e|e]; [|naive_solver].
    destruct (Z.ltb_spec e now); cbn; [|naive_solver].
    split; [done|]. intros [?|(s' & [= <-] & _ & [?|(e' & [= <-] & ?)])]; [done|done|lia].
  - unfold evaluateTimeline. repeat case_match; simpl; auto.
  - intros y m d h mi s negative hh mm Hy Hd Ht Hh Hm.
    by destruct (parseDatetime_written y m d h mi s Hy Hd Ht negative hh mm Hh Hm) as (? & ? & ? & ?).
Qed.

(** *** Sizes *)

Fixpoint tree_bytes (n : node) : Z :=
  match n with
  | File d _ => Z.of_nat (String.length d)
  | Dir m => map_fold (fun _ c acc => tree_bytes c + acc)%Z 0%Z m
  end.

Definition entries_bytes (l : list (string * node)) : Z := foldr (fun e acc => tree_bytes e.2 + acc)%Z 0%Z l.

Lemma entries_bytes_perm l l' : l ≡ₚ l' -> entries_bytes l = entries_bytes l'.
Proof. unfold entries_bytes. induction 1; simpl; lia. Qed.

Lemma entries_bytes_cons e l : entries_bytes (e :: l) = (tree_bytes e.2 + entries_bytes l)%Z.
Proof. done. Qed.

#[local] Arguments entries_bytes : simpl never.

Lemma tree_bytes_dir m : tree_bytes (Dir m) = entries_bytes (dir_list m).
Proof.
  rewrite (entries_bytes_perm (dir_list m) (map_to_list m)) by apply merge_sort_Permutation.
  simpl. rewrite map_fold_foldr. unfold entries_bytes. generalize (map_to_list m) as l.
  induction l as [|[k v] l IH]; simpl; [done|]. by rewrite IH.
Qed.

(** Induction on the size of a tree. *)
Lemma node_size_ind (P : node -> Prop) :
  (forall n, (forall c, (node_size c < node_size n)%nat -> P c) -> P n) -> forall n, P n.
Proof.
  intros H n. remember (node_size n) as k eqn:Hk. revert n Hk.
  induction (lt_wf k) as [k _ IH]. intros n ->. apply H. intros c Hc. by eapply IH.
Qed.

Lemma tree_bytes_nonneg n : (0 <= tree_bytes n)%Z.
Proof.
  induction n as [[d p|m] IH] using node_size_ind; [simpl; lia|]. rewrite tree_bytes_dir.
  assert (forall e, e ∈ dir_list m -> (0 <= tree_bytes e.2)%Z) as H.
  { intros [k c] Hk%dir_list_elem. by apply IH, (node_size_child m k). }
  induction (dir_list m) as [|e l IHl]; [done|]. rewrite entries_bytes_cons.
  pose proof (H e (list_elem_of_here _ _)).
  assert (0 <= entries_bytes l)%Z by (apply IHl; intros; apply H; by apply list_elem_of_further).
  lia.
Qed.

Lemma entries_bytes_nonneg l : (0 <= entries_bytes l)%Z.
Proof.
  induction l as [|e l IH]; [done|]. rewrite entries_bytes_cons. pose proof (tree_bytes_nonneg e.2). lia.
Qed.

Lemma wrap64_small z : (0 <= z < 2 ^ 63)%Z -> wrap64 z = z.
Proof. intros. unfold wrap64. rewrite Z.mod_small; lia. Qed.

(** What a visit may answer: a total between the old one and that with all the
    bytes below, exactly that when no call fails. *)
Definition visited (w : world) (bytes total : Z) (r : (walk_end * Z) * world) : Prop :=
  w_fs r.2 = w_fs w /\ (total <= r.1.2 <= total + bytes)%Z /\
  (no_faults w -> no_faults r.2 /\ r.1 = (WalkOn, total + bytes)%Z).

Lemma visit_file_visited p d pm total w :
  get p (w_fs w) = Some (File d pm) -> (0 <= total)%Z -> (total + tree_bytes (File d pm) < 2 ^ 63)%Z ->
  visited w (tree_bytes (File d pm)) total (visit_file p total w).
Proof.
  intros Hp H0 Hb. unfold visit_file, io_bind, io_ret, visited, os_Stat, os_call. simpl in *.
  destruct (w_fault w (w_tick w)) as [e|] eqn:Ef; simpl.
  - split_and!; [done|lia|lia|]. intros Hn. by rewrite Hn in Ef.
  - rewrite Hp. simpl. rewrite wrap64_small by lia. split_and!; [done|lia|lia|done].
Qed.

Lemma visit_entries_visited (visit : path -> Z -> io (walk_end * Z)) p entries total w :
  (forall name x, (name, x) ∈ entries -> get (p ++ [name]) (w_fs w) = Some x) ->
  (forall name x total w1, (name, x) ∈ entries -> is_dir (Some x) = true -> w_fs w1 = w_fs w ->
     (0 <= total)%Z -> (total + tree_bytes x < 2 ^ 63)%Z ->
     visited w1 (tree_bytes x) total (visit (p ++ [name]) total w1)) ->
  (0 <= total)%Z -> (total + entries_bytes entries < 2 ^ 63)%Z ->
  visited w (entries_bytes entries) total (visit_entries visit p entries total w).
Proof.
  remember (w_fs w) as fs eqn:Hfs. revert total w Hfs.
  induction entries as [|[name x] rest IH]; intros total w -> Hget Hvisit H0 Hb; cbn [visit_entries].
  { unfold visited. cbn. change (entries_bytes []) with 0%Z. rewrite Z.add_0_r. by split_and!; try lia. }
  rewrite entries_bytes_cons in Hb |- *. cbn [snd] in *.
  pose proof (entries_bytes_nonneg rest) as Hr. pose proof (tree_bytes_nonneg x) as Hx0.
  set (first := if is_dir (Some x) then visit else visit_file).
  assert (visited w (tree_bytes x) total (first (p ++ [name]) total w)) as (Hf & Ht & Hn).
  { unfold first. destruct (is_dir (Some x)) eqn:Hx.
    - apply Hvisit; [apply list_elem_of_here|done..|lia].
    - destruct x as [d pm|]; [|done]. apply visit_file_visited; [|done|lia].
      apply Hget, list_elem_of_here. }
  clearbody first. unfold io_bind. destruct (first _ _ w) as [[k t] w1].
  cbn [fst snd] in *.
  destruct k; [|unfold visited; split_and!; cbn; [done|lia|lia|]; intros Hw; by destruct (Hn Hw)..].
  destruct (IH t w1) as (Hf2 & Ht2 & Hn2); [done|..|lia|lia|].
  - intros n' x' Hin. apply Hget. by apply list_elem_of_further.
  - intros n' x' t' w' Hin ? Hw'. apply Hvisit; [by apply list_elem_of_further|done|congruence].
  - destruct (visit_entries visit p rest t w1) as [[k2 t2] w2]. cbn [fst snd] in *.
    unfold visited; split_and!; cbn; [congruence|lia|lia|].
    intros Hw. destruct (Hn Hw) as [Hw1 [= ->]]. destruct (Hn2 Hw1) as [? [= -> ->]].
    split; [done|]. f_equal. lia.
Qed.

Lemma visit_dir_visited fuel p m total w :
  get p (w_fs w) = Some (Dir m) -> (node_size (Dir m) <= fuel)%nat ->
  (0 <= total)%Z -> (total + tree_bytes (Dir m) < 2 ^ 63)%Z ->
  visited w (tree_bytes (Dir m)) total (visit_dir fuel p total w).
Proof.
  revert p m total w. induction fuel as [|fuel IH]; intros p m total w Hp Hfuel H0 Hb; [simpl in Hfuel; lia|].
  cbn [visit_dir]. unfold os_ReadDir, io_bind, os_call.
  pose proof (tree_bytes_nonneg (Dir m)) as Hnn. rewrite tree_bytes_dir in *.
  destruct (w_fault w (w_tick w)) as [e|] eqn:Ef; cbn.
  { unfold visited; split_and!; cbn; [done|lia|lia|]. intros Hn. by rewrite Hn in Ef. }
  rewrite Hp. cbn.
  assert (visited (tick (set_fs (w_fs w) w)) (entries_bytes (dir_list m)) total
    (visit_entries (visit_dir fuel) p (dir_list m) total (tick (set_fs (w_fs w) w)))) as H; [|exact H].
  apply visit_entries_visited; [| |done|done].
  - intros name x Hx%dir_list_elem. cbn. rewrite get_app, Hp. cbn. by rewrite Hx.
  - intros name x t w1 Hx%dir_list_elem Hd Hw1 Ht Htb. destruct x as [|m']; [done|].
    apply IH; [|apply node_size_child in Hx; lia|done|done].
    rewrite Hw1. cbn. rewrite get_app, Hp. cbn. by rewrite Hx.
Qed.

(** the cache size doctor reports.  Provided the complypack cache is
    smaller than 2^63 bytes, a reported size never exceeds the number of bytes
    in the files of the complypack directory, at any depth and whatever calls
    fail, and when no call fails it is exactly that number, or zero when there
    is no such directory; nothing is changed on disk. *)
Theorem walkCacheSize_exact cacheDir w :
  let bytes := match get (cacheDir ++ [ComplypacksSubdir]) (w_fs w) with
               | Some n => tree_bytes n | None => 0%Z end in
  (bytes < 2 ^ 63)%Z ->
  w_fs (walkCacheSize cacheDir w).2 = w_fs w /\
  (forall n, (walkCacheSize cacheDir w).1 = Ok n -> (0 <= n <= bytes)%Z) /\
  (no_faults w -> (walkCacheSize cacheDir w).1 = Ok bytes).
Proof.
  cbv zeta. set (p := cacheDir ++ [ComplypacksSubdir]). intros Hb.
  unfold walkCacheSize. fold p. unfold io_bind, io_ret, os_Stat, os_call.
  assert (0 <= match get p (w_fs w) with Some n => tree_bytes n | None => 0 end)%Z as Hnn.
  { destruct (get p (w_fs w)); [apply tree_bytes_nonneg|done]. }
  destruct (w_fault w (w_tick w)) as [e|] eqn:Ef; cbn.
  { destruct (error_is e ErrNotExist); cbn; (split_and!; [done| |intros Hn; by rewrite Hn in Ef]);
      intros n [= <-]; lia. }
  destruct (get p (w_fs w)) as [x|] eqn:Hp; cbn; [|split_and!; [done|intros n [= <-]; lia|done]].
  destruct (w_fault w (S (w_tick w))) as [e|] eqn:Ef2; cbn.
  { unfold visit_error. destruct (error_is e ErrNotExist); cbn;
      (split_and!; [done| |intros Hn; by rewrite Hn in Ef2]); intros n [= <-]; lia. }
  rewrite Hp. cbn. destruct x as [d pm|m].
  - cbn in *. rewrite wrap64_small by lia. split_and!; [done|intros n [= <-]; lia|done].
  - set (w1 := tick _).
    destruct (visit_dir_visited (node_size (w_fs w)) p m 0 w1) as (Hf & Ht & Hn);
      [done|by apply (node_size_get p)|done|done|].
    destruct (visit_dir _ p 0%Z w1) as [[k t] w2]. cbn [fst snd] in *.
    split_and!; [by destruct k|intros n; destruct k; intros [= <-]; lia|].
    intros Hw. destruct Hn as [_ [= -> ->]]; [exact Hw|]. done.
Qed.

(** *** The text of a size *)

Lemma round_div_near a b : (0 < b)%Z -> (2 * Z.abs (a - round_div a b * b) <= b)%Z.
Proof.
  intros Hb. unfold round_div. pose proof (Z.div_mod a b ltac:(lia)). pose proof (Z.mod_pos_bound a b Hb).
  destruct (Z.ltb_spec (2 * (a mod b)) b), (Z.ltb_spec b (2 * (a mod b))); try lia.
  destruct (Z.even _); lia.
Qed.

(** the size text is accurate.  Below 1024 bytes the number itself is
    printed; from there on, and below 2^53 bytes, the printed number of KB, MB
    or GB is a decimal with one digit within half a tenth of the size in that
    unit, and the unit is the largest one that is not greater than the size. *)
Theorem formatBytes_accurate n :
  (0 <= n < 2 ^ 53)%Z ->
  ((n < 1024)%Z -> formatBytes n = itoa n +:+ " B") /\
  ((1024 <= n)%Z -> exists k suffix t,
     (k, suffix) ∈ [(1, " KB"); (2, " MB"); (3, " GB")]%Z /\
     formatBytes n = (itoa (t / 10) +:+ "." +:+ itoa (t mod 10)) +:+ suffix /\
     (2 * Z.abs (10 * n - t * 1024 ^ k) <= 1024 ^ k)%Z /\
     (1024 ^ k <= n)%Z /\ (k < 3 -> n < 1024 ^ (k + 1))%Z).
Proof.
  intros Hn.
  assert (to_float64 n = n) as Hf by (unfold to_float64; by rewrite (proj2 (Z.ltb_lt _ _)) by lia).
  assert (forall u, (0 < u)%Z -> (2 * Z.abs (10 * n - tenths n u * u) <= u)%Z) as Ht.
  { intros u Hu. unfold tenths. rewrite Hf. by apply round_div_near. }
  unfold formatBytes, format_tenths. split; intros Hk.
  - by rewrite !(proj2 (Z.leb_gt _ _)) by lia.
  - destruct (Z.leb_spec (1024 * 1024 * 1024) n); [|destruct (Z.leb_spec (1024 * 1024) n)].
    + exists 3%Z, " GB", (tenths n (1024 * 1024 * 1024)). specialize (Ht (1024 * 1024 * 1024)%Z ltac:(lia)).
      split_and!; [set_solver|done|lia|lia|lia].
    + exists 2%Z, " MB", (tenths n (1024 * 1024)). specialize (Ht (1024 * 1024)%Z ltac:(lia)).
      split_and!; [set_solver|done|lia|lia|lia].
    + exists 1%Z, " KB", (tenths n 1024). specialize (Ht 1024%Z ltac:(lia)).
      rewrite (proj2 (Z.leb_le _ _)) by lia. split_and!; [set_solver|done|lia|lia|lia].
Qed.

(** *** Orphans *)

(** The state names this version of this evaluator. *)
Definition tracked_by (state : option State) (ev v : string) : Prop :=
  ev <> "" /\ v <> "" /\ exists st k ps, state = Some st /\ Complypacks st !! k = Some ps /\
    EvaluatorID ps = ev /\ Version ps = v.

Lemma tracked_pairs_spec state ev v : (ev, v) ∈ tracked_pairs state <-> tracked_by state ev v.
Proof.
  unfold tracked_pairs, tracked_by. destruct state as [st|]; [|set_solver].
  assert (forall l acc, (ev, v) ∈ fold_left (fun (s : gset (string * string)) (kv : string * PolicyState) =>
      if negb (bool_decide (EvaluatorID kv.2 = "")) && negb (bool_decide (Version kv.2 = ""))
      then {[ (EvaluatorID kv.2, Version kv.2) ]} ∪ s else s) l acc <->
    (ev, v) ∈ acc \/ ev <> "" /\ v <> "" /\ exists kv, kv ∈ l /\ EvaluatorID kv.2 = ev /\ Version kv.2 = v) as H.
  { induction l as [|[k ps] l IH]; intros acc; simpl.
    { split; [by left|]. intros [?|(_ & _ & ? & Hin & _)]; [done|by apply elem_of_nil in Hin]. }
    rewrite IH. setoid_rewrite elem_of_cons.
    assert ((ev, v) ∈ (if negb (bool_decide (EvaluatorID ps = "")) && negb (bool_decide (Version ps = ""))
        then {[ (EvaluatorID ps, Version ps) ]} ∪ acc else acc) <->
      (ev, v) ∈ acc \/ ev <> "" /\ v <> "" /\ EvaluatorID ps = ev /\ Version ps = v) as ->.
    { destruct (bool_decide_reflect (EvaluatorID ps = "")), (bool_decide_reflect (Version ps = ""));
        simpl; rewrite ?elem_of_union, ?elem_of_singleton; naive_solver. }
    split; [|naive_solver].
    intros [[?|(? & ? & ? & ?)]|(? & ? & kv & ? & ?)]; [by left| |naive_solver].
    right. split_and!; [done|done|]. exists (k, ps). by split; [left|]. }
  etransitivity; [exact (H (map_to_list (Complypacks st)) ∅)|]. split.
  - intros [?|(? & ? & [k ps] & Hin & ? & ?)]; [set_solver|]. split_and!; [done|done|].
    exists st, k, ps. by apply elem_of_map_to_list in Hin.
  - intros (? & ? & st' & k & ps & [= <-] & ? & ? & ?). right. split_and!; [done|done|].
    exists (k, ps). by rewrite elem_of_map_to_list.
Qed.

(** What an orphan is: a directory two levels below the complypack directory
    that the state does not name, or any if the state names none at all. *)
Definition is_orphan (fs : node) (root : path) (state : option State) (o : orphanedVersion) : Prop :=
  OV_Path o = root ++ [OV_EvaluatorID o; OV_Version o] /\
  is_dir (get (OV_Path o) fs) = true /\
  OV_Untracked o = noState state /\
  (noState state = true \/ ~ tracked_by state (OV_EvaluatorID o) (OV_Version o)).

Lemma orphans_of_spec root none tracked ev entries o :
  o ∈ orphans_of root none tracked ev entries <->
  exists v x, (v, x) ∈ entries /\ is_dir (Some x) = true /\
    o = MkOrphanedVersion ev v (root ++ [ev; v]) none /\ (none = true \/ (ev, v) ∉ tracked).
Proof.
  unfold orphans_of. rewrite list_elem_of_omap. split.
  - intros ([v x] & Hin & Ho). cbn [fst snd] in Ho. exists v, x.
    destruct (is_dir (Some x)) eqn:Hx; [|done]. cbn [negb] in Ho.
    destruct (none || _) eqn:E; simplify_eq. split_and!; try done.
    apply orb_true_iff in E as [?|E]; [by left|right]. by apply negb_true_iff, bool_decide_eq_false in E.
  - intros (v & x & Hin & Hx & -> & Hor). exists (v, x). split; [done|]. cbn [fst snd]. rewrite Hx. cbn [negb].
    destruct Hor as [-> | Hor]; [done|]. rewrite (bool_decide_eq_false_2 _ Hor). by rewrite orb_true_r.
Qed.

Lemma orphan_loop_spec root none tracked entries w :
  (forall name x, (name, x) ∈ entries -> get (root ++ [name]) (w_fs w) = Some x) ->
  let '(l, w') := orphan_loop root none tracked entries w in
  w_fs w' = w_fs w /\
  (forall o, o ∈ l -> exists ev m v x, (ev, Dir m) ∈ entries /\ m !! v = Some x /\ is_dir (Some x) = true /\
     o = MkOrphanedVersion ev v (root ++ [ev; v]) none /\ (none = true \/ (ev, v) ∉ tracked)) /\
  (no_faults w -> forall ev m v x, (ev, Dir m) ∈ entries -> m !! v = Some x -> is_dir (Some x) = true ->
     (none = true \/ (ev, v) ∉ tracked) -> MkOrphanedVersion ev v (root ++ [ev; v]) none ∈ l).
Proof.
  revert w. induction entries as [|[ev x] rest IH]; intros w Hget; cbn [orphan_loop].
  { cbn. split_and!; [done|set_solver|]. intros _ ev m v x H. by apply elem_of_nil in H. }
  assert (forall w1, w_fs w1 = w_fs w -> forall name y, (name, y) ∈ rest ->
    get (root ++ [name]) (w_fs w1) = Some y) as Hrest.
  { intros w1 -> name y Hy. apply Hget. by apply list_elem_of_further. }
  destruct x as [d pm|m]; cbn [is_dir negb].
  { specialize (IH w (Hrest w eq_refl)). destruct (orphan_loop _ _ _ rest w) as [l w'].
    destruct IH as (Hf & Hs & Hc). setoid_rewrite elem_of_cons. split_and!; [done|naive_solver|naive_solver]. }
  unfold io_bind, os_ReadDir, os_call.
  destruct (w_fault w (w_tick w)) as [e|] eqn:Ef.
  { specialize (IH (tick w) (Hrest (tick w) eq_refl)). destruct (orphan_loop _ _ _ rest (tick w)) as [l w'].
    destruct IH as (Hf & Hs & _). setoid_rewrite elem_of_cons. split_and!; [done|naive_solver|].
    intros Hn. by rewrite Hn in Ef. }
  rewrite (Hget ev (Dir m) (list_elem_of_here _ _)).
  set (w1 := tick (set_fs (w_fs w) w)). specialize (IH w1 (Hrest w1 eq_refl)).
  destruct (orphan_loop _ _ _ rest w1) as [l w']. destruct IH as (Hf & Hs & Hc).
  cbn [io_ret]. setoid_rewrite elem_of_app. setoid_rewrite orphans_of_spec. setoid_rewrite elem_of_cons.
  setoid_rewrite dir_list_elem. split_and!; [done| |].
  - intros o [(v & x & Hv & Hx & -> & Hor)|Ho]; [by eauto 10|]. destruct (Hs o Ho) as (? & ? & ? & ? & ?).
    naive_solver.
  - intros Hn ev' m' v x [[= -> ->]|Hin] Hv Hx Hor; [by left; eauto 10|right]. by eapply Hc.
Qed.

(** orphan detection is exact.  Whatever calls fail, every version
    doctor reports is a directory of the complypack cache that the state does
    not track (or any, if there is no state or it tracks none); when no call
    fails every such directory is reported; nothing is changed. *)
Theorem findOrphanedVersions_exact cacheDir state w :
  let root := cacheDir ++ [ComplypacksSubdir] in
  let '(l, w') := findOrphanedVersions cacheDir state w in
  w_fs w' = w_fs w /\
  (forall o, o ∈ l -> is_orphan (w_fs w) root state o) /\
  (no_faults w -> forall o, is_orphan (w_fs w) root state o -> o ∈ l).
Proof.
  cbv zeta. unfold findOrphanedVersions. set (root := cacheDir ++ [ComplypacksSubdir]).
  assert (forall o, is_orphan (w_fs w) root state o -> exists m mv x, get root (w_fs w) = Some (Dir m) /\
    m !! OV_EvaluatorID o = Some (Dir mv) /\ mv !! OV_Version o = Some x /\ is_dir (Some x) = true) as Hdir.
  { intros o (Hp & Hd & _). rewrite Hp, get_app in Hd. destruct (get root (w_fs w)) as [[|m]|]; [done| |done].
    cbn in Hd. destruct (m !! OV_EvaluatorID o) as [[|mv]|] eqn:E1; [done| |done].
    destruct (mv !! OV_Version o) as [x|] eqn:E2; [|done]. by exists m, mv, x. }
  unfold io_bind, os_ReadDir at 1, os_call.
  destruct (w_fault w (w_tick w)) as [e|] eqn:Ef.
  { cbn. split_and!; [done|set_solver|]. intros Hn. by rewrite Hn in Ef. }
  destruct (get root (w_fs w)) as [[d pm|m]|] eqn:Hroot.
  1,3: cbn; split_and!; [done|set_solver|]; intros _ o Ho; destruct (Hdir o Ho) as (? & ? & ? & ? & _); congruence.
  pose proof (orphan_loop_spec root (noState state) (tracked_pairs state) (dir_list m)
    (tick (set_fs (w_fs w) w))) as H.
  destruct (orphan_loop _ _ _ _ _) as [l w']. destruct H as (Hf & Hs & Hc).
  { intros name x Hx%dir_list_elem. cbn. rewrite get_app, Hroot. cbn. by rewrite Hx. }
  setoid_rewrite tracked_pairs_spec in Hs. setoid_rewrite tracked_pairs_spec in Hc.
  setoid_rewrite dir_list_elem in Hs. setoid_rewrite dir_list_elem in Hc.
  split_and!; [exact Hf| |].
  - intros o Ho. destruct (Hs o Ho) as (ev & mv & v & x & Hev & Hv & Hx & -> & Hor).
    split_and!; cbn; try done. rewrite get_app, Hroot. cbn. by rewrite Hev, Hv.
  - intros Hn o Ho. destruct (Hdir o Ho) as (m' & mv & x & Hm & Hev & Hv & Hx). simplify_eq.
    destruct o as [ev v p u], Ho as (Hp & _ & Hu & Hor). cbn in *. subst. by eapply Hc.
Qed.
