(* ===== verification/Doctor.v ===== *)
(** * The doctor command (internal/doctor/doctor.go Run, cmd/complyctl/cli/doctor.go)

    All checks in the order the command runs them, the tree their results are
    arranged in, the summary with the exit status, and the three renderings. *)
From stdpp Require Import gmap.
From S2P Require Import Prelude GoStrings Digest OciRef World State Complypack Sync Config.
From S2P Require Import Workspace Provider Generation Resolver Evaluator Report Time.
From S2P Require Import Diagnostics DoctorVars DoctorPacks.

(** ** The tree of results *)

(** The second segment of a check name. *)
Definition extractID (name : string) : string :=
  match cut name "/" with
  | None => name
  | Some (_, rest) => match cut rest "/" with Some (id, _) => id | None => rest end
  end.

(** The last result of each identifier. *)
Fixpoint index_results (l : list CheckResult) (i : nat) (m : gmap string nat) : gmap string nat :=
  match l with
  | [] => m
  | r :: rest => index_results rest (S i) (<[extractID (CR_Name r) := i]> m)
  end.

Fixpoint attach_loop (index : gmap string nat) (subs tops unmatched : list CheckResult)
    : list CheckResult * list CheckResult :=
  match subs with
  | [] => (tops, unmatched)
  | v :: rest =>
      match index !! extractID (CR_Name v) with
      | Some idx => attach_loop index rest (alter (add_child v) idx tops) unmatched
      | None => attach_loop index rest tops (unmatched ++ [v])
      end
  end.

(** [attachByEvaluatorID] and [attachByPolicyID] have the same body. *)
Definition attachByEvaluatorID (providers vars : list CheckResult) : list CheckResult * list CheckResult :=
  attach_loop (index_results providers 0 ∅) vars providers [].
Definition attachByPolicyID (policies active : list CheckResult) : list CheckResult * list CheckResult :=
  attach_loop (index_results policies 0 ∅) active policies [].

(** ** All checks *)

Record RunOptions := MkRunOptions {
  RO_Config : option WorkspaceConfig;
  RO_ConfigPath : path;
  RO_ProviderDir : path;
  RO_CacheDir : path;
  RO_DataDir : path;
  RO_Resolver : option PolicyGraphResolver;
  RO_VersionResolver : option VersionResolver;
  RO_Verbose : bool;
}.

Section run.
  Context {hs : HostSyntax} {stCodec : Codec State} {packCodec : Codec PackConfig}
    {cfgCodec : Codec WorkspaceConfig} {launcher : Launcher} (cwd : path).

(** The assembly of the results, once every check has answered. *)
Definition assemble (providerResults varResults policyResults activeResults rest : list CheckResult)
    : list CheckResult :=
  let '(providerResults, unmatchedVars) := attachByEvaluatorID providerResults varResults in
  let '(policyResults, unmatchedActive) := attachByPolicyID policyResults activeResults in
  providerResults ++ (with_group GroupProviders <$> unmatchedVars) ++
  policyResults ++ unmatchedActive ++ rest.

Definition Run (opts : RunOptions) : io (list CheckResult) :=
  let policiesCacheDir := RO_CacheDir opts ++ [PoliciesSubdir] in
  let! providers := CheckProviders (RO_ProviderDir opts) in
  let '(providerResults, healthData) := providers in
  let! varResults := CheckVariables (RO_Config opts) healthData (RO_Resolver opts) (RO_Verbose opts) in
  let! policies := CheckPolicyVersions (RO_Config opts) (RO_DataDir opts) (RO_VersionResolver opts) in
  let! activeResults := CheckPolicyActivePeriod (RO_Config opts) (RO_Resolver opts) (RO_Verbose opts) in
  let! cache := CheckCache policiesCacheDir in
  let! packs := CheckComplypacks (RO_Config opts) (RO_CacheDir opts) (RO_DataDir opts) (RO_Resolver opts) in
  let! config := CheckConfig cwd (RO_ConfigPath opts) in
  let! verification := CheckVerification (RO_DataDir opts) in
  let! layout := CheckDirectoryLayout (RO_CacheDir opts) (RO_DataDir opts) in
  io_ret (assemble providerResults varResults policies.1 activeResults
            ([cache] ++ packs ++ [config; verification; layout])).
End run.

(** ** Summary *)

Record resultSummary := MkResultSummary {
  passCount : Z;
  failCount : Z;
  warnCount : Z;
  total : Z;
  blockingFailure : bool;
}.

Definition countStatusSummary (status : CheckStatus) (s : resultSummary) : resultSummary :=
  let '(MkResultSummary p f w t b) := s in
  if bool_decide (status = StatusPass) then MkResultSummary (p + 1) f w t b
  else if bool_decide (status = StatusFail) then MkResultSummary p (f + 1) w t b
  else if bool_decide (status = StatusWarn) then MkResultSummary p f (w + 1) t b
  else s.

(** Whether the check alone fails the command. *)
Definition blocks (r : CheckResult) : bool := CR_Blocking r && bool_decide (CR_Status r = StatusFail).

(** One check, or one child of a check. *)
Definition summarize_one (s : resultSummary) (r : CheckResult) : resultSummary :=
  let s := countStatusSummary (CR_Status r) s in
  if blocks r
  then MkResultSummary (passCount s) (failCount s) (warnCount s) (total s) true
  else s.

Definition summarizeResults (results : list CheckResult) : resultSummary :=
  let s := fold_left (fun s r => fold_left summarize_one (CR_Children r) (summarize_one s r)) results
             (MkResultSummary 0 0 0 0 false) in
  MkResultSummary (passCount s) (failCount s) (warnCount s)
    (passCount s + failCount s + warnCount s) (blockingFailure s).

(** ** Rendering *)

Definition statusLabel (s : CheckStatus) : string :=
  if bool_decide (s = StatusPass) then "[PASS]"
  else if bool_decide (s = StatusFail) then "[FAIL]"
  else if bool_decide (s = StatusWarn) then "[WARN]"
  else "[UNKNOWN]".

Definition StatusUnknown : string := "❓".

Definition statusEmoji (s : CheckStatus) : string :=
  if bool_decide (s = StatusPass) then StatusPassed
  else if bool_decide (s = StatusFail) then StatusFailed
  else if bool_decide (s = StatusWarn) then StatusError
  else StatusUnknown.

Definition humanStatusPrefix (s : CheckStatus) : string := statusEmoji s +:+ " " +:+ statusLabel s.
Definition textStatusPrefix (s : CheckStatus) : string := statusLabel s.

Definition resultLabel (r : CheckResult) : string :=
  if negb (bool_decide (CR_Label r = "")) then CR_Label r else CR_Name r.

Definition grouped (results : list CheckResult) : gmap string (list CheckResult) :=
  fold_left (fun m r => <[CR_Group r := default [] (m !! CR_Group r) ++ [r]]> m) results ∅.

Section render.
  Context (fmtStatus : CheckStatus -> string).

Definition check_line (indent : string) (r : CheckResult) : string :=
  indent +:+ fmtStatus (CR_Status r) +:+ " " +:+ resultLabel r +:+ ": " +:+ CR_Message r.

(** The lines of one check: itself, its children, their details. *)
Definition check_lines (r : CheckResult) : list string :=
  check_line "  " r ::
  flat_map (fun child =>
    check_line "      " child ::
    ((fun gc => "          " +:+ fmtStatus (CR_Status gc) +:+ " " +:+ CR_Message gc)
       <$> CR_Children child)) (CR_Children r).

Fixpoint sections (m : gmap string (list CheckResult)) (groups : list CheckGroup) (firstSection : bool)
    : list string :=
  match groups with
  | [] => []
  | group :: rest =>
      match m !! group with
      | None => sections m rest firstSection
      | Some checks =>
          (if firstSection then [] else [""]) ++ [group] ++ flat_map check_lines checks ++
          sections m rest false
      end
  end.

Definition blocking_error : error := Errorf "one or more blocking checks failed".

(** The lines written and the result of the command. *)
Definition renderDiagnostics (results : list CheckResult) : list string * result unit :=
  let s := summarizeResults results in
  (["Running workspace diagnostics..."; ""] ++ sections (grouped results) GroupOrder true ++
   [""; itoa (total s) +:+ " checks: " +:+ itoa (passCount s) +:+ " passed, " +:+ itoa (failCount s) +:+
        " failed, " +:+ itoa (warnCount s) +:+ " warnings"],
   guard_err (blockingFailure s) blocking_error).
End render.

Inductive checkOutput : Type := MkCheckOutput {
  CO_Name : string;
  CO_Label : string;
  CO_Status : CheckStatus;
  CO_Message : string;
  CO_Blocking : bool;
  CO_Group : CheckGroup;
  CO_Children : list checkOutput;
}.

Record diagnosticSummary := MkDiagnosticSummary {
  DS_Total : Z; DS_Passed : Z; DS_Failed : Z; DS_Warnings : Z }.

Record diagnosticOutput := MkDiagnosticOutput {
  DO_Checks : list checkOutput;
  DO_Summary : diagnosticSummary;
  DO_BlockingFailure : bool;
}.

Fixpoint convertResult (r : CheckResult) : checkOutput :=
  MkCheckOutput (CR_Name r) (CR_Label r) (CR_Status r) (CR_Message r) (CR_Blocking r) (CR_Group r)
    (map convertResult (CR_Children r)).

Section print.
  Context {outCodec : Codec diagnosticOutput}.

Definition diagnostic_output (results : list CheckResult) : diagnosticOutput :=
  let s := summarizeResults results in
  MkDiagnosticOutput (convertResult <$> results)
    (MkDiagnosticSummary (total s) (passCount s) (failCount s) (warnCount s)) (blockingFailure s).

Definition printDiagnosticsJSON (results : list CheckResult) : list string * result unit :=
  match marshal (diagnostic_output results) with
  | Err e => ([], Err (Wrapf "encoding diagnostic output: " e ""))
  | Ok text => ([text], guard_err (blockingFailure (summarizeResults results)) blocking_error)
  end.

Definition OutputFormatText : string := "text".
Definition OutputFormatJSON : string := "json".
Definition OutputFormatHuman : string := "human".

Definition printDiagnosticsTo (results : list CheckResult) (format : string) : list string * result unit :=
  if bool_decide (format = "") then renderDiagnostics humanStatusPrefix results
  else if bool_decide (format = OutputFormatText) then renderDiagnostics textStatusPrefix results
  else if bool_decide (format = OutputFormatJSON) then printDiagnosticsJSON results
  else ([], Err (Errorf ("unsupported output format: " +:+ format))).

Definition resolveFormat (env : gmap string string) (flagValue : string) : result string :=
  if negb (bool_decide (flagValue = "")) then
    if bool_decide (flagValue = OutputFormatText) || bool_decide (flagValue = OutputFormatJSON)
    then Ok flagValue
    else if bool_decide (flagValue = OutputFormatHuman) then Ok ""
    else Err (Errorf ("invalid format " +:+ flagValue +:+ ": must be one of " +:+ OutputFormatHuman +:+ ", " +:+
                      OutputFormatText +:+ ", " +:+ OutputFormatJSON))
  else if negb (bool_decide (getenv env "NO_COLOR" = "")) then Ok OutputFormatText
  else Ok "".

(** ** The command *)

(** [registryVersionResolver]; a missing credential store is no obstacle. *)
Definition registry_resolve {hs : HostSyntax} {net : RegistryNetwork} (registryURL repository version : string)
    : result string :=
  let lookup := if negb (bool_decide (version = "")) then repository +:+ ":" +:+ version else repository in
  try v := DefinitionVersion (NewClient registryURL) lookup in Ok v.2.

Definition registryVersionResolver {hs : HostSyntax} {net : RegistryNetwork} : VersionResolver :=
  MkVersionResolver (fun registryURL repository => io_ret (registry_resolve registryURL repository ""))
    (fun registryURL repository version => io_ret (registry_resolve registryURL repository version)).

Definition runDoctor {hs : HostSyntax} {net : RegistryNetwork} {stCodec : Codec State}
    {packCodec : Codec PackConfig} {cfgCodec : Codec WorkspaceConfig} {launcher : Launcher}
    {yaml : GemaraYAML} `{Oras} {reader : StoreReader}
    (os : goos) (cwd baseDir : path) (verbose : bool) (format : string)
    : io (list string * result unit) := fun w =>
  let env := w_env w in
  match (try providerDir := ResolveProviderDir os env
           orelse (fun e => Wrapf "failed to resolve provider directory: " e "") in
         try cacheDir := ResolveCacheDir os env
           orelse (fun e => Wrapf "failed to resolve cache directory: " e "") in
         try dataDir := ResolveDataDir os env
           orelse (fun e => Wrapf "failed to resolve data directory: " e "") in
         Ok (providerDir, cacheDir, dataDir)) with
  | Err e => (([], Err e), w)
  | Ok (providerDir, cacheDir, dataDir) =>
      (let! ws := NewWorkspace baseDir in
       let! loaded := Load cwd ws.1 in
       let cfg := match loaded with Ok ws' => ws_config ws' | Err _ => None end in
       let resolver := NewResolver (loader := Loader cacheDir) in
       let! results := Run cwd (MkRunOptions cfg (ws_configPath ws.1) providerDir cacheDir dataDir
                                  (Some resolver) (Some registryVersionResolver) verbose) in
       io_ret (printDiagnosticsTo results format)) w
  end.
(** The command line: the workspace, then the format. *)
Definition doctorCmd {hs : HostSyntax} {net : RegistryNetwork} {stCodec : Codec State}
    {packCodec : Codec PackConfig} {cfgCodec : Codec WorkspaceConfig} {launcher : Launcher}
    {yaml : GemaraYAML} `{Oras} {reader : StoreReader}
    (os : goos) (cwd : path) (workspace format : string) (verbose : bool)
    : io (list string * result unit) := fun w =>
  (let! baseDir := ResolveWorkspaceDir cwd os (w_env w) workspace in
   match baseDir with
   | Err e => io_ret ([], Err e)
   | Ok baseDir =>
       match resolveFormat (w_env w) format with
       | Err e => io_ret ([], Err e)
       | Ok resolvedFormat => runDoctor os cwd baseDir verbose resolvedFormat
       end
   end) w.
End print.

(** ** Attaching loses nothing *)

(** Equal but for the children. *)
Definition same_head (r r' : CheckResult) : Prop :=
  with_children [] r = with_children [] r'.

Lemma same_head_add v r : same_head r (add_child v r).
Proof. done. Qed.

#[export] Instance same_head_equiv : Equivalence same_head.
Proof. unfold same_head. split; [done|by intros ?? ->|by intros ??? -> ->]. Qed.

(** The index holds positions of results with the identifier. *)
Definition index_ok (index : gmap string nat) (l : list CheckResult) : Prop :=
  (forall id k, index !! id = Some k -> exists r, l !! k = Some r /\ extractID (CR_Name r) = id) /\
  (forall r, r ∈ l -> is_Some (index !! extractID (CR_Name r))).

Lemma index_results_ok done l m :
  index_ok m done -> index_ok (index_results l (length done) m) (done ++ l).
Proof.
  revert done m. induction l as [|r l IH]; intros done m H; simpl; [by rewrite app_nil_r|].
  replace (S (length done)) with (length (done ++ [r])) by (rewrite length_app; simpl; lia).
  rewrite (cons_middle r done l), app_assoc. apply IH. destruct H as [H1 H2]. split.
  - intros id k. destruct (decide (extractID (CR_Name r) = id)) as [<-|Hne].
    + rewrite lookup_insert_eq. intros [= <-]. exists r. by rewrite lookup_app_r, Nat.sub_diag by lia.
    + rewrite lookup_insert_ne by done. intros Hk. destruct (H1 _ _ Hk) as (r' & Hr & He).
      exists r'. split; [by apply lookup_app_l_Some|done].
  - intros r' [Hr|Hr]%elem_of_app.
    + destruct (decide (extractID (CR_Name r) = extractID (CR_Name r'))) as [->|Hne];
        [rewrite lookup_insert_eq; by eexists|rewrite lookup_insert_ne by done; by apply H2].
    + apply list_elem_of_singleton in Hr as ->. rewrite lookup_insert_eq. by eexists.
Qed.

Lemma index_results_spec l : index_ok (index_results l 0 ∅) l.
Proof.
  apply (index_results_ok [] l ∅). split; [|by intros r ?%elem_of_nil].
  intros id k H. by rewrite lookup_empty in H.
Qed.

Lemma flat_map_children_alter v k (tops : list CheckResult) :
  (k < length tops)%nat ->
  flat_map CR_Children (alter (add_child v) k tops) ≡ₚ flat_map CR_Children tops ++ [v].
Proof.
  revert k. induction tops as [|t tops IH]; intros k Hk; [simpl in Hk; lia|].
  destruct k as [|k]; simpl.
  - rewrite <-!app_assoc. apply Permutation_app_head. simpl. by rewrite Permutation_cons_append.
  - rewrite <-app_assoc. apply Permutation_app_head. apply IH. simpl in Hk. lia.
Qed.

Lemma attach_loop_spec index subs tops unmatched :
  (forall id k, index !! id = Some k -> (k < length tops)%nat) ->
  let '(tops', un) := attach_loop index subs tops unmatched in
  Forall2 same_head tops tops' /\
  un = unmatched ++ filter (fun v => index !! extractID (CR_Name v) = None) subs /\
  (forall k t t', tops !! k = Some t -> tops' !! k = Some t' ->
     CR_Children t' = CR_Children t ++ filter (fun v => index !! extractID (CR_Name v) = Some k) subs) /\
  flat_map CR_Children tops' ++ un ≡ₚ flat_map CR_Children tops ++ unmatched ++ subs.
Proof.
  revert tops unmatched. induction subs as [|v subs IH]; intros tops un Hk; simpl.
  { rewrite !app_nil_r. split_and!; [reflexivity|done| |done].
    intros k t t' H1 H2. rewrite app_nil_r. congruence. }
  destruct (index !! extractID (CR_Name v)) as [i|] eqn:E.
  - specialize (IH (alter (add_child v) i tops) un). pose proof (Hk _ _ E) as Hi.
    destruct (attach_loop _ _ _ _) as [tops' un'] eqn:Ea.
    destruct IH as (H1 & H2 & H3 & H4); [intros ??; rewrite length_alter; apply Hk|].
    rewrite (filter_cons_False _ v) by congruence. split_and!; [|done| |].
    + etrans; [|exact H1]. apply Forall2_same_length_lookup_2; [by rewrite length_alter|].
      intros k t t' Ht Ht'. destruct (decide (k = i)) as [->|Hne].
      * rewrite list_lookup_alter_eq, Ht in Ht'. simpl in Ht'. by simplify_eq.
      * rewrite list_lookup_alter_ne in Ht' by done. congruence.
    + intros k t t' Ht Ht'. destruct (decide (k = i)) as [->|Hne].
      * rewrite (H3 i (add_child v t) t'); [|by rewrite list_lookup_alter_eq, Ht|done].
        rewrite filter_cons_True by done. simpl. by rewrite <-app_assoc.
      * rewrite (H3 k t t'); [|by rewrite list_lookup_alter_ne|done].
        rewrite filter_cons_False by congruence. done.
    + rewrite H4, flat_map_children_alter by done. rewrite <-!app_assoc. apply Permutation_app_head.
      simpl. by rewrite Permutation_middle.
  - specialize (IH tops (un ++ [v]) Hk). destruct (attach_loop _ _ _ _) as [tops' un'].
    destruct IH as (H1 & H2 & H3 & H4). rewrite filter_cons_True by done. split_and!; [done| | |].
    + by rewrite H2, <-app_assoc.
    + intros k t t' Ht Ht'. rewrite (H3 k t t') by done. rewrite filter_cons_False by congruence. done.
    + by rewrite H4, <-app_assoc.
Qed.

(** arranging the results in a tree loses none and misplaces none.
    The top-level results keep everything but their children; each gains, in
    order and after its own, exactly the sub-results filed under it: those with
    the identifier of its name, of which it is the last bearer; the others are
    returned as unmatched, in order, and have no bearer at all. *)
Theorem attach_exact tops subs :
  let '(tops', un) := attachByEvaluatorID tops subs in
  attachByPolicyID tops subs = (tops', un) /\
  Forall2 same_head tops tops' /\
  flat_map CR_Children tops' ++ un ≡ₚ flat_map CR_Children tops ++ subs /\
  (forall v, v ∈ un <-> v ∈ subs /\ forall t, t ∈ tops -> extractID (CR_Name t) <> extractID (CR_Name v)) /\
  (forall k t t', tops !! k = Some t -> tops' !! k = Some t' -> exists mine,
     CR_Children t' = CR_Children t ++ mine /\ mine `sublist_of` subs /\
     forall v, v ∈ mine -> extractID (CR_Name v) = extractID (CR_Name t)).
Proof.
  unfold attachByEvaluatorID, attachByPolicyID. destruct (index_results_spec tops) as [Hi1 Hi2].
  pose proof (attach_loop_spec (index_results tops 0 ∅) subs tops []) as H.
  destruct (attach_loop _ _ _ _) as [tops' un]. destruct H as (H1 & -> & H3 & H4).
  { intros id k Hk. destruct (Hi1 _ _ Hk) as (r & Hr & _). by apply lookup_lt_Some in Hr. }
  cbn [app] in *. split_and!; [done|done|done| |].
  - intros v. rewrite list_elem_of_filter. split.
    + intros [Hn Hv]. split; [done|]. intros t Ht Heq. apply Hi2 in Ht as [k Hk]. congruence.
    + intros [Hv Hn]. split; [|done]. apply eq_None_not_Some. intros [k Hk].
      destruct (Hi1 _ _ Hk) as (r & Hr & He). apply list_elem_of_lookup_2 in Hr. by eapply Hn.
  - intros k t t' Ht Ht'. eexists. split; [by apply H3|]. split; [apply sublist_filter|].
    intros v [Hv _]%list_elem_of_filter. destruct (Hi1 _ _ Hv) as (r & Hr & He). congruence.
Qed.

(** ** Counting *)

(** The checks a summary counts: the results and their children. *)
Definition counted (results : list CheckResult) : list CheckResult :=
  flat_map (fun r => r :: CR_Children r) results.

Definition with_status (status : CheckStatus) (l : list CheckResult) : Z :=
  Z.of_nat (length (filter (fun r => CR_Status r = status) l)).

Definition known_status (r : CheckResult) : Prop := CR_Status r ∈ [StatusPass; StatusFail; StatusWarn].

Lemma summarize_counted results s :
  fold_left (fun s r => fold_left summarize_one (CR_Children r) (summarize_one s r)) results s =
  fold_left summarize_one (counted results) s.
Proof.
  revert s. induction results as [|r rest IH]; intros s; simpl; [done|].
  by rewrite fold_left_app, IH.
Qed.

Lemma with_status_cons status r l :
  with_status status (r :: l) =
    (with_status status l + if bool_decide (CR_Status r = status) then 1 else 0)%Z.
Proof.
  unfold with_status. case_bool_decide as Hs;
    [rewrite filter_cons_True by done|rewrite filter_cons_False by done]; simpl; lia.
Qed.

(** Which of the statuses it is; they differ. *)
Ltac status_cases :=
  repeat case_bool_decide; unfold StatusPass, StatusFail, StatusWarn in *; try congruence.

Lemma summarize_one_counts l s :
  fold_left summarize_one l s =
    MkResultSummary (passCount s + with_status StatusPass l) (failCount s + with_status StatusFail l)
      (warnCount s + with_status StatusWarn l) (total s) (blockingFailure s || existsb blocks l).
Proof.
  revert s. induction l as [|r l IH]; intros [p f w t b]; cbn [fold_left existsb].
  { unfold with_status. simpl. by rewrite orb_false_r, !Z.add_0_r. }
  rewrite IH, !with_status_cons. unfold summarize_one, countStatusSummary. clear IH.
  destruct (blocks r); status_cases; simpl; f_equal; try lia; by rewrite ?orb_true_r.
Qed.

Lemma summarizeResults_exact results :
  let l := counted results in
  summarizeResults results =
    MkResultSummary (with_status StatusPass l) (with_status StatusFail l) (with_status StatusWarn l)
      (with_status StatusPass l + with_status StatusFail l + with_status StatusWarn l) (existsb blocks l).
Proof.
  intros l. unfold summarizeResults. by rewrite summarize_counted, summarize_one_counts.
Qed.

Lemma total_known l : Forall known_status l ->
  (with_status StatusPass l + with_status StatusFail l + with_status StatusWarn l)%Z = Z.of_nat (length l).
Proof.
  induction 1 as [|r l Hr _ IH]; [done|]. rewrite !with_status_cons. cbn [length]. unfold known_status in Hr.
  status_cases; try lia. set_solver.
Qed.

Lemma existsb_blocks l :
  existsb blocks l = true <-> exists c, c ∈ l /\ CR_Blocking c = true /\ CR_Status c = StatusFail.
Proof.
  rewrite existsb_exists. unfold blocks. split; intros (c & Hc & H); exists c;
    [rewrite andb_true_iff, bool_decide_eq_true in H|rewrite andb_true_iff, bool_decide_eq_true];
    by rewrite ?list_elem_of_In in *.
Qed.

(** ** What is shown *)

Lemma grouped_lookup results g :
  default [] (grouped results !! g) = filter (fun r => CR_Group r = g) results /\
  (grouped results !! g = None -> filter (fun r => CR_Group r = g) results = []).
Proof.
  unfold grouped. enough (forall m : gmap string (list CheckResult),
    let m' := fold_left (fun m r => <[CR_Group r := default [] (m !! CR_Group r) ++ [r]]> m) results m in
    default [] (m' !! g) = default [] (m !! g) ++ filter (fun r => CR_Group r = g) results) as Hm.
  { specialize (Hm ∅). simpl in Hm. rewrite lookup_empty in Hm. simpl in Hm. split; [done|].
    intros Hn. by rewrite Hn in Hm. }
  induction results as [|r rest IH]; intros m; simpl; [by rewrite app_nil_r|].
  rewrite IH. destruct (decide (CR_Group r = g)) as [<-|Hg].
  - rewrite lookup_insert_eq, filter_cons_True by done. simpl. by rewrite <-app_assoc.
  - by rewrite lookup_insert_ne, filter_cons_False by done.
Qed.

Lemma sections_show fmt m groups first g checks r line :
  g ∈ groups -> m !! g = Some checks -> r ∈ checks -> line ∈ check_lines fmt r ->
  line ∈ sections fmt m groups first.
Proof.
  intros Hg Hm Hr Hl. revert first. induction groups as [|g' groups IH]; intros first; [by apply elem_of_nil in Hg|].
  apply elem_of_cons in Hg as [<-|Hg]; cbn [sections].
  - rewrite Hm, !elem_of_app. right. right. left. apply list_elem_of_In, in_flat_map. exists r.
    by rewrite <-!list_elem_of_In.
  - specialize (IH Hg). destruct (m !! g'); [rewrite !elem_of_app; by auto|done].
Qed.

Lemma renderDiagnostics_show fmt results r line :
  r ∈ results -> CR_Group r ∈ GroupOrder -> line ∈ check_lines fmt r ->
  line ∈ (renderDiagnostics fmt results).1.
Proof.
  intros Hr Hg Hl. unfold renderDiagnostics. cbn [fst]. apply elem_of_app. right. apply elem_of_app. left.
  destruct (grouped_lookup results (CR_Group r)) as [He Hn].
  assert (r ∈ filter (fun r' => CR_Group r' = CR_Group r) results) as Hf by by apply list_elem_of_filter.
  destruct (grouped results !! CR_Group r) as [checks|] eqn:E.
  - eapply sections_show; [done..| |done]. simpl in He. by rewrite He.
  - rewrite Hn in Hf by done. by apply elem_of_nil in Hf.
Qed.

(** ** What every check answers *)

(** Whatever the world, the answer satisfies [P]. *)
Definition answers {A} (P : A -> Prop) (m : io A) : Prop := forall w, P (m w).1.

Lemma answers_ret {A} (P : A -> Prop) a : P a -> answers P (io_ret a).
Proof. by intros H w. Qed.

Lemma answers_bind {A B} (Q : A -> Prop) (P : B -> Prop) (m : io A) (k : A -> io B) :
  answers Q m -> (forall a, Q a -> answers P (k a)) -> answers P (io_bind m k).
Proof. intros Hm Hk w. unfold io_bind. specialize (Hm w). destruct (m w) as [a w']. by apply Hk. Qed.

Lemma answers_step {A B} (P : B -> Prop) (m : io A) (k : A -> io B) :
  (forall a, answers P (k a)) -> answers P (io_bind m k).
Proof. intros Hk. by apply (answers_bind (fun _ => True)). Qed.

(** A result fit for the summary and the rendering, of one of the groups [G]. *)
Definition tidy (G : list CheckGroup) (r : CheckResult) : Prop :=
  CR_Group r ∈ G /\ known_status r /\ Forall known_status (CR_Children r).

Lemma tidy_result_of G name label group status message blocking :
  group ∈ G -> status ∈ [StatusPass; StatusFail; StatusWarn] ->
  tidy G (result_of name label group status message blocking).
Proof. intros Hg Hs. by repeat split. Qed.

Lemma tidy_weaken G G' r : tidy G r -> G ⊆ G' -> tidy G' r.
Proof. intros (H & ? & ?) HG. split; [by apply HG|done]. Qed.

Lemma tidy_add_child G c r : known_status c -> tidy G r -> tidy G (add_child c r).
Proof. intros Hc (? & ? & Hr). repeat split; [done|done|]. simpl. apply Forall_app. by rewrite Forall_singleton. Qed.

(** Take one step of an action, or decide one of its conditions. *)
Ltac answer :=
  repeat (first
    [ apply answers_ret
    | apply answers_step; intros ?
    | match goal with
      | |- answers _ (match ?x with _ => _ end) => destruct x
      | |- answers _ (if ?b then _ else _) => destruct b
      end ]);
  repeat case_match; simplify_eq.

(** Solve [tidy] and [Forall tidy] for results written out. *)
Ltac tidy := repeat first
  [ apply tidy_result_of; set_solver
  | apply Forall_cons; split
  | apply Forall_nil; exact I
  | apply Forall_app; split ].

Section checked.
  Context {hs : HostSyntax} {stCodec : Codec State} {packCodec : Codec PackConfig}
    {cfgCodec : Codec WorkspaceConfig} {launcher : Launcher} (cwd : path).

Lemma CheckVerification_tidy d : answers (tidy [GroupVerify]) (CheckVerification d).
Proof. unfold CheckVerification. answer; tidy. Qed.

Lemma CheckDirectoryLayout_tidy c d : answers (tidy [GroupWorkspace]) (CheckDirectoryLayout c d).
Proof. unfold CheckDirectoryLayout. answer; tidy. Qed.

Lemma CheckConfig_tidy p : answers (tidy [GroupWorkspace]) (CheckConfig cwd p).
Proof. unfold CheckConfig, check_loaded. answer; tidy. Qed.

Lemma CheckCache_tidy p : answers (tidy [GroupCache]) (CheckCache p).
Proof. unfold CheckCache. answer; tidy. Qed.

Lemma check_provider_tidy lp : tidy [GroupProviders] (check_provider lp).1.
Proof. unfold check_provider. repeat case_match; tidy. Qed.

Lemma CheckProviders_tidy d : answers (fun r => Forall (tidy [GroupProviders]) r.1) (CheckProviders d).
Proof.
  intros w. unfold CheckProviders. apply (answers_step (fun r => Forall _ r.1)). intros [[m|e] l].
  - apply answers_ret. destruct (ListProviders l) as [|p ps]; [tidy|]. cbn [fst].
    rewrite Forall_fmap, Forall_fmap. apply Forall_forall. intros lp _. apply check_provider_tidy.
  - apply answers_ret. tidy.
Qed.

(** Variables *)

Lemma resolve_policy_tidy R cfg t pid acc :
  Forall (tidy [GroupProviders]) (resolveResults acc) ->
  answers (fun a => Forall (tidy [GroupProviders]) (resolveResults a)) (resolve_policy R cfg t pid acc).
Proof. intros H. unfold resolve_policy. answer; try done; simpl; (apply Forall_app; split; [done|]); tidy. Qed.

Lemma resolveEvaluatorTargets_tidy cfg R :
  answers (fun a => Forall (tidy [GroupProviders]) (resolveResults a)) (resolveEvaluatorTargets cfg R).
Proof.
  unfold resolveEvaluatorTargets. destruct R as [R|]; [|by apply answers_ret].
  assert (forall ts acc, Forall (tidy [GroupProviders]) (resolveResults acc) ->
    answers (fun a => Forall (tidy [GroupProviders]) (resolveResults a)) (resolve_targets R cfg ts acc)) as H;
    [|by apply H].
  induction ts as [|t ts IH]; intros acc Ha; simpl; [by apply answers_ret|].
  eapply answers_bind; [|exact IH]. clear IH.
  revert acc Ha. induction (T_Policies t) as [|pid pids IH]; intros acc Ha; simpl; [by apply answers_ret|].
  eapply answers_bind; [by apply resolve_policy_tidy|exact IH].
Qed.

Lemma buildVariableDetails_quiet ph ts globals u :
  Forall (fun r => known_status r /\ blocks r = false) (buildVariableDetails ph ts globals u).
Proof.
  assert (forall b, pass_or_fail b ∈ [StatusPass; StatusFail; StatusWarn]) as Hp by (intros []; set_solver).
  unfold buildVariableDetails. apply Forall_app. split.
  - rewrite Forall_fmap. apply Forall_forall. intros v _. split; [apply Hp|done].
  - destruct u.
    + rewrite Forall_app, !Forall_fmap. split; apply Forall_forall; intros v _; (split; [set_solver|done]).
    + apply Forall_flat_map, Forall_forall. intros t _. rewrite Forall_app, !Forall_fmap.
      split; apply Forall_forall; intros v _; (split; [apply Hp|done]).
Qed.

Lemma validateProviderVariables_tidy ph ts globals R failures verbose :
  tidy [GroupVariables] (validateProviderVariables ph ts globals R failures verbose).
Proof.
  pose proof (validateProviderVariables_status ph ts globals R failures verbose) as (_ & _ & Hg & _ & _ & Hs).
  split; [rewrite Hg; set_solver|]. split.
  - unfold known_status. destruct (decide (CR_Status (validateProviderVariables ph ts globals R failures verbose)
      = StatusPass)) as [->|Hn]; [set_solver|rewrite Hs by done; set_solver].
  - unfold validateProviderVariables. destruct (countResolved _ _), (fold_left _ _ _) as [[]]. destruct verbose.
    + eapply Forall_impl; [apply buildVariableDetails_quiet|]. by intros ? [? _].
    + unfold buildVariableSummary. simpl. by repeat case_match.
Qed.

Lemma CheckVariables_tidy cfg health R verbose :
  answers (Forall (tidy [GroupProviders; GroupVariables])) (CheckVariables cfg health R verbose).
Proof.
  unfold CheckVariables. destruct health as [|ph health]; [by apply answers_ret|].
  destruct cfg as [cfg|]; [|apply answers_ret; tidy].
  eapply answers_bind; [apply resolveEvaluatorTargets_tidy|]. intros a Ha. apply answers_ret, Forall_app. split.
  - eapply Forall_impl; [exact Ha|]. intros r Hr. eapply tidy_weaken; [done|set_solver].
  - apply Forall_flat_map, Forall_forall. intros h _. cbv zeta beta.
    destruct (nothing_to_validate _ _); [done|].
    constructor; [|done].
    eapply tidy_weaken; [apply validateProviderVariables_tidy|set_solver].
Qed.

(** Policies *)

Lemma check_version_tidy R st p errs :
  answers (fun r => tidy [GroupPolicies] r.1.1) (check_version R st p errs).
Proof.
  assert (forall ref eid v e, answers (fun r => tidy [GroupPolicies] r.1) (resolvePinnedFallback R ref eid v e))
    as Hfb by (intros; unfold resolvePinnedFallback; answer; tidy).
  unfold check_version. destruct (ParsePolicyRef _) as [ref [e|]]; [apply answers_ret; tidy|].
  destruct (GetPolicyState _ _) as [ps|]; [|apply answers_ret; tidy].
  destruct (errs !! _); [eapply answers_bind; [apply Hfb|]; intros r Hr; by apply answers_ret|].
  apply answers_step. intros [latest|e].
  - apply answers_ret. cbn [fst]. unfold compare_versions. repeat case_bool_decide; simpl; tidy.
  - eapply answers_bind; [apply Hfb|]. intros r Hr. by apply answers_ret.
Qed.

Lemma CheckPolicyVersions_tidy cfg d R :
  answers (fun r => Forall (tidy [GroupPolicies]) r.1) (CheckPolicyVersions cfg d R).
Proof.
  unfold CheckPolicyVersions. destruct cfg as [cfg|], R as [R|]; try by apply answers_ret.
  case_bool_decide as Hn; [by apply answers_ret|]. clear Hn. apply answers_step.
  intros [st|e]; [|apply answers_ret; tidy].
  generalize (∅ : gmap string error) as errs.
  induction (WC_Policies cfg) as [|p rest IH]; intros errs; simpl.
  { by apply answers_ret. }
  eapply answers_bind; [apply check_version_tidy|]. intros r Hr.
  eapply answers_bind; [apply IH|]. intros more Hm. apply answers_ret. by constructor.
Qed.

Lemma evaluateTimeline_known s e label now :
  (evaluateTimeline s e label now).1 ∈ [StatusPass; StatusFail; StatusWarn].
Proof. unfold evaluateTimeline. repeat case_match; simpl; set_solver. Qed.

Lemma period_details_quiet name tl now :
  Forall (fun r => known_status r /\ blocks r = false) (period_details name tl now).
Proof.
  unfold period_details.
  pose proof (evaluateTimeline_known (TL_EnforcementStart tl) (TL_EnforcementEnd tl) "enforcement" now) as Hk.
  destruct (evaluateTimeline _ _ _ _) as [status msg].
  rewrite !Forall_app, Forall_singleton. split_and!; [|done|done|]; case_bool_decide;
    [by constructor|rewrite Forall_singleton; split; [set_solver|done]..|by constructor|];
    rewrite Forall_singleton; split; [set_solver|done].
Qed.

Lemma active_period_tidy eid tl now verbose : tidy [GroupPolicies] (active_period eid tl now verbose).
Proof.
  unfold active_period. destruct tl as [tl|]; [|tidy].
  pose proof (evaluateTimeline_known (TL_EvaluationStart tl) (TL_EvaluationEnd tl) "evaluation" now) as Hk.
  destruct (evaluateTimeline _ _ _ _) as [status msg].
  destruct verbose; (split; [simpl; set_solver|split; [done|]]); [|done].
  eapply Forall_impl; [apply period_details_quiet|]. by intros ? [? _].
Qed.

Lemma CheckPolicyActivePeriod_tidy cfg R verbose :
  answers (Forall (tidy [GroupPolicies])) (CheckPolicyActivePeriod cfg R verbose).
Proof.
  unfold CheckPolicyActivePeriod. destruct cfg as [cfg|], R as [R|]; try by apply answers_ret.
  case_bool_decide as Hn; [by apply answers_ret|]. clear Hn. apply answers_step. intros now.
  induction (WC_Policies cfg) as [|p rest IH]; simpl; [by apply answers_ret|].
  destruct (ParsePolicyRef _) as [ref [e|]].
  - eapply answers_bind; [apply IH|]. intros more Hm. apply answers_ret. constructor; [tidy|done].
  - apply answers_step. intros g. eapply answers_bind; [apply IH|]. intros more Hm.
    apply answers_ret. destruct g; [constructor; [apply active_period_tidy|done]|done].
Qed.

(** Complypacks *)

Lemma CheckComplypacks_tidy cfg c d R :
  answers (Forall (tidy [GroupComplypacks])) (CheckComplypacks cfg c d R).
Proof.
  unfold CheckComplypacks. destruct cfg as [cfg|], R as [R|]; try by apply answers_ret.
  case_bool_decide as Hn; [by apply answers_ret|]. clear Hn. apply answers_step. intros st.
  assert (forall acc, answers (fun r => Forall (tidy [GroupComplypacks]) r.2)
            (needed_evaluators R (WC_Policies cfg) acc)) as Hneed.
  { induction (WC_Policies cfg) as [|p rest IH]; intros acc; simpl; [by apply answers_ret|].
    destruct (ParsePolicyRef _) as [ref [e|]].
    - eapply answers_bind; [apply IH|]. intros r Hr. apply answers_ret. constructor; [tidy|done].
    - apply answers_step. intros g. apply IH. }
  assert (forall cache state ids, answers (Forall (tidy [GroupComplypacks])) (check_packs cache state ids)) as Hpacks.
  { intros cache state ids. induction ids as [|id rest IH]; simpl; [by apply answers_ret|].
    eapply (answers_bind (tidy [GroupComplypacks])); [unfold check_pack; answer; tidy|].
    intros r Hr. eapply answers_bind; [apply IH|]. intros more Hm. apply answers_ret. by constructor. }
  assert (exists cacheState stateResults, match st with
     | Err e => (None, [pack_result "state" StatusWarn ("cannot load state: " +:+ error_text e) false])
     | Ok s => (Some s, []) end = (cacheState, stateResults) /\ Forall (tidy [GroupComplypacks]) stateResults)
    as (cacheState & stateResults & -> & Hst) by (destruct st; eexists _, _; (split; [done|]); tidy).
  apply answers_step. intros cache. eapply answers_bind; [apply Hneed|]. intros needed Hn.
  eapply answers_bind; [apply Hpacks|]. intros packs Hp. apply answers_step. intros size.
  apply answers_step. intros orphans. apply answers_ret. rewrite !Forall_app.
  split_and!; [done..| |].
  - unfold size_result. destruct size; tidy.
  - apply Forall_fmap, Forall_forall. intros o _. unfold orphan_result. simpl. tidy.
Qed.

(** All of them *)

Lemma attach_tidy G tops subs :
  Forall (tidy G) tops -> Forall known_status subs ->
  let '(tops', un) := attachByEvaluatorID tops subs in Forall (tidy G) tops' /\ un ⊆ subs.
Proof.
  unfold attachByEvaluatorID. generalize (index_results tops 0 ∅) as index. intros index Ht Hs.
  assert (forall P : CheckResult -> Prop, (forall v, v ∈ subs -> P v) -> forall un tops, Forall (tidy G) tops ->
    (forall v, v ∈ un -> P v) -> let '(tops', un') := attach_loop index subs tops un in
    Forall (tidy G) tops' /\ forall v, v ∈ un' -> P v) as H.
  { clear Ht tops. intros P. induction Hs as [|v subs Hv _ IH]; intros HP un tops Ht Hun; simpl; [done|].
    assert (forall v, v ∈ subs -> P v) as HP' by (intros; apply HP; by right).
    destruct (index !! _) as [i|].
    - apply IH; [done| |done]. apply Forall_alter; [done|]. intros t Hi Htidy. by apply tidy_add_child.
    - apply IH; [done..|]. intros v' [?|Hv']%elem_of_app; [by auto|].
      apply list_elem_of_singleton in Hv' as ->. apply HP. by left. }
  specialize (H (fun v => v ∈ subs)). apply H; [done|done|]. by intros v ?%elem_of_nil.
Qed.

Lemma assemble_tidy providers vars policies active rest :
  Forall (tidy [GroupProviders]) providers -> Forall (tidy [GroupProviders; GroupVariables]) vars ->
  Forall (tidy [GroupPolicies]) policies -> Forall (tidy [GroupPolicies]) active ->
  Forall (tidy GroupOrder) rest -> Forall (tidy GroupOrder) (assemble providers vars policies active rest).
Proof.
  intros Hpr Hv Hpo Ha Hr. unfold assemble.
  assert (forall G l, Forall (tidy G) l -> Forall known_status l) as Hk.
  { intros G l Hl. eapply Forall_impl; [exact Hl|]. by intros r (_ & H & _). }
  assert (forall G G' l, Forall (tidy G) l -> G ⊆ G' -> Forall (tidy G') l) as Hw.
  { intros G G' l Hl HG. eapply Forall_impl; [exact Hl|]. intros r H. by eapply tidy_weaken. }
  pose proof (attach_tidy _ _ _ Hpr (Hk _ _ Hv)) as H1.
  pose proof (attach_tidy _ _ _ Hpo (Hk _ _ Ha)) as H2. change attachByEvaluatorID with attachByPolicyID in H2.
  destruct (attachByEvaluatorID _ _) as [tops un], (attachByPolicyID _ _) as [tops2 un2].
  destruct H1 as [Ht Hun], H2 as [Ht2 Hun2]. rewrite !Forall_app. split_and!; [| | | |done].
  - eapply Hw; [exact Ht|]. unfold GroupOrder. set_solver.
  - apply Forall_fmap, Forall_forall. intros v Hin%Hun.
    eapply Forall_forall in Hv as (_ & Hs & Hc); [|done]. repeat split; [|done|done].
    unfold GroupOrder. simpl. set_solver.
  - eapply Hw; [exact Ht2|]. unfold GroupOrder. set_solver.
  - apply Forall_forall. intros v Hin%Hun2. eapply Forall_forall in Ha; [|done].
    eapply tidy_weaken; [done|]. unfold GroupOrder. set_solver.
Qed.

Lemma Run_tidy opts : answers (Forall (tidy GroupOrder)) (Run cwd opts).
Proof.
  unfold Run. eapply answers_bind; [apply CheckProviders_tidy|]. intros [pr health] Hpr.
  eapply answers_bind; [apply CheckVariables_tidy|]. intros vars Hv.
  eapply answers_bind; [apply CheckPolicyVersions_tidy|]. intros [po trace] Hpo.
  eapply answers_bind; [apply CheckPolicyActivePeriod_tidy|]. intros active Ha.
  eapply answers_bind; [apply CheckCache_tidy|]. intros cache Hc.
  eapply answers_bind; [apply CheckComplypacks_tidy|]. intros packs Hpk.
  eapply answers_bind; [apply CheckConfig_tidy|]. intros config Hcf.
  eapply answers_bind; [apply CheckVerification_tidy|]. intros verification Hvf.
  eapply answers_bind; [apply CheckDirectoryLayout_tidy|]. intros layout Hl.
  apply answers_ret, assemble_tidy; [done..|]. rewrite !Forall_app, !Forall_cons.
  split_and!; try done; try (eapply tidy_weaken; [done|]; unfold GroupOrder; set_solver).
  eapply Forall_impl; [exact Hpk|]. intros r Hr. eapply tidy_weaken; [done|]. unfold GroupOrder. set_solver.
Qed.
End checked.

(** The decoration of a status in a format for people, and none in others. *)
Definition format_prefix (format : string) : option (CheckStatus -> string) :=
  if bool_decide (format = "") then Some humanStatusPrefix
  else if bool_decide (format = OutputFormatText) then Some textStatusPrefix
  else None.

Lemma guard_blocking results e :
  guard_err (blockingFailure (summarizeResults results)) e = Ok tt <->
  forall c, c ∈ counted results -> CR_Blocking c = true -> CR_Status c <> StatusFail.
Proof.
  rewrite summarizeResults_exact. simpl. pose proof (existsb_blocks (counted results)) as H.
  destruct (existsb blocks (counted results)); simpl; split; try done.
  - intros Hc. destruct H as [(c & H1 & H2 & H3) _]; [done|]. by destruct (Hc c).
  - intros _ c H1 H2 H3. assert (false = true) by (apply H; by eauto). done.
Qed.

Section report.
  Context {hs : HostSyntax} {stCodec : Codec State} {packCodec : Codec PackConfig}
    {cfgCodec : Codec WorkspaceConfig} {launcher : Launcher} {outCodec : Codec diagnosticOutput} (cwd : path).

End report.
