(* ===== verification/DoctorVerbose.v ===== *)
(** * Verbosity of doctor (internal/doctor/doctor.go)

    The verbose form of a run differs from the terse one in details only: a
    relational proof over the two runs, check by check, and over the tree the
    results are arranged in. *)
From stdpp Require Import gmap.
From S2P Require Import Prelude GoStrings Digest OciRef World State Complypack Sync Config.
From S2P Require Import Workspace Provider Generation Resolver Time.
From S2P Require Import Diagnostics DoctorVars DoctorPacks Doctor.


(** Two actions with the same effects and related answers. *)
Definition alike {A} (R : A -> A -> Prop) (m m' : io A) : Prop :=
  forall w, (m w).2 = (m' w).2 /\ R (m w).1 (m' w).1.

Lemma alike_ret {A} (R : A -> A -> Prop) a a' : R a a' -> alike R (io_ret a) (io_ret a').
Proof. by intros H w. Qed.

Lemma alike_bind {A B} (Q : A -> A -> Prop) (R : B -> B -> Prop) (m m' : io A) k k' :
  alike Q m m' -> (forall a a', Q a a' -> alike R (k a) (k' a')) -> alike R (io_bind m k) (io_bind m' k').
Proof.
  intros Hm Hk w. unfold io_bind. specialize (Hm w). destruct (m w) as [a w1], (m' w) as [a' w2].
  cbn in *. destruct Hm as [<- HQ]. by apply Hk.
Qed.

Lemma alike_step {A B} (R : B -> B -> Prop) (m : io A) k k' :
  (forall a, alike R (k a) (k' a)) -> alike R (io_bind m k) (io_bind m k').
Proof. intros Hk. apply (alike_bind eq); [done|]. by intros a ? <-. Qed.

(** The terse and the verbose form of one result: verbosity adds children, none
    of which blocks; nothing is added to results outside [P]. *)
Definition detailed (P : CheckResult -> Prop) (r r' : CheckResult) : Prop :=
  same_head r r' /\ CR_Children r = [] /\ Forall (fun c => blocks c = false) (CR_Children r') /\
  (CR_Children r' <> [] -> P r).

(** The two forms of a result others have been attached to. *)
Definition with_detailed (t t' : CheckResult) : Prop :=
  same_head t t' /\ Forall2 same_head (CR_Children t) (CR_Children t').

Lemma same_head_proj r r' : same_head r r' ->
  CR_Name r = CR_Name r' /\ CR_Status r = CR_Status r' /\ CR_Blocking r = CR_Blocking r'.
Proof. destruct r, r'. by intros [= -> -> -> -> -> ->]. Qed.

Lemma attach_loop_detailed P index subs subs' tops tops' un un' :
  Forall2 (detailed P) subs subs' -> Forall2 with_detailed tops tops' -> Forall2 (detailed P) un un' ->
  let '(a, u) := attach_loop index subs tops un in
  let '(a', u') := attach_loop index subs' tops' un' in
  Forall2 with_detailed a a' /\ Forall2 (detailed P) u u'.
Proof.
  intros Hs. revert tops tops' un un'. induction Hs as [|v v' subs subs' Hv _ IH]; intros tops tops' un un' Ht Hu;
    simpl; [done|].
  pose proof (same_head_proj _ _ (proj1 Hv)) as (Hn & _ & _). rewrite <-Hn.
  destruct (index !! _) as [i|]; [|apply IH; [done|by apply Forall2_app; [|constructor]]].
  apply IH; [|done]. apply Forall2_alter; [done|]. intros t t' _ _ [H1 H2].
  split; [done|]. simpl. apply Forall2_app; [done|]. constructor; [apply Hv|done].
Qed.

Lemma index_results_heads l l' i m :
  Forall2 same_head l l' -> index_results l i m = index_results l' i m.
Proof.
  intros H. revert i m. induction H as [|r r' l l' Hr _ IH]; intros i m; simpl; [done|].
  by rewrite (proj1 (same_head_proj _ _ Hr)).
Qed.

(** Attached to the same results, both forms answer alike. *)
Lemma attach_detailed P tops subs subs' :
  Forall2 (detailed P) subs subs' ->
  let '(a, u) := attachByEvaluatorID tops subs in
  let '(a', u') := attachByEvaluatorID tops subs' in
  Forall2 with_detailed a a' /\ Forall2 (detailed P) u u'.
Proof.
  intros Hs. apply attach_loop_detailed; [done| |done].
  apply Forall_Forall2_diag, Forall_forall. intros t _. split; reflexivity.
Qed.

Lemma Forall2_heads_filter status l l' :
  Forall2 same_head l l' -> with_status status l = with_status status l' /\ existsb blocks l = existsb blocks l'.
Proof.
  induction 1 as [|r r' l l' Hr _ [IH1 IH2]]; [done|]. rewrite !with_status_cons, IH1. cbn [existsb]. rewrite IH2.
  destruct (same_head_proj _ _ Hr) as (_ & -> & Hb). unfold blocks. by rewrite Hb, (proj1 (proj2 (same_head_proj _ _ Hr))).
Qed.

Lemma with_detailed_counted l l' :
  Forall2 with_detailed l l' -> Forall2 same_head (counted l) (counted l').
Proof.
  induction 1 as [|r r' l l' [H1 H2] _ IH]; [done|]. simpl. constructor; [done|]. by apply Forall2_app.
Qed.

Lemma detailed_blocks P l l' :
  Forall2 (detailed P) l l' -> existsb blocks (counted l) = existsb blocks (counted l').
Proof.
  induction 1 as [|r r' l l' (H1 & H2 & H3 & _) _ IH]; [done|]. unfold counted in *. simpl.
  rewrite H2, existsb_app. simpl. rewrite IH. f_equal.
  - destruct (same_head_proj _ _ H1) as (_ & Hs & Hb). unfold blocks. by rewrite Hs, Hb.
  - induction H3 as [|c cs Hc _ IHc]; simpl; [done|]. by rewrite Hc.
Qed.

Lemma detailed_none l l' : Forall2 (detailed (fun _ => False)) l l' -> Forall2 with_detailed l l'.
Proof.
  induction 1 as [|r r' l l' (H1 & H2 & H3 & H4) _ IH]; constructor; [|done]. split; [done|].
  destruct (CR_Children r'); [by rewrite H2|]. by destruct H4.
Qed.

(** Some result has the identifier of [v]. *)
Definition has_bearer (tops : list CheckResult) (v : CheckResult) : Prop :=
  exists t, t ∈ tops /\ extractID (CR_Name t) = extractID (CR_Name v).

(** If all with details have a result to be attached to, the forms of the whole
    differ in details only. *)
Lemma attach_matched P tops subs subs' :
  Forall2 (detailed P) subs subs' -> (forall v, P v -> has_bearer tops v) ->
  let '(a, u) := attachByEvaluatorID tops subs in
  let '(a', u') := attachByEvaluatorID tops subs' in
  Forall2 with_detailed (a ++ u) (a' ++ u').
Proof.
  intros Hs Hm. pose proof (attach_detailed P tops subs subs' Hs) as H.
  pose proof (attach_exact tops subs) as He.
  destruct (attachByEvaluatorID tops subs) as [a u], (attachByEvaluatorID tops subs') as [a' u'].
  destruct H as [Ha Hu], He as (_ & _ & _ & Hun & _). apply Forall2_app; [done|]. apply detailed_none.
  assert (Forall (fun v => ~ P v) u) as Hno.
  { apply Forall_forall. intros v [_ Hv]%Hun HP. apply Hm in HP as (t & Ht & Heq). by eapply Hv. }
  clear -Hu Hno. induction Hu as [|v v' u u' (? & ? & ? & HP) _ IH]; [done|]. inversion_clear Hno.
  constructor; [by repeat split; auto|by apply IH].
Qed.

Lemma with_detailed_regroup g l l' :
  Forall2 with_detailed l l' -> Forall2 with_detailed (with_group g <$> l) (with_group g <$> l').
Proof.
  intros H. apply Forall2_fmap. eapply Forall2_impl; [exact H|]. intros r r' [H1 H2]. split; [|done].
  revert H1. unfold same_head, with_group, with_children. by intros [= -> -> _ -> -> ->].
Qed.

Lemma detailed_regroup P g l l' :
  Forall2 (detailed P) l l' -> Forall2 (detailed (fun _ => True)) (with_group g <$> l) (with_group g <$> l').
Proof.
  intros H. apply Forall2_fmap. eapply Forall2_impl; [exact H|]. intros r r' (H1 & H2 & H3 & _). split_and!; try done.
  revert H1. unfold same_head, with_group, with_children. by intros [= -> -> _ -> -> ->].
Qed.

(** What verbosity leaves of the answer: the heads and whether any blocks, and,
    if [all], everything the summary counts. *)
Definition summarized_alike (all : Prop) (l l' : list CheckResult) : Prop :=
  Forall2 same_head l l' /\ existsb blocks (counted l) = existsb blocks (counted l') /\
  (all -> Forall2 same_head (counted l) (counted l')).

Lemma summarized_alike_app P Q l1 l1' l2 l2' :
  summarized_alike P l1 l1' -> summarized_alike Q l2 l2' -> summarized_alike (P /\ Q) (l1 ++ l2) (l1' ++ l2').
Proof.
  intros (? & H1 & Hp) (? & H2 & Hq). unfold summarized_alike, counted. rewrite !flat_map_app, !existsb_app.
  split_and!; [by apply Forall2_app|by f_equal|]. intros [HP HQ]. apply Forall2_app; auto.
Qed.

Lemma summarized_alike_weaken (P Q : Prop) l l' :
  summarized_alike P l l' -> (Q -> P) -> summarized_alike Q l l'.
Proof. intros (? & ? & ?) HQ. split_and!; auto. Qed.

Lemma with_detailed_alike P l l' : Forall2 with_detailed l l' -> summarized_alike P l l'.
Proof.
  intros H. pose proof (with_detailed_counted _ _ H) as Hc. split_and!; [|by eapply (Forall2_heads_filter "")|done].
  eapply Forall2_impl; [exact H|]. by intros ?? [? _].
Qed.

Lemma detailed_alike P l l' : Forall2 (detailed P) l l' -> summarized_alike False l l'.
Proof.
  intros H. split_and!; [|by eapply detailed_blocks|done]. eapply Forall2_impl; [exact H|]. by intros ?? [? _].
Qed.

Lemma attach_alike P tops subs subs' :
  Forall2 (detailed P) subs subs' ->
  let '(a, u) := attachByEvaluatorID tops subs in
  let '(a', u') := attachByEvaluatorID tops subs' in
  forall g, summarized_alike (forall v, P v -> has_bearer tops v) (a ++ u) (a' ++ u') /\
    summarized_alike (forall v, P v -> has_bearer tops v)
      (a ++ (with_group g <$> u)) (a' ++ (with_group g <$> u')).
Proof.
  intros Hs. pose proof (attach_detailed _ tops _ _ Hs) as H. pose proof (attach_matched P tops _ _ Hs) as Hm.
  destruct (attachByEvaluatorID tops subs) as [a u], (attachByEvaluatorID tops subs') as [a' u'].
  destruct H as [Ha Hu]. intros g.
  assert (summarized_alike False (a ++ u) (a' ++ u') /\
          summarized_alike False (a ++ (with_group g <$> u)) (a' ++ (with_group g <$> u'))) as [H1 H2].
  { split; (eapply summarized_alike_weaken; [apply summarized_alike_app;
      [by apply (with_detailed_alike False)
      |by eapply detailed_alike; first [eassumption|eapply detailed_regroup]]|tauto]). }
  split.
  - destruct H1 as (? & ? & _). split_and!; [done..|]. intros Hb. by apply with_detailed_counted, Hm.
  - destruct H2 as (? & ? & _). split_and!; [done..|]. intros Hb. apply with_detailed_counted.
    specialize (Hm Hb). apply Forall2_app_inv in Hm as [_ Hm]; [|by eapply Forall2_length].
    apply Forall2_app; [done|]. by apply with_detailed_regroup.
Qed.

Lemma assemble_alike P Q pr vars vars' po active active' rest :
  Forall2 (detailed P) vars vars' -> Forall2 (detailed Q) active active' ->
  (forall v, P v -> has_bearer pr v) ->
  summarized_alike (forall v, Q v -> has_bearer po v)
    (assemble pr vars po active rest) (assemble pr vars' po active' rest).
Proof.
  intros Hv Ha HP. unfold assemble. pose proof (attach_alike P pr vars vars' Hv) as H1.
  pose proof (attach_alike Q po active active' Ha) as H2. change attachByEvaluatorID with attachByPolicyID in H2.
  destruct (attachByEvaluatorID pr vars) as [a u], (attachByEvaluatorID pr vars') as [a' u'].
  destruct (attachByPolicyID po active) as [b x], (attachByPolicyID po active') as [b' x'].
  replace (a ++ (with_group GroupProviders <$> u) ++ b ++ x ++ rest)
    with ((a ++ (with_group GroupProviders <$> u)) ++ (b ++ x) ++ rest) by by rewrite <-!app_assoc.
  replace (a' ++ (with_group GroupProviders <$> u') ++ b' ++ x' ++ rest)
    with ((a' ++ (with_group GroupProviders <$> u')) ++ (b' ++ x') ++ rest) by by rewrite <-!app_assoc.
  eapply summarized_alike_weaken; [eapply summarized_alike_app; [apply H1|]|].
  - eapply summarized_alike_app; [apply (H2 "")|]. apply (with_detailed_alike True).
    apply Forall_Forall2_diag, Forall_forall. intros t _. split; reflexivity.
  - tauto.
Qed.

Lemma cut_app_first (l r : string) (c : ascii) :
  match cut (l +:+ String c r) c with Some (id, _) => id | None => l +:+ String c r end =
  match cut l c with Some (id, _) => id | None => l end.
Proof.
  destruct (cut l c) as [[id rest]|] eqn:E.
  - apply cut_Some in E as [-> Hno].
    replace ((id +:+ String c rest) +:+ String c r) with (id +:+ String c (rest +:+ String c r));
      [by rewrite cut_app|]. clear. induction id as [|a id IH]; simpl; [done|]. by f_equal.
  - apply cut_None in E. by rewrite cut_app.
Qed.

(** The identifier is the first segment after the kind of the check. *)
Lemma extractID_provider e : extractID ("provider/" +:+ e) = extractID ("variables/" +:+ e).
Proof. done. Qed.

Lemma extractID_policy e : extractID (period_name e) = extractID ("policy/" +:+ e).
Proof. unfold extractID, period_name. exact (cut_app_first e "active-period" "/"). Qed.

Section verbosity.
  Context {hs : HostSyntax} {stCodec : Codec State} {packCodec : Codec PackConfig}
    {cfgCodec : Codec WorkspaceConfig} {launcher : Launcher} (cwd : path).

Lemma alike_bind_answers {A B} (Q : A -> Prop) (R : B -> B -> Prop) (m : io A) k k' :
  answers Q m -> (forall a, Q a -> alike R (k a) (k' a)) -> alike R (io_bind m k) (io_bind m k').
Proof.
  intros Hm Hk w. unfold io_bind. specialize (Hm w). destruct (m w) as [a w1]. by apply Hk.
Qed.

Lemma detailed_refl P r : CR_Children r = [] -> detailed P r r.
Proof. intros H. split_and!; [reflexivity|done|by rewrite H|by rewrite H]. Qed.

Definition bears (health : list ProviderHealth) (v : CheckResult) : Prop :=
  exists ph, ph ∈ health /\ CR_Name v = "variables/" +:+ PH_EvaluatorID ph.

Lemma resolve_results_plain cfg R :
  answers (fun a => Forall (fun r => CR_Children r = []) (resolveResults a)) (resolveEvaluatorTargets cfg R).
Proof.
  unfold resolveEvaluatorTargets. destruct R as [R|]; [|by apply answers_ret].
  assert (forall ts acc, Forall (fun r => CR_Children r = []) (resolveResults acc) ->
    answers (fun a => Forall (fun r => CR_Children r = []) (resolveResults a)) (resolve_targets R cfg ts acc)) as H;
    [|by apply H].
  induction ts as [|t ts IH]; intros acc Ha; simpl; [by apply answers_ret|].
  eapply answers_bind; [|exact IH]. clear IH.
  revert acc Ha. induction (T_Policies t) as [|pid pids IH]; intros acc Ha; simpl; [by apply answers_ret|].
  eapply answers_bind; [|exact IH]. unfold resolve_policy.
  answer; try done; simpl; apply Forall_app; (split; [done|]); by constructor.
Qed.

Lemma CheckVariables_alike cfg health R :
  alike (Forall2 (detailed (bears health))) (CheckVariables cfg health R false) (CheckVariables cfg health R true).
Proof.
  unfold CheckVariables. destruct health as [|ph0 health]; [by apply alike_ret|].
  destruct cfg as [cfg|]; [|apply alike_ret; constructor; [by apply detailed_refl|done]].
  eapply alike_bind_answers; [apply resolve_results_plain|]. intros a Ha. apply alike_ret, Forall2_app.
  - apply Forall_Forall2_diag. eapply Forall_impl; [exact Ha|]. apply detailed_refl.
  - unfold variable_results. set (all := ph0 :: health).
    assert (forall l, l ⊆ all -> Forall2 (detailed (bears all))
      (flat_map (fun ph => if nothing_to_validate ph (default [] (evaluatorTargets a !! PH_EvaluatorID ph)) then []
         else [validateProviderVariables ph (default [] (evaluatorTargets a !! PH_EvaluatorID ph))
                 (effectiveGlobals (WC_Variables cfg)) R (resolveFailures a) false]) l)
      (flat_map (fun ph => if nothing_to_validate ph (default [] (evaluatorTargets a !! PH_EvaluatorID ph)) then []
         else [validateProviderVariables ph (default [] (evaluatorTargets a !! PH_EvaluatorID ph))
                 (effectiveGlobals (WC_Variables cfg)) R (resolveFailures a) true]) l)) as H; [|by apply H].
    induction l as [|ph l IH]; intros Hl; simpl; [constructor|]. apply Forall2_app; [|apply IH; set_solver].
    destruct (nothing_to_validate _ _); constructor; [|done].
    unfold validateProviderVariables. destruct (countResolved _ _), (fold_left _ _ _) as [[]].
    split_and!.
    + unfold buildVariableSummary. simpl. by repeat case_match.
    + unfold buildVariableSummary. simpl. by repeat case_match.
    + eapply Forall_impl; [apply buildVariableDetails_quiet|]. by intros ? [_ ?].
    + intros _. exists ph. split; [set_solver|]. unfold buildVariableSummary. simpl. by repeat case_match.
Qed.

Definition is_period_of (policies : list PolicyEntry) (v : CheckResult) : Prop :=
  exists p, p ∈ policies /\ CR_Name v = period_name (EffectiveID p).

Definition configured (cfg : option WorkspaceConfig) : list PolicyEntry :=
  match cfg with Some cfg => WC_Policies cfg | None => [] end.

Lemma active_period_detailed all p tl now :
  p ∈ all ->
  detailed (is_period_of all) (active_period (EffectiveID p) tl now false) (active_period (EffectiveID p) tl now true).
Proof.
  intros Hp. unfold active_period. destruct tl as [tl|]; [|by apply detailed_refl].
  destruct (evaluateTimeline _ _ _ _) as [status msg]. split_and!; [done|done| |].
  - eapply Forall_impl; [apply period_details_quiet|]. by intros ? [_ ?].
  - intros _. by exists p.
Qed.

Lemma CheckPolicyActivePeriod_alike cfg R :
  alike (Forall2 (detailed (is_period_of (configured cfg))))
    (CheckPolicyActivePeriod cfg R false) (CheckPolicyActivePeriod cfg R true).
Proof.
  unfold CheckPolicyActivePeriod. destruct cfg as [cfg|], R as [R|]; try by apply alike_ret.
  case_bool_decide as Hn; [by apply alike_ret|]. clear Hn. apply alike_step. intros now. simpl.
  assert (forall l, l ⊆ WC_Policies cfg -> alike (Forall2 (detailed (is_period_of (WC_Policies cfg))))
    (active_periods R now false l) (active_periods R now true l)) as H; [|by apply H].
  induction l as [|p l IH]; intros Hl; simpl; [by apply alike_ret|].
  destruct (ParsePolicyRef _) as [ref [e|]].
  - eapply alike_bind; [apply IH; set_solver|]. intros m m' Hm. apply alike_ret.
    constructor; [by apply detailed_refl|done].
  - apply alike_step. intros g. eapply alike_bind; [apply IH; set_solver|]. intros m m' Hm. apply alike_ret.
    destruct g; [|done]. constructor; [|done]. apply active_period_detailed. set_solver.
Qed.

Lemma CheckProviders_bearers d :
  answers (fun r => forall v, bears r.2 v -> has_bearer r.1 v) (CheckProviders d).
Proof.
  intros w. unfold CheckProviders. apply (answers_step (fun r => forall v, bears r.2 v -> has_bearer r.1 v)).
  intros [[m|e] l].
  - apply answers_ret. intros v (ph & Hin & Hv). destruct (ListProviders l) as [|p ps].
    + by apply elem_of_nil in Hin.
    + change (ph ∈ flat_map snd (check_provider <$> p :: ps)) in Hin. revert Hin.
      generalize (p :: ps) as lps. intros lps Hin.
      apply list_elem_of_In, in_flat_map in Hin as (c & Hc & Hph).
      apply list_elem_of_In in Hc, Hph.
      exists c.1. split; [by apply (list_elem_of_fmap_2 fst)|].
      apply list_elem_of_fmap in Hc as (lp & -> & _). revert Hph. unfold check_provider.
      destruct (Describe _ _) as [resp|e]; [destruct (negb _)|]; simpl; intros Hph;
        try by apply elem_of_nil in Hph.
      apply list_elem_of_singleton in Hph as ->. by rewrite Hv.
  - apply answers_ret. intros v (ph & Hin & _). by apply elem_of_nil in Hin.
Qed.

Lemma check_version_name R st p errs :
  answers (fun r => CR_Name r.1.1 = "policy/" +:+ EffectiveID p) (check_version R st p errs).
Proof.
  assert (forall ref eid v e, answers (fun r => CR_Name r.1 = "policy/" +:+ eid) (resolvePinnedFallback R ref eid v e))
    as Hfb by (intros; unfold resolvePinnedFallback; answer; done).
  unfold check_version. destruct (ParsePolicyRef _) as [ref [e|]]; [by apply answers_ret|].
  destruct (GetPolicyState _ _) as [ps|]; [|by apply answers_ret].
  destruct (errs !! _); [eapply answers_bind; [apply Hfb|]; intros r Hr; by apply answers_ret|].
  apply answers_step. intros [latest|e].
  - apply answers_ret. cbn [fst]. unfold compare_versions. by repeat case_bool_decide.
  - eapply answers_bind; [apply Hfb|]. intros r Hr. by apply answers_ret.
Qed.

(** The result that stands for all policies when the state cannot be read. *)
Definition policies_unknown (l : list CheckResult) : Prop := exists r, r ∈ l /\ CR_Name r = "policy".

Lemma CheckPolicyVersions_bearers cfg d R :
  answers (fun r => policies_unknown r.1 \/ forall v, is_period_of (configured cfg) v -> has_bearer r.1 v)
    (CheckPolicyVersions cfg d (Some R)).
Proof.
  unfold CheckPolicyVersions.
  destruct cfg as [cfg|]; [|apply answers_ret; right; by intros v (p & Hp%elem_of_nil & _)].
  case_bool_decide as Hn; [apply answers_ret; right; intros v (p & Hp & _); simpl in Hp; rewrite Hn in Hp;
    by apply elem_of_nil in Hp|]. clear Hn.
  apply answers_step. intros [st|e]; [|apply answers_ret; left; eexists; split; [by left|done]].
  assert (forall errs, answers (fun r => forall v, is_period_of (WC_Policies cfg) v -> has_bearer r.1 v)
    (versions_loop R st (WC_Policies cfg) errs)) as H; [|intros w; right; apply H].
  induction (WC_Policies cfg) as [|p rest IH]; intros errs; simpl.
  { apply answers_ret. by intros v (p & Hp%elem_of_nil & _). }
  eapply answers_bind; [apply check_version_name|]. intros r Hr.
  eapply answers_bind; [apply IH|]. intros more Hm. apply answers_ret. cbn [fst].
  intros v (p' & Hp & Hv). apply elem_of_cons in Hp as [->|Hp].
  - exists r.1.1. split; [by left|]. by rewrite Hr, Hv, extractID_policy.
  - destruct (Hm v) as (t & Ht & Heq); [by exists p'|]. exists t. split; [by right|done].
Qed.

Lemma assemble_policies pr vars po active rest :
  policies_unknown po -> policies_unknown (assemble pr vars po active rest).
Proof.
  intros (r & Hr & Hn). unfold assemble. pose proof (attach_exact po active) as H.
  change attachByEvaluatorID with attachByPolicyID in H.
  destruct (attachByEvaluatorID pr vars) as [a u], (attachByPolicyID po active) as [b x].
  destruct H as (_ & H & _). apply list_elem_of_lookup in Hr as [k Hk].
  destruct (Forall2_lookup_l _ _ _ _ _ H Hk) as (r' & Hk' & Hh). exists r'. split.
  - rewrite !elem_of_app. do 2 right. left. by eapply list_elem_of_lookup_2.
  - by rewrite <-(proj1 (same_head_proj _ _ Hh)).
Qed.

Definition set_verbose (b : bool) (o : RunOptions) : RunOptions :=
  MkRunOptions (RO_Config o) (RO_ConfigPath o) (RO_ProviderDir o) (RO_CacheDir o) (RO_DataDir o)
    (RO_Resolver o) (RO_VersionResolver o) b.

Lemma alike_weaken {A} (Q R : A -> A -> Prop) (m m' : io A) :
  alike Q m m' -> (forall a a', Q a a' -> R a a') -> alike R m m'.
Proof. intros H HQ w. destruct (H w). auto. Qed.

(** The terse and the verbose answer; all counts agree unless the policies'
    versions are unknown. *)
Definition runs_alike (opts : RunOptions) (l l' : list CheckResult) : Prop :=
  summarized_alike (is_Some (RO_VersionResolver opts) /\ ~ policies_unknown l) l l'.

Lemma Run_alike opts :
  alike (runs_alike opts) (Run cwd (set_verbose false opts)) (Run cwd (set_verbose true opts)).
Proof.
  destruct opts as [cfg cfgPath prDir cacheDir dataDir R V verbose]. unfold Run. cbn -[CheckVariables].
  eapply alike_bind_answers; [apply CheckProviders_bearers|]. intros [pr health] Hpr.
  eapply alike_bind; [apply CheckVariables_alike|]. intros vars vars' Hv.
  eapply (alike_bind_answers (fun r => is_Some V -> policies_unknown r.1 \/
    forall v, is_period_of (configured cfg) v -> has_bearer r.1 v)).
  { destruct V as [V|]; intros w' HV; [by apply CheckPolicyVersions_bearers|by destruct HV]. }
  intros [po trace] Hpo. eapply alike_bind; [apply CheckPolicyActivePeriod_alike|]. intros active active' Ha.
  do 5 (apply alike_step; intros ?). apply alike_ret. unfold runs_alike. cbn [RO_VersionResolver].
  eapply summarized_alike_weaken; [by eapply assemble_alike|].
  intros [HV Hn]. destruct (Hpo HV) as [Hu|Hb]; [|done]. destruct Hn. by apply assemble_policies.
Qed.

(** C18: verbosity does not change the verdict.  With and without it doctor has
    the same effects and the same top-level results but for their children, and
    ends in the same way; the counts of the summary are the same too, unless the
    policies' versions are not checked, for want of a registry or because the
    state cannot be read. *)
Theorem verbose_adds_details_only opts w :
  let terse := Run cwd (set_verbose false opts) w in
  let verbose := Run cwd (set_verbose true opts) w in
  verbose.2 = terse.2 /\ Forall2 same_head terse.1 verbose.1 /\
  blockingFailure (summarizeResults verbose.1) = blockingFailure (summarizeResults terse.1) /\
  (is_Some (RO_VersionResolver opts) -> (forall r, r ∈ terse.1 -> CR_Name r <> "policy") ->
   summarizeResults verbose.1 = summarizeResults terse.1).
Proof.
  destruct (Run_alike opts w) as (Hw & Hh & Hb & Hall). cbv zeta.
  rewrite !summarizeResults_exact. cbn [blockingFailure]. split_and!; [done|done|done|].
  intros HV Hn. ospecialize (Hall _); [split; [done|]; intros (r & Hr & Hname); by apply (Hn r)|].
  pose proof (fun status => proj1 (Forall2_heads_filter status _ _ Hall)) as Hs. by rewrite Hb, !Hs.
Qed.
End verbosity.
