(* ===== verification/DoctorFrame.v ===== *)
(** * What doctor changes (internal/doctor/doctor.go, internal/policy/loader.go)

    Doctor is a diagnosis: all it does to the file system is what its policy
    resolver does, which opens, and thereby creates, the stores of the
    configured policies. *)
From stdpp Require Import gmap.
From S2P Require Import Prelude GoStrings Digest OciRef World State Complypack Sync Config.
From S2P Require Import Workspace Provider Generation Resolver Time.
From S2P Require Import Diagnostics DoctorVars DoctorPacks Doctor.

(** Follow an action to its system calls. *)
Ltac preserving :=
  repeat first
    [ progress cbv zeta beta
    | solve [eauto with preserves]
    | match goal with
      | |- preserves _ (io_bind _ _) => apply preserves_bind; [|intros ?]
      | |- preserves _ (io_try _ _ _) => apply preserves_try; [|intros ?]
      | |- preserves _ (match ?x with _ => _ end) => destruct x eqn:?
      | |- preserves _ (if ?b then _ else _) => destruct b eqn:?
      end ].

(** Reading the world of an action first does not matter. *)
Lemma preserves_world {A} P (m : world -> io A) :
  (forall w, preserves P (m w)) -> preserves P (fun w => m w w).
Proof. intros H w. apply H. Qed.

(** ** The policy loader *)

(** Reading a store changes nothing. *)
Class StoreReaderLaws `{StoreReader} := {
  store_Resolve_frame p v : preserves (fun _ => True) (store_Resolve p v);
  store_Tags_frame p : preserves (fun _ => True) (store_Tags p);
  bundle_Unpack_frame p v : preserves (fun _ => True) (bundle_Unpack p v);
}.

#[local] Set Default Proof Using "Type*".

Section loader.
  Context `{OrasLaws} {reader : StoreReader} {readerLaws : StoreReaderLaws} {yaml : GemaraYAML} (cache : path).

Lemma preserves_all {A} P (m : io A) : preserves (fun _ => True) m -> preserves P m.
Proof. intros Hm. by eapply preserves_weaken. Qed.

Definition off_store (id : string) (q : path) : Prop := diverges (PolicyStorePath cache id) q.

Lemma NewPolicyStore_frame id : preserves (off_store id) (NewPolicyStore cache id).
Proof.
  unfold NewPolicyStore. apply preserves_try; [|intros _; apply preserves_try; [|done]].
  - eapply preserves_weaken; [apply preserves_MkdirAll|]. by intros q [].
  - eapply preserves_weaken; [apply oci_New_frame|done].
Qed.

Hint Resolve NewPolicyStore_frame store_Resolve_frame store_Tags_frame bundle_Unpack_frame
  store_Fetch_frame preserves_all : preserves.

Lemma Loader_PolicyExists_frame id v : preserves (off_store id) (Loader_PolicyExists cache id v).
Proof. unfold Loader_PolicyExists. preserving. Qed.

Lemma Loader_ResolveVersion_frame id v : preserves (off_store id) (Loader_ResolveVersion cache id v).
Proof.
  assert (preserves (off_store id) (cached_or_none cache id)).
  { unfold cached_or_none, GetCachedVersions, PolicyStoreExists. preserving. }
  unfold Loader_ResolveVersion. preserving; apply Loader_PolicyExists_frame.
Qed.

Lemma resolveManifest_frame P s v : preserves P (resolveManifest s v).
Proof. unfold resolveManifest. preserving. Qed.
Hint Resolve resolveManifest_frame Loader_PolicyExists_frame : preserves.

Lemma ResolvePolicyGraph_frame id v :
  preserves (off_store id) (ResolvePolicyGraph (loader := Loader cache) id v).
Proof.
  assert (forall t, preserves (off_store id) (Loader_LoadLayerByMediaType cache id v t)).
  { intros t. unfold Loader_LoadLayerByMediaType. preserving. }
  assert (preserves (off_store id) (Loader_LoadBundleFiles cache id v)).
  { unfold Loader_LoadBundleFiles. preserving. }
  assert (preserves (off_store id) (Loader_DetectManifestShape cache id v)).
  { unfold Loader_DetectManifestShape. preserving. }
  unfold ResolvePolicyGraph, with_shape, resolveBundleGraph, resolveSplitGraph, io_lift. simpl. preserving.
Qed.
End loader.

(** ** The checks *)

Section frame.
  Context {hs : HostSyntax} {stCodec : Codec State} {packCodec : Codec PackConfig}
    {cfgCodec : Codec WorkspaceConfig} {launcher : Launcher} (cwd : path) (P : path -> Prop).

Lemma io_lift_frame {A} (r : result A) : preserves P (io_lift r).
Proof. apply preserves_ret. Qed.

Lemma scan_providers_frame d entries : preserves P (scan_providers d entries).
Proof. induction entries as [|[name x] rest IH]; cbn [scan_providers]; preserving. Qed.

Lemma scanDir_frame d : preserves P (scanDir d).
Proof. unfold scanDir. preserving. apply scan_providers_frame. Qed.

Lemma CheckProviders_frame d : preserves P (CheckProviders d).
Proof.
  unfold CheckProviders. apply (preserves_world P (fun w => _)). intros w.
  pose proof scanDir_frame. unfold LoadProviders, DiscoverProviders. preserving.
Qed.

Lemma LoadState_frame d : preserves P (LoadState d).
Proof. unfold LoadState. preserving. Qed.
Hint Resolve LoadState_frame io_lift_frame : preserves.

Lemma CheckVerification_frame d : preserves P (CheckVerification d).
Proof. unfold CheckVerification. preserving. Qed.

Lemma CheckDirectoryLayout_frame c d : preserves P (CheckDirectoryLayout c d).
Proof. unfold CheckDirectoryLayout. preserving. Qed.

Lemma ValidateVerificationConfig_frame v : preserves P (ValidateVerificationConfig cwd v).
Proof. unfold ValidateVerificationConfig. preserving. Qed.
Hint Resolve ValidateVerificationConfig_frame : preserves.

Lemma entries_loop_frame label l urls ids : preserves P (entries_loop cwd label l urls ids).
Proof. revert urls ids. induction l as [|e rest IH]; intros urls ids; cbn [entries_loop]; preserving. Qed.
Hint Resolve entries_loop_frame : preserves.

Lemma CheckConfig_frame p : preserves P (CheckConfig cwd p).
Proof.
  assert (forall c, preserves P (Validate cwd c)) by (intros; unfold Validate, validateEntries; preserving).
  assert (preserves P (LoadFrom cwd p)).
  { unfold LoadFrom. preserving. }
  unfold CheckConfig, check_loaded. preserving.
Qed.

Lemma CheckCache_frame p : preserves P (CheckCache p).
Proof. unfold CheckCache. preserving. Qed.

Lemma orphan_loop_frame d none tracked l : preserves P (orphan_loop d none tracked l).
Proof. induction l as [|[ev x] rest IH]; cbn [orphan_loop]; preserving. Qed.
Hint Resolve orphan_loop_frame : preserves.

Lemma visit_dir_frame fuel p total : preserves P (visit_dir fuel p total).
Proof.
  revert p total. induction fuel as [|fuel IH]; intros p total; cbn [visit_dir]; [done|].
  apply preserves_bind; [auto with preserves|]. intros [entries|e]; [|done].
  revert total. induction entries as [|[name x] rest IHl]; intros total; cbn [visit_entries]; [done|].
  apply preserves_bind; [|intros [e t]; destruct e; [apply IHl|done..]].
  destruct (is_dir (Some x)); [apply IH|]. unfold visit_file. preserving.
Qed.
Hint Resolve visit_dir_frame : preserves.

Lemma walkCacheSize_frame c : preserves P (walkCacheSize c).
Proof. unfold walkCacheSize. apply (preserves_world P (fun w => _)). intros w. preserving. Qed.
Hint Resolve walkCacheSize_frame preserves_LookupByEvaluatorID : preserves.

Lemma check_packs_frame c st ids : preserves P (check_packs c st ids).
Proof. induction ids as [|id rest IH]; cbn [check_packs]; unfold check_pack; preserving. Qed.
Hint Resolve check_packs_frame : preserves.

(** What the resolver is asked about. *)
Section resolver.
  Context (policies : list PolicyEntry) (R : PolicyGraphResolver).

Definition configured_ref (ref : PolicyRef) : Prop :=
  exists p, p ∈ policies /\ ParsePolicyRef (PE_URL p) = (ref, None).

Definition resolver_frame : Prop := forall ref v, configured_ref ref ->
  preserves P (pg_ResolveVersion R (PR_Repository ref) v) /\
  preserves P (pg_ResolvePolicyGraph R (PR_Repository ref) v).

Lemma policy_graph_frame ref : resolver_frame -> configured_ref ref -> preserves P (policy_graph R ref).
Proof.
  intros HR Hc. unfold policy_graph. apply preserves_bind; [by apply HR|]. intros [v|e]; [|done].
  apply preserves_bind; [by apply HR|done].
Qed.

Lemma needed_evaluators_frame l acc :
  resolver_frame -> l ⊆ policies -> preserves P (needed_evaluators R l acc).
Proof.
  intros HR. revert acc. induction l as [|p rest IH]; intros acc Hl; cbn [needed_evaluators]; [done|].
  destruct (ParsePolicyRef _) as [ref [e|]] eqn:Hp.
  - apply preserves_bind; [apply IH; set_solver|done].
  - apply preserves_bind; [|intros g; apply IH; set_solver].
    apply policy_graph_frame; [done|]. exists p. split; [set_solver|done].
Qed.

Lemma active_periods_frame now verbose l :
  resolver_frame -> l ⊆ policies -> preserves P (active_periods R now verbose l).
Proof.
  intros HR. induction l as [|p rest IH]; intros Hl; cbn [active_periods]; [done|].
  destruct (ParsePolicyRef _) as [ref [e|]] eqn:Hp.
  - apply preserves_bind; [apply IH; set_solver|done].
  - apply preserves_bind; [|intros g; apply preserves_bind; [apply IH; set_solver|done]].
    apply policy_graph_frame; [done|]. exists p. split; [set_solver|done].
Qed.

End resolver.

Lemma resolve_policy_frame R cfg t pid acc :
  resolver_frame (WC_Policies cfg) R -> preserves P (resolve_policy R cfg t pid acc).
Proof.
  intros HR. unfold resolve_policy. destruct (FindPolicy _ _) as [p|] eqn:Hf; [|done].
  apply find_first_Some in Hf as (l1 & l2 & Heq & _).
  destruct (ParsePolicyRef (PE_URL p)) as [ref [e|]] eqn:Hr; [done|].
  assert (configured_ref (WC_Policies cfg) ref) as Hc by (exists p; rewrite Heq; split; [set_solver|done]).
  apply preserves_bind; [by apply HR|]. intros [v|e]; [|done].
  apply preserves_bind; [by apply HR|]. by intros [g|e].
Qed.

Lemma resolve_targets_frame R cfg ts acc :
  resolver_frame (WC_Policies cfg) R -> preserves P (resolve_targets R cfg ts acc).
Proof.
  intros HR. revert acc. induction ts as [|t ts IH]; intros acc; cbn [resolve_targets]; [done|].
  apply preserves_bind; [|exact IH]. revert acc.
  induction (T_Policies t) as [|pid pids IHp]; intros acc; cbn [resolve_policies]; [done|].
  apply preserves_bind; [by apply resolve_policy_frame|exact IHp].
Qed.
Definition version_frame (V : VersionResolver) : Prop :=
  (forall registry repository, preserves P (vr_ResolveLatestVersion V registry repository)) /\
  (forall registry repository version, preserves P (vr_ResolveVersion V registry repository version)).

Lemma check_version_frame V st p errs : version_frame V -> preserves P (check_version V st p errs).
Proof.
  intros HV.
  assert (forall ref eid v e, preserves P (resolvePinnedFallback V ref eid v e)) as Hfb.
  { intros. unfold resolvePinnedFallback. case_match; [|done]. apply preserves_bind; [by apply HV|done]. }
  unfold check_version. destruct (ParsePolicyRef _) as [ref [e|]]; [done|].
  destruct (GetPolicyState _ _) as [ps|]; [|done].
  destruct (errs !! _); [apply preserves_bind; [apply Hfb|done]|].
  apply preserves_bind; [by apply HV|]. intros [v|e]; [done|]. apply preserves_bind; [apply Hfb|done].
Qed.

Lemma versions_loop_frame V st l errs : version_frame V -> preserves P (versions_loop V st l errs).
Proof.
  intros HV. revert errs. induction l as [|p rest IH]; intros errs; cbn [versions_loop]; [done|].
  apply preserves_bind; [by apply check_version_frame|]. intros r. apply preserves_bind; [apply IH|done].
Qed.

(** What the run's interfaces may change, the run may change; nothing else. *)
Lemma Run_frame opts :
  (forall cfg R, RO_Config opts = Some cfg -> RO_Resolver opts = Some R -> resolver_frame (WC_Policies cfg) R) ->
  (forall V, RO_VersionResolver opts = Some V -> version_frame V) ->
  preserves P (Run cwd opts).
Proof.
  destruct opts as [cfg cfgPath prDir cacheDir dataDir R V verbose]. cbn. intros HR HV. unfold Run. cbn.
  apply preserves_bind; [apply CheckProviders_frame|]. intros [pr health].
  apply preserves_bind; [|intros vars; apply preserves_bind; [|intros po; apply preserves_bind]].
  - unfold CheckVariables. destruct health, cfg as [cfg|]; try done. apply preserves_bind; [|done].
    unfold resolveEvaluatorTargets. destruct R as [R|]; [|done]. apply resolve_targets_frame. by apply HR.
  - unfold CheckPolicyVersions. destruct cfg as [cfg|], V as [V|]; try done. case_bool_decide; [done|].
    apply preserves_bind; [apply LoadState_frame|]. intros [st|e]; [|done]. apply versions_loop_frame. by apply HV.
  - unfold CheckPolicyActivePeriod. destruct cfg as [cfg|], R as [R|]; try done. case_bool_decide; [done|].
    apply preserves_bind; [auto with preserves|]. intros now. eapply active_periods_frame; [by apply HR|done].
  - intros active. apply preserves_bind; [apply CheckCache_frame|]. intros cache.
    apply preserves_bind; [|intros packs].
    + unfold CheckComplypacks. destruct cfg as [cfg|], R as [R|]; try done. case_bool_decide; [done|].
      apply preserves_bind; [apply LoadState_frame|]. intros st. destruct (match st with Ok _ => _ | _ => _ end).
      apply preserves_bind; [done|]. intros c.
      apply preserves_bind; [eapply needed_evaluators_frame; [by apply HR|done]|]. intros needed. preserving.
      unfold findOrphanedVersions. preserving.
    + pose proof CheckConfig_frame. pose proof CheckVerification_frame. pose proof CheckDirectoryLayout_frame.
      preserving.
Qed.
End frame.

(** ** The command *)

Section command.
  Context {hs : HostSyntax} {net : RegistryNetwork} {stCodec : Codec State} {packCodec : Codec PackConfig}
    {cfgCodec : Codec WorkspaceConfig} {launcher : Launcher} {yaml : GemaraYAML}.
  Context `{OrasLaws} {reader : StoreReader} {readerLaws : StoreReaderLaws}.

(** C19: doctor changes no more than its policy resolver does.  A run with the
    resolver and the registry of the command leaves every node of the file
    system as it was, whatever calls fail, except on the way to or below the
    stores of the policies of the workspace, which the resolver opens; without
    a configuration it changes nothing at all. *)
Theorem doctor_read_only cwd cacheDir opts w q :
  RO_Resolver opts = Some (NewResolver (loader := Loader cacheDir)) ->
  RO_VersionResolver opts = Some registryVersionResolver ->
  (forall cfg p ref, RO_Config opts = Some cfg -> p ∈ WC_Policies cfg -> ParsePolicyRef (PE_URL p) = (ref, None) ->
     diverges (PolicyStorePath cacheDir (PR_Repository ref)) q) ->
  get q (w_fs (Run cwd opts w).2) = get q (w_fs w).
Proof.
  intros HR HV Hq. apply (Run_frame cwd (fun q' => q' = q)); [| |done].
  - intros cfg R Hcfg HR'. rewrite HR in HR'. injection HR' as <-. intros ref v (p & Hp & Href).
    split; (eapply preserves_weaken; [|intros q' ->; exact (Hq _ _ _ Hcfg Hp Href)]).
    + apply Loader_ResolveVersion_frame.
    + apply ResolvePolicyGraph_frame.
  - intros V HV'. rewrite HV in HV'. injection HV' as <-. by split.
Qed.
End command.
