(* ===== verification/Verify.v ===== *)
(** * Signature verification (internal/cache/verify.go)

    From a registry reference to a verdict: the cosign signature of the artifact
    is looked up by its tag, turned into a sigstore bundle, and given to
    sigstore together with the policy the workspace configures.  The libraries
    go-containerregistry and sigstore, the parsers of X.509 certificates and of
    PEM (whose text is not part of the repository) are parameters; base64 and
    hexadecimal are those of Encoding. *)
From stdpp Require Import gmap.
From S2P Require Import Prelude GoStrings Digest OciRef World State Complypack Sync Config Get Encoding.

(** ** go-containerregistry *)

Inductive NameOption : Type := Insecure.

(** [v1.Descriptor] of a layer; a missing annotations object is the nil map. *)
Record Layer := MkLayer {
  L_MediaType : string;
  L_DigestHex : string;
  L_Annotations : option (gmap string string);
}.

Class ContainerRegistry := {
  Reference : Type;
  ParseReference : list NameOption -> string -> result Reference;
  ContextName : Reference -> string;
  NewTag : list NameOption -> string -> result Reference;
  RemoteDescriptor : Type;
  remote_Get : Reference -> io (result RemoteDescriptor);
  desc_DigestHex : RemoteDescriptor -> string;
  SigImage : Type;
  desc_Image : RemoteDescriptor -> io (result SigImage);
  image_Manifest : SigImage -> io (result (list Layer));
}.

(** ** sigstore *)

(** The protobuf messages the code fills. *)
Record TransparencyLogEntry := MkTransparencyLogEntry {
  TL_LogIndex : Z;
  TL_KeyId : string;
  TL_Kind : string;
  TL_KindVersion : string;
  TL_IntegratedTime : Z;
  TL_SignedEntryTimestamp : string;
  TL_CanonicalizedBody : string;
}.

Inductive MaterialContent : Type :=
  | X509CertificateChain (rawBytes : list string)
  | PublicKeyIdentifier (hint : string).

Record VerificationMaterial := MkVerificationMaterial {
  VM_Content : MaterialContent;
  VM_TlogEntries : list TransparencyLogEntry;
}.

(** A message signature; the digest algorithm is always SHA2_256. *)
Record ProtoBundle := MkProtoBundle {
  PB_MediaType : string;
  PB_VerificationMaterial : VerificationMaterial;
  PB_MessageDigest : string;
  PB_Signature : string;
}.

(** [root.ExpiringKey]; the zero time is [None]. *)
Record ExpiringKey (SigVerifier : Type) := MkExpiringKey {
  EK_Verifier : SigVerifier;
  EK_ValidFrom : option Z;
  EK_ValidUntil : option Z;
}.
Arguments MkExpiringKey {_}.

Inductive TrustedMaterial (TrustedRoot SigVerifier : Type) : Type :=
  | RootMaterial (r : TrustedRoot)
  | PublicKeyMaterial (lookup : string -> result (ExpiringKey SigVerifier)).
Arguments RootMaterial {_ _}.
Arguments PublicKeyMaterial {_ _}.

Inductive VerifierOption : Type :=
  | WithSignedCertificateTimestamps (n : Z)
  | WithTransparencyLog (n : Z)
  | WithObserverTimestamps (n : Z)
  | WithNoObserverTimestamps.

Inductive IdentityPolicy (CertificateIdentity : Type) : Type :=
  | WithCertificateIdentity (id : CertificateIdentity)
  | WithKey.
Arguments WithCertificateIdentity {_}.
Arguments WithKey {_}.

(** [verify.NewPolicy] of [WithArtifactDigest] and an identity. *)
Record VerifyPolicy (CertificateIdentity : Type) := MkVerifyPolicy {
  VP_Algorithm : string;
  VP_ArtifactDigest : string;
  VP_Identity : IdentityPolicy CertificateIdentity;
}.
Arguments MkVerifyPolicy {_}.

(** [verify.VerificationResult]: issuer and subject alternative name of the
    verified identity, and of the certificate of the signature. *)
Record SigstoreResult := MkSigstoreResult {
  SR_VerifiedIdentity : option (string * string);
  SR_SignatureCertificate : option (string * string);
}.

Class Sigstore := {
  TrustedRoot : Type;
  NewTrustedRootFromPath : string -> io (result TrustedRoot);
  FetchTrustedRootWithOptions : io (result TrustedRoot);
  CertificateIdentity : Type;
  NewShortCertificateIdentity : string -> string -> string -> string -> result CertificateIdentity;
  PublicKey : Type;
  UnmarshalPEMToPublicKey : string -> result PublicKey;
  SigVerifier : Type;
  LoadVerifier : PublicKey -> result SigVerifier;
  SigstoreVerifier : Type;
  NewVerifier : TrustedMaterial TrustedRoot SigVerifier -> list VerifierOption -> result SigstoreVerifier;
  SigBundle : Type;
  NewBundle : ProtoBundle -> result SigBundle;
  sigstore_Verify : SigstoreVerifier -> SigBundle -> VerifyPolicy CertificateIdentity ->
    io (result SigstoreResult);
}.

(** ** PEM and certificates *)

Record pem_block := MkPemBlock { pem_Type : string; pem_Bytes : string }.

Class Pem := {
  pem_Decode : string -> option (pem_block * string);
  x509_ParseCertificate : string -> result unit;
}.

(** What is left after a block is shorter than what there was. *)
Class PemLaws `{Pem} :=
  pem_Decode_shorter s b rest : pem_Decode s = Some (b, rest) -> (String.length rest < String.length s)%nat.

Definition cosignAnnotationSignature : string := "dev.cosignproject.cosign/signature".
Definition cosignAnnotationCert : string := "dev.sigstore.cosign/certificate".
Definition cosignAnnotationBundle : string := "dev.sigstore.cosign/bundle".
Definition cosignSimpleSigningMediaType : string := "application/vnd.dev.cosign.simplesigning.v1+json".

(** The bundle annotation. *)
Record rekorBundlePayload := MkRekorBundlePayload {
  RB_SignedEntryTimestamp : string;
  RB_Body : string;
  RB_IntegratedTime : Z;
  RB_LogIndex : Z;
  RB_LogID : string;
}.

(** ** From annotations to a bundle *)

Section bundle.
  Context {pem : Pem} {rekorCodec : Codec rekorBundlePayload}.

Fixpoint parse_certs (fuel : nat) (remaining : string) (certs : list string) : result (list string) :=
  match fuel with
  | O => Err (Errorf "parseCertificateChain: out of fuel")
  | S fuel' =>
      match pem_Decode remaining with
      | None => Ok certs
      | Some (block, rest) =>
          if bool_decide (pem_Type block = "CERTIFICATE") then
            try _ := x509_ParseCertificate (pem_Bytes block)
              orelse (fun e => Wrapf "invalid certificate in chain: " e "") in
            parse_certs fuel' rest (certs ++ [pem_Bytes block])
          else parse_certs fuel' rest certs
      end
  end.

Definition parseCertificateChain (certPEM : string) : result (list string) :=
  try certs := parse_certs (S (String.length certPEM)) certPEM [] in
  check guard_err (bool_decide (certs = [])) (Errorf "no certificates found in PEM data") in
  Ok certs.

Definition parseRekorBundle (bundleJSON : string) : result (list TransparencyLogEntry) :=
  try payload := unmarshal bundleJSON orelse (fun e => Wrapf "failed to unmarshal Rekor bundle: " e "") in
  try setBytes := base64_DecodeString (RB_SignedEntryTimestamp payload)
    orelse (fun e => Wrapf "failed to decode SignedEntryTimestamp: " e "") in
  try logIDBytes := hex_DecodeString (RB_LogID payload)
    orelse (fun e => Wrapf "failed to decode logID: " e "") in
  try canonicalBody := base64_DecodeString (RB_Body payload)
    orelse (fun e => Wrapf "failed to decode body: " e "") in
  Ok [MkTransparencyLogEntry (RB_LogIndex payload) logIDBytes "hashedrekord" "0.0.1"
        (RB_IntegratedTime payload) setBytes canonicalBody].

Definition buildVerificationMaterial (annotations : gmap string string) : result VerificationMaterial :=
  try content := (match annotations !! cosignAnnotationCert with
                  | Some certPEM => try certs := parseCertificateChain certPEM in
                                    Ok (X509CertificateChain certs)
                  | None => Ok (PublicKeyIdentifier "")
                  end) orelse (fun e => Wrapf "failed to parse cosign certificate: " e "") in
  try entries := (match annotations !! cosignAnnotationBundle with
                  | Some bundleJSON => parseRekorBundle bundleJSON
                  | None => Ok []
                  end) orelse (fun e => Wrapf "failed to parse cosign Rekor bundle: " e "") in
  Ok (MkVerificationMaterial content entries).

Definition bundleMediaType : string := "application/vnd.dev.sigstore.bundle+json;version=0.1".

Definition buildProtobufBundle (layer : Layer) (artifactDigestHex : string) : result ProtoBundle :=
  match L_Annotations layer with
  | None => Err (Errorf "cosign layer has no annotations")
  | Some annotations =>
      try vm := buildVerificationMaterial annotations in
      match annotations !! cosignAnnotationSignature with
      | None => Err (Errorf "cosign layer missing signature annotation")
      | Some sigB64 =>
          try sigBytes := base64_DecodeString sigB64
            orelse (fun e => Wrapf "failed to decode cosign signature: " e "") in
          try digestBytes := hex_DecodeString artifactDigestHex
            orelse (fun e => Wrapf "failed to decode artifact digest: " e "") in
          Ok (MkProtoBundle bundleMediaType vm digestBytes sigBytes)
      end
  end.
End bundle.

(** ** From a reference to a bundle *)

Section verify.
  Context {pem : Pem} {rekorCodec : Codec rekorBundlePayload} {reg : ContainerRegistry} {sig : Sigstore}
    (cwd : path).

Definition nameOptions (insecure : bool) : list NameOption := if insecure then [Insecure] else [].

Definition resolveArtifactDigest (registryRef : string) (insecure : bool) : io (result (Reference * string)) :=
  do! ref := io_lift (ParseReference (nameOptions insecure) registryRef)
    orelse (fun e => Wrapf ("invalid OCI reference " +:+ registryRef +:+ ": ") e "") in
  do! desc := remote_Get ref
    orelse (fun e => Wrapf ("failed to resolve " +:+ registryRef +:+ ": ") e "") in
  io_ret (Ok (ref, desc_DigestHex desc)).

Definition findSigningLayer (sigImage : SigImage) : io (result Layer) :=
  do! layers := image_Manifest sigImage
    orelse (fun e => Wrapf "failed to read cosign signature manifest: " e "") in
  io_ret (match find_first (fun l => bool_decide (L_MediaType l = cosignSimpleSigningMediaType)) layers with
          | Some layer => Ok layer
          | None => Err (Errorf "no cosign simple signing layer found in signature manifest")
          end).

Definition signature_tag (ref : Reference) (digestHex : string) : string :=
  ContextName ref +:+ ":sha256-" +:+ digestHex +:+ ".sig".

Definition fetchCosignSignature (ref : Reference) (digestHex registryRef : string) (insecure : bool)
    : io (result Layer) :=
  do! sigTag := io_lift (NewTag (nameOptions insecure) (signature_tag ref digestHex))
    orelse (fun e => Wrapf "failed to construct cosign signature tag: " e "") in
  do! sigDesc := remote_Get sigTag
    orelse (fun e => Wrapf ("no cosign signature found for " +:+ registryRef +:+ ": ") e "") in
  do! sigImage := desc_Image sigDesc
    orelse (fun e => Wrapf "failed to read cosign signature image: " e "") in
  findSigningLayer sigImage.

(** The bundle of a signature layer, with the digest it signs. *)
Definition bundle_of_layer (sigLayer : Layer) : result (SigBundle * string) :=
  let signedDigestHex := L_DigestHex sigLayer in
  try pb := buildProtobufBundle sigLayer signedDigestHex
    orelse (fun e => Wrapf "failed to build sigstore bundle from cosign annotations: " e "") in
  try bun := NewBundle pb orelse (fun e => Wrapf "failed to create sigstore bundle: " e "") in
  try artifactDigest := hex_DecodeString signedDigestHex
    orelse (fun e => Wrapf "failed to decode artifact digest: " e "") in
  Ok (bun, artifactDigest).

Definition bundleFromCosignOCI (registryRef : string) (insecure : bool) : io (result (SigBundle * string)) :=
  do! r := resolveArtifactDigest registryRef insecure orelse (fun e => e) in
  do! sigLayer := fetchCosignSignature r.1 r.2 registryRef insecure orelse (fun e => e) in
  io_lift (bundle_of_layer sigLayer).

(** ** Verifiers *)

Definition extractVerificationResult (result : SigstoreResult) : io VerificationResult :=
  let! now := time_Now in
  let '(issuer, identity) := default ("", "") (SR_VerifiedIdentity result) in
  let '(issuer, identity) :=
    match SR_SignatureCertificate result with
    | Some (certIssuer, san) =>
        (if bool_decide (issuer = "") then certIssuer else issuer,
         if bool_decide (identity = "") then san else identity)
    | None => (issuer, identity)
    end in
  io_ret (MkVerificationResult true identity issuer now).

(** Both verifiers: bundle, policy, verdict. *)
Definition resolve_failed (registryRef : string) (e : error) : error :=
  Wrapf ("failed to resolve cosign signature for " +:+ registryRef +:+ ": ") e "".
Definition verification_failed (registryRef : string) (e : error) : error :=
  Wrapf ("signature verification failed for " +:+ registryRef +:+ ": ") e "".

Definition keyless_verify (verifier : SigstoreVerifier) (certID : CertificateIdentity) : VerifyFunc :=
  fun registryRef insecure =>
    do! ba := bundleFromCosignOCI registryRef insecure orelse resolve_failed registryRef in
    let policy := MkVerifyPolicy "sha256" ba.2 (WithCertificateIdentity certID) in
    do! result := sigstore_Verify verifier ba.1 policy orelse verification_failed registryRef in
    let! vr := extractVerificationResult result in io_ret (Ok vr).

Definition keyed_verify (verifier : SigstoreVerifier) : VerifyFunc :=
  fun registryRef insecure =>
    do! ba := bundleFromCosignOCI registryRef insecure orelse resolve_failed registryRef in
    let policy := MkVerifyPolicy "sha256" ba.2 WithKey in
    do! _ := sigstore_Verify verifier ba.1 policy orelse verification_failed registryRef in
    let! now := time_Now in io_ret (Ok (MkVerificationResult true "" "" now)).

Definition load_root (trustedRootPath : string) : io (result TrustedRoot) :=
  if negb (bool_decide (trustedRootPath = "")) then
    do! r := NewTrustedRootFromPath trustedRootPath
      orelse (fun e => Wrapf ("failed to load trusted root from " +:+ trustedRootPath +:+ ": ") e "") in
    io_ret (Ok r)
  else
    do! r := FetchTrustedRootWithOptions
      orelse (fun e => Wrapf "failed to fetch Sigstore trusted root: " e "") in
    io_ret (Ok r).

Definition keyless_options : list VerifierOption :=
  [WithSignedCertificateTimestamps 1; WithTransparencyLog 1; WithObserverTimestamps 1].

Definition NewKeylessVerifier (issuer identity trustedRootPath : string) : io (result VerifyFunc) :=
  do! trustedRoot := load_root trustedRootPath orelse (fun e => e) in
  do! certID := io_lift (NewShortCertificateIdentity issuer "" identity "")
    orelse (fun e => Wrapf "failed to create certificate identity: " e "") in
  do! verifier := io_lift (NewVerifier (RootMaterial trustedRoot) keyless_options)
    orelse (fun e => Wrapf "failed to create sigstore verifier: " e "") in
  io_ret (Ok (keyless_verify verifier certID)).

(** One trusted key, valid at all times, whatever the hint. *)
Definition single_key (sigVerifier : SigVerifier) : TrustedMaterial TrustedRoot SigVerifier :=
  PublicKeyMaterial (fun _ => Ok (MkExpiringKey sigVerifier None None)).

Definition NewKeyedVerifier (keyPath : string) : io (result VerifyFunc) :=
  let keyPath := filepath_Clean keyPath in
  do! keyBytes := os_ReadFile (abs_path cwd keyPath)
    orelse (fun e => Wrapf ("failed to read public key " +:+ keyPath +:+ ": ") e "") in
  do! pubKey := io_lift (UnmarshalPEMToPublicKey keyBytes)
    orelse (fun e => Wrapf ("failed to parse public key " +:+ keyPath +:+ ": ") e "") in
  do! sigVerifier := io_lift (LoadVerifier pubKey)
    orelse (fun e => Wrapf ("failed to create signature verifier from " +:+ keyPath +:+ ": ") e "") in
  do! verifier := io_lift (NewVerifier (single_key sigVerifier) [WithNoObserverTimestamps])
    orelse (fun e => Wrapf "failed to create keyed verifier: " e "") in
  io_ret (Ok (keyed_verify verifier)).

(** The verifiers the get command builds. *)
Definition sigstore_verifiers : Verifiers := {|
  Get.NewKeyedVerifier := NewKeyedVerifier;
  Get.NewKeylessVerifier := NewKeylessVerifier;
|}.
End verify.

(** ** The loop over a certificate chain ends *)

Section chain.
  Context `{PemLaws}.
  #[local] Set Default Proof Using "Type*".

(** The blocks of a text, in order. *)
Inductive pem_blocks : string -> list pem_block -> Prop :=
  | pem_none s : pem_Decode s = None -> pem_blocks s []
  | pem_more s b rest l : pem_Decode s = Some (b, rest) -> pem_blocks rest l -> pem_blocks s (b :: l).

Definition certificates (l : list pem_block) : list string :=
  pem_Bytes <$> filter (fun b => pem_Type b = "CERTIFICATE") l.

Lemma pem_blocks_unique s l l' : pem_blocks s l -> pem_blocks s l' -> l = l'.
Proof.
  intros Hl. revert l'. induction Hl as [s Hs|s b rest l Hs _ IH]; intros l' Hl'; inversion Hl'; simplify_eq;
    [done|]. f_equal. by apply IH.
Qed.

Lemma parse_certs_run fuel s certs :
  (String.length s < fuel)%nat ->
  exists l, pem_blocks s l /\ forall r, parse_certs fuel s certs = Ok r <->
    r = certs ++ certificates l /\ Forall (fun c => x509_ParseCertificate c = Ok tt) (certificates l).
Proof.
  revert s certs. induction fuel as [|fuel IH]; intros s certs Hf; [lia|]. cbn [parse_certs].
  destruct (pem_Decode s) as [[b rest]|] eqn:E.
  - pose proof (pem_Decode_shorter _ _ _ E) as Hlt.
    case_bool_decide as Ht.
    + destruct (IH rest (certs ++ [pem_Bytes b])) as (l & Hl & Hr); [lia|].
      exists (b :: l). split; [by econstructor|]. intros r. unfold certificates.
      rewrite filter_cons_True by done. rewrite fmap_cons, Forall_cons.
      destruct (x509_ParseCertificate (pem_Bytes b)) as [[]|e]; cbn.
      * rewrite Hr, <-app_assoc. cbn [app]. naive_solver.
      * naive_solver.
    + destruct (IH rest certs) as (l & Hl & Hr); [lia|].
      exists (b :: l). split; [by econstructor|]. intros r. unfold certificates.
      by rewrite filter_cons_False.
  - exists []. split; [by constructor|]. intros r. unfold certificates. rewrite filter_nil. simpl.
    rewrite app_nil_r. naive_solver.
Qed.

Lemma parseCertificateChain_run certPEM :
  exists blocks, pem_blocks certPEM blocks /\ forall chain, parseCertificateChain certPEM = Ok chain <->
    chain = certificates blocks /\ chain <> [] /\ Forall (fun c => x509_ParseCertificate c = Ok tt) chain.
Proof.
  destruct (parse_certs_run (S (String.length certPEM)) certPEM []) as (l & Hl & Hr); [lia|].
  exists l. split; [done|]. intros chain. unfold parseCertificateChain. cbn [app] in Hr.
  destruct (parse_certs _ certPEM []) as [certs|e]; cbn.
  - destruct (proj1 (Hr certs) eq_refl) as [-> Hv]. case_bool_decide as Hn; cbn; naive_solver.
  - split; [done|]. intros (-> & _ & Hv). by apply Hr.
Qed.

(** C28: the loop over the PEM blocks of a certificate annotation ends, and with
    the whole chain.  Every text has exactly one sequence of blocks; the answer
    is the contents of all its certificate blocks, in order, exactly if there is
    one at least and each is a valid certificate, and an error otherwise. *)
Theorem parseCertificateChain_exact certPEM :
  exists blocks, pem_blocks certPEM blocks /\ (forall l, pem_blocks certPEM l -> l = blocks) /\
    forall chain, parseCertificateChain certPEM = Ok chain <->
      chain = certificates blocks /\ chain <> [] /\
      Forall (fun c => x509_ParseCertificate c = Ok tt) chain.
Proof.
  destruct (parseCertificateChain_run certPEM) as (l & Hl & Hr). exists l.
  split; [done|]. split; [by intros l' Hl'; eapply pem_blocks_unique|done].
Qed.
End chain.

(** ** What cosign writes is what sigstore gets *)

Section annotations.
  Context `{PemLaws} {rekorCodec : Codec rekorBundlePayload}.
  #[local] Set Default Proof Using "Type*".

(** The payload Rekor answers for an entry. *)
Definition rekor_payload (e : TransparencyLogEntry) : rekorBundlePayload :=
  MkRekorBundlePayload (base64_EncodeToString (TL_SignedEntryTimestamp e))
    (base64_EncodeToString (TL_CanonicalizedBody e)) (TL_IntegratedTime e) (TL_LogIndex e)
    (hex_EncodeToString (TL_KeyId e)).

Definition hashedrekord (e : TransparencyLogEntry) : Prop :=
  TL_Kind e = "hashedrekord" /\ TL_KindVersion e = "0.0.1".

(** The annotations say what the bundle holds: the signature in base64, broken
    into lines at will; the certificates as a PEM text with any other blocks
    among them, or none; the entry of the transparency log as Rekor's JSON, or
    none. *)
Definition annotated_signature (a : gmap string string) (signature : string) : Prop :=
  exists text, a !! cosignAnnotationSignature = Some text /\
    strip line_break text = base64_EncodeToString signature.

Definition annotated_content (a : gmap string string) (content : MaterialContent) : Prop :=
  match content with
  | PublicKeyIdentifier hint => hint = "" /\ a !! cosignAnnotationCert = None
  | X509CertificateChain chain => chain <> [] /\
      exists text blocks, a !! cosignAnnotationCert = Some text /\ pem_blocks text blocks /\
        certificates blocks = chain /\ Forall (fun c => x509_ParseCertificate c = Ok tt) chain
  end.

Definition annotated_entries (a : gmap string string) (entries : list TransparencyLogEntry) : Prop :=
  match a !! cosignAnnotationBundle with
  | None => entries = []
  | Some json => exists e, entries = [e] /\ hashedrekord e /\ unmarshal json = Ok (rekor_payload e)
  end.

Lemma parseRekorBundle_payload json e :
  hashedrekord e -> unmarshal json = Ok (rekor_payload e) -> parseRekorBundle json = Ok [e].
Proof.
  intros [Hk Hv] Hj. unfold parseRekorBundle. rewrite Hj. cbn.
  rewrite !base64_decode_encode, hex_roundtrip. cbn. destruct e; cbn in *. by subst.
Qed.

(** C29: the bundle holds what the annotations say.  For every bundle and
    all annotations that describe it, building a bundle from them and the
    hexadecimal digest answers that bundle: the signature, the certificate
    chain or the key, and the log entry reach sigstore unchanged. *)
Theorem buildProtobufBundle_roundtrip a pb mediaType :
  PB_MediaType pb = bundleMediaType ->
  annotated_signature a (PB_Signature pb) ->
  annotated_content a (VM_Content (PB_VerificationMaterial pb)) ->
  annotated_entries a (VM_TlogEntries (PB_VerificationMaterial pb)) ->
  let digestHex := hex_EncodeToString (PB_MessageDigest pb) in
  buildProtobufBundle (MkLayer mediaType digestHex (Some a)) digestHex = Ok pb.
Proof.
  destruct pb as [mt [content entries] digest signature]. cbn. intros -> (text & Ht & Hs) Hc He.
  unfold buildProtobufBundle. cbn.
  assert (buildVerificationMaterial a = Ok (MkVerificationMaterial content entries)) as ->.
  { unfold buildVerificationMaterial. unfold annotated_entries in He.
    assert (match a !! cosignAnnotationBundle with Some j => parseRekorBundle j | None => Ok [] end = Ok entries) as ->.
    { destruct (a !! cosignAnnotationBundle); [|by subst]. destruct He as (e & -> & Hh & Hu).
      by apply parseRekorBundle_payload. }
    destruct content as [chain|hint]; cbn in Hc.
    - destruct Hc as (Hne & t & blocks & -> & Hb & Hch & Hv).
      destruct (parseCertificateChain_run t) as (blocks' & Hb' & Hr).
      rewrite (pem_blocks_unique _ _ _ Hb' Hb) in Hr. by rewrite (proj2 (Hr chain)).
    - by destruct Hc as [-> ->]. }
  cbn. rewrite Ht, (base64_roundtrip _ _ Hs). cbn. by rewrite hex_roundtrip.
Qed.
End annotations.

(** ** Verdicts *)

Lemma io_try_ok {A B} (m : io (result A)) h (k : A -> io (result B)) b w w' :
  io_try m h k w = (Ok b, w') -> exists a w1, m w = (Ok a, w1) /\ k a w1 = (Ok b, w').
Proof.
  unfold io_try, io_bind, io_ret. destruct (m w) as [[a|e] w1]; intros H; [by eexists _, _|done].
Qed.

Lemma io_lift_ok {A} (r : result A) a w w' : io_lift r w = (Ok a, w') -> r = Ok a /\ w' = w.
Proof. by intros [= -> ->]. Qed.

Section verdicts.
  Context {pem : Pem} {rekorCodec : Codec rekorBundlePayload} {reg : ContainerRegistry} {sig : Sigstore}
    (cwd : path).

(** In the world [w] the registry holds, for the artifact [registryRef] of
    digest [digestHex], a cosign signature with signing layer [l]. *)
Definition signature_layer (registryRef : string) (insecure : bool) (digestHex : string) (l : Layer)
    (w : world) : Prop :=
  let opts := nameOptions insecure in
  exists ref desc w1 tag sigDesc w2 image w3 before after w4,
    ParseReference opts registryRef = Ok ref /\
    remote_Get ref w = (Ok desc, w1) /\ desc_DigestHex desc = digestHex /\
    NewTag opts (signature_tag ref digestHex) = Ok tag /\
    remote_Get tag w1 = (Ok sigDesc, w2) /\ desc_Image sigDesc w2 = (Ok image, w3) /\
    image_Manifest image w3 = (Ok (before ++ l :: after), w4) /\
    L_MediaType l = cosignSimpleSigningMediaType /\
    Forall (fun l' => L_MediaType l' <> cosignSimpleSigningMediaType) before.

(** The trust a verification block configures, as sigstore verifiers and
    identities. *)
Definition trusted (cfg : VerificationConfig) (V : SigstoreVerifier) (identity : IdentityPolicy CertificateIdentity)
    : Prop :=
  if negb (bool_decide (VC_Key cfg = "")) then
    exists w w' bytes key k, os_ReadFile (abs_path cwd (filepath_Clean (VC_Key cfg))) w = (Ok bytes, w') /\
      UnmarshalPEMToPublicKey bytes = Ok key /\ LoadVerifier key = Ok k /\
      NewVerifier (single_key k) [WithNoObserverTimestamps] = Ok V /\ identity = WithKey
  else
    exists w w' root id, load_root (VC_TrustedRoot cfg) w = (Ok root, w') /\
      NewShortCertificateIdentity (VC_Issuer cfg) "" (VC_Identity cfg) "" = Ok id /\
      NewVerifier (RootMaterial root) keyless_options = Ok V /\ identity = WithCertificateIdentity id.

(** sigstore accepted the signature in the layer under that trust. *)
Definition accepted_by_sigstore (V : SigstoreVerifier) (identity : IdentityPolicy CertificateIdentity)
    (l : Layer) (out : SigstoreResult) : Prop :=
  exists pb bun digest w w',
    buildProtobufBundle l (L_DigestHex l) = Ok pb /\ NewBundle pb = Ok bun /\
    hex_DecodeString (L_DigestHex l) = Ok digest /\
    sigstore_Verify V bun (MkVerifyPolicy "sha256" digest identity) w = (Ok out, w').

(** The signer a verdict names is the one sigstore verified. *)
Definition names_signer (vr : VerificationResult) (out : SigstoreResult) : Prop :=
  forall issuer identity, SR_VerifiedIdentity out = Some (issuer, identity) ->
    (issuer <> "" -> VR_Issuer vr = issuer) /\ (identity <> "" -> VR_SignerIdentity vr = identity).

Lemma bundleFromCosignOCI_ok registryRef insecure w ba w' :
  bundleFromCosignOCI registryRef insecure w = (Ok ba, w') ->
  exists digestHex l, signature_layer registryRef insecure digestHex l w /\ bundle_of_layer l = Ok ba.
Proof.
  unfold bundleFromCosignOCI. intros ([ref hex] & w1 & Hr & H)%io_try_ok.
  apply io_try_ok in Hr as (ref' & w2 & Hp & Hr). apply io_lift_ok in Hp as [Hp ->].
  apply io_try_ok in Hr as (desc & w3 & Hg & Hr). injection Hr as <- <- <-. cbn [fst snd] in H.
  apply io_try_ok in H as (l & w4 & Hf & Hb). apply io_lift_ok in Hb as [Hb ->].
  apply io_try_ok in Hf as (tag & w5 & Ht & Hf). apply io_lift_ok in Ht as [Ht ->].
  apply io_try_ok in Hf as (sigDesc & w6 & Hs & Hf). apply io_try_ok in Hf as (image & w7 & Hi & Hf).
  apply io_try_ok in Hf as (layers & w8 & Hm & Hf). unfold io_ret in Hf.
  destruct (find_first _ layers) as [l'|] eqn:Hl; [|done]. injection Hf as -> <-.
  apply find_first_Some in Hl as (before & after & -> & Hty & Hbefore). apply bool_decide_eq_true in Hty.
  exists (desc_DigestHex desc), l. split; [|done]. unfold signature_layer.
  eexists _, _, _, _, _, _, _, _, _, _, _. split_and!; [done..|].
  eapply Forall_impl; [exact Hbefore|]. by intros l' ?%bool_decide_eq_false.
Qed.

Lemma bundle_of_layer_ok l bun digest :
  bundle_of_layer l = Ok (bun, digest) ->
  exists pb, buildProtobufBundle l (L_DigestHex l) = Ok pb /\ NewBundle pb = Ok bun /\
    hex_DecodeString (L_DigestHex l) = Ok digest.
Proof.
  unfold bundle_of_layer. destruct (buildProtobufBundle _ _) as [pb|e]; [|done]. cbn.
  destruct (NewBundle pb) as [b|e] eqn:Hn; [|done]. cbn.
  destruct (hex_DecodeString _) as [d|e]; [|done]. cbn. intros [= <- <-]. by exists pb.
Qed.

(** Both verifiers at once: the verdict of a verifier of the get command. *)
Definition backed_verdict (cfg : VerificationConfig) (registryRef : string) (insecure : bool)
    (w : world) (vr : VerificationResult) : Prop :=
  VR_Verified vr = true /\
  exists digestHex l V identity out, signature_layer registryRef insecure digestHex l w /\
    trusted cfg V identity /\ accepted_by_sigstore V identity l out /\
    (VC_Key cfg = "" -> names_signer vr out).

Lemma extract_names out w vr w' : extractVerificationResult out w = (vr, w') -> VR_Verified vr = true /\ names_signer vr out.
Proof.
  unfold extractVerificationResult, io_bind, names_signer, io_ret. destruct (time_Now w) as [now w1].
  destruct out as [[[i s]|] [[i' s']|]]; cbn; intros [= <- _]; cbn; split; try done;
    intros ?? [= <- <-]; repeat case_bool_decide; done.
Qed.


(** Conversely the layer decides what sigstore is asked. *)
Lemma bundleFromCosignOCI_layer registryRef insecure digestHex l w :
  signature_layer registryRef insecure digestHex l w ->
  (bundleFromCosignOCI registryRef insecure w).1 = bundle_of_layer l.
Proof.
  intros (ref & desc & w1 & tag & sigDesc & w2 & image & w3 & before & after & w4 & Hp & Hg & Hd & Ht & Hs & Hi &
    Hm & Hty & Hbefore).
  unfold bundleFromCosignOCI, resolveArtifactDigest, fetchCosignSignature, findSigningLayer, io_try, io_bind,
    io_lift, io_ret. rewrite Hp, Hg, Hd. cbn [fst snd]. rewrite Ht, Hs, Hi, Hm. cbn [fst snd].
  assert (find_first (fun l => bool_decide (L_MediaType l = cosignSimpleSigningMediaType)) (before ++ l :: after)
          = Some l) as ->; [|done].
  clear Hm. induction Hbefore as [|x before Hx _ IH]; simpl; [by rewrite bool_decide_eq_true_2|].
  by rewrite bool_decide_eq_false_2.
Qed.

(** C40: The payload cosign signed names the digest of the artifact it was made for,
    but nothing compares that digest with the artifact being verified: an
    artifact whose signature tag holds a copy of another artifact's signature
    layer puts the very same question to sigstore, and gets the same answer. *)
Theorem signature_not_bound_to_artifact refA refB insecure digestA digestB l wA wB :
  signature_layer refA insecure digestA l wA -> signature_layer refB insecure digestB l wB ->
  (bundleFromCosignOCI refB insecure wB).1 = (bundleFromCosignOCI refA insecure wA).1.
Proof. intros HA HB. by rewrite (bundleFromCosignOCI_layer _ _ _ _ _ HA), (bundleFromCosignOCI_layer _ _ _ _ _ HB). Qed.

(** ** Verification only reads *)

Class VerifyReads := {
  remote_Get_reads r : reads (remote_Get r);
  desc_Image_reads d : reads (desc_Image d);
  image_Manifest_reads i : reads (image_Manifest i);
  sigstore_Verify_reads v b p : reads (sigstore_Verify v b p);
}.

(** What the synchronisation assumes of a verifier. *)
Lemma verifier_reads `{VerifyReads} cfg vf registryRef insecure :
  built (vs := sigstore_verifiers cwd) cfg vf -> reads (vf registryRef insecure).
Proof.
  assert (reads (bundleFromCosignOCI registryRef insecure)) as Hb.
  { unfold reads, bundleFromCosignOCI, resolveArtifactDigest, fetchCosignSignature, findSigningLayer.
    repeat (apply preserves_try; [|intros]); try done;
      first [apply remote_Get_reads|apply desc_Image_reads|apply image_Manifest_reads]. }
  intros (w & w' & Hv). unfold buildVerifierFromConfig in Hv. destruct (negb _); cbn in Hv.
  - apply io_try_ok in Hv as (? & ? & _ & Hv). apply io_try_ok in Hv as (? & ? & _ & Hv).
    apply io_try_ok in Hv as (? & ? & _ & Hv). apply io_try_ok in Hv as (? & ? & _ & Hv). injection Hv as <- _.
    apply preserves_try; [done|intros]. apply preserves_try; [apply sigstore_Verify_reads|intros].
    by apply preserves_bind.
  - apply io_try_ok in Hv as (? & ? & _ & Hv). apply io_try_ok in Hv as (? & ? & _ & Hv).
    apply io_try_ok in Hv as (? & ? & _ & Hv). injection Hv as <- _.
    apply preserves_try; [done|intros]. apply preserves_try; [apply sigstore_Verify_reads|intros].
    unfold extractVerificationResult. apply preserves_bind; [|done]. apply preserves_bind; [done|intros].
    by repeat case_match.
Qed.
End verdicts.
