(* ===== verification/Init.v ===== *)
(** * The init and providers commands (cmd/complyctl/cli/{init,providers}.go)

    Init asks for policies and targets and writes a configuration; what the user
    types is the text of standard input, read word by word as [fmt.Scanln] does.
    Providers lists the discovered providers with their health and their cached
    complypack.  Prompts and messages are not modelled; white space is that of
    ASCII. *)
From stdpp Require Import gmap.
From S2P Require Import Prelude GoStrings Digest OciRef World State Complypack Sync Config.
From S2P Require Import Workspace Provider.

(** ** [fmt.Scanln] of one string *)

(** [SkipSpace] and [notEOF]: the input at the next word, or what is left after
    the error at a line break or the end. *)
Fixpoint skip_space (s : string) : string + string :=
  match s with
  | EmptyString => inr EmptyString
  | String c s' =>
      if Ascii.eqb c "010" then inr s'
      else if is_space c then skip_space s' else inl s
  end.

(** [token]: a word and the input after it. *)
Fixpoint scan_word (s : string) : string * string :=
  match s with
  | EmptyString => (EmptyString, EmptyString)
  | String c s' =>
      if is_space c then (EmptyString, s)
      else let '(word, rest) := scan_word s' in (String c word, rest)
  end.

(** The rest of the line must be blank; the byte that is not is consumed. *)
Fixpoint scan_line_end (s : string) : bool * string :=
  match s with
  | EmptyString => (true, EmptyString)
  | String c s' =>
      if Ascii.eqb c "010" then (true, s')
      else if is_space c then scan_line_end s' else (false, s')
  end.

(** The word of a line with exactly one, or [None] for an error; the input left. *)
Definition Scanln (stdin : string) : option string * string :=
  match skip_space stdin with
  | inr rest => (None, rest)
  | inl s => let '(word, rest) := scan_word s in
             let '(ended, rest) := scan_line_end rest in
             (if ended then Some word else None, rest)
  end.

Definition nl_byte : ascii := "010".
Definition line (s : string) : string := s +:+ String nl_byte "".

Example Scanln_word : Scanln (line "  one " +:+ line "two") = (Some "one", line "two").
Proof. reflexivity. Qed.
Example Scanln_two_words : Scanln (line "one two" +:+ line "three") = (None, line "wo" +:+ line "three").
Proof. reflexivity. Qed.
Example Scanln_blank : Scanln (line "" +:+ line "two") = (None, line "two").
Proof. reflexivity. Qed.

(** ** Prompts *)

Section prompts.
  Context {hs : HostSyntax}.

(** The loop of [promptPolicies]. *)
Fixpoint prompt_policies (fuel : nat) (stdin : string) (policies : list PolicyEntry) (seenURLs : gset string)
    : option (list PolicyEntry * string) :=
  match fuel with
  | O => None
  | S fuel' =>
      match Scanln stdin with
      | (None, rest) => Some (policies, rest)
      | (Some word, rest) =>
          let url := trim_space word in
          if bool_decide (url = "") then Some (policies, rest)
          else if bool_decide (is_Some (ValidateOCIRef url)) then prompt_policies fuel' rest policies seenURLs
          else if bool_decide (url ∈ seenURLs) then prompt_policies fuel' rest policies seenURLs
          else
            let '(id, rest) := Scanln rest in
            let entry := MkPolicyEntry url (trim_space (default "" id)) None false in
            prompt_policies fuel' rest (policies ++ [entry]) ({[url]} ∪ seenURLs)
      end
  end.

(** A round of the loop consumes a byte of the input. *)
Definition promptPolicies (stdin : string) : option (list PolicyEntry * string) :=
  prompt_policies (S (String.length stdin)) stdin [] ∅.

(** The non-blank parts of a comma-separated list. *)
Definition comma_list (s : string) : list string :=
  filter (fun p => p <> "") (trim_space <$> str_split s ",").

Definition target_policies (effectiveIDs : list string) (policyInput : string) : list string :=
  if bool_decide (policyInput = "") then effectiveIDs else comma_list policyInput.

Fixpoint prompt_targets (effectiveIDs : list string) (ids : list string) (stdin : string)
    : list TargetConfig * string :=
  match ids with
  | [] => ([], stdin)
  | targetID :: rest =>
      let '(policyInput, stdin) := Scanln stdin in
      let '(targets, stdin) := prompt_targets effectiveIDs rest stdin in
      (MkTargetConfig targetID (target_policies effectiveIDs (default "" policyInput)) ∅ :: targets, stdin)
  end.

Definition promptTargets (policies : list PolicyEntry) (stdin : string) : list TargetConfig * string :=
  match Scanln stdin with
  | (None, rest) => ([], rest)
  | (Some input, rest) => prompt_targets (EffectiveID <$> policies) (comma_list input) rest
  end.

(** ** The command *)

Definition emptyConfigTemplate : string := "# complytime.yaml - workspace configuration
# See: docs/QUICK_START.md, man complyctl, or complyctl init --help
#
# policies — OCI references to Gemara policy bundles (required, at least one)
#   policies:
#     - url: registry.example.com/policies/my-policy:v1.0
#       id: my-policy    # optional; auto-derived from URL path if omitted
#
# complypacks — provider-specific content bundles (optional)
#   complypacks:
#     - url: registry.example.com/complypacks/my-complypack:v1.0
#       id: my-complypack
#
# targets — systems to evaluate (reference policies by their effective ID)
#   targets:
#     - id: local
#       policies:
#         - my-policy
#       variables:           # provider-specific; run 'complyctl doctor --verbose'
#         profile: my-profile
#         api_token: ${MY_TOKEN}  # ${VAR} expanded from environment
#
# variables — workspace-scoped constants (no ${VAR} expansion)
#   variables:
#     output_dir: /tmp/results
#
# verification — OCI signature verification (optional)
#   verification:
#     issuer: https://token.actions.githubusercontent.com
#     identity: https://github.com/org/repo/.github/workflows/release.yml@refs/tags/*
#   # or keyed: key: /path/to/cosign.pub
policies: []
targets: []
".

Definition writeEmptyConfigTemplate (p : path) : io (result unit) := os_WriteFile p emptyConfigTemplate 384.

Definition create_failed (e : error) : error := Wrapf "failed to create workspace configuration: " e "".

Context {cfgCodec : Codec WorkspaceConfig}.

(** The command in the workspace directory [baseDir]. *)
Definition init_in (baseDir : path) (stdin : string) : io (result unit) :=
  let! ws := NewWorkspace baseDir in
  let workspace := ws.1 in
  let! exists_ := Exists workspace in
  if (exists_ : bool) then io_ret (Err (Errorf (path_text (ws_configPath workspace) +:+ " already exists")))
  else
  do! _ := EnsureDir workspace
    orelse (fun e => Wrapf ("failed to create " +:+ WorkspaceDir +:+ " directory: ") e "") in
  match promptPolicies stdin with
  | None => io_ret (Err (Errorf "promptPolicies: out of fuel"))
  | Some (policies, rest) =>
      if bool_decide (policies = []) then
        do! _ := writeEmptyConfigTemplate (ws_configPath workspace) orelse create_failed in
        io_ret (Ok tt)
      else
        let '(targets, _) := promptTargets policies rest in
        do! _ := Save (SetConfig workspace (MkWorkspaceConfig 0 policies [] targets ∅ None))
          orelse create_failed in
        io_ret (Ok tt)
  end.

Definition init_run (os : goos) (env : environ) (cwd : path) (flag stdin : string) : io (result unit) :=
  do! baseDir := ResolveWorkspaceDir cwd os env flag orelse (fun e => e) in
  init_in baseDir stdin.
End prompts.

(** ** The providers command *)

(** [filepath.Rel] of clean absolute paths: no error is possible. *)
Fixpoint filepath_Rel_segments (base targ : path) : path :=
  match base, targ with
  | x :: base', y :: targ' =>
      if bool_decide (x = y) then filepath_Rel_segments base' targ'
      else ((fun _ => "..") <$> base) ++ targ
  | _, _ => ((fun _ => "..") <$> base) ++ targ
  end.

Definition filepath_Rel (base targ : path) : string :=
  match filepath_Rel_segments base targ with
  | [] => "."
  | l => join "/" l
  end.

Section providers.
  Context {packCodec : Codec PackConfig} {stCodec : Codec State} {launcher : Launcher}.

Definition describeProvider (lp : LoadedProvider) : string * string :=
  match Describe (Client lp) tt with
  | Err _ => ("ERROR", "")
  | Ok resp => if negb (Desc_Healthy resp) then ("unhealthy", "") else ("healthy", Desc_Version resp)
  end.

Definition lookupComplypackVersion (cc : ComplypackCache) (state : option State) (evaluatorID : string)
    : io string :=
  let! r := LookupByEvaluatorID cc state evaluatorID in
  io_ret (match r with
          | Ok (Some (_, cfg)) => if bool_decide (Pack_Version cfg = "") then "none" else Pack_Version cfg
          | _ => "none"
          end).

(** PROVIDER ID, PATH, STATUS, VERSION and COMPLYPACK. *)
Fixpoint buildProviderRows (providers : list LoadedProvider) (providerDir : path) (cc : ComplypackCache)
    (state : option State) : io (list (list string)) :=
  match providers with
  | [] => io_ret []
  | lp :: rest =>
      let '(status, version) := describeProvider lp in
      let relPath := filepath_Rel providerDir (ExecutablePath (Info lp)) in
      let! packVersion := lookupComplypackVersion cc state (PI_EvaluatorID (Info lp)) in
      let! rows := buildProviderRows rest providerDir cc state in
      io_ret ([PI_EvaluatorID (Info lp); relPath; status; version; packVersion] :: rows)
  end.

Definition providers_directories (os : goos) (env : environ) : result (path * path * path) :=
  try providerDir := ResolveProviderDir os env
    orelse (fun e => Wrapf "failed to resolve provider directory: " e "") in
  try cacheDir := ResolveCacheDir os env
    orelse (fun e => Wrapf "failed to resolve cache directory: " e "") in
  try dataDir := ResolveDataDir os env
    orelse (fun e => Wrapf "failed to resolve data directory: " e "") in
  Ok (providerDir, cacheDir, dataDir).

(** The table; no rows when no provider is found. *)
Definition providers_in (providerDir cacheDir dataDir : path) : io (result (list (list string))) := fun w =>
  let sysDir := ResolveSystemProviderDir (w_env w) in
  (let! r := LoadProviders providerDir (path_join [] sysDir) ∅ in
   match r with
   | (Err e, _) => io_ret (Err (Wrapf "provider discovery failed: " e ""))
   | (Ok _, m) =>
       match ListProviders m with
       | [] => io_ret (Ok [])
       | providers =>
           let! st := LoadState dataDir in
           let cacheState := match st with Ok s => Some s | Err _ => None end in
           let! rows := buildProviderRows providers providerDir
                          (NewComplypackCache cacheDir (w_env w)) cacheState in
           io_ret (Ok rows)
       end
   end) w.

Definition providers_run (os : goos) (env : environ) : io (result (list (list string))) :=
  match providers_directories os env with
  | Err e => io_ret (Err e)
  | Ok (providerDir, cacheDir, dataDir) => providers_in providerDir cacheDir dataDir
  end.
End providers.

(** ** What is read *)

(** A word: what a line can hold. *)
Definition word (w : string) : Prop := w <> "" /\ str_exists is_space w = false.

Lemma scan_word_app w rest :
  str_exists is_space w = false -> (rest = "" \/ exists c r, rest = String c r /\ is_space c = true) ->
  scan_word (w +:+ rest) = (w, rest).
Proof.
  intros Hw Hr. induction w as [|c w IH]; cbn in *.
  - destruct Hr as [->|(c & r & -> & Hc)]; cbn; [done|by rewrite Hc].
  - apply orb_false_iff in Hw as [Hc Hw]. by rewrite Hc, IH.
Qed.

Lemma Scanln_line w rest : word w -> Scanln (line w +:+ rest) = (Some w, rest).
Proof.
  intros [Hne Hw]. unfold Scanln, line. rewrite append_assoc.
  assert (skip_space (w +:+ String nl_byte "" +:+ rest) = inl (w +:+ String nl_byte "" +:+ rest)) as ->.
  { destruct w as [|c w]; [done|]. cbn [str_exists] in Hw. apply orb_false_iff in Hw as [Hc _].
    change (String c w +:+ String nl_byte "" +:+ rest) with (String c (w +:+ String nl_byte "" +:+ rest)).
    cbn [skip_space]. destruct (Ascii.eqb_spec c "010") as [->|_]; [done|by rewrite Hc]. }
  rewrite scan_word_app; [done|done|]. right. by eexists nl_byte, _.
Qed.

Lemma Scanln_empty_line rest : Scanln (line "" +:+ rest) = (None, rest).
Proof. done. Qed.

Lemma word_trimmed w : word w -> trim_space w = w.
Proof.
  intros [_ Hw]. unfold trim_space.
  assert (trim_left_space w = w) as ->.
  { destruct w as [|c w]; [done|]. cbn in *. apply orb_false_iff in Hw as [-> _]. done. }
  induction w as [|c w IH]; [done|]. cbn in *. apply orb_false_iff in Hw as [Hc Hw]. rewrite (IH Hw), Hc.
  by destruct w.
Qed.

(** Reading consumes, and only a word is read. *)
Lemma skip_space_spec s :
  match skip_space s with
  | inl s' => (String.length s' <= String.length s)%nat /\ exists c r, s' = String c r /\ is_space c = false
  | inr rest => (String.length rest <= String.length s)%nat
  end.
Proof.
  induction s as [|c s IH]; cbn [skip_space String.length]; [done|]. destruct (Ascii.eqb c "010"); [cbn; lia|].
  destruct (is_space c) eqn:Hc; [|split; [done|by eexists _, _]].
  destruct (skip_space s); [destruct IH as [? ?]; split; [lia|done]|lia].
Qed.

Lemma scan_word_spec s : let '(w, rest) := scan_word s in
  s = w +:+ rest /\ str_exists is_space w = false.
Proof.
  induction s as [|c s IH]; cbn; [done|]. destruct (is_space c) eqn:Hc; [done|].
  destruct (scan_word s) as [w rest]. destruct IH as [-> Hw]. cbn. by rewrite Hc.
Qed.

Lemma scan_line_end_length s : (String.length (scan_line_end s).2 <= String.length s)%nat.
Proof.
  induction s as [|c s IH]; cbn [scan_line_end String.length]; [done|].
  destruct (Ascii.eqb c "010"); [cbn; lia|]. destruct (is_space c); cbn; lia.
Qed.

Lemma Scanln_spec s : let '(r, rest) := Scanln s in
  (String.length rest <= String.length s)%nat /\
  forall w, r = Some w -> word w /\ (String.length rest < String.length s)%nat.
Proof.
  unfold Scanln. pose proof (skip_space_spec s) as Hs. destruct (skip_space s) as [s'|rest]; [|done].
  destruct Hs as [Hlen (c & r & -> & Hc)]. pose proof (scan_word_spec (String c r)) as Hw.
  destruct (scan_word (String c r)) as [w rest] eqn:E. destruct Hw as [Heq Hw].
  pose proof (scan_line_end_length rest) as Hend. destruct (scan_line_end rest) as [ended rest']. cbn in Hend.
  assert (w <> "") as Hne.
  { cbn in E. rewrite Hc in E. destruct (scan_word r). by injection E as <- _. }
  assert (String.length rest < String.length (String c r))%nat as Hlt.
  { rewrite Heq, length_append. destruct w as [|c' w]; [done|]. cbn [String.length]. lia. }
  split; [lia|]. intros w' Hw'. destruct ended; [|done]. injection Hw' as <-. split; [done|lia].
Qed.

(** ** What the prompts accept *)

Section prompt_facts.
  Context {hs : HostSyntax}.

(** An entry the prompt accepts. *)
Definition prompted (p : PolicyEntry) : Prop :=
  word (PE_URL p) /\ ValidateOCIRef (PE_URL p) = None /\ (PE_ID p = "" \/ word (PE_ID p)) /\
  PE_Verification p = None /\ PE_SkipVerify p = false.

Lemma prompt_policies_spec fuel stdin policies seen :
  (String.length stdin < fuel)%nat -> Forall prompted policies -> NoDup (PE_URL <$> policies) ->
  (forall u, u ∈ seen <-> u ∈ PE_URL <$> policies) ->
  exists ps rest, prompt_policies fuel stdin policies seen = Some (policies ++ ps, rest) /\
    Forall prompted (policies ++ ps) /\ NoDup (PE_URL <$> (policies ++ ps)).
Proof.
  revert stdin policies seen. induction fuel as [|fuel IH]; intros stdin policies seen Hf Hp Hnd Hseen; [lia|].
  cbn [prompt_policies]. pose proof (Scanln_spec stdin) as Hs. destruct (Scanln stdin) as [[w|] rest].
  2:{ exists [], rest. rewrite app_nil_r. by split_and!. }
  destruct Hs as [_ Hs]. destruct (Hs w eq_refl) as [Hw Hlt]. cbv zeta. rewrite (word_trimmed w Hw).
  rewrite bool_decide_eq_false_2 by apply Hw.
  case_bool_decide as Hv; [apply IH; [lia|done..]|]. case_bool_decide as Hin; [apply IH; [lia|done..]|].
  pose proof (Scanln_spec rest) as Hs'. destruct (Scanln rest) as [id rest'] eqn:E. destruct Hs' as [Hlen Hid].
  set (entry := MkPolicyEntry w (trim_space (default "" id)) None false).
  destruct (IH rest' (policies ++ [entry]) ({[w]} ∪ seen)) as (ps & r & Hr & Hall & Hnd').
  - lia.
  - apply Forall_app. split; [done|]. apply Forall_singleton. split_and!; [done| | |done|done].
    + by apply eq_None_not_Some.
    + destruct id as [id|]; [|by left]. destruct (Hid id eq_refl) as [Hword _]. right.
      change (word (trim_space id)). by rewrite (word_trimmed _ Hword).
  - rewrite fmap_app. apply NoDup_app. split_and!; [done| |apply NoDup_singleton]. intros u Hu.
    intros ->%list_elem_of_singleton. by apply Hin, Hseen.
  - intros u. rewrite fmap_app, elem_of_app, elem_of_union, Hseen. cbn. set_solver.
  - exists (entry :: ps), r. rewrite <-app_assoc in *. done.
Qed.

(** the policy prompt ends on every input, and what it collects is fit.
    Whatever the user types, the loop ends after at most one round per byte, and
    the entries it answers are valid references, each once, with an identifier
    of one word or none. *)
Theorem promptPolicies_total stdin :
  exists ps rest, promptPolicies stdin = Some (ps, rest) /\
    NoDup (PE_URL <$> ps) /\ Forall prompted ps.
Proof.
  destruct (prompt_policies_spec (S (String.length stdin)) stdin [] ∅) as (ps & rest & H & Hall & Hnd);
    [lia|done|constructor|set_solver|]. by exists ps, rest.
Qed.

(** What the user types for an entry, and to end the list. *)
Definition typed (ps : list PolicyEntry) : string :=
  fold_right (fun p s => line (PE_URL p) +:+ line (PE_ID p) +:+ s) (line "") ps.

Lemma prompt_policies_typed ps fuel policies seen rest :
  (length ps < fuel)%nat -> Forall prompted ps -> NoDup (PE_URL <$> ps) ->
  (forall u, u ∈ seen -> u ∉ PE_URL <$> ps) ->
  prompt_policies fuel (typed ps +:+ rest) policies seen = Some (policies ++ ps, rest).
Proof.
  revert fuel policies seen. induction ps as [|p ps IH]; intros fuel policies seen Hf Hp Hnd Hseen;
    (destruct fuel as [|fuel]; [cbn in Hf; lia|]).
  { cbn. by rewrite app_nil_r. }
  apply Forall_cons in Hp as [(Hw & Hv & Hid & Hver & Hskip) Hp]. apply NoDup_cons in Hnd as [Hnotin Hnd].
  cbn [typed fold_right prompt_policies]. rewrite !append_assoc, (Scanln_line _ _ Hw). cbv zeta.
  rewrite (word_trimmed _ Hw), bool_decide_eq_false_2 by apply Hw. rewrite Hv, bool_decide_eq_false_2 by by intros [].
  rewrite bool_decide_eq_false_2 by (intros Hin; apply (Hseen _ Hin); by left).
  assert (exists r, Scanln (line (PE_ID p) +:+ typed ps +:+ rest) = (r, typed ps +:+ rest) /\
    trim_space (default "" r) = PE_ID p) as (r & Hr & Ht).
  { destruct Hid as [->|Hid]; [by exists None|]. exists (Some (PE_ID p)). split; [by apply Scanln_line|].
    by apply word_trimmed. }
  fold (typed ps). rewrite Hr, Ht. rewrite IH; [|cbn in Hf; lia|done|done|].
  - rewrite <-app_assoc. destruct p; cbn in *. by subst.
  - intros u [->%elem_of_singleton|Hu]%elem_of_union; [done|]. intros Hin. apply (Hseen u Hu). by right.
Qed.

(** typed entries are recorded.  Entries of distinct valid references, typed
    one per line with their identifiers or a blank line, and a blank line to
    end, are what the prompt answers, in order; the rest of the input is left
    for the next prompt. *)
Theorem promptPolicies_session ps rest :
  Forall prompted ps -> NoDup (PE_URL <$> ps) -> promptPolicies (typed ps +:+ rest) = Some (ps, rest).
Proof.
  intros Hp Hnd. unfold promptPolicies. rewrite prompt_policies_typed; [done| |done|done|].
  - enough (length ps <= String.length (typed ps))%nat by (rewrite length_append; lia). clear Hnd.
    induction Hp as [|p ps [[Hne _] _] _ IH]; cbn [typed fold_right length]; [lia|]. fold (typed ps).
    unfold line. rewrite !length_append. destruct (PE_URL p); [done|]. cbn [String.length]. lia.
  - intros u Hu. by apply elem_of_empty in Hu.
Qed.
End prompt_facts.

(** ** What init writes *)

Lemma os_Stat_run p w : no_faults w ->
  exists w', os_Stat p w = (match get p (w_fs w) with Some x => Ok x | None => not_exist end, w') /\
    w_fs w' = w_fs w /\ no_faults w'.
Proof.
  intros Hf. unfold os_Stat, os_call. rewrite (Hf _). destruct (get p (w_fs w)); eexists; split; done.
Qed.

Section init_facts.
  Context {hs : HostSyntax} {cfgCodec : Codec WorkspaceConfig}.

Definition new_config (base : path) : path := base ++ [WorkspaceDir; WorkspaceConfigFile].
Definition legacy_config (base : path) : path := base ++ [WorkspaceConfigFile].

Lemma init_open base w : no_faults w ->
  exists ws b w', NewWorkspace base w = ((ws, b), w') /\ w_fs w' = w_fs w /\ no_faults w' /\
  match get (new_config base) (w_fs w), get (legacy_config base) (w_fs w) with
  | None, None => ws = MkWorkspace base (new_config base) None
  | _, _ => is_Some (get (ws_configPath ws) (w_fs w))
  end.
Proof.
  intros Hf. unfold NewWorkspace, DetectConfigPath. fold (new_config base) (legacy_config base).
  unfold io_bind, io_ret. destruct (os_Stat_run (new_config base) w Hf) as (w1 & -> & Hfs & Hf1).
  destruct (get (new_config base) (w_fs w)) as [x|] eqn:En.
  { exists (MkWorkspace base (new_config base) None), false, w1. cbn [ws_configPath]. by rewrite En. }
  cbn. destruct (os_Stat_run (legacy_config base) w1 Hf1) as (w2 & -> & Hfs2 & Hf2). rewrite Hfs.
  destruct (get (legacy_config base) (w_fs w)) as [x|] eqn:El; cbn.
  - exists (MkWorkspace base (legacy_config base) None), true, w2. split_and!; [done|congruence|done|].
    cbn [ws_configPath]. by rewrite El.
  - eexists _, _, w2. split_and!; [done|congruence|done|done].
Qed.

(** The contents of the new configuration. *)
Definition initial_config (stdin : string) (data : string) : Prop :=
  exists ps rest, promptPolicies stdin = Some (ps, rest) /\
  if bool_decide (ps = []) then data = emptyConfigTemplate
  else marshal (MkWorkspaceConfig 0 ps [] (promptTargets ps rest).1 ∅ None) = Ok data.

(** Writing the file, the last step. *)
Lemma init_write_run base stdin w r w' :
  match promptPolicies stdin with
  | None => io_ret (Err (Errorf "promptPolicies: out of fuel"))
  | Some (policies, rest) =>
      if bool_decide (policies = []) then
        do! _ := writeEmptyConfigTemplate (new_config base) orelse create_failed in
        io_ret (Ok tt)
      else
        let '(targets, _) := promptTargets policies rest in
        do! _ := Save (SetConfig (MkWorkspace base (new_config base) None)
                         (MkWorkspaceConfig 0 policies [] targets ∅ None)) orelse create_failed in
        io_ret (Ok tt)
  end w = (r, w') ->
  r = Ok tt -> exists data perm, get (new_config base) (w_fs w') = Some (File data perm) /\
    (get (new_config base) (w_fs w) = None -> perm = 384%Z) /\ initial_config stdin data.
Proof.
  unfold initial_config. destruct (promptPolicies stdin) as [[ps rest]|]; [|by intros [= <- _]].
  assert (new_config base = (base ++ [WorkspaceDir]) ++ [WorkspaceConfigFile]) as Hp by by rewrite <-app_assoc.
  case_bool_decide as Hn.
  - unfold writeEmptyConfigTemplate, io_try, io_bind, io_ret.
    destruct (os_WriteFile _ _ _ w) as [[[]|e] w1] eqn:E; intros [= <- <-] Hr; [|done].
    rewrite Hp in E. apply os_WriteFile_ok in E as (perm & Hg & Hperm). rewrite Hp. exists emptyConfigTemplate, perm.
    split_and!; [done|done|]. exists ps, rest. by rewrite bool_decide_eq_true_2.
  - destruct (promptTargets ps rest) as [targets rest'] eqn:Et.
    unfold Save, SetConfig, SaveTo, io_try, io_bind, io_lift, io_ret. cbn [ws_config ws_configPath ws_baseDir].
    destruct (marshal _) as [data|e] eqn:Em; [|by intros [= <- <-] Hr].
    destruct (os_WriteFile _ _ _ w) as [[[]|e] w1] eqn:E; intros [= <- <-] Hr; [|done].
    rewrite Hp in E. apply os_WriteFile_ok in E as (perm & Hg & Hperm). rewrite Hp. exists data, perm.
    split_and!; [done|done|]. exists ps, rest. rewrite bool_decide_eq_false_2, Et by done. done.
Qed.


End init_facts.

(** ** The provider table *)

(** A component of a clean path. *)
Definition clean_segment (s : string) : Prop :=
  s <> "" /\ s <> "." /\ s <> ".." /\ contains_byte s "/" = false.

Lemma split_join (l : list string) :
  l <> [] -> Forall (fun s => contains_byte s "/" = false) l -> str_split (join "/" l) "/" = l.
Proof.
  intros Hne Hl. induction Hl as [|s l Hs Hl IH]; [done|]. destruct l as [|t l]; [by apply split_no|].
  change (join "/" (s :: t :: l)) with (s +:+ String "/" (join "/" (t :: l))).
  clear Hne. rewrite <-(IH ltac:(done)) at 2. clear IH Hl. revert Hs.
  generalize (join "/" (t :: l)) as r. intros r. induction s as [|c s IHs]; intros Hs; [done|].
  unfold contains_byte in Hs. cbn [str_exists] in Hs. apply orb_false_iff in Hs as [Hc Hs]. change (String c s +:+ String "/" r) with (String c (s +:+ String "/" r)).
  cbn [str_split]. rewrite Ascii.eqb_sym in Hc. rewrite Hc. by rewrite (IHs Hs).
Qed.

Lemma push_up base l : fold_left path_push ((fun _ => "..") <$> l) (base ++ l) = base.
Proof.
  induction l as [|x l IH] using rev_ind; [by rewrite app_nil_r|].
  rewrite fmap_app, app_assoc. cbn [fmap list_fmap].
  assert (forall k (b : path), fold_left path_push (((fun _ : string => "..") <$> k) ++ [".."]) b =
            fold_left path_push (".." :: ((fun _ : string => "..") <$> k)) b) as ->.
  { clear. intros k. induction k as [|y k IH]; intros b; [done|]. apply IH. }
  cbn [fold_left]. change (path_push ((base ++ l) ++ [x]) "..") with (removelast ((base ++ l) ++ [x])).
  by rewrite removelast_last.
Qed.

Lemma push_clean base l : Forall clean_segment l -> fold_left path_push l base = base ++ l.
Proof.
  intros Hl. revert base. induction Hl as [|s l (H1 & H2 & H3 & _) _ IH]; intros base; cbn; [by rewrite app_nil_r|].
  unfold path_push at 2. rewrite !bool_decide_eq_false_2 by done. cbn. by rewrite IH, <-app_assoc.
Qed.

Lemma Rel_segments pre base targ :
  Forall clean_segment targ ->
  fold_left path_push (filepath_Rel_segments base targ) (pre ++ base) = pre ++ targ.
Proof.
  revert pre targ. induction base as [|x base IH]; intros pre targ Ht.
  { rewrite app_nil_r. by apply push_clean. }
  destruct targ as [|y targ]; [cbn [filepath_Rel_segments]; by rewrite !app_nil_r, push_up|].
  cbn [filepath_Rel_segments]. case_bool_decide as Hxy.
  - subst. inversion_clear Ht. rewrite (cons_middle y pre base), (cons_middle y pre targ), !app_assoc.
    by apply IH.
  - by rewrite fold_left_app, push_up, push_clean.
Qed.

(** The relative path leads from the directory to the file. *)
Lemma path_join_Rel base targ :
  Forall clean_segment base -> Forall clean_segment targ -> path_join base (filepath_Rel base targ) = targ.
Proof.
  intros Hb Ht. pose proof (Rel_segments [] base targ Ht) as H. cbn in H.
  unfold path_join, filepath_Rel. destruct (filepath_Rel_segments base targ) as [|s l] eqn:E; [exact H|].
  rewrite split_join; [exact H|done|]. rewrite <-E. clear E H. revert targ Ht.
  induction Hb as [|x base _ _ IH]; intros targ Ht.
  { cbn. eapply Forall_impl; [exact Ht|]. by intros t (_ & _ & _ & ?). }
  assert (Forall (fun s => contains_byte s "/" = false) targ) as Ht'
    by (eapply Forall_impl; [exact Ht|]; by intros t (_ & _ & _ & ?)).
  assert (forall k : path, Forall (fun s => contains_byte s "/" = false) ((fun _ => "..") <$> k)) as Hup
    by (intros k; apply Forall_fmap, Forall_forall; done).
  destruct targ as [|y targ]; cbn [filepath_Rel_segments]; [apply Forall_app; by split|].
  case_bool_decide; [|apply Forall_app; by split]. inversion_clear Ht. by apply IH.
Qed.

Section rows.
  Context {packCodec : Codec PackConfig}.

(** One row of the table. *)
Definition row_of (providerDir : path) (cc : ComplypackCache) (state : option State)
    (lp : LoadedProvider) (row : list string) : Prop :=
  exists rel status version pack, row = [PI_EvaluatorID (Info lp); rel; status; version; pack] /\
    path_join providerDir rel = ExecutablePath (Info lp) /\
    (status = "healthy" <-> exists d, Describe (Client lp) tt = Ok d /\ Desc_Healthy d = true) /\
    (pack <> "none" -> exists w dir cfg w',
       LookupByEvaluatorID cc state (PI_EvaluatorID (Info lp)) w = (Ok (Some (dir, cfg)), w') /\ pack = Pack_Version cfg).

(** the provider table is faithful.  It has one row per provider, in order; the
    path shown leads from the provider directory to the executable; a provider
    is shown healthy exactly if it describes itself so; a complypack version is
    that of a complypack found for the provider. *)
Theorem provider_rows_faithful providers providerDir cc state w :
  Forall clean_segment providerDir ->
  Forall (fun lp => Forall clean_segment (ExecutablePath (Info lp))) providers ->
  Forall2 (row_of providerDir cc state) providers (buildProviderRows providers providerDir cc state w).1.
Proof.
  intros Hd Hall. revert w. induction Hall as [|lp rest Hlp _ IH]; intros w; cbn [buildProviderRows]; [constructor|].
  destruct (describeProvider lp) as [status version] eqn:Es. unfold io_bind, io_ret.
  unfold lookupComplypackVersion, io_bind, io_ret.
  destruct (LookupByEvaluatorID cc state _ w) as [r w1] eqn:El. specialize (IH w1).
  destruct (buildProviderRows rest providerDir cc state w1) as [rows w2]. constructor; [|exact IH].
  eexists _, status, version, _. split; [done|]. split; [by apply path_join_Rel|]. split.
  - unfold describeProvider in Es. destruct (Describe (Client lp) tt) as [d|e].
    + destruct (Desc_Healthy d) eqn:Eh; cbn in Es; injection Es as <- <-; split; [by exists d|done|done|].
      intros (d' & [= <-] & Hh). congruence.
    + injection Es as <- <-. split; [done|]. by intros (d & ? & _).
  - destruct r as [[[dir cfg]|]|e]; [|done..]. case_bool_decide; [done|]. intros _. by exists w, dir, cfg, w1.
Qed.
End rows.
