(* ===== verification/MockSource.v ===== *)
(** * The sources of the tests (internal/cache/cachetest/mock_source.go)

    Two policy sources in memory, written against the interface synchronisation uses
    ([Source]): one copies a small manifest it makes, the other a bundle.  A source is
    state; only seeding and a lookup change it.  The OCI store they push to
    ([OciStore]) and [bundle.Pack] are libraries, as is the table of printable runes
    ([Unicode]) that quoting asks; locks are not modelled. *)
From stdpp Require Import gmap.
From S2P Require Import Prelude GoStrings Encoding Sha256 Digest Terminal OciRef World State Complypack Sync.
From S2P Require Import Resolver.

(** ** Quoting: [%q] *)

Class Unicode := IsPrint : Z -> bool.

Section quote.
  Context {unicode : Unicode}.

Definition hex2 (n : Z) : string := String (hex_digit (n / 16 mod 16)) (String (hex_digit (n mod 16)) "").
Definition hex4 (n : Z) : string := hex2 (n / 256) +:+ hex2 (n mod 256).
Definition hex8 (n : Z) : string := hex4 (n / 65536) +:+ hex4 (n mod 65536).

(** The rune of its bytes, of which there are two or more. *)
Definition rune_value (s : string) : Z :=
  match s with
  | String a (String b EmptyString) => byte_val a mod 32 * 64 + byte_val b mod 64
  | String a (String b (String c EmptyString)) =>
      byte_val a mod 16 * 4096 + byte_val b mod 64 * 64 + byte_val c mod 64
  | String a (String b (String c (String d EmptyString))) =>
      byte_val a mod 8 * 262144 + byte_val b mod 64 * 4096 + byte_val c mod 64 * 64 + byte_val d mod 64
  | _ => 65533
  end%Z.

Definition backslash : string := String "092" "".

Definition quote_byte (c : ascii) : string :=
  let n := byte_val c in
  if (n =? 34)%Z || (n =? 92)%Z then backslash +:+ String c ""
  else if (32 <=? n)%Z && (n <=? 126)%Z then String c ""
  else match n with
       | 7 => backslash +:+ "a"
       | 8 => backslash +:+ "b"
       | 9 => backslash +:+ "t"
       | 10 => backslash +:+ "n"
       | 11 => backslash +:+ "v"
       | 12 => backslash +:+ "f"
       | 13 => backslash +:+ "r"
       | _ => backslash +:+ "x" +:+ hex2 n
       end%Z.

Definition quote_rune (s : string) : string :=
  let r := rune_value s in
  if IsPrint r then s
  else if (r <? 65536)%Z then backslash +:+ "u" +:+ hex4 r
  else backslash +:+ "U" +:+ hex8 r.

(** [skip] bytes belong to a rune that is written already. *)
Fixpoint quote_from (skip : nat) (s : string) : string :=
  match s with
  | EmptyString => EmptyString
  | String c s' =>
      match skip with
      | S k => quote_from k s'
      | O => (if (rune_len s =? 1)%nat then quote_byte c else quote_rune (String.substring 0 (rune_len s) s)) +:+
             quote_from (pred (rune_len s)) s'
      end
  end.
Definition quote_mark : string := String "034" "".
Definition Quote (s : string) : string := quote_mark +:+ quote_from 0 s +:+ quote_mark.
End quote.

(** ** The store that is pushed to *)

(** [ocispec.Descriptor], as the sources fill it. *)
Record PushDescriptor := MkPushDescriptor {
  PD_MediaType : string; PD_Digest : string; PD_Size : Z; PD_Annotations : gmap string string }.

Record ImageManifest := MkImageManifest {
  IM_MediaType : string; IM_Config : PushDescriptor; IM_Layers : list PushDescriptor }.

(** A bundle to be packed: its versions and its files ([Resolver.Bundle] is what is
    unpacked). *)
Record PackBundle := MkPackBundle {
  PB_BundleVersion : string; PB_GemaraVersion : string; PB_Source : BundleFile; PB_Imports : list BundleFile }.

Class OciStore := {
  store_Push : path -> PushDescriptor -> string -> io (result unit);
  store_Tag : path -> PushDescriptor -> string -> io (result unit);
  bundle_Pack : path -> PackBundle -> io (result PushDescriptor);
}.

(** What content a store holds and what its tags name, in a file system. *)
Class OciStoreLaws `{OciStore} := {
  stored : path -> string -> node -> Prop;
  tagged : path -> string -> string -> node -> Prop;
  Push_stores p d data w : forall r w', store_Push p d data w = (r, w') ->
    match r with Ok _ => True | Err e => error_is e ErrAlreadyExists = true end -> stored p (PD_Digest d) (w_fs w');
  Push_keeps p d data w x : stored p x (w_fs w) -> stored p x (w_fs (store_Push p d data w).2);
  Tag_tags p d t w w' : store_Tag p d t w = (Ok tt, w') -> tagged p t (PD_Digest d) (w_fs w');
  Tag_keeps p d t w x : stored p x (w_fs w) -> stored p x (w_fs (store_Tag p d t w).2);
}.

Definition isDuplicateErr (e : error) : bool := error_is e ErrAlreadyExists.

Definition MediaTypeEmptyJSON : string := "application/vnd.oci.empty.v1+json".
Definition MediaTypeImageManifest : string := "application/vnd.oci.image.manifest.v1+json".
Definition AnnotationTitle : string := "org.opencontainers.image.title".

(** ** The sources *)

Record mockPolicyData := MkMockPolicyData { mpd_digest : string; mpd_version : string }.

Record MockPolicySource := MkMockPolicySource {
  mp_policies : gmap string mockPolicyData;
  mp_errors : gmap string error;
  LastLookupRef : string;
}.
Definition NewMockPolicySource : MockPolicySource := MkMockPolicySource ∅ ∅ "".

Definition SetError (m : MockPolicySource) (policyID : string) (err : error) : MockPolicySource :=
  MkMockPolicySource (mp_policies m) (<[policyID := err]> (mp_errors m)) (LastLookupRef m).

Definition SeedPolicy (m : MockPolicySource) (policyID version digestStr : string) : MockPolicySource :=
  let data := MkMockPolicyData digestStr version in
  MkMockPolicySource (<[policyID +:+ ":" +:+ version := data]> (<[policyID := data]> (mp_policies m)))
    (mp_errors m) (LastLookupRef m).

Definition unknown_policy (ref : string) : error := Wrapf ("policy " +:+ ref +:+ ": ") (Sentinel ErrVersionNotFound) "".

(** The lookup of both sources. *)
Definition lookup_policy (policies : gmap string mockPolicyData) (ref : string) : result (string * string) :=
  match policies !! ref with
  | Some p => Ok (mpd_digest p, mpd_version p)
  | None => Err (unknown_policy ref)
  end.

Definition mp_DefinitionVersion (m : MockPolicySource) (lookupRef : string)
    : result (string * string) * MockPolicySource :=
  (match mp_errors m !! lookupRef with
   | Some injected => Err injected
   | None => lookup_policy (mp_policies m) lookupRef
   end,
   MkMockPolicySource (mp_policies m) (mp_errors m) lookupRef).

Record MockBundlePolicySource := MkMockBundlePolicySource {
  mb_policies : gmap string mockPolicyData;
  mb_bundles : gmap string PackBundle;
}.
Definition NewMockBundlePolicySource : MockBundlePolicySource := MkMockBundlePolicySource ∅ ∅.

(** A missing source is the zero file. *)
Definition SeedBundlePolicy (m : MockBundlePolicySource) (policyID version digestStr : string)
    (files : list BundleFile) : MockBundlePolicySource :=
  MkMockBundlePolicySource (<[policyID := MkMockPolicyData digestStr version]> (mb_policies m))
    (<[policyID := MkPackBundle "1" "v1.0.0" (default (MkBundleFile "" "" "") (head files)) (tail files)]> (mb_bundles m)).

Definition mb_DefinitionVersion (m : MockBundlePolicySource) (lookupRef : string) : result (string * string) :=
  lookup_policy (mb_policies m) lookupRef.

Section copies.
  Context `{OciStore} {unicode : Unicode} {manifestJSON : Codec ImageManifest}.

Definition push_descriptor (mediaType data : string) (annotations : gmap string string) : PushDescriptor :=
  MkPushDescriptor mediaType (digest_text data) (Z.of_nat (String.length data)) annotations.

Definition push_content (dst : path) (desc : PushDescriptor) (data what : string) : io (result unit) :=
  let! r := store_Push dst desc data in
  io_ret (match r with
          | Err e => if isDuplicateErr e then Ok tt else Err (Wrapf ("failed to push " +:+ what +:+ ": ") e "")
          | Ok _ => Ok tt
          end).

Definition configData : string := "{}".
Definition configDesc : PushDescriptor := push_descriptor MediaTypeEmptyJSON configData ∅.
Definition layerData (policyID : string) : string :=
  "{" +:+ quote_mark +:+ "policy_id" +:+ quote_mark +:+ ": " +:+ Quote policyID +:+ ", " +:+
  quote_mark +:+ "type" +:+ quote_mark +:+ ": " +:+ quote_mark +:+ "test-layer" +:+ quote_mark +:+ "}".
Definition layerDesc (policyID : string) : PushDescriptor :=
  push_descriptor "application/vnd.gemara.policy.v1+yaml" (layerData policyID) {[AnnotationTitle := "policies"]}.
Definition mock_manifest (policyID : string) : ImageManifest :=
  MkImageManifest MediaTypeImageManifest configDesc [layerDesc policyID].

Definition mp_CopyPolicy (m : MockPolicySource) (policyID tag : string) (dst : path) : io (result PushDescriptor) :=
  match mp_policies m !! policyID with
  | None => io_ret (Err (unknown_policy policyID))
  | Some _ =>
      do! _ := push_content dst configDesc configData "complytime" orelse (fun e => e) in
      do! _ := push_content dst (layerDesc policyID) (layerData policyID) "layer" orelse (fun e => e) in
      do! manifestData := io_lift (marshal (mock_manifest policyID))
        orelse (fun e => Wrapf "failed to marshal manifest: " e "") in
      let manifestDesc := push_descriptor MediaTypeImageManifest manifestData ∅ in
      do! _ := push_content dst manifestDesc manifestData "manifest" orelse (fun e => e) in
      do! _ := store_Tag dst manifestDesc tag orelse (fun e => Wrapf "failed to tag manifest: " e "") in
      io_ret (Ok manifestDesc)
  end.

Definition mb_CopyPolicy (m : MockBundlePolicySource) (policyID tag : string) (dst : path)
    : io (result PushDescriptor) :=
  match mb_bundles m !! policyID with
  | None => io_ret (Err (Errorf ("bundle policy " +:+ policyID +:+ " not found in mock")))
  | Some b =>
      do! desc := bundle_Pack dst b orelse (fun e => Wrapf "bundle pack: " e "") in
      do! _ := store_Tag dst desc tag orelse (fun e => Wrapf "failed to tag bundle manifest: " e "") in
      io_ret (Ok desc)
  end.

(** As synchronisation sees them: neither answer depends on the last lookup. *)
Definition descriptor_of (r : result PushDescriptor) : result Descriptor :=
  match r with Ok d => Ok (MkDescriptor (PD_Digest d) "") | Err e => Err e end.

Definition mock_policy_source (m : MockPolicySource) : Source :=
  MkSource (fun ref => io_lift (mp_DefinitionVersion m ref).1)
    (fun id tag dst => let! r := mp_CopyPolicy m id tag dst in io_ret (descriptor_of r)).
Definition mock_bundle_source (m : MockBundlePolicySource) : Source :=
  MkSource (fun ref => io_lift (mb_DefinitionVersion m ref))
    (fun id tag dst => let! r := mb_CopyPolicy m id tag dst in io_ret (descriptor_of r)).
End copies.

Example Quote_mixed : Quote (unicode := fun r => bool_decide (r = 233%Z))
    ("a" +:+ backslash +:+ "é∀" +:+ String "010" (String "195" "")) =
  quote_mark +:+ "a" +:+ backslash +:+ backslash +:+ "é" +:+ backslash +:+ "u2200" +:+ backslash +:+ "n" +:+
  backslash +:+ "xc3" +:+ quote_mark.
Proof. reflexivity. Qed.

(** ** What they do *)

(** A seeded policy answers to its identifier and to its tag, and nothing else is
    answered differently; an injected error comes first. *)
Lemma SeedPolicy_lookup m policyID version digestStr ref :
  (mp_DefinitionVersion (SeedPolicy m policyID version digestStr) ref).1 =
  if decide (mp_errors m !! ref = None /\ (ref = policyID \/ ref = policyID +:+ ":" +:+ version))
  then Ok (digestStr, version) else (mp_DefinitionVersion m ref).1.
Proof.
  unfold mp_DefinitionVersion, SeedPolicy, lookup_policy. cbn.
  destruct (mp_errors m !! ref) as [e|]; [by rewrite decide_False by naive_solver|].
  case_decide as Hr.
  - destruct (decide (ref = policyID +:+ ":" +:+ version)) as [->|Hne]; [by rewrite lookup_insert_eq|].
    rewrite lookup_insert_ne by done. destruct Hr as [_ [->|?]]; [by rewrite lookup_insert_eq|done].
  - by rewrite !lookup_insert_ne by naive_solver.
Qed.

Section publish.
  Context `{OciStoreLaws} {unicode : Unicode} {manifestJSON : Codec ImageManifest}.

Lemma push_content_ok dst desc data what w w' :
  push_content dst desc data what w = (Ok tt, w') ->
  stored dst (PD_Digest desc) (w_fs w') /\ (forall x, stored dst x (w_fs w) -> stored dst x (w_fs w')).
Proof.
  unfold push_content, io_bind, io_ret.
  pose proof (fun x => Push_keeps dst desc data w x) as Hk. destruct (store_Push dst desc data w) as [r w1] eqn:E.
  intros [= Hr <-]. split; [|done]. eapply Push_stores; [exact E|]. destruct r as [|e]; [done|].
  unfold isDuplicateErr in Hr. by destruct (error_is e ErrAlreadyExists).
Qed.

(** A copy is published whole.  When the source of manifests reports a
    copied policy, the policy is one of its own, what it reports is the digest of the
    manifest, the tag asked for names that, and the manifest, its configuration and
    its layer are all in the store; contents that were there already are no error. *)
Theorem mock_copy_publishes m policyID tag dst w desc w' :
  mp_CopyPolicy m policyID tag dst w = (Ok desc, w') ->
  is_Some (mp_policies m !! policyID) /\
  exists data, marshal (mock_manifest policyID) = Ok data /\ PD_Digest desc = digest_text data /\
    tagged dst tag (PD_Digest desc) (w_fs w') /\
    forall d, d ∈ desc :: IM_Config (mock_manifest policyID) :: IM_Layers (mock_manifest policyID) ->
      stored dst (PD_Digest d) (w_fs w').
Proof.
  unfold mp_CopyPolicy. destruct (mp_policies m !! policyID); [|done]. intros Hrun. split; [done|].
  unfold io_try, io_bind, io_lift, io_ret in Hrun.
  destruct (push_content dst configDesc _ _ w) as [[[]|?] w1] eqn:E1; [|done].
  destruct (push_content dst (layerDesc policyID) _ _ w1) as [[[]|?] w2] eqn:E2; [|done].
  destruct (marshal (mock_manifest policyID)) as [data|] eqn:Em; [|done].
  destruct (push_content dst _ data _ w2) as [[[]|?] w3] eqn:E3; [|done].
  destruct (store_Tag dst _ tag w3) as [[[]|?] w4] eqn:E4; [|done]. simplify_eq.
  apply push_content_ok in E1 as [H1 K1], E2 as [H2 K2], E3 as [H3 K3].
  exists data. split_and!; [done|done|by eapply Tag_tags|].
  pose proof (Tag_keeps dst (push_descriptor MediaTypeImageManifest data ∅) tag w3) as K4. rewrite E4 in K4. cbn in K4.
  intros d Hd. cbn [mock_manifest IM_Config IM_Layers] in Hd. set_unfold in Hd. naive_solver.
Qed.
End publish.

(** ** Synchronisation from a mock *)

Section sync_mock.
  Context `{Oras} {stCodec : Codec State} `{OciStore} {unicode : Unicode} {manifestJSON : Codec ImageManifest}.

(** What is fetched from a mock is recorded as it was seeded: asked for
    without a version, for the latest one or for its tag, a policy is recorded with
    the digest and the version it was seeded with. *)
Theorem mock_sync_records m s st policyID version digestStr v w st' w' :
  sync_source s = mock_policy_source (SeedPolicy m policyID version digestStr) ->
  v ∈ [""; "latest"; version] -> is_digest version = false ->
  mp_errors m !! policyID = None -> mp_errors m !! (policyID +:+ ":" +:+ version) = None ->
  SyncPolicy s st policyID v w = ((Ok true, st'), w') ->
  exists ps, GetPolicyState st' policyID = Some ps /\ Digest ps = digestStr /\ Version ps = version.
Proof.
  intros Hs Hv Hdg He1 He2 Hrun.
  assert (let '(tag, dg) := classifyVersion v in
    Src_DefinitionVersion (sync_source s) (BuildLookupRef "" policyID tag dg) = io_ret (Ok (digestStr, version))) as Hreg.
  { rewrite classifyVersion_spec. rewrite Hs. cbn [mock_policy_source Src_DefinitionVersion].
    replace (is_digest v) with false by (set_unfold in Hv; by destruct Hv as [->|[->|[->|[]]]]).
    rewrite SeedPolicy_lookup. rewrite decide_True; [done|].
    unfold BuildLookupRef. cbn. destruct (bool_decide (v = "") || bool_decide (v = "latest")) eqn:E; [by split; [|left]|].
    assert (v = version) as ->.
    { apply orb_false_iff in E as [?%bool_decide_eq_false ?%bool_decide_eq_false]. set_unfold in Hv. naive_solver. }
    by split; [|right]. }
  destruct (SyncPolicy_entry _ _ _ _ _ _ _ _ _ Hrun Hreg) as (ps & vr & Hps & (Hver & Hd & _) & _).
  exists ps. split_and!; [done|done|]. rewrite Hver. unfold version_or. set_unfold in Hv.
  destruct (_ || _) eqn:E; [done|].
  apply orb_false_iff in E as [?%bool_decide_eq_false ?%bool_decide_eq_false]. naive_solver.
Qed.
End sync_mock.
