(* ===== verification/MockRegistry.v ===== *)
(** * The registry of the integration tests (cmd/mock-oci-registry/main.go)

    A server of OCI artifacts in memory: its content store, how the store is
    filled from the files built into the binary and from a directory, and the
    handler of requests.  [ResponseWriter] is what a handler has written so far;
    that the server drops the body of an answer to HEAD, cleans the path of a
    request and listens at all is net/http's part.  The files built into the
    binary ([Embed]), the archive format ([Archive]) and JSON are parameters; the
    world has no symbolic links, so the tests for them are not rendered.  Log
    lines are not modelled; [log.Fatalf] is an error. *)
From S2P Require Import Prelude GoStrings Digest World State Config Encoding Sha256 Complypack OciRef.

Open Scope Z_scope.

(** ** Responses (net/http) *)

Record Request := MkRequest { Method : string; URL_Path : string }.
Record ResponseWriter := MkResponseWriter {
  RW_Header : gmap string string;
  RW_Status : option Z;
  RW_Body : string;
}.
Definition no_response : ResponseWriter := MkResponseWriter ∅ None "".

(** [textproto.CanonicalMIMEHeaderKey] of a valid key. *)
Definition to_upper (c : ascii) : ascii := if is_lower c then byte_chr (byte_val c - 32) else c.
Definition to_lower (c : ascii) : ascii := if is_upper c then byte_chr (byte_val c + 32) else c.
Fixpoint canonical_from (upper : bool) (s : string) : string :=
  match s with
  | EmptyString => EmptyString
  | String c s' => String (if upper then to_upper c else to_lower c) (canonical_from (Ascii.eqb c "-") s')
  end.
Definition CanonicalHeaderKey (s : string) : string := canonical_from true s.

(** The header is sent with the status. *)
Definition Header_Set (key value : string) (w : ResponseWriter) : ResponseWriter :=
  match RW_Status w with
  | Some _ => w
  | None => MkResponseWriter (<[CanonicalHeaderKey key := value]> (RW_Header w)) None (RW_Body w)
  end.
Definition Header_Get (key : string) (w : ResponseWriter) : option string :=
  RW_Header w !! CanonicalHeaderKey key.
Definition WriteHeader (status : Z) (w : ResponseWriter) : ResponseWriter :=
  match RW_Status w with
  | Some _ => w
  | None => MkResponseWriter (RW_Header w) (Some status) (RW_Body w)
  end.
Definition Write (data : string) (w : ResponseWriter) : ResponseWriter :=
  let w := WriteHeader 200 w in
  MkResponseWriter (RW_Header w) (RW_Status w) (RW_Body w +:+ data).

Definition newline : string := String "010" "".

(** [http.Error] *)
Definition http_Error (text : string) (status : Z) (w : ResponseWriter) : ResponseWriter :=
  let w := Header_Set "Content-Type" "text/plain; charset=utf-8" w in
  let w := Header_Set "X-Content-Type-Options" "nosniff" w in
  Write (text +:+ newline) (WriteHeader status w).

(** ** The content store *)

Definition ociManifestMediaType : string := "application/vnd.oci.image.manifest.v1+json".
Definition ociEmptyConfigType : string := "application/vnd.oci.empty.v1+json".
Definition gemaraCatalogType : string := "application/vnd.gemara.catalog.v1+yaml".
Definition gemaraPolicyType : string := "application/vnd.gemara.policy.v1+yaml".
Definition complypackArtifactType : string := "application/vnd.complypack.artifact.v1".
Definition complypackConfigType : string := "application/vnd.complypack.config.v1+json".
Definition complypackContentType : string := "application/vnd.complypack.content.v1.tar+gzip".

Record artifact := MkArtifact { manifestBytes : string; manifestDigest : string }.
Record blob := MkBlob { blob_data : string; blob_mediaType : string }.
Record repository := MkRepository { tags : gmap string artifact; blobs : gmap string blob }.
Record contentStore := MkContentStore { repos : gmap string repository }.

Record ociDescriptor := MkOciDescriptor { OD_MediaType : string; OD_Digest : string; OD_Size : Z }.
Record ociManifest := MkOciManifest {
  OM_SchemaVersion : Z;
  OM_MediaType : string;
  OM_ArtifactType : string;
  OM_Annotations : gmap string string;
  OM_Config : ociDescriptor;
  OM_Layers : list ociDescriptor;
}.

Record layerDef := MkLayerDef { LD_mediaType : string; LD_data : string }.
Record complypackDef := MkComplypackDef { CD_evaluatorID : string; CD_version : string; CD_content : string }.

(** The JSON objects the handlers answer with. *)
Inductive document : Type :=
  | Repositories (repositories : list string)
  | TagsList (name : string) (tags : list string)
  | OCIErrors (code message : string).

(** A file of an archive: name, contents and mode; its size is that of the
    contents. *)
Record tar_file := MkTarFile { tar_Name : string; tar_Data : string; tar_Mode : Z }.
Class Archive := tar_gz : list tar_file -> string.

(** An [embed.FS]: its files, and the entries of a directory with whether each is
    a directory. *)
Record Embed := MkEmbed {
  embed_ReadFile : string -> result string;
  embed_ReadDir : string -> result (list (string * bool));
}.

Definition computeDigest (data : string) : string := digest_text data.

Definition newContentStore : contentStore := MkContentStore ∅.

(** Some artifact of that digest, for a reference that is no tag. *)
Definition resolve (r : repository) (reference : string) : option artifact :=
  match tags r !! reference with
  | Some art => Some art
  | None => find_first (fun a => bool_decide (manifestDigest a = reference)) ((map_to_list (tags r)).*2)
  end.

Definition listRepositories (s : contentStore) : list string :=
  sort_strings (map_to_list (repos s)).*1.

Definition descriptor (mediaType data : string) : ociDescriptor :=
  MkOciDescriptor mediaType (computeDigest data) (Z.of_nat (String.length data)).

Definition put_blob (bs : gmap string blob) (mediaType data : string) : gmap string blob :=
  <[computeDigest data := MkBlob data mediaType]> bs.

Definition tag_all (art : artifact) (names : list string) : gmap string artifact :=
  fold_left (fun m tag => <[tag := art]> m) names ∅.

Definition set_repo (s : contentStore) (repoName : string) (repo : repository) : contentStore :=
  MkContentStore (<[repoName := repo]> (repos s)).

Section store.
  Context {manifestJSON : Codec ociManifest} {configJSON : Codec (gmap string string)} {archive : Archive}.

(** [b, _ := json.Marshal(v)] *)
Definition marshalled {A} `{Codec A} (v : A) : string :=
  match marshal v with Ok t => t | Err _ => "" end.

Definition artifact_of (manifest : ociManifest) : artifact :=
  MkArtifact (marshalled manifest) (computeDigest (marshalled manifest)).

Definition emptyConfig : string := "{}".

Definition policy_manifest (layers : list layerDef) : ociManifest :=
  MkOciManifest 2 ociManifestMediaType "" ∅ (descriptor ociEmptyConfigType emptyConfig)
    ((fun l => descriptor (LD_mediaType l) (LD_data l)) <$> layers).

Definition addArtifact (s : contentStore) (repoName : string) (names : list string) (layers : list layerDef)
    : contentStore :=
  let bs := fold_left (fun bs l => put_blob bs (LD_mediaType l) (LD_data l)) layers
              (put_blob ∅ ociEmptyConfigType emptyConfig) in
  set_repo s repoName (MkRepository (tag_all (artifact_of (policy_manifest layers)) names) bs).

Definition complypack_config (def : complypackDef) : string :=
  marshalled (<["evaluator-id" := CD_evaluatorID def]> {["version" := CD_version def]} : gmap string string).

Definition complypack_manifest (def : complypackDef) : ociManifest :=
  MkOciManifest 2 ociManifestMediaType complypackArtifactType
    {["complypack.evaluator-id" := CD_evaluatorID def]}
    (descriptor complypackConfigType (complypack_config def))
    [descriptor complypackContentType (CD_content def)].

Definition addComplypackArtifact (s : contentStore) (repoName : string) (names : list string)
    (def : complypackDef) : contentStore :=
  let bs := put_blob (put_blob ∅ complypackConfigType (complypack_config def))
              complypackContentType (CD_content def) in
  set_repo s repoName (MkRepository (tag_all (artifact_of (complypack_manifest def)) names) bs).

Definition buildDummyTarGz (name content : string) : string := tar_gz [MkTarFile name content 420].

(** ** Seeding *)

Fixpoint tar_entries (fsys : Embed) (root : string) (entries : list (string * bool)) : result (list tar_file) :=
  match entries with
  | [] => Ok []
  | (_, true) :: rest => tar_entries fsys root rest
  | (name, false) :: rest =>
      try data := embed_ReadFile fsys (filepath_Clean (root +:+ "/" +:+ name))
        orelse (fun e => Wrapf ("failed to read embedded file " +:+ root +:+ "/" +:+ name +:+ ": ") e "") in
      try files := tar_entries fsys root rest in
      Ok (MkTarFile name data 420 :: files)
  end.

Definition buildTarGzFromFS (fsys : Embed) (root : string) : result string :=
  try entries := embed_ReadDir fsys root
    orelse (fun e => Wrapf ("failed to read embedded dir " +:+ root +:+ ": ") e "") in
  try files := tar_entries fsys root entries in
  Ok (tar_gz files).

Definition gemara_layers (catalog policy : string) : list layerDef :=
  [MkLayerDef gemaraCatalogType catalog; MkLayerDef gemaraPolicyType policy].

Definition seedPolicyFromFiles (seedData : Embed) (s : contentStore)
    (repoPath catalogFile policyFile : string) (names : list string) : result contentStore :=
  try catalog := embed_ReadFile seedData catalogFile
    orelse (fun e => Wrapf ("failed to load catalog seed data from " +:+ catalogFile +:+ ": ") e "") in
  try policy := embed_ReadFile seedData policyFile
    orelse (fun e => Wrapf ("failed to load policy seed data from " +:+ policyFile +:+ ": ") e "") in
  Ok (addArtifact s repoPath names (gemara_layers catalog policy)).

Definition default_tags : list string := ["v1.0.0"; "latest"].

Definition seedDefaults (seedData ampelComplypackData opaComplypackData : Embed) (s : contentStore)
    : result contentStore :=
  try s := seedPolicyFromFiles seedData s "policies/test-branch-protection"
    "testdata/test-branch-protection-catalog.yaml" "testdata/test-branch-protection-policy.yaml" default_tags in
  try s := seedPolicyFromFiles seedData s "policies/ampel-branch-protection"
    "testdata/ampel-branch-protection-catalog.yaml" "testdata/ampel-branch-protection-policy.yaml" default_tags in
  try content := buildTarGzFromFS ampelComplypackData "testdata/ampel-complypack" in
  let s := addComplypackArtifact s "complypacks/ampel-bp" default_tags (MkComplypackDef "ampel" "1.0.0" content) in
  try s := seedPolicyFromFiles seedData s "policies/test-opa-policy"
    "testdata/test-opa-catalog.yaml" "testdata/test-opa-policy.yaml" default_tags in
  try content := buildTarGzFromFS opaComplypackData "testdata/opa-complypack" in
  Ok (addComplypackArtifact s "complypacks/test-opa-complypack" default_tags
        (MkComplypackDef "opa" "1.0.0" content)).

Definition defaultContentDir : string := "/bundles".

Definition resolveContentDir : io string :=
  let! dir := os_Getenv "MOCK_REGISTRY_CONTENT_DIR" in
  io_ret (if bool_decide (dir = "") then defaultContentDir else dir).

(** [^[a-zA-Z0-9_-]+$] *)
Definition validBundleName (name : string) : bool :=
  negb (bool_decide (name = "")) && str_forall (fun c => is_alnum c || in_set "_-" c) name.

Definition maxPolicyFileSize : Z := 10 * 1024 * 1024.

(** The size of a directory is the file system's choice: reading it fails anyway. *)
Definition readFileLimited (p : path) (maxSize : Z) : io (result string) :=
  do! info := os_Stat p orelse (fun e => e) in
  match info with
  | File data _ =>
      if maxSize <? Z.of_nat (String.length data)
      then io_ret (Err (Errorf ("file size " +:+ itoa (Z.of_nat (String.length data)) +:+
                                " exceeds limit " +:+ itoa maxSize)))
      else os_ReadFile p
  | Dir _ => os_ReadFile p
  end.

(** The two files of a bundle, if both can be read. *)
Definition read_bundle (policyDir : path) : io (result (string * string)) :=
  do! catalog := readFileLimited (policyDir ++ ["catalog.yaml"]) maxPolicyFileSize orelse (fun e => e) in
  do! policy := readFileLimited (policyDir ++ ["policy.yaml"]) maxPolicyFileSize orelse (fun e => e) in
  io_ret (Ok (catalog, policy)).

Definition seed_entry (dir : path) (s : contentStore) (name : string) (x : node) : io contentStore :=
  if negb (is_dir (Some x)) then io_ret s
  else if negb (validBundleName name) then io_ret s
  else
    let! files := read_bundle (dir ++ [name]) in
    match files with
    | Err _ => io_ret s
    | Ok (catalog, policy) =>
        io_ret (addArtifact s ("policies/" +:+ name) ["latest"] (gemara_layers catalog policy))
    end.

Fixpoint seed_entries (dir : path) (s : contentStore) (entries : list (string * node)) : io contentStore :=
  match entries with
  | [] => io_ret s
  | (name, x) :: rest =>
      let! s := seed_entry dir s name x in
      seed_entries dir s rest
  end.

Definition seedFromDirectory (s : contentStore) (dir : path) : io contentStore :=
  let! entries := os_ReadDir dir in
  match entries with
  | Err _ => io_ret s
  | Ok l => seed_entries dir s l
  end.
End store.

(** ** Requests *)

(** The text before and after the last occurrence of [p] ([strings.LastIndex]). *)
Fixpoint cut_last_str (s p : string) : option (string * string) :=
  match (match s with
         | EmptyString => None
         | String c s' => match cut_last_str s' p with
                          | Some (l, r) => Some (String c l, r)
                          | None => None
                          end
         end) with
  | Some lr => Some lr
  | None => match cut_prefix s p with Some r => Some ("", r) | None => None end
  end.

(** [idx := strings.LastIndex(path, sep); idx > 0] with the parts of the path. *)
Definition route (path sep : string) : option (string * string) :=
  match cut_last_str path sep with
  | Some (name, rest) => if bool_decide (name = "") then None else Some (name, rest)
  | None => None
  end.

Section handlers.
  Context {docJSON : Codec document}.

(** [json.NewEncoder(w).Encode(v)], the error ignored. *)
Definition Encode (d : document) (w : ResponseWriter) : ResponseWriter :=
  match marshal d with
  | Ok text => Write (text +:+ newline) w
  | Err _ => w
  end.

Definition writeOCIError (status : Z) (code message : string) (w : ResponseWriter) : ResponseWriter :=
  let w := Header_Set "Content-Type" "application/json" w in
  Encode (OCIErrors code message) (WriteHeader status w).

Definition serveCatalog (store : contentStore) (w : ResponseWriter) : ResponseWriter :=
  let w := Header_Set "Content-Type" "application/json" w in
  Encode (Repositories (listRepositories store)) w.

Definition repository_unknown (repoName : string) : string := "repository " +:+ repoName +:+ " not found".

Definition serveTagsList (store : contentStore) (repoName : string) (w : ResponseWriter) : ResponseWriter :=
  match repos store !! repoName with
  | None => writeOCIError 404 "NAME_UNKNOWN" (repository_unknown repoName) w
  | Some repo =>
      let names := sort_strings (map_to_list (tags repo)).*1 in
      let w := Header_Set "Content-Type" "application/json" w in
      Encode (TagsList repoName names) w
  end.

Definition serveManifest (r : Request) (store : contentStore) (repoName reference : string)
    (w : ResponseWriter) : ResponseWriter :=
  if negb (bool_decide (Method r = "GET")) && negb (bool_decide (Method r = "HEAD"))
  then http_Error "method not allowed" 405 w
  else
  match repos store !! repoName with
  | None => writeOCIError 404 "NAME_UNKNOWN" (repository_unknown repoName) w
  | Some repo =>
  match resolve repo reference with
  | None => writeOCIError 404 "MANIFEST_UNKNOWN" ("manifest " +:+ reference +:+ " not found") w
  | Some art =>
      let w := Header_Set "Content-Type" ociManifestMediaType w in
      let w := Header_Set "Docker-Content-Digest" (manifestDigest art) w in
      let w := Header_Set "Content-Length" (itoa (Z.of_nat (String.length (manifestBytes art)))) w in
      let w := Header_Set "Docker-Distribution-API-Version" "registry/2.0" w in
      if bool_decide (Method r = "HEAD") then WriteHeader 200 w
      else Write (manifestBytes art) (WriteHeader 200 w)
  end
  end.

Definition serveBlob (store : contentStore) (repoName digest : string) (w : ResponseWriter) : ResponseWriter :=
  match repos store !! repoName with
  | None => writeOCIError 404 "NAME_UNKNOWN" (repository_unknown repoName) w
  | Some repo =>
  match blobs repo !! digest with
  | None => writeOCIError 404 "BLOB_UNKNOWN" ("blob " +:+ digest +:+ " not found") w
  | Some b =>
      let w := Header_Set "Content-Type" "application/octet-stream" w in
      let w := Header_Set "Content-Length" (itoa (Z.of_nat (String.length (blob_data b)))) w in
      let w := Header_Set "Docker-Content-Digest" digest w in
      Write (blob_data b) (WriteHeader 200 w)
  end
  end.

(** The handler [registerOCIRoutes] installs at [/v2/]. *)
Definition handleOCI (store : contentStore) (r : Request) (w : ResponseWriter) : ResponseWriter :=
  let path := trim_suffix (trim_prefix (URL_Path r) "/v2/") "/" in
  if bool_decide (path = "") then
    let w := Header_Set "Docker-Distribution-API-Version" "registry/2.0" w in
    let w := Header_Set "Content-Type" "application/json" w in
    Write "{}" (WriteHeader 200 w)
  else if bool_decide (path = "_catalog") then serveCatalog store w
  else
  match route path "/tags/list" with
  | Some (repoName, _) => serveTagsList store repoName w
  | None =>
  match route path "/manifests/" with
  | Some (repoName, reference) => serveManifest r store repoName reference w
  | None =>
  match route path "/blobs/" with
  | Some (repoName, digest) => serveBlob store repoName digest w
  | None => writeOCIError 400 "NAME_UNKNOWN" "invalid API path" w
  end
  end
  end.
End handlers.

(** ** The server before it listens: its address and its content *)

Definition defaultPort : string := "8765".

Definition server_setup `{Codec ociManifest} `{Codec (gmap string string)} `{Archive} (cwd : path)
    (seedData ampelComplypackData opaComplypackData : Embed) : io (result (string * contentStore)) :=
  let! port := os_Getenv "GEMARA_SERVICE_PORT" in
  let port := if bool_decide (port = "") then defaultPort else port in
  do! store := io_lift (seedDefaults seedData ampelComplypackData opaComplypackData newContentStore)
    orelse (fun e => e) in
  let! dir := resolveContentDir in
  let! store := seedFromDirectory store (abs_path cwd dir) in
  io_ret (Ok (":" +:+ port, store)).

(** ** Routing *)

Lemma cut_last_str_no s p : contains_str s p = false -> cut_last_str s p = None.
Proof.
  induction s as [|c s IH]; cbn [contains_str cut_last_str]; intros [Hp Hs]%orb_false_iff;
    unfold has_prefix in Hp; [|rewrite IH by done]; by destruct (cut_prefix _ _).
Qed.

(** A text that starts with [p] and has no other occurrence after its first byte. *)
Lemma cut_last_str_here a s p :
  (exists c s', p +:+ s = String c s' /\ contains_str s' p = false) ->
  cut_last_str (a +:+ p +:+ s) p = Some (a, s).
Proof.
  intros (c & s' & Hc & Hn). induction a as [|x a IH]; cbn.
  - rewrite Hc. cbn [cut_last_str]. rewrite (cut_last_str_no s' p Hn), <-Hc, cut_prefix_app. done.
  - by rewrite IH.
Qed.

(** No occurrence across the seam of two texts. *)
Definition no_seam (b p : string) : Prop :=
  forall x y, p = x +:+ y -> y <> "" -> has_prefix b y = false.

Lemma cut_prefix_seam a b p r :
  cut_prefix (a +:+ b) p = Some r -> has_prefix a p = true \/ exists y, p = a +:+ y /\ y <> "" /\ has_prefix b y = true.
Proof.
  revert p. induction a as [|c a IH]; intros p; cbn [String.append].
  - intros H. destruct p as [|x p]; [by left|right]. exists (String x p). unfold has_prefix. by rewrite H.
  - destruct p as [|x p]; [by left|]. cbn [cut_prefix]. unfold has_prefix. cbn [cut_prefix].
    destruct (Ascii.eqb x c) eqn:E; [|done]. apply Ascii.eqb_eq in E as ->. intros [H|(y & -> & Hy)]%IH; [by left|].
    right. by exists y.
Qed.

Lemma contains_str_app a b p :
  contains_str a p = false -> no_seam b p -> contains_str b p = false -> contains_str (a +:+ b) p = false.
Proof.
  intros Ha Hs Hb. induction a as [|c a IH]; [done|]. cbn [contains_str] in Ha.
  apply orb_false_iff in Ha as [Hp Ha]. cbn [contains_str String.append].
  rewrite (IH Ha), orb_false_r. apply not_true_is_false. unfold has_prefix at 1.
  destruct (cut_prefix _ _) as [r|] eqn:E; [|done]. intros _.
  change (String c (a +:+ b)) with (String c a +:+ b) in E.
  apply cut_prefix_seam in E as [H|(y & Hp' & Hy & H)]; [congruence|]. by rewrite (Hs _ _ Hp' Hy) in H.
Qed.

(** A text without slashes contains none of the separators, nor the rest of one
    after its first slash. *)
Lemma contains_str_slash s p : contains_byte s "/" = false -> contains_byte p "/" = true -> contains_str s p = false.
Proof.
  intros Hs Hp. induction s as [|c s IH].
  - cbn. unfold has_prefix. by destruct p.
  - cbn [contains_str]. cbn in Hs. apply orb_false_iff in Hs as [Hc Hs]. rewrite (IH Hs), orb_false_r.
    unfold has_prefix. destruct (cut_prefix _ _) as [r|] eqn:E; [|done].
    apply cut_prefix_Some in E. assert (contains_byte (String c s) "/" = true) as H.
    { rewrite E. unfold contains_byte. rewrite str_exists_app. unfold contains_byte in Hp. by rewrite Hp. }
    cbn in H. by rewrite Hc, Hs in H.
Qed.

Lemma has_prefix_slash s p : contains_byte s "/" = false -> contains_byte p "/" = true -> has_prefix s p = false.
Proof. intros Hs Hp. pose proof (contains_str_slash s p Hs Hp) as H. destruct s; apply orb_false_iff in H; naive_solver. Qed.

(** The splits of a concrete separator. *)
Ltac seams :=
  intros x y Hp Hy;
  repeat (destruct x as [|? x]; [cbn in Hp; subst y|cbn in Hp; injection Hp as <- Hp || discriminate Hp]);
  try (by destruct Hy).

(** What a repository name and a reference must be to be served: the separators of
    other routes do not occur in the name, not even with the slash after it, nor a
    slash in the reference. *)
Definition routable (repoName : string) : Prop :=
  repoName <> "" /\ contains_str repoName "/tags/list" = false /\
  contains_str (repoName +:+ "/") "/manifests/" = false.
Definition reference_text (reference : string) : Prop :=
  reference <> "" /\ contains_byte reference "/" = false.

(** [cbn] a search for a separator down to the reference, which has no slash. *)
Ltac search_ends := cbn; rewrite contains_str_slash by done; rewrite orb_false_r; unfold has_prefix; cbn;
  try lazymatch goal with |- context [match cut_prefix ?r ?p with Some _ => true | None => false end] =>
    change (has_prefix r p = false); by apply has_prefix_slash end.

Lemma route_of repoName sep reference :
  repoName <> "" -> contains_byte reference "/" = false -> sep = "/manifests/" \/ sep = "/blobs/" ->
  route (repoName +:+ sep +:+ reference) sep = Some (repoName, reference).
Proof.
  intros Hn Hr Hs. unfold route. rewrite cut_last_str_here; [by rewrite bool_decide_eq_false_2|].
  destruct Hs as [->| ->]; eexists _, _; (split; [reflexivity|]); search_ends.
Qed.

Lemma no_route a b sep :
  contains_str a sep = false -> no_seam b sep -> contains_str b sep = false -> route (a +:+ b) sep = None.
Proof. intros Ha Hs Hb. unfold route. by rewrite cut_last_str_no by by apply contains_str_app. Qed.

Lemma no_route_tags repoName mid reference :
  routable repoName -> contains_byte reference "/" = false -> mid = "/manifests/" \/ mid = "/blobs/" ->
  route (repoName +:+ mid +:+ reference) "/tags/list" = None.
Proof. intros (_ & Hn & _) Hr [->| ->]; (apply no_route; [done|seams; reflexivity|search_ends]). Qed.

Lemma no_route_manifests repoName reference :
  routable repoName -> contains_byte reference "/" = false ->
  route (repoName +:+ "/blobs/" +:+ reference) "/manifests/" = None.
Proof.
  intros (_ & _ & Hn) Hr.
  replace (repoName +:+ "/blobs/" +:+ reference) with ((repoName +:+ "/") +:+ "blobs/" +:+ reference)
    by by rewrite append_assoc.
  apply no_route; [done|seams; reflexivity|search_ends].
Qed.

(** The path the handler sees. *)
Lemma trim_suffix_no s c : contains_byte s c = false -> forall a, s <> "" -> trim_suffix (a +:+ s) (String c "") = a +:+ s.
Proof.
  intros Hs a Hne. destruct (trim_suffix_spec (a +:+ s) (String c "")) as [H|H]; [done|].
  exfalso. remember (trim_suffix _ _) as t eqn:Et. clear Et. revert t H. induction a as [|x a IH]; cbn; intros t H.
  - subst s. unfold contains_byte in Hs. rewrite str_exists_app in Hs. cbn in Hs.
    by rewrite Ascii.eqb_refl, orb_true_r in Hs.
  - destruct t as [|y t]; [|injection H as <- H; by eapply IH]. cbn in H. injection H as _ H.
    destruct a; [by subst|done].
Qed.

Lemma handled_path repoName mid reference :
  reference_text reference ->
  trim_suffix (trim_prefix ("/v2/" +:+ repoName +:+ mid +:+ reference) "/v2/") "/" =
  repoName +:+ mid +:+ reference.
Proof.
  intros [Hne Hr]. rewrite trim_prefix_app, <-append_assoc. by apply trim_suffix_no.
Qed.

Section routes.
  Context {docJSON : Codec document}.

Definition manifest_path (repoName reference : string) : string := "/v2/" +:+ repoName +:+ "/manifests/" +:+ reference.
Definition blob_path (repoName digest : string) : string := "/v2/" +:+ repoName +:+ "/blobs/" +:+ digest.

Lemma not_fixed_path repoName mid reference :
  repoName <> "" -> reference <> "" -> mid = "/manifests/" \/ mid = "/blobs/" ->
  repoName +:+ mid +:+ reference <> "" /\ repoName +:+ mid +:+ reference <> "_catalog".
Proof.
  intros Hn Hr Hm. split; [by destruct repoName|]. intros H.
  assert (contains_byte (repoName +:+ mid +:+ reference) "/" = true) as Hs; [clear H|by rewrite H in Hs].
  unfold contains_byte. rewrite !str_exists_app. destruct Hm as [->| ->]; cbn; by rewrite orb_true_r.
Qed.

Lemma handle_manifest s m repoName reference w :
  routable repoName -> reference_text reference ->
  handleOCI s (MkRequest m (manifest_path repoName reference)) w =
  serveManifest (MkRequest m (manifest_path repoName reference)) s repoName reference w.
Proof.
  intros Hn Hr. unfold handleOCI. cbn [URL_Path].
  rewrite (handled_path repoName "/manifests/" reference Hr : trim_suffix (trim_prefix (manifest_path _ _) _) _ = _).
  destruct (not_fixed_path repoName "/manifests/" reference) as [H1 H2]; [apply Hn|apply Hr|by left|].
  rewrite !bool_decide_eq_false_2 by done. rewrite (no_route_tags _ _ _ Hn (proj2 Hr)) by by left.
  by rewrite (route_of _ _ _ (proj1 Hn) (proj2 Hr)) by by left.
Qed.

Lemma handle_blob s m repoName digest w :
  routable repoName -> reference_text digest ->
  handleOCI s (MkRequest m (blob_path repoName digest)) w = serveBlob s repoName digest w.
Proof.
  intros Hn Hr. unfold handleOCI. cbn [URL_Path].
  rewrite (handled_path repoName "/blobs/" digest Hr : trim_suffix (trim_prefix (blob_path _ _) _) _ = _).
  destruct (not_fixed_path repoName "/blobs/" digest) as [H1 H2]; [apply Hn|apply Hr|by right|].
  rewrite !bool_decide_eq_false_2 by done. rewrite (no_route_tags _ _ _ Hn (proj2 Hr)) by by right.
  rewrite (no_route_manifests _ _ Hn (proj2 Hr)). by rewrite (route_of _ _ _ (proj1 Hn) (proj2 Hr)) by by right.
Qed.
End routes.

(** ** Content is addressed by its digest *)

(** A store the program can have built. *)
Inductive seeded {manifestJSON : Codec ociManifest} {configJSON : Codec (gmap string string)}
    : contentStore -> Prop :=
  | seeded_new : seeded newContentStore
  | seeded_artifact s repoName names layers : seeded s -> seeded (addArtifact s repoName names layers)
  | seeded_complypack s repoName names def : seeded s -> seeded (addComplypackArtifact s repoName names def)
  | seeded_directory s dir w : seeded s -> seeded (seedFromDirectory s dir w).1.

Section content.
  Context {manifestJSON : Codec ociManifest} {configJSON : Codec (gmap string string)}.

Definition descriptors (m : ociManifest) : list ociDescriptor := OM_Config m :: OM_Layers m.

(** The digest of a blob is its key; every tag is of one artifact, a manifest
    whose digest is the artifact's and whose descriptors are all of blobs. *)
Record addressed (r : repository) : Prop := MkAddressed {
  addressed_blobs : map_Forall (fun d b => d = computeDigest (blob_data b)) (blobs r);
  addressed_tags : exists m, (forall d, d ∈ descriptors m -> is_Some (blobs r !! OD_Digest d)) /\
    map_Forall (fun _ a => a = artifact_of m) (tags r);
}.

Lemma put_blob_addressed bs mediaType data :
  map_Forall (fun d b => d = computeDigest (blob_data b)) bs ->
  map_Forall (fun d b => d = computeDigest (blob_data b)) (put_blob bs mediaType data).
Proof. intros H. unfold put_blob. by apply map_Forall_insert_2. Qed.

Lemma put_blob_has bs mediaType data d :
  is_Some (put_blob bs mediaType data !! d) <-> d = computeDigest data \/ is_Some (bs !! d).
Proof.
  unfold put_blob. destruct (decide (d = computeDigest data)) as [->|Hne].
  - rewrite lookup_insert_eq. split; [by left|by eexists].
  - rewrite lookup_insert_ne by done. naive_solver.
Qed.

Lemma put_blobs_has layers bs d :
  is_Some (fold_left (fun bs l => put_blob bs (LD_mediaType l) (LD_data l)) layers bs !! d) <->
  is_Some (bs !! d) \/ exists l, l ∈ layers /\ d = computeDigest (LD_data l).
Proof.
  revert bs. induction layers as [|l layers IH]; intros bs; cbn [fold_left].
  - setoid_rewrite elem_of_nil. naive_solver.
  - rewrite IH, put_blob_has. setoid_rewrite elem_of_cons. naive_solver.
Qed.

Lemma tag_all_lookup art names t : tag_all art names !! t = if decide (t ∈ names) then Some art else None.
Proof.
  unfold tag_all. assert (forall l m, fold_left (fun m tag => <[tag := art]> m) l m !! t =
    if decide (t ∈ l) then Some art else (m : gmap string artifact) !! t) as H; [|by rewrite H, lookup_empty].
  induction l as [|x l IH]; intros m; cbn [fold_left]; [by rewrite decide_False by set_solver|].
  rewrite IH. destruct (decide (t ∈ l)) as [Hl|Hl].
  - by rewrite decide_True by set_solver.
  - destruct (decide (x = t)) as [->|Hne].
    + rewrite lookup_insert_eq, decide_True; [done|set_solver].
    + rewrite lookup_insert_ne, decide_False by set_solver. done.
Qed.

Lemma tag_all_spec art names : map_Forall (fun _ a => a = art) (tag_all art names).
Proof. intros t a. rewrite tag_all_lookup. case_decide; congruence. Qed.

Definition addressed_store (s : contentStore) : Prop := map_Forall (fun _ r => addressed r) (repos s).

Lemma addArtifact_addressed s repoName names layers :
  addressed_store s -> addressed_store (addArtifact s repoName names layers).
Proof.
  intros H. apply map_Forall_insert_2; [|done]. split; cbn [blobs tags].
  - apply fold_left_inv; [apply put_blob_addressed, map_Forall_empty|]. intros. by apply put_blob_addressed.
  - exists (policy_manifest layers). split; [|apply tag_all_spec].
    intros d. unfold descriptors. cbn [OM_Config OM_Layers policy_manifest]. rewrite put_blobs_has, put_blob_has.
    intros [->|Hd]%elem_of_cons; [by left; left|].
    apply list_elem_of_fmap in Hd as (l & -> & Hl). right. by exists l.
Qed.

Lemma addComplypackArtifact_addressed s repoName names def :
  addressed_store s -> addressed_store (addComplypackArtifact s repoName names def).
Proof.
  intros H. apply map_Forall_insert_2; [|done]. split; cbn [blobs tags].
  - apply put_blob_addressed, put_blob_addressed, map_Forall_empty.
  - exists (complypack_manifest def). split; [|apply tag_all_spec].
    intros d. unfold descriptors. cbn [OM_Config OM_Layers complypack_manifest]. rewrite !put_blob_has, !elem_of_cons, elem_of_nil.
    intros [->|[->|[]]]; cbn; tauto.
Qed.

Lemma seed_entry_inv (P : contentStore -> Prop) dir s name x w :
  (forall s repoName names layers, P s -> P (addArtifact s repoName names layers)) ->
  P s -> P (seed_entry dir s name x w).1.
Proof.
  intros Ha H. unfold seed_entry, io_bind, io_ret. case_match; [done|]. case_match; [done|].
  destruct (read_bundle _ w) as [[[catalog policy]|e] w']; [by apply Ha|done].
Qed.

Lemma seedFromDirectory_inv (P : contentStore -> Prop) s dir w :
  (forall s repoName names layers, P s -> P (addArtifact s repoName names layers)) ->
  P s -> P (seedFromDirectory s dir w).1.
Proof.
  intros Ha H. unfold seedFromDirectory, io_bind, io_ret.
  destruct (os_ReadDir dir w) as [[l|e] w1]; [|done].
  revert s w1 H. induction l as [|[name x] l IH]; intros s w1 H; [done|]. cbn. unfold io_bind.
  pose proof (seed_entry_inv P dir s name x w1 Ha H) as Hs.
  destruct (seed_entry dir s name x w1) as [s' w2]. by apply IH.
Qed.

Lemma seeded_addressed s : seeded s -> addressed_store s.
Proof.
  induction 1.
  - apply map_Forall_empty.
  - by apply addArtifact_addressed.
  - by apply addComplypackArtifact_addressed.
  - by apply seedFromDirectory_inv; [apply addArtifact_addressed|].
Qed.

Lemma seedPolicyFromFiles_seeded files s repoPath catalogFile policyFile names s' :
  seeded s -> seedPolicyFromFiles files s repoPath catalogFile policyFile names = Ok s' -> seeded s'.
Proof.
  unfold seedPolicyFromFiles. intros Hs H. repeat apply result_bind_ok in H as (? & _ & H).
  injection H as <-. by apply seeded_artifact.
Qed.

(** The content the server starts with is of this kind. *)
Lemma server_setup_seeded {archive : Archive} cwd a b c w addr s w' :
  server_setup cwd a b c w = (Ok (addr, s), w') -> seeded s.
Proof.
  unfold server_setup, io_bind, io_try, io_lift, io_ret, resolveContentDir, os_Getenv. cbn.
  destruct (seedDefaults a b c newContentStore) as [s0|e] eqn:E; [|done]. cbn.
  assert (seeded s0) as H0.
  { unfold seedDefaults in E. repeat apply result_bind_ok in E as (? & ? & E). injection E as <-.
    repeat first [apply seeded_complypack|eapply seedPolicyFromFiles_seeded; [|eassumption]].
    apply seeded_new. }
  pose proof (seeded_directory s0) as Hd.
  specialize (Hd (abs_path cwd (if bool_decide (default "" (w_env w !! "MOCK_REGISTRY_CONTENT_DIR") = "")
    then defaultContentDir else default "" (w_env w !! "MOCK_REGISTRY_CONTENT_DIR"))) w H0).
  destruct (seedFromDirectory _ _ w) as [s1 w1]. intros [= _ <- _]. exact Hd.
Qed.

Lemma resolve_tagged r reference a : resolve r reference = Some a -> exists t, tags r !! t = Some a.
Proof.
  unfold resolve. destruct (tags r !! reference) as [a'|] eqn:E; [intros [= <-]; by exists reference|].
  intros (l1 & l2 & Hl & _)%find_first_Some. assert (a ∈ (map_to_list (tags r)).*2) as Ha.
  { rewrite Hl. apply elem_of_app. right. by left. }
  apply list_elem_of_fmap in Ha as ([t a'] & -> & Ht%elem_of_map_to_list). by exists t.
Qed.
End content.

(** ** What is served *)

Section served.
  Context {manifestJSON : Codec ociManifest} {configJSON : Codec (gmap string string)} {docJSON : Codec document}.

Definition digest_header (w : ResponseWriter) : option string := Header_Get "Docker-Content-Digest" w.
Definition length_header (w : ResponseWriter) : option string := Header_Get "Content-Length" w.

Definition get (path : string) : Request := MkRequest "GET" path.
Definition head (path : string) : Request := MkRequest "HEAD" path.

(** An answer that carries content under a digest. *)
Definition carries (d data : string) (w : ResponseWriter) : Prop :=
  RW_Status w = Some 200 /\ digest_header w = Some d /\ RW_Body w = data /\
  length_header w = Some (itoa (Z.of_nat (String.length data))).

Lemma error_no_digest status code message : digest_header (writeOCIError status code message no_response) = None.
Proof. unfold writeOCIError, Encode. by destruct (marshal _). Qed.

(** The method of a request is tested first. *)
Lemma serveManifest_get p s repoName reference w :
  serveManifest (get p) s repoName reference w =
  match repos s !! repoName with
  | None => writeOCIError 404 "NAME_UNKNOWN" (repository_unknown repoName) w
  | Some repo =>
      match resolve repo reference with
      | None => writeOCIError 404 "MANIFEST_UNKNOWN" ("manifest " +:+ reference +:+ " not found") w
      | Some art => serveManifest (get p) s repoName reference w
      end
  end.
Proof.
  unfold serveManifest. assert (bool_decide (Method (get p) = "GET") = true) as -> by done. cbn [negb andb].
  destruct (repos s !! repoName) as [repo|]; [|done]. by destruct (resolve repo reference).
Qed.

Lemma serveManifest_found s repoName reference repo art p :
  repos s !! repoName = Some repo -> resolve repo reference = Some art ->
  carries (manifestDigest art) (manifestBytes art) (serveManifest (get p) s repoName reference no_response).
Proof. intros Hs Hr. unfold serveManifest. by rewrite Hs, Hr. Qed.

Lemma serveBlob_found s repoName d repo b :
  repos s !! repoName = Some repo -> blobs repo !! d = Some b ->
  carries d (blob_data b) (serveBlob s repoName d no_response).
Proof. intros Hs Hb. unfold serveBlob. by rewrite Hs, Hb. Qed.

Lemma serveManifest_addressed s repoName reference p d :
  addressed_store s -> let w := serveManifest (get p) s repoName reference no_response in
  digest_header w = Some d -> carries d (RW_Body w) w /\ d = computeDigest (RW_Body w).
Proof.
  intros Ha. destruct (repos s !! repoName) as [repo|] eqn:Hs.
  2: { rewrite serveManifest_get, Hs. cbv zeta. intros Hd. by rewrite error_no_digest in Hd. }
  destruct (resolve repo reference) as [art|] eqn:Hr.
  2: { rewrite serveManifest_get, Hs, Hr. cbv zeta. intros Hd. by rewrite error_no_digest in Hd. }
  destruct (serveManifest_found _ _ _ _ _ p Hs Hr) as (H1 & H2 & H3 & H4). cbv zeta. rewrite H2. intros [= <-].
  unfold carries. rewrite H3. split; [done|]. apply resolve_tagged in Hr as [t Ht].
  destruct (Ha _ _ Hs) as [_ (m & _ & Hm)]. by rewrite (Hm _ _ Ht).
Qed.

Lemma serveBlob_addressed s repoName digest d :
  addressed_store s -> let w := serveBlob s repoName digest no_response in
  digest_header w = Some d -> carries d (RW_Body w) w /\ d = computeDigest (RW_Body w).
Proof.
  intros Ha. destruct (repos s !! repoName) as [repo|] eqn:Hs.
  2: { unfold serveBlob. rewrite Hs. cbv zeta. intros Hd. by rewrite error_no_digest in Hd. }
  destruct (blobs repo !! digest) as [b|] eqn:Hb.
  2: { unfold serveBlob. rewrite Hs, Hb. cbv zeta. intros Hd. by rewrite error_no_digest in Hd. }
  destruct (serveBlob_found _ _ _ _ _ Hs Hb) as (H1 & H2 & H3 & H4). cbv zeta. rewrite H2. intros [= <-].
  unfold carries. rewrite H3. split; [done|]. destruct (Ha _ _ Hs) as [Hbs _]. by rewrite (Hbs _ _ Hb) at 1.
Qed.

(** What is served under a digest has that digest.  Whatever the path of a
    request, an answer that names a digest is a success, its digest is well formed
    and that of the body sent with it, whose length is announced; and an answer to
    HEAD has the status and the header of the answer to GET. *)
Theorem served_content_addressed s p :
  seeded s ->
  let w := handleOCI s (get p) no_response in
  let h := handleOCI s (head p) no_response in
  RW_Status h = RW_Status w /\ RW_Header h = RW_Header w /\
  (forall d, digest_header w = Some d ->
    carries d (RW_Body w) w /\ d = computeDigest (RW_Body w) /\ well_formed_digest d).
Proof.
  intros Hs%seeded_addressed. cbv zeta. unfold handleOCI. cbn [URL_Path get head].
  assert (forall (w : ResponseWriter) d, carries d (RW_Body w) w /\ d = computeDigest (RW_Body w) ->
    carries d (RW_Body w) w /\ d = computeDigest (RW_Body w) /\ well_formed_digest d) as Hw.
  { intros w d [H1 H2]. split; [done|]. split; [done|]. rewrite H2. apply digest_text_well_formed. }
  case_bool_decide; [done|].
  case_bool_decide; [split_and!; [done|done|]; unfold serveCatalog, Encode; by destruct (marshal _)|].
  destruct (route _ "/tags/list") as [[repoName rest]|].
  { split_and!; [done|done|]. unfold serveTagsList. destruct (repos s !! repoName); [|by rewrite error_no_digest].
    unfold Encode. by destruct (marshal _). }
  destruct (route _ "/manifests/") as [[repoName reference]|].
  { split_and!; [| |intros d Hd; by apply Hw, serveManifest_addressed];
      unfold serveManifest; cbn [Method]; (destruct (repos s !! repoName) as [repo|]; [|done]);
      by destruct (resolve repo reference). }
  destruct (route _ "/blobs/") as [[repoName digest]|].
  { split_and!; [done|done|]. intros d Hd. by apply Hw, serveBlob_addressed. }
  split_and!; [done|done|]. by rewrite error_no_digest.
Qed.

(** ** Pushed and pulled *)

(** No two of the texts have the same digest. *)
Definition collision_free (l : list string) : Prop :=
  forall a b, a ∈ l -> b ∈ l -> computeDigest a = computeDigest b -> a = b.

Lemma put_blobs_data layers bs d :
  (forall l l', l ∈ layers -> l' ∈ layers -> computeDigest (LD_data l) = computeDigest (LD_data l') ->
     LD_data l = LD_data l') ->
  (exists l, l ∈ layers /\ LD_data l = d) ->
  exists b, fold_left (fun bs l => put_blob bs (LD_mediaType l) (LD_data l)) layers bs !! computeDigest d = Some b /\
    blob_data b = d.
Proof.
  revert bs. induction layers as [|l layers IH] using rev_ind; intros bs Hc (l0 & Hl0 & <-); [set_solver|].
  rewrite fold_left_app. cbn [fold_left]. unfold put_blob at 1.
  destruct (decide (computeDigest (LD_data l) = computeDigest (LD_data l0))) as [He|Hne].
  - rewrite He, lookup_insert_eq. eexists. split; [done|].
    apply Hc; [apply elem_of_app; right; by left|done|done].
  - rewrite lookup_insert_ne by done. apply IH; [intros; apply Hc; [apply elem_of_app; by left..|done]|]. exists l0. split; [|done].
    apply elem_of_app in Hl0 as [Hl0|Hl0]; [done|]. apply list_elem_of_singleton in Hl0 as ->. by destruct Hne.
Qed.

Lemma put_blobs_other layers bs d :
  Forall (fun l => computeDigest (LD_data l) <> d) layers ->
  fold_left (fun bs l => put_blob bs (LD_mediaType l) (LD_data l)) layers bs !! d = bs !! d.
Proof.
  intros Hd. revert bs. induction Hd as [|l layers Hl _ IH]; intros bs; cbn [fold_left]; [done|].
  rewrite IH. unfold put_blob. by rewrite lookup_insert_ne.
Qed.

(** The repository of an artifact. *)
Definition artifact_repo (names : list string) (layers : list layerDef) : repository :=
  MkRepository (tag_all (artifact_of (policy_manifest layers)) names)
    (fold_left (fun bs l => put_blob bs (LD_mediaType l) (LD_data l)) layers
       (put_blob ∅ ociEmptyConfigType emptyConfig)).

Lemma addArtifact_repo s repoName names layers :
  repos (addArtifact s repoName names layers) = <[repoName := artifact_repo names layers]> (repos s).
Proof. done. Qed.

Lemma artifact_repo_config names layers :
  collision_free (emptyConfig :: (LD_data <$> layers)) ->
  exists b, blobs (artifact_repo names layers) !! computeDigest emptyConfig = Some b /\ blob_data b = emptyConfig.
Proof.
  intros Hc. cbn [blobs artifact_repo].
  destruct (decide (Exists (fun l => LD_data l = emptyConfig) layers)) as [Hl%Exists_exists|Hl%not_Exists_Forall].
  - apply put_blobs_data; [|done]. intros l l' H H' He.
    apply Hc; [| |done]; apply elem_of_cons; right; by apply list_elem_of_fmap_2.
  - rewrite put_blobs_other.
    + unfold put_blob. rewrite lookup_insert_eq. by eexists.
    + rewrite Forall_forall in Hl |- *. intros l Hin He. apply (Hl l Hin). apply Hc; [|by left|done].
      apply elem_of_cons; right; by apply list_elem_of_fmap_2.
  - intros l. apply _.
Qed.

Lemma artifact_repo_layer names layers l :
  collision_free (emptyConfig :: (LD_data <$> layers)) -> l ∈ layers ->
  exists b, blobs (artifact_repo names layers) !! computeDigest (LD_data l) = Some b /\ blob_data b = LD_data l.
Proof.
  intros Hc Hl. cbn [blobs artifact_repo]. apply put_blobs_data; [|by exists l]. intros l1 l2 H1 H2 He.
  apply Hc; [| |done]; apply elem_of_cons; right; by apply list_elem_of_fmap_2.
Qed.

(** An artifact answers to its tags and, if it has one, to its digest. *)
Lemma artifact_repo_resolve names layers reference :
  let art := artifact_of (policy_manifest layers) in
  resolve (artifact_repo names layers) reference =
  if decide (reference ∈ names \/ names <> [] /\ reference = manifestDigest art) then Some art else None.
Proof.
  cbv zeta. unfold resolve. cbn [tags artifact_repo]. rewrite tag_all_lookup. set (art := artifact_of _).
  destruct (decide (reference ∈ names)) as [Hin|Hout]; [by rewrite decide_True by by left|].
  assert (Forall (fun a => a = art) (map_to_list (tag_all art names)).*2) as Hall.
  { apply Forall_fmap, Forall_forall. intros [t a] Ht%elem_of_map_to_list. by apply tag_all_spec in Ht. }
  case_decide as Hd.
  - destruct Hd as [?|[Hne ->]]; [done|]. destruct names as [|t names]; [done|].
    destruct (find_first _ _) as [a|] eqn:E.
    + apply find_first_Some in E as (l1 & l2 & Hl & _). rewrite Hl in Hall.
      apply Forall_app in Hall as [_ Ha]. by apply Forall_cons in Ha as [-> _].
    + apply find_first_None in E. rewrite Forall_forall in E.
      assert (art ∈ (map_to_list (tag_all art (t :: names))).*2) as Hin.
      { apply list_elem_of_fmap. exists (t, art). split; [done|]. apply elem_of_map_to_list.
        rewrite tag_all_lookup. rewrite decide_True; [done|by left]. }
      specialize (E _ Hin). cbn in E. by rewrite bool_decide_eq_true_2 in E.
  - apply find_first_None. rewrite Forall_forall in Hall |- *. intros a Ha. pose proof (Hall a Ha) as ->.
    apply bool_decide_eq_false_2. intros <-. apply Hd. right. split; [|done]. intros ->.
    unfold tag_all in Ha. cbn [fold_left] in Ha. rewrite map_to_list_empty in Ha. by apply elem_of_nil in Ha.
Qed.

Lemma digest_reference data : reference_text (computeDigest data).
Proof.
  split; [done|]. unfold computeDigest, digest_text, contains_byte. rewrite str_exists_app. cbn.
  apply (str_forall_disjoint is_lower_hex "/"); [done|apply hex_text_lower].
Qed.

(** C38: What is pushed is pulled.  An artifact added under a name that can be routed,
    with contents no two of which collide, answers to its tags and its digest, and to
    no other reference; the manifest lists its layers in order, and the blob of each
    descriptor is the content of the layer, of the size and media type it says.  No
    other repository changes. *)
Theorem pushed_artifact_pulled s repoName names layers :
  routable repoName -> collision_free (emptyConfig :: (LD_data <$> layers)) ->
  let s' := addArtifact s repoName names layers in
  let manifest := policy_manifest layers in
  let text := marshalled manifest in
  (forall reference, reference_text reference ->
     let w := handleOCI s' (get (manifest_path repoName reference)) no_response in
     if decide (reference ∈ names \/ names <> [] /\ reference = computeDigest text)
     then carries (computeDigest text) text w else RW_Status w = Some 404) /\
  Forall2 (fun d l => OD_MediaType d = LD_mediaType l /\ OD_Size d = Z.of_nat (String.length (LD_data l)) /\
     carries (OD_Digest d) (LD_data l) (handleOCI s' (get (blob_path repoName (OD_Digest d))) no_response))
    (OM_Layers manifest) layers /\
  carries (OD_Digest (OM_Config manifest)) emptyConfig
    (handleOCI s' (get (blob_path repoName (OD_Digest (OM_Config manifest)))) no_response) /\
  (forall other, other <> repoName -> repos s' !! other = repos s !! other).
Proof.
  intros Hn Hc. cbv zeta. set (s' := addArtifact s repoName names layers).
  assert (repos s' !! repoName = Some (artifact_repo names layers)) as Hs by apply lookup_insert_eq.
  split_and!.
  - intros reference Hr. unfold get. rewrite handle_manifest by done.
    pose proof (artifact_repo_resolve names layers reference) as Hres. cbv zeta in Hres.
    change (manifestDigest (artifact_of (policy_manifest layers)))
      with (computeDigest (marshalled (policy_manifest layers))) in Hres.
    change (MkRequest "GET" (manifest_path repoName reference)) with (get (manifest_path repoName reference)).
    case_decide; [exact (serveManifest_found s' repoName reference _ _ _ Hs Hres)|].
    rewrite serveManifest_get, Hs, Hres.
    unfold writeOCIError, Encode. by destruct (marshal _).
  - cbn [OM_Layers policy_manifest]. apply Forall2_fmap_l, Forall_Forall2_diag, Forall_forall. intros l Hl.
    split_and!; [done|done|]. destruct (artifact_repo_layer names layers l Hc Hl) as (b & Hb & Hbd).
    unfold get. rewrite handle_blob by (done || apply digest_reference).
    pose proof (serveBlob_found s' repoName _ _ _ Hs Hb) as H. by rewrite Hbd in H.
  - destruct (artifact_repo_config names layers Hc) as (b & Hb & Hbd). cbn [OM_Config policy_manifest].
    unfold get. rewrite handle_blob by (done || apply digest_reference). 
    pose proof (serveBlob_found s' repoName _ _ _ Hs Hb) as H. by rewrite Hbd in H.
  - intros other Ho. unfold s'. rewrite addArtifact_repo. by rewrite lookup_insert_ne.
Qed.
End served.

(** ** Seeding from a directory *)

Section directory.
  Context {manifestJSON : Codec ociManifest}.

(** What a call that only looks leaves, and answers when it does not fail. *)
Definition looks {A} (m : io (result A)) (answers : node -> A -> Prop) : Prop :=
  forall w, let '(r, w') := m w in
  w_fs w' = w_fs w /\ w_fault w' = w_fault w /\
  (forall a, r = Ok a -> answers (w_fs w) a) /\
  (no_faults w -> forall a, answers (w_fs w) a -> r = Ok a).

Definition limited (p : path) (maxSize : Z) (n : node) (data : string) : Prop :=
  exists perm, World.get p n = Some (File data perm) /\ Z.of_nat (String.length data) <= maxSize.

Lemma readFileLimited_looks p maxSize : looks (readFileLimited p maxSize) (limited p maxSize).
Proof.
  intros w. unfold readFileLimited, limited, io_try, io_bind, io_ret, os_Stat, os_ReadFile, os_call.
  destruct (w_fault w (w_tick w)) as [e|] eqn:E1; cbn.
  { split_and!; [done|done|done|]. intros Hn. by rewrite Hn in E1. }
  destruct (World.get p (w_fs w)) as [[data perm|es]|] eqn:Hp; cbn.
  - destruct (Z.ltb_spec maxSize (Z.of_nat (String.length data))); cbn.
    { split_and!; [done|done|done|]. intros _ a (? & [= <- <-] & ?). lia. }
    destruct (w_fault w (S (w_tick w))) as [e|] eqn:E2; cbn.
    { split_and!; [done|done|done|]. intros Hn. by rewrite Hn in E2. }
    rewrite Hp. split_and!; [done|done| |]; [intros a [= <-]; by eexists|intros _ a (? & [= <- <-] & ?); done].
  - destruct (w_fault w (S (w_tick w))) as [e|] eqn:E2; cbn.
    { split_and!; [done|done|done|]. by intros _ a (? & ? & ?). }
    rewrite Hp. split_and!; [done|done|done|]. by intros _ a (? & ? & ?).
  - split_and!; [done|done|done|]. by intros _ a (? & ? & ?).
Qed.

Lemma read_bundle_looks policyDir :
  looks (read_bundle policyDir) (fun n files =>
    limited (policyDir ++ ["catalog.yaml"]) maxPolicyFileSize n files.1 /\
    limited (policyDir ++ ["policy.yaml"]) maxPolicyFileSize n files.2).
Proof.
  intros w. unfold read_bundle, io_try at 1, io_bind at 1.
  pose proof (readFileLimited_looks (policyDir ++ ["catalog.yaml"]) maxPolicyFileSize w) as H1.
  destruct (readFileLimited _ _ w) as [[catalog|e] w1]; destruct H1 as (Hf1 & Ht1 & Ha1 & Hn1).
  2: { cbn. split_and!; [done|done|done|]. intros Hw [c p] [Hc _]. by specialize (Hn1 Hw _ Hc). }
  unfold io_try, io_bind.
  pose proof (readFileLimited_looks (policyDir ++ ["policy.yaml"]) maxPolicyFileSize w1) as H2.
  destruct (readFileLimited _ _ w1) as [[policy|e] w2]; destruct H2 as (Hf2 & Ht2 & Ha2 & Hn2); cbn;
    rewrite Hf1 in *; (split_and!; [congruence|congruence| |]).
  - intros a [= <-]. split; [by apply Ha1|by apply Ha2].
  - intros Hw [c p] [Hc Hp]. cbn in *. specialize (Hn1 Hw _ Hc).
    assert (no_faults w1) as Hw1 by (intros t; rewrite Ht1; apply Hw). specialize (Hn2 Hw1 _ Hp). congruence.
  - done.
  - intros Hw [c p] [_ Hp]. assert (no_faults w1) as Hw1 by (intros t; rewrite Ht1; apply Hw).
    by specialize (Hn2 Hw1 _ Hp).
Qed.

Lemma limited_unique p maxSize n d1 d2 : limited p maxSize n d1 -> limited p maxSize n d2 -> d1 = d2.
Proof. intros (? & H1 & _) (? & H2 & _). congruence. Qed.

(** A bundle of the directory: a directory with a valid name and two files within
    the limit. *)
Definition bundle_at (dir : path) (n : node) (name catalog policy : string) : Prop :=
  validBundleName name = true /\
  limited (dir ++ [name; "catalog.yaml"]) maxPolicyFileSize n catalog /\
  limited (dir ++ [name; "policy.yaml"]) maxPolicyFileSize n policy.

Definition policy_repo (catalog policy : string) : repository :=
  artifact_repo ["latest"] (gemara_layers catalog policy).

Lemma seed_entries_spec dir l s w :
  let '(s', w') := seed_entries dir s l w in
  w_fs w' = w_fs w /\
  (forall key, repos s' !! key = repos s !! key \/
     exists name catalog policy, key = "policies/" +:+ name /\ name ∈ l.*1 /\ bundle_at dir (w_fs w) name catalog policy /\
       repos s' !! key = Some (policy_repo catalog policy)) /\
  (no_faults w -> forall name x catalog policy, (name, x) ∈ l -> is_dir (Some x) = true ->
     bundle_at dir (w_fs w) name catalog policy ->
     repos s' !! ("policies/" +:+ name) = Some (policy_repo catalog policy)).
Proof.
  revert s w. induction l as [|[name x] l IH]; intros s w.
  { cbn. split_and!; [done|by left|]. intros _ ???? H. by apply elem_of_nil in H. }
  cbn [seed_entries]. unfold io_bind at 1.
  assert (exists s1 w1, seed_entry dir s name x w = (s1, w1) /\ w_fs w1 = w_fs w /\ w_fault w1 = w_fault w /\
    (s1 = s \/ exists catalog policy, bundle_at dir (w_fs w) name catalog policy /\
       s1 = addArtifact s ("policies/" +:+ name) ["latest"] (gemara_layers catalog policy)) /\
    (no_faults w -> is_dir (Some x) = true -> forall catalog policy, bundle_at dir (w_fs w) name catalog policy ->
       s1 = addArtifact s ("policies/" +:+ name) ["latest"] (gemara_layers catalog policy)))
    as (s1 & w1 & -> & Hf1 & Ht1 & Hs1 & Hc1).
  { unfold seed_entry, io_bind, io_ret. destruct (is_dir (Some x)) eqn:Ed; cbn [negb].
    2: { eexists _, _. split; [done|]. split_and!; [done|done|by left|done]. }
    destruct (validBundleName name) eqn:Ev; cbn [negb].
    2: { eexists _, _. split; [done|]. split_and!; [done|done|by left|]. intros _ _ ?? [Hv _]. congruence. }
    pose proof (read_bundle_looks (dir ++ [name]) w) as H. unfold bundle_at. cbn beta in H.
    rewrite <-!app_assoc in H. cbn in H.
    destruct (read_bundle (dir ++ [name]) w) as [[[catalog policy]|e] w1]; destruct H as (Hf & Ht & Ha & Hn);
      eexists _, _; (split; [done|]); (split_and!; [done|done| |]).
    - right. exists catalog, policy. by destruct (Ha _ eq_refl).
    - intros Hw _ c p (_ & Hc & Hp). by injection (Hn Hw (c, p) (conj Hc Hp)) as -> ->.
    - by left.
    - intros Hw _ c p (_ & Hc & Hp). by specialize (Hn Hw (c, p) (conj Hc Hp)). }
  specialize (IH s1 w1). destruct (seed_entries dir s1 l w1) as [s' w']. destruct IH as (Hf & Hk & Hc).
  rewrite Hf1 in *. cbn [fmap list_fmap fst]. split_and!; [done| |].
  - intros key. destruct (Hk key) as [H|(nm & c & p & H1 & H2 & H3 & H4)].
    + rewrite H. destruct Hs1 as [->|(c & p & Hb & ->)]; [by left|]. rewrite addArtifact_repo.
      destruct (decide (key = "policies/" +:+ name)) as [->|Hne].
      * right. exists name, c, p. rewrite lookup_insert_eq. split_and!; [done|by left|done|done].
      * left. by rewrite lookup_insert_ne.
    + right. exists nm, c, p. split_and!; [done|by right|done|done].
  - intros Hw nm y c p Hin Hd Hb. assert (no_faults w1) as Hw1 by (intros t; rewrite Ht1; apply Hw).
    apply elem_of_cons in Hin as [[= -> ->]|Hin]; [|by eapply Hc].
    destruct (Hk ("policies/" +:+ name)) as [->|(nm & c' & p' & Hkey & _ & Hb' & ->)].
    + rewrite (Hc1 Hw Hd _ _ Hb), addArtifact_repo. apply lookup_insert_eq.
    + apply append_inj_l in Hkey as <-. destruct Hb as (_ & Hb1 & Hb2), Hb' as (_ & Hb1' & Hb2').
      by rewrite (limited_unique _ _ _ _ _ Hb1 Hb1'), (limited_unique _ _ _ _ _ Hb2 Hb2').
Qed.

(** The directory is read exactly.  Whatever calls fail, reading it changes nothing
    on disk, and each repository is either as it was or made of the two files, as they
    are and within the limit, of a subdirectory with a valid name; when no call fails
    there is one for each such subdirectory. *)
Theorem seedFromDirectory_exact s dir w :
  let '(s', w') := seedFromDirectory s dir w in
  w_fs w' = w_fs w /\
  (forall key, repos s' !! key = repos s !! key \/
     exists name catalog policy, key = "policies/" +:+ name /\ bundle_at dir (w_fs w) name catalog policy /\
       repos s' !! key = Some (policy_repo catalog policy)) /\
  (no_faults w -> forall name catalog policy, bundle_at dir (w_fs w) name catalog policy ->
     repos s' !! ("policies/" +:+ name) = Some (policy_repo catalog policy)).
Proof.
  unfold seedFromDirectory, io_bind, os_ReadDir, os_call, io_ret.
  destruct (w_fault w (w_tick w)) as [e|] eqn:E.
  { cbn. split_and!; [done|by left|]. intros Hn. by rewrite Hn in E. }
  assert (forall name catalog policy, bundle_at dir (w_fs w) name catalog policy ->
    exists m x, World.get dir (w_fs w) = Some (Dir m) /\ m !! name = Some x /\ is_dir (Some x) = true) as Hdir.
  { intros name c p (_ & (perm & Hc & _) & _). rewrite get_app in Hc.
    destruct (World.get dir (w_fs w)) as [[|m]|]; [done| |done]. cbn in Hc.
    destruct (m !! name) as [[|m']|] eqn:Hm; [done| |done]. by exists m, (Dir m'). }
  destruct (World.get dir (w_fs w)) as [[data perm|m]|] eqn:Hp; cbn.
  1,3: split_and!; [done|by left|]; intros _ ??? Hb; by destruct (Hdir _ _ _ Hb) as (? & ? & ? & _).
  pose proof (seed_entries_spec dir (dir_list m) s (tick (set_fs (w_fs w) w))) as H.
  destruct (seed_entries _ _ _ _) as [s' w']. destruct H as (Hf & Hk & Hc). split_and!; [done| |].
  - intros key. destruct (Hk key) as [H|(name & c & p & ? & _ & ? & ?)]; [by left|right]. by exists name, c, p.
  - intros Hn name c p Hb. destruct (Hdir _ _ _ Hb) as (m' & x & [= <-] & Hx & Hd).
    by apply (Hc Hn name x); [apply dir_list_elem|..].
Qed.
End directory.

(** ** The registry and its client

    The remote repository of oras resolves a reference by a HEAD request for its
    manifest, and reports a missing one as not found. *)
Definition mock_network {docJSON : Codec document} (host : string) (s : contentStore) : RegistryNetwork :=
  fun _ repoName reference =>
    let w := handleOCI s (head (manifest_path (trim_prefix repoName (host +:+ "/")) reference)) no_response in
    if bool_decide (RW_Status w = Some 200)
    then Ok (default "" (Header_Get "Docker-Content-Digest" w))
    else if bool_decide (RW_Status w = Some 404) then Err (Sentinel ErrRefNotFound)
    else Err (Errorf "unexpected status").

(** The client of complyctl finds what was pushed: a reference of the repository
    resolves to the digest of the manifest exactly if it is one of the tags or that
    digest, and is reported as a missing version otherwise. *)
Theorem client_finds_pushed {hs : HostSyntax} {manifestJSON : Codec ociManifest} {configJSON : Codec (gmap string string)}
    {docJSON : Codec document} s repoName names layers c modulePath host reference :
  fetcher c = None -> modulePath <> "" ->
  ParseReference (buildRef (registryHost c) modulePath) = Ok (MkReference host repoName reference) ->
  is_ok (ParseReference (host +:+ "/" +:+ repoName)) = true ->
  routable repoName -> reference_text reference ->
  let s' := addArtifact s repoName names layers in
  let digest := computeDigest (marshalled (policy_manifest layers)) in
  let r := DefinitionVersion (net := mock_network host s') c modulePath in
  if decide (reference ∈ names \/ names <> [] /\ reference = digest) then r = Ok (digest, reference)
  else exists e, r = Err e /\ error_is e ErrVersionNotFound = true.
Proof.
  intros Hf Hm Hp Hr Hn Href. cbv zeta. unfold DefinitionVersion.
  rewrite bool_decide_eq_false_2 by done. rewrite Hf. unfold fetchVersion, newRepository. rewrite Hp.
  cbn [wrap_err result_bind Ref_Registry Ref_Repository Ref_Reference].
  destruct (ParseReference (host +:+ "/" +:+ repoName)) as [r0|] eqn:E; [|done]. cbn [wrap_err result_bind].
  rewrite bool_decide_eq_false_2 by apply Href. unfold remote_resolve, mock_network.
  rewrite <-append_assoc, trim_prefix_app.
  set (s' := addArtifact s repoName names layers). unfold head. rewrite handle_manifest by done.
  assert (repos s' !! repoName = Some (artifact_repo names layers)) as Hs by apply lookup_insert_eq.
  pose proof (artifact_repo_resolve names layers reference) as Hres. cbv zeta in Hres.
  change (manifestDigest (artifact_of (policy_manifest layers)))
    with (computeDigest (marshalled (policy_manifest layers))) in Hres.
  unfold serveManifest. cbn [Method]. change (bool_decide ("HEAD" = "GET")) with false.
  change (bool_decide ("HEAD" = "HEAD")) with true. cbn [negb andb]. rewrite Hs, Hres.
  case_decide; [done|]. unfold writeOCIError, Encode.
  destruct (marshal _); cbn; by eexists.
Qed.

(** A separator inside a name takes the request for another one: the manifest of
    this repository cannot be pulled, its path is answered with the tags of policies. *)
Theorem tags_list_misroutes {docJSON : Codec document} s :
  let path := manifest_path "policies/tags/listing" "latest" in
  handleOCI s (get path) no_response = serveTagsList s "policies" no_response /\
  routable "policies" /\ ~ routable "policies/tags/listing".
Proof.
  cbv zeta. split; [reflexivity|]. split; [by split_and!|]. intros (_ & H & _). vm_compute in H. discriminate H.
Qed.
