(* ===== verification/Cli.v ===== *)
(** * The command line (cmd/complyctl/cli/{root,options,list,get,generate,scan,
      version}.go, internal/version/version.go)

    What surrounds the commands: the directories and options each resolves before
    its run, in the code's order, so that here every command goes from its flags to
    its answer; the completion of targets; and the version text.  cobra itself
    (parsing flags, help, dispatch) and deadlines are not modelled. *)
From S2P Require Import Prelude GoStrings OciRef World State Complypack Sync Config Workspace Provider.
From S2P Require Import Generation Resolver Evaluator Terminal Report Scan Get Init.

(** ** Directories *)

Definition cache_and_data (os : goos) (env : environ) : result (path * path) :=
  try cacheDir := ResolveCacheDir os env
    orelse (fun e => Wrapf "failed to resolve cache directory: " e "") in
  try dataDir := ResolveDataDir os env
    orelse (fun e => Wrapf "failed to resolve data directory: " e "") in
  Ok (cacheDir, dataDir).

(** [listOptions.complete] and [getOptions.complete] have the same body, and so have
    those of generate and scan. *)
Definition list_complete := cache_and_data.
Definition get_complete := cache_and_data.

Definition all_directories (os : goos) (env : environ) : result scan_dirs :=
  try d := cache_and_data os env in
  try providerDir := ResolveProviderDir os env
    orelse (fun e => Wrapf "failed to resolve provider directory: " e "") in
  Ok (MkScanDirs d.1 d.2 providerDir).
Definition generate_complete := all_directories.
Definition scan_complete := all_directories.

(** [Common.ResolveWorkspace] *)
Definition ResolveWorkspace (cwd : path) (os : goos) (env : environ) (flag : string) : io (result path) :=
  ResolveWorkspaceDir cwd os env flag.

(** ** The commands *)

Section commands.
  Context {hs : HostSyntax} {stCodec : Codec State} {packCodec : Codec PackConfig}
    {gsCodec : Codec GenerationState} {cfgCodec : Codec WorkspaceConfig} {yaml : GemaraYAML}
    `{Oras} {reader : StoreReader} {launcher : Launcher}.
  Context (os : goos) (cwd : path).

(** [printGemaraPolicyTable] *)
Definition policy_headers : list string :=
  ["POLICY ID"; "VERSION"; "EVALUATOR"; "CONTROLS"; "DIGEST"; "VERIFIED"].
Definition printGemaraPolicyTable (rows : list (list string)) : string :=
  ShowPlainTable policy_headers (sort_rows rows).

Definition list_run (cacheDir dataDir : path) (workspace policyFlag : string) : io (result string) := fun w =>
  (do! baseDir := ResolveWorkspace cwd os (w_env w) workspace orelse (fun e => e) in
   do! cfg := loadWorkspaceConfig cwd baseDir orelse (fun e => e) in
   do! rows := collect_rows cacheDir dataDir cfg policyFlag orelse (fun e => e) in
   io_ret (Ok (printGemaraPolicyTable rows))) w.

Definition listCmd (workspace policyFlag : string) : io (result string) := fun w =>
  match list_complete os (w_env w) with
  | Err e => (Err e, w)
  | Ok (cacheDir, dataDir) => list_run cacheDir dataDir workspace policyFlag w
  end.

Definition generateCmd {times : TimeText} (workspace policyFlag : string) : io (result string) := fun w =>
  match generate_complete os (w_env w) with
  | Err e => (Err e, w)
  | Ok dirs =>
      (do! baseDir := ResolveWorkspace cwd os (w_env w) workspace orelse (fun e => e) in
       generate_run (loader := Loader (sd_cache dirs)) cwd dirs policyFlag baseDir) w
  end.

(** [getCmd]: the joined error of the run is its answer. *)
Definition getCmd {vs : Verifiers} {net : RegistryNetwork} (os_TempDir : path) (NewCredentialFunc : result unit)
    (workspace : string) (skipVerify : bool) : io (result unit) := fun w =>
  match get_complete os (w_env w) with
  | Err e => (Err e, w)
  | Ok (cacheDir, dataDir) =>
      (do! baseDir := ResolveWorkspace cwd os (w_env w) workspace orelse (fun e => e) in
       do! cfg := loadWorkspaceConfig cwd baseDir orelse (fun e => e) in
       let! err := get_run (loader := Loader cacheDir) os_TempDir NewCredentialFunc cacheDir dataDir baseDir
                     cfg skipVerify in
       io_ret (match err with None => Ok tt | Some e => Err e end)) w
  end.

(** The flags of scan; a flag has a value and whether it was given. *)
Record scanFlags := MkScanFlags {
  SF_Workspace : string;
  SF_Target : string;
  SF_PolicyID : string;
  SF_Formats : list string;
  SF_ShowPassing : bool;
  SF_ShowPassingChanged : bool;
  SF_LogFormat : string;
  SF_LogFormatChanged : bool;
}.

(** What [RunE] settles before anything runs. *)
Definition scan_options (env : environ) (f : scanFlags) : result (scan_dirs * list string * bool * string) :=
  check validate (SF_Formats f) in
  let formats := resolveFormats (SF_Formats f) in
  try dirs := scan_complete os env in
  try showPassing := resolveShowPassing env (SF_ShowPassing f) (SF_ShowPassingChanged f) in
  let logFormat := resolveLogFormat env (SF_LogFormat f) (SF_LogFormatChanged f) in
  check validateLogFormat logFormat in
  Ok (dirs, formats, showPassing, logFormat).

Definition scanCmd (deadline : string -> string -> bool) (now : string -> nat -> string)
    {times : TimeText} {enc : LogEncoders} {oscal : Oscal} {sarif : Sarif} (f : scanFlags)
    : io (result unit * scan_console) := fun w =>
  match scan_options (w_env w) f with
  | Err e => ((Err e, MkScanConsole [] None), w)
  | Ok (dirs, formats, showPassing, logFormat) =>
      (let! r := ResolveWorkspace cwd os (w_env w) (SF_Workspace f) in
       match r with
       | Err e => io_ret (Err e, MkScanConsole [] None)
       | Ok baseDir =>
           scan_run (loader := Loader (sd_cache dirs)) deadline now cwd dirs formats logFormat showPassing
             (SF_Target f) (SF_PolicyID f) baseDir
       end) w
  end.

(** Shell completion of the target argument. *)
Definition completeTargetIDs (args : list string) : io (list string) := fun w =>
  if bool_decide (args <> []) then ([], w)
  else
    (let! baseDir := ResolveWorkspaceDir cwd os (w_env w) "" in
     match baseDir with
     | Err _ => io_ret []
     | Ok baseDir =>
         let! cfg := loadWorkspaceConfig cwd baseDir in
         io_ret (match cfg with Ok cfg => T_ID <$> WC_Targets cfg | Err _ => [] end)
     end) w.
End commands.

(** ** The version *)

(** What the linker sets, and what the runtime says. *)
Record buildInfo := MkBuildInfo {
  bi_commit : string; bi_buildDate : string; bi_version : string; bi_gitTreeState : string;
  bi_GoVersion : string; bi_GOOS : string; bi_GOARCH : string;
}.

Definition version_with_state (b : buildInfo) : string :=
  let version := if bool_decide (bi_version b = "") then "v0.0.0-unknown" else bi_version b in
  if bool_decide (bi_gitTreeState b = "") then version else version +:+ "+" +:+ bi_gitTreeState b.

Definition tab : string := String "009" "".
Definition WriteVersion (b : buildInfo) : string :=
  "Version:" +:+ tab +:+ version_with_state b +:+ nl +:+
  "Go Version:" +:+ tab +:+ bi_GoVersion b +:+ nl +:+
  "Git Commit:" +:+ tab +:+ bi_commit b +:+ nl +:+
  "Build Date:" +:+ tab +:+ bi_buildDate b +:+ nl +:+
  "Platform:" +:+ tab +:+ bi_GOOS b +:+ "/" +:+ bi_GOARCH b +:+ nl.

(** ** Options are settled first *)

Section options.
  Context {hs : HostSyntax} {stCodec : Codec State} {packCodec : Codec PackConfig}
    {gsCodec : Codec GenerationState} {cfgCodec : Codec WorkspaceConfig} {yaml : GemaraYAML}
    `{Oras} {reader : StoreReader} {launcher : Launcher}.
  Context (os : goos) (cwd : path).
  Context (deadline : string -> string -> bool) (now : string -> nat -> string)
    {times : TimeText} {enc : LogEncoders} {oscal : Oscal} {sarif : Sarif}.

(** The workspace of a run is looked at, never made. *)
Lemma ResolveWorkspace_reads env flag w : w_fs (ResolveWorkspace cwd os env flag w).2 = w_fs w.
Proof.
  unfold ResolveWorkspace, ResolveWorkspaceDir, io_try, io_bind, io_lift, io_ret, os_Stat, os_call.
  destruct (expand_tilde _ _ _ _) as [p|e]; [|done]. destruct (w_fault w (w_tick w)) as [e|]; cbn.
  { by destruct (error_is e ErrNotExist). }
  destruct (get p (w_fs w)) as [x|]; cbn; [by destruct x|done].
Qed.

(** What the settled options of scan are: known, distinct, concrete formats, a known
    log format, and the value of the flag for passing results if it was given. *)
Definition options_fit (env : environ) (f : scanFlags)
    (o : scan_dirs * list string * bool * string) : Prop :=
  let '(dirs, formats, showPassing, logFormat) := o in
  scan_complete os env = Ok dirs /\
  NoDup formats /\ (forall x, x ∈ formats -> x ∈ allConcreteFormats) /\
  (SF_Formats f = [OutputFormatAll] /\ formats = allConcreteFormats \/ formats = SF_Formats f) /\
  logFormat ∈ [EvalLogFormatYAML; EvalLogFormatJSON] /\
  (SF_LogFormatChanged f = true -> logFormat = SF_LogFormat f) /\
  (SF_ShowPassingChanged f = true -> showPassing = SF_ShowPassing f).

Lemma scan_options_fit env f o : scan_options os env f = Ok o -> options_fit env f o.
Proof.
  unfold scan_options. intros Ho. apply result_bind_ok in Ho as ([] & Hv & Ho).
  apply result_bind_ok in Ho as (dirs & Hd & Ho). apply result_bind_ok in Ho as (sp & Hsp & Ho).
  apply result_bind_ok in Ho as ([] & Hlf & Ho). injection Ho as <-. unfold options_fit.
  apply guard_err_ok, negb_false_iff, contains_spec in Hlf.
  assert (is_ok (validate (SF_Formats f)) = true) as Hok by by rewrite Hv.
  assert (NoDup (resolveFormats (SF_Formats f)) /\ (forall x, x ∈ resolveFormats (SF_Formats f) -> x ∈ allConcreteFormats) /\
    (SF_Formats f = [OutputFormatAll] /\ resolveFormats (SF_Formats f) = allConcreteFormats \/
     resolveFormats (SF_Formats f) = SF_Formats f)) as (H1 & H2 & H3).
  { unfold resolveFormats. case_bool_decide as Hall.
    - split; [|split; [done|by left]]. vm_compute. repeat constructor; set_solver.
    - unfold validate in Hv. case_bool_decide as He; [rewrite He; split; [constructor|split; [by intros x ?%elem_of_nil|by right]]|].
      apply result_bind_ok in Hv as ([] & Hdup & Hv).
      assert (is_ok (reject_duplicates (SF_Formats f) ∅) = true) as Hd1 by by rewrite Hdup.
      apply reject_duplicates_ok in Hd1 as [Hnd _]. split; [done|]. split; [|by right].
      destruct (contains OutputFormatAll (SF_Formats f)) eqn:Ec.
      + apply contains_spec in Ec. apply guard_err_ok in Hv. destruct (SF_Formats f) as [|x [|y l]]; [done| |done].
        apply list_elem_of_singleton in Ec as <-. done.
      + assert (is_ok (reject_unknown (SF_Formats f)) = true) as Hu by by rewrite Hv.
        apply reject_unknown_ok in Hu. by apply Forall_forall. }
  split_and!; [done|done|done|done|done| |].
  - intros Hc. unfold resolveLogFormat. by rewrite Hc.
  - intros Hc. unfold resolveShowPassing in Hsp. rewrite Hc in Hsp. cbn in Hsp. congruence.
Qed.

(** Scan settles its options before anything else.  Either they do not fit, and the
    command fails without printing a report or touching the world; or they do, and the
    command is the scan of the resolved workspace with them. *)
Theorem scan_settles_options f w :
  match scan_options os (w_env w) f with
  | Err e => scanCmd os cwd deadline now f w = ((Err e, MkScanConsole [] None), w)
  | Ok o =>
      options_fit (w_env w) f o /\
      match ResolveWorkspace cwd os (w_env w) (SF_Workspace f) w with
      | (Err e, w') => scanCmd os cwd deadline now f w = ((Err e, MkScanConsole [] None), w') /\ w_fs w' = w_fs w
      | (Ok baseDir, w') =>
          let '(dirs, formats, showPassing, logFormat) := o in
          scanCmd os cwd deadline now f w =
          scan_run (loader := Loader (sd_cache dirs)) deadline now cwd dirs formats logFormat showPassing
            (SF_Target f) (SF_PolicyID f) baseDir w'
      end
  end.
Proof.
  pose proof (ResolveWorkspace_reads (w_env w) (SF_Workspace f) w) as Hr. unfold scanCmd.
  destruct (scan_options os (w_env w) f) as [o|e] eqn:E; [|done]. split; [by apply scan_options_fit|].
  destruct o as [[[dirs formats] sp] lf]. unfold io_bind, io_ret.
  by destruct (ResolveWorkspace _ _ _ _ w) as [[baseDir|e] w'].
Qed.
End options.
