(* ===== verification/Logging.v ===== *)
(** * The log (pkg/log/log.go; lazyLogWriter and the hooks of
      cmd/complyctl/cli/root.go)

    The logger the program hands to go-plugin adapts one interface (hclog) to the
    levels and methods of another (charmbracelet/log, in the vendor directory, whose
    filter and derived loggers are those of its source).  How a line is laid out and
    coloured is a parameter ([LineFormat]).  Lines go to a writer: the lazy log file,
    or, in debug mode, standard error and that file.  An open file is the path it was
    opened at; the write position is its end, since it is opened once and truncated. *)
From stdpp Require Import gmap.
From S2P Require Import Prelude GoStrings World Config Workspace.

(** ** Levels *)

(** [hclog.Level] and [charmlog.Level] are integers. *)
Definition hclog_NoLevel : Z := 0.
Definition hclog_Trace : Z := 1.
Definition hclog_Debug : Z := 2.
Definition hclog_Info : Z := 3.
Definition hclog_Warn : Z := 4.
Definition hclog_Error : Z := 5.
Definition hclog_Off : Z := 6.
Definition DebugLevel : Z := -4.
Definition InfoLevel : Z := 0.
Definition WarnLevel : Z := 4.
Definition ErrorLevel : Z := 8.
Definition FatalLevel : Z := 12.

(** The map's answer for a level it does not hold is zero, the level of information. *)
Definition hclogCharmLevels (level : Z) : Z :=
  if (level =? hclog_Trace)%Z then DebugLevel
  else if (level =? hclog_Debug)%Z then DebugLevel
  else if (level =? hclog_Warn)%Z then WarnLevel
  else if (level =? hclog_Error)%Z then ErrorLevel
  else if (level =? hclog_Off)%Z then FatalLevel
  else InfoLevel.

(** ** The logger *)

(** A line: its level, the prefix of the logger, the message, keys and values. *)
Record log_line := MkLogLine {
  ln_level : Z; ln_prefix : string; ln_message : string; ln_keyvals : list string }.

Record CharmHclog := MkCharmHclog {
  ch_level : Z;             (* of the charm logger *)
  ch_prefix : string;
  ch_fields : list string;
  ch_logLevel : Z;          (* the adapter's own *)
}.

(** [charmlog.Logger.Log] *)
Definition charm_Log (c : CharmHclog) (level : Z) (msg : string) (keyvals : list string) : list log_line :=
  if (level <? ch_level c)%Z then []
  else [MkLogLine level (ch_prefix c) msg (ch_fields c ++ keyvals)].

Definition NewLogger : CharmHclog := MkCharmHclog InfoLevel "" [] hclog_Info.

Class Sprintf := sprintf : string -> list string -> string.

Definition ch_Log {fmt : Sprintf} (c : CharmHclog) (level : Z) (msg : string) (args : list string)
    : list log_line := charm_Log c (hclogCharmLevels level) (sprintf msg args) [].
Definition ch_Trace (c : CharmHclog) (msg : string) (args : list string) := charm_Log c DebugLevel msg args.
Definition ch_Debug (c : CharmHclog) (msg : string) (args : list string) := charm_Log c DebugLevel msg args.

Definition verbose_message : string := "generated finding for rule".

Definition ch_Info (c : CharmHclog) (msg : string) (args : list string) : list log_line :=
  if contains_str msg verbose_message then
    if (hclog_Debug <? ch_logLevel c)%Z then [] else charm_Log c DebugLevel msg args
  else charm_Log c InfoLevel msg args.

Definition ch_Warn (c : CharmHclog) (msg : string) (args : list string) := charm_Log c WarnLevel msg args.
Definition ch_Error (c : CharmHclog) (msg : string) (args : list string) := charm_Log c ErrorLevel msg args.

(** [IsTrace], [IsDebug], [IsInfo], [IsWarn] and [IsError] have the same body. *)
Definition ch_IsLevel (_ : CharmHclog) : bool := false.

Definition ch_With (c : CharmHclog) (args : list string) : CharmHclog :=
  MkCharmHclog (ch_level c) (ch_prefix c) (ch_fields c ++ args) (ch_logLevel c).
Definition ch_Name (c : CharmHclog) : string := ch_prefix c.
Definition ch_Named (c : CharmHclog) (name : string) : CharmHclog :=
  MkCharmHclog (ch_level c) name (ch_fields c) (ch_logLevel c).
Definition ch_ResetNamed (c : CharmHclog) (name : string) : CharmHclog :=
  MkCharmHclog (ch_level c) name (ch_fields c) (ch_logLevel c).
Definition ch_SetLevel (c : CharmHclog) (level : Z) : CharmHclog :=
  MkCharmHclog (hclogCharmLevels level) (ch_prefix c) (ch_fields c) level.
Definition ch_GetLevel (c : CharmHclog) : Z := ch_logLevel c.

(** ** The log file *)

Definition LogFileName : string := "complyctl.log".

(** [os.OpenFile] with [O_CREATE|O_WRONLY|O_TRUNC] leaves what writing nothing does. *)
Definition os_OpenTrunc (p : path) (perm : Z) : io (result unit) := os_WriteFile p "" perm.

Definition append_entry (name data : string) (m : gmap string node) : option (gmap string node) :=
  match m !! name with
  | Some (File old perm) => Some (<[name := File (old +:+ data) perm]> m)
  | _ => None
  end.

(** [f.Write]: a file that was removed is written to all the same, out of sight. *)
Definition file_Write (p : path) (data : string) : io (result Z) := os_call (fun n =>
  let len := Z.of_nat (String.length data) in
  match split_last p with
  | None => Ok (len, n)
  | Some (d, name) => match alter_at (append_entry name data) d n with
                      | Some n' => Ok (len, n')
                      | None => Ok (len, n)
                      end
  end).

(** [baseDir] is unset, which stands for the current directory, or absolute. *)
Record lazyLogWriter := MkLazyLogWriter {
  lw_once : bool;
  lw_file : option path;
  lw_baseDir : option path;
}.
Definition new_lazyLogWriter : lazyLogWriter := MkLazyLogWriter false None None.

Definition lw_SetWorkspace (baseDir : path) (w : lazyLogWriter) : lazyLogWriter :=
  MkLazyLogWriter (lw_once w) (lw_file w) (Some baseDir).

Definition lw_Close (w : lazyLogWriter) : io (result unit) :=
  match lw_file w with Some _ => os_Close | None => io_ret (Ok tt) end.

Definition log_dir (cwd : path) (w : lazyLogWriter) : path := default cwd (lw_baseDir w) ++ [WorkspaceDir].

(** The body of [once.Do]. *)
Definition lw_open (cwd : path) (w : lazyLogWriter) : io (option path) :=
  let logDir := log_dir cwd w in
  let! st := os_Stat logDir in
  match st with
  | Err _ => io_ret None
  | Ok _ =>
      let logPath := logDir ++ [LogFileName] in
      let! f := os_OpenTrunc logPath 384 in
      io_ret (match f with Ok _ => Some logPath | Err _ => None end)
  end.

Definition lw_Write (cwd : path) (p : string) (w : lazyLogWriter) : io (result Z * lazyLogWriter) :=
  let! w := (if lw_once w then io_ret w
             else let! f := lw_open cwd w in io_ret (MkLazyLogWriter true f (lw_baseDir w))) in
  match lw_file w with
  | None => io_ret (Ok (Z.of_nat (String.length p)), w)
  | Some f => let! r := file_Write f p in io_ret (r, w)
  end.

(** ** Writers

    A writer over a state it may change: here the lazy log file and the text standard
    error has received. *)
Definition writer (S : Type) : Type := string -> S -> io (result Z * S).

(** [teeWriter.Write]: the secondary's answer is dropped. *)
Definition tee_Write {S} (primary secondary : writer S) : writer S := fun p s =>
  let! r := secondary p s in
  primary p r.2.

Record log_state := MkLogState { ls_file : lazyLogWriter; ls_stderr : string }.

Definition file_writer (cwd : path) : writer log_state := fun p s =>
  let! r := lw_Write cwd p (ls_file s) in
  io_ret (r.1, MkLogState r.2 (ls_stderr s)).
Definition stderr_writer : writer log_state := fun p s =>
  io_ret (Ok (Z.of_nat (String.length p)), MkLogState (ls_file s) (ls_stderr s +:+ p)).

(** ** The hooks of the root command *)

(** A logger and the writer it was made with. *)
Definition enableDebug (cwd : path) (debug : bool) (logger : CharmHclog * writer log_state)
    : CharmHclog * writer log_state :=
  if debug then (ch_SetLevel NewLogger hclog_Debug, tee_Write stderr_writer (file_writer cwd)) else logger.

(** [PersistentPreRun]: the writer, the logger and the legacy warning. *)
Definition persistentPreRun (os : goos) (cwd : path) (workspace : string) (debug : bool)
    (lw : lazyLogWriter) (logger : CharmHclog * writer log_state)
    : io (lazyLogWriter * (CharmHclog * writer log_state) * option (path * path * path)) := fun w =>
  (let! baseDir := ResolveWorkspaceDir cwd os (w_env w) workspace in
   let lw := lw_SetWorkspace (match baseDir with Ok d => d | Err _ => cwd end) lw in
   let! legacy := CheckLegacyDir os (w_env w) in
   io_ret (lw, enableDebug cwd debug logger, legacy)) w.

(** The lines of a run, each formatted and written. *)
Class LineFormat := format_line : log_line -> string.

Fixpoint write_lines {fmt : LineFormat} (out : writer log_state) (lines : list log_line) (s : log_state)
    : io log_state :=
  match lines with
  | [] => io_ret s
  | line :: rest =>
      let! r := out (format_line line) s in
      write_lines out rest r.2
  end.

(** ** The log is complete and stays in its place *)

Section log_facts.
  Context {fmt : LineFormat} (cwd : path).

Definition log_text (lines : list log_line) : string := String.concat "" (format_line <$> lines).

Lemma log_text_cons l lines : log_text (l :: lines) = format_line l +:+ log_text lines.
Proof. unfold log_text. destruct lines; cbn; [by rewrite append_nil_r|done]. Qed.

Definition log_path (lw : lazyLogWriter) : path := log_dir cwd lw ++ [LogFileName].

(** The file that is open, if any, is the log of the workspace. *)
Definition lw_inv (p : path) (lw : lazyLogWriter) : Prop :=
  if lw_once lw then lw_file lw = None \/ lw_file lw = Some p else log_path lw = p.

Lemma append_entry_other name data m m' x : append_entry name data m = Some m' -> x <> name -> m' !! x = m !! x.
Proof.
  unfold append_entry. destruct (m !! name) as [[old perm|]|]; [|done|done]. intros [= <-] Hx.
  by rewrite lookup_insert_ne.
Qed.

Lemma preserves_file_Write d name data : preserves (diverges (d ++ [name])) (file_Write (d ++ [name]) data).
Proof.
  unfold file_Write. rewrite split_last_snoc. apply preserves_call. intros n a n' Hop q Hq.
  destruct (alter_at _ d n) as [n1|] eqn:E; [|by injection Hop as _ <-]. injection Hop as _ <-.
  eapply alter_entry_diverges; [exact E| |exact Hq]. intros. by eapply append_entry_other.
Qed.

Lemma file_Write_fault p data w : w_fault (file_Write p data w).2 = w_fault w.
Proof. unfold file_Write, os_call. by repeat case_match. Qed.

Lemma OpenTrunc_fault p perm w : w_fault (os_OpenTrunc p perm w).2 = w_fault w.
Proof. unfold os_OpenTrunc, os_WriteFile, os_call. by repeat case_match. Qed.

Lemma file_Write_run d name data w old perm :
  no_faults w -> get (d ++ [name]) (w_fs w) = Some (File old perm) ->
  get (d ++ [name]) (w_fs (file_Write (d ++ [name]) data w).2) = Some (File (old +:+ data) perm).
Proof.
  intros Hn Hg. unfold file_Write, os_call. rewrite Hn, split_last_snoc.
  rewrite get_app in Hg. destruct (get d (w_fs w)) as [[|m]|] eqn:Ed; [done| |done]. cbn in Hg.
  destruct (m !! name) as [x|] eqn:Ex; [|done]. injection Hg as ->.
  assert (append_entry name data m = Some (<[name := File (old +:+ data) perm]> m)) as Ha
    by (unfold append_entry; by rewrite Ex).
  destruct (alter_at_is_Some _ _ _ _ _ Ed Ha) as [n' E]. rewrite E. cbn.
  destruct (alter_at_get _ _ _ _ E) as (m0 & m1 & H0 & H1 & H2).
  rewrite get_app, H2. cbn. assert (m0 = m) as -> by congruence. rewrite Ha in H1. injection H1 as <-.
  by rewrite lookup_insert_eq.
Qed.

(** A write, whatever fails. *)
Lemma lw_Write_frame d lw data w :
  lw_inv (d ++ [LogFileName]) lw ->
  let r := lw_Write cwd data lw w in
  lw_once r.1.2 = true /\ lw_inv (d ++ [LogFileName]) r.1.2 /\ w_fault r.2 = w_fault w /\
  (forall q, diverges (d ++ [LogFileName]) q -> get q (w_fs r.2) = get q (w_fs w)).
Proof.
  intros Hi. set (p := d ++ [LogFileName]).
  assert (exists lw1 w1, (if lw_once lw then io_ret lw else
    let! f := lw_open cwd lw in io_ret (MkLazyLogWriter true f (lw_baseDir lw))) w = (lw1, w1) /\
    lw_once lw1 = true /\ (lw_file lw1 = None \/ lw_file lw1 = Some p) /\ w_fault w1 = w_fault w /\
    forall q, diverges p q -> get q (w_fs w1) = get q (w_fs w)) as (lw1 & w1 & Hopen & Ho & Hf & Ht & Hg).
  { unfold lw_inv in Hi. destruct (lw_once lw) eqn:Eo; [by exists lw, w|].
    unfold lw_open, log_path in *. apply app_inj_2 in Hi as [Hd _]; [|done]. rewrite Hd.
    unfold io_bind, io_ret, os_Stat, os_call.
    destruct (w_fault w (w_tick w)) as [e|]; [by eexists _, _; split; [done|]; split_and!; auto|].
    destruct (get d (w_fs w)) as [x|]; [|by eexists _, _; split; [done|]; split_and!; auto].
    pose proof (OpenTrunc_fault p 384 (tick (set_fs (w_fs w) w))) as Hft.
    pose proof (preserves_WriteFile d LogFileName "" 384 (tick (set_fs (w_fs w) w))) as Hfr.
    fold p in Hfr |- *. change (os_WriteFile p "" 384) with (os_OpenTrunc p 384) in Hfr.
    destruct (os_OpenTrunc p 384 _) as [[u|e] w1]; cbn in Hft, Hfr; eexists _, _; (split; [done|]);
      (split_and!; [done|cbn; by auto|done|done]). }
  assert (lw_Write cwd data lw w = match lw_file lw1 with
    | None => (Ok (Z.of_nat (String.length data)), lw1, w1)
    | Some f => let '(r, w2) := file_Write f data w1 in (r, lw1, w2) end) as ->.
  { unfold lw_Write. unfold io_bind at 1. rewrite Hopen. destruct (lw_file lw1); [|done].
    unfold io_bind, io_ret. by destruct (file_Write _ _ _). }
  assert (lw_inv p lw1) as Hi1 by (unfold lw_inv; by rewrite Ho).
  destruct Hf as [Hf|Hf]; rewrite Hf; [done|].
  pose proof (file_Write_fault p data w1) as Hft. pose proof (preserves_file_Write d LogFileName data w1) as Hfr.
  fold p in Hfr. destruct (file_Write p data w1) as [r w2]. cbn in *. split_and!; [done|done|congruence|].
  intros q Hq. by rewrite (Hfr q Hq), Hg.
Qed.

Lemma file_writer_run data s w :
  file_writer cwd data s w =
  ((( lw_Write cwd data (ls_file s) w).1.1, MkLogState (lw_Write cwd data (ls_file s) w).1.2 (ls_stderr s)),
   (lw_Write cwd data (ls_file s) w).2).
Proof. unfold file_writer, io_bind, io_ret. by destruct (lw_Write _ _ _ _) as [[r lw] w']. Qed.

(** With the tee, the file gets what it gets without it, standard error everything. *)
Lemma tee_lines lines s w :
  let r := write_lines (file_writer cwd) lines s w in
  write_lines (tee_Write stderr_writer (file_writer cwd)) lines s w =
  (MkLogState (ls_file r.1) (ls_stderr s +:+ log_text lines), r.2).
Proof.
  cbv zeta. revert s w. induction lines as [|l lines IH]; intros s w.
  { destruct s as [f e]. cbn. by rewrite append_nil_r. }
  cbn [write_lines]. unfold tee_Write at 1, io_bind. rewrite file_writer_run.
  destruct (lw_Write _ _ _ _) as [[r lw] w1]. cbn [fst snd]. unfold stderr_writer at 1, io_ret. cbn [fst snd].
  rewrite IH. cbn [ls_file ls_stderr].
  assert (forall e e', ls_file (write_lines (file_writer cwd) lines (MkLogState lw e) w1).1 =
      ls_file (write_lines (file_writer cwd) lines (MkLogState lw e') w1).1 /\
    (write_lines (file_writer cwd) lines (MkLogState lw e) w1).2 =
      (write_lines (file_writer cwd) lines (MkLogState lw e') w1).2) as He.
  { clear. revert lw w1. induction lines as [|l' lines IHl]; intros lw w1 e e'; cbn; [done|].
    unfold io_bind. rewrite !file_writer_run. cbn. apply IHl. }
  destruct (He (ls_stderr s +:+ format_line l) (ls_stderr s)) as [-> ->].
  by rewrite log_text_cons, append_assoc.
Qed.

Lemma file_lines_frame d lines s w :
  lw_inv (d ++ [LogFileName]) (ls_file s) ->
  let r := write_lines (file_writer cwd) lines s w in
  lw_inv (d ++ [LogFileName]) (ls_file r.1) /\
  (forall q, diverges (d ++ [LogFileName]) q -> get q (w_fs r.2) = get q (w_fs w)).
Proof.
  revert s w. induction lines as [|l lines IH]; intros s w Hi; [done|]. cbn [write_lines]. unfold io_bind.
  rewrite file_writer_run. destruct (lw_Write_frame d (ls_file s) (format_line l) w Hi) as (_ & Hi' & _ & Hq).
  destruct (lw_Write _ _ _ _) as [[r lw] w1]. cbn [fst snd] in *.
  destruct (IH (MkLogState lw (ls_stderr s)) w1 Hi') as [H1 H2]. split; [done|].
  intros q Hd. by rewrite (H2 q Hd), Hq.
Qed.

(** Once the file is known not to open, writing does nothing. *)
Lemma closed_lines lines s w :
  lw_once (ls_file s) = true -> lw_file (ls_file s) = None -> (write_lines (file_writer cwd) lines s w).2 = w.
Proof.
  intros Ho Hf. revert s w Ho Hf. induction lines as [|l lines IH]; intros s w Ho Hf; [done|].
  cbn [write_lines]. unfold io_bind. rewrite file_writer_run. unfold lw_Write, io_bind. rewrite Ho. unfold io_ret.
  rewrite Hf. cbn. by apply IH.
Qed.

(** Once it is open, every line is appended. *)
Lemma open_lines d lines s w old perm :
  no_faults w -> lw_once (ls_file s) = true -> lw_file (ls_file s) = Some (d ++ [LogFileName]) ->
  get (d ++ [LogFileName]) (w_fs w) = Some (File old perm) ->
  get (d ++ [LogFileName]) (w_fs (write_lines (file_writer cwd) lines s w).2) =
    Some (File (old +:+ log_text lines) perm).
Proof.
  revert s w old. induction lines as [|l lines IH]; intros s w old Hn Ho Hf Hg.
  { cbn. by rewrite append_nil_r. }
  cbn [write_lines]. unfold io_bind. rewrite file_writer_run. unfold lw_Write, io_bind. rewrite Ho. unfold io_ret.
  rewrite Hf. pose proof (file_Write_run d LogFileName (format_line l) w old perm Hn Hg) as Hr.
  pose proof (file_Write_fault (d ++ [LogFileName]) (format_line l) w) as Ht.
  destruct (file_Write _ _ w) as [r w1]. cbn [fst snd] in *.
  rewrite (IH _ w1 (old +:+ format_line l)); [by rewrite log_text_cons, append_assoc| |done|done|done].
  intros t. by rewrite Ht.
Qed.

(** C37: The log is complete and stays in its place.  Whatever calls fail, the lines of a
    run change nothing off the path of the workspace's log, nothing at all when the
    workspace has no directory of its own, and reach standard error, in debug mode,
    without exception; when no call fails and a file can be there, the log holds
    exactly the lines of this run, and a new one is readable by its owner only. *)
Theorem log_lines_exact base lines stderr w :
  let d := base ++ [WorkspaceDir] in
  let s := MkLogState (lw_SetWorkspace base new_lazyLogWriter) stderr in
  let r := write_lines (file_writer cwd) lines s w in
  let t := write_lines (tee_Write stderr_writer (file_writer cwd)) lines s w in
  t.2 = r.2 /\ ls_stderr t.1 = stderr +:+ log_text lines /\
  (forall q, diverges (d ++ [LogFileName]) q -> get q (w_fs r.2) = get q (w_fs w)) /\
  (get d (w_fs w) = None -> w_fs r.2 = w_fs w) /\
  (no_faults w -> lines <> [] -> forall m, get d (w_fs w) = Some (Dir m) -> is_dir (m !! LogFileName) = false ->
     exists perm, get (d ++ [LogFileName]) (w_fs r.2) = Some (File (log_text lines) perm) /\
       (m !! LogFileName = None -> perm = 384%Z)).
Proof.
  cbv zeta. set (d := base ++ [WorkspaceDir]). set (s := MkLogState _ _).
  rewrite tee_lines. cbn [fst snd ls_stderr]. split; [done|]. split; [done|]. split_and!.
  - apply file_lines_frame. reflexivity.
  - intros Hd. destruct lines as [|l lines]; [done|]. cbn [write_lines]. unfold io_bind at 1.
    rewrite file_writer_run. unfold lw_Write, lw_open, io_bind. cbn [lw_once s ls_file lw_SetWorkspace new_lazyLogWriter].
    change (log_dir cwd _) with d. unfold os_Stat, os_call. rewrite Hd.
    destruct (w_fault w (w_tick w)) as [e|]; unfold io_ret; cbn; by rewrite closed_lines.
  - intros Hn Hl m Hm Hf. destruct lines as [|l lines]; [done|]. cbn [write_lines]. unfold io_bind at 1.
    rewrite file_writer_run. unfold lw_Write, lw_open, io_bind.
    cbn [lw_once s ls_file lw_SetWorkspace new_lazyLogWriter].
    change (log_dir cwd _) with d. unfold os_Stat, os_call. rewrite Hn, Hm. set (w1 := tick _).
    assert (no_faults w1) as Hn1 by exact Hn. unfold io_ret.
    assert (exists w2 perm, os_OpenTrunc (d ++ [LogFileName]) 384 w1 = (Ok tt, w2) /\ no_faults w2 /\
      get (d ++ [LogFileName]) (w_fs w2) = Some (File "" perm) /\ (m !! LogFileName = None -> perm = 384%Z))
      as (w2 & perm & -> & Hn2 & Hg2 & Hp).
    { pose proof (OpenTrunc_fault (d ++ [LogFileName]) 384 w1) as Ht. unfold os_OpenTrunc in *.
      destruct (os_WriteFile (d ++ [LogFileName]) "" 384 w1) as [r w2] eqn:E.
      assert (r = Ok tt) as ->.
      { unfold os_WriteFile, os_call in E. rewrite Hn1, split_last_snoc in E.
        assert (is_Some (write_entry LogFileName "" 384 m)) as [m' Hw].
        { unfold write_entry. destruct (m !! LogFileName) as [[|]|]; [by eexists|done|by eexists]. }
        destruct (alter_at_is_Some _ _ (w_fs w1) m m' Hm Hw) as [n' Ha]. rewrite Ha in E. by injection E. }
      exists w2. destruct (os_WriteFile_ok _ _ _ _ _ _ E) as (perm & Hg & Hnew). exists perm.
      split_and!; [done|intros t; cbn in Ht; by rewrite Ht|done|]. intros Hnone. apply Hnew.
      rewrite get_app. cbn. rewrite Hm. cbn. by rewrite Hnone. }
    cbn [lw_file]. pose proof (file_Write_run d LogFileName (format_line l) w2 "" perm Hn2 Hg2) as Hr.
    pose proof (file_Write_fault (d ++ [LogFileName]) (format_line l) w2) as Ht.
    destruct (file_Write _ _ w2) as [r w3]. cbn [fst snd] in *. exists perm. split; [|done].
    rewrite (open_lines d lines _ w3 (format_line l) perm); [by rewrite log_text_cons| |done|done|done].
    intros t. by rewrite Ht.
Qed.
End log_facts.

(** ** Levels across the adapter *)

(** The hclog level of each method that logs at a fixed level. *)
Definition method_of (level : Z) : CharmHclog -> string -> list string -> list log_line :=
  if (level =? hclog_Trace)%Z then ch_Trace
  else if (level =? hclog_Debug)%Z then ch_Debug
  else if (level =? hclog_Info)%Z then ch_Info
  else if (level =? hclog_Warn)%Z then ch_Warn
  else ch_Error.

(** A message passes exactly if its level is not below the logger's, but that trace
    messages count as debug messages, and that findings count as debug messages when
    they are logged as information. *)
Theorem logger_threshold c level m msg args :
  (hclog_Trace <= level <= hclog_Error)%Z -> (hclog_Trace <= m <= hclog_Error)%Z ->
  let c' := ch_SetLevel c level in
  let m' := if ((m =? hclog_Info)%Z && contains_str msg verbose_message) || (m =? hclog_Trace)%Z
            then hclog_Debug else m in
  method_of m c' msg args <> [] <-> (level <= m')%Z.
Proof.
  unfold hclog_Trace, hclog_Error. intros Hl Hm. cbv zeta.
  assert (level = 1 \/ level = 2 \/ level = 3 \/ level = 4 \/ level = 5)%Z as Hlevel by lia.
  assert (m = 1 \/ m = 2 \/ m = 3 \/ m = 4 \/ m = 5)%Z as Hmethod by lia.
  destruct Hlevel as [->|[->|[->|[->| ->]]]], Hmethod as [->|[->|[->|[->| ->]]]];
    cbn; unfold ch_Trace, ch_Debug, ch_Info, ch_Warn, ch_Error, charm_Log; cbn;
    try (destruct (contains_str msg verbose_message); cbn); split; try done; lia.
Qed.

(** A name replaces the one before it. *)
Theorem Named_replaces c a b : ch_Name (ch_Named (ch_Named c a) b) = b.
Proof. done. Qed.

(** The logger says that it drops what it emits. *)
Theorem debug_enabled_unreported c msg args :
  ch_Debug (ch_SetLevel c hclog_Debug) msg args <> [] /\ ch_IsLevel (ch_SetLevel c hclog_Debug) = false.
Proof. by split. Qed.
