(* ===== verification/Plugin.v ===== *)
(** * A provider behind the wire (pkg/provider/{client,server,discovery}.go,
      cmd/test-provider/main.go)

    The description of a provider in the protocol; a provider as complyctl has it,
    the client side over the server side; and the provider of the end-to-end tests,
    whose state is the list of identifiers it was last configured with.  Starting the
    process and the transport itself are the launcher's part ([Launcher]). *)
From S2P Require Import Prelude GoStrings OciRef World Config Workspace Provider.

(** ** Describe *)

Record ProtoDescribeResponse := MkProtoDescribeResponse {
  PD_Healthy : bool;
  PD_Version : string;
  PD_ErrorMessage : string;
  PD_RequiredGlobalVariables : list string;
  PD_RequiredTargetVariables : list string;
  PD_OptionalTargetVariableGroups : list string;
}.

Definition Client_Describe (rpc : unit -> result ProtoDescribeResponse) (req : unit) : result DescribeResponse :=
  try protoResp := rpc tt orelse (fun e => Wrapf "Describe RPC failed: " e "") in
  Ok (MkDescribeResponse (PD_Healthy protoResp) (PD_Version protoResp) (PD_ErrorMessage protoResp)
        (PD_RequiredGlobalVariables protoResp) (PD_RequiredTargetVariables protoResp)
        (PD_OptionalTargetVariableGroups protoResp)).

Definition grpcServer_Describe (impl : ProviderImpl) (_ : unit) : result ProtoDescribeResponse :=
  try resp := Describe impl tt in
  Ok (MkProtoDescribeResponse (Desc_Healthy resp) (Desc_Version resp) (Desc_ErrorMessage resp)
        (Desc_RequiredGlobalVariables resp) (Desc_RequiredTargetVariables resp)
        (Desc_OptionalTargetVariableGroups resp)).

(** What [NewClient] hands out for a process that serves [impl]. *)
Definition remote (impl : ProviderImpl) : ProviderImpl :=
  MkProviderImpl (Client_Describe (grpcServer_Describe impl)) (Client_Generate (grpcServer_Generate impl))
    (Client_Scan (grpcServer_Scan impl)).

(** [expandPath]: on a missing home directory the path is left as it is. *)
Definition expandPath (os : goos) (env : environ) (cwd : path) (s : string) : path :=
  match cut_prefix s "~/" with
  | Some rest => match UserHomeDir os env with
                 | Err _ => abs_path cwd s
                 | Ok homeDir => path_join homeDir rest
                 end
  | None => abs_path cwd s
  end.

(** ** The provider of the tests *)

(** [testEvaluator]; [now] is the time in RFC 3339. *)
Definition testEvaluator : Type := list string.

Definition te_Describe (t : testEvaluator) (_ : unit) : result DescribeResponse :=
  Ok (MkDescribeResponse true "test-v0.1.0" "" ["workspace"] [] []).

(** The answer and the next state; logging the content path changes neither. *)
Definition te_Generate (t : testEvaluator) (req : GenerateRequest) : result GenerateResponse * testEvaluator :=
  (Ok (MkGenerateResponse true ""), MatchID <$> GReq_Configuration req).

Definition te_source (matchID : string) : EvidenceSource :=
  MkEvidenceSource "test-policy" ("/checks/" +:+ matchID) ""
    "sha256:e3b0c44298fc1c149afbf4c8996fb92427ae41e4649b934ca495991b7852b855" "".

Definition te_assessment (now matchID : string) : AssessmentLog :=
  MkAssessmentLog matchID "" [MkStep "test-check" ResultPassed "predefined pass from test-provider"]
    "all checks passed" ConfidenceLevelHigh
    [MkEvidence ("ev-" +:+ matchID) "log" ("test evidence for " +:+ matchID) "sample payload" now
       (Some (te_source matchID))]
    "No action needed".

Definition te_Scan (now : string) (t : testEvaluator) (_ : ScanRequest) : result ScanResponse :=
  Ok (MkScanResponse (te_assessment now <$> t) [] [MkMappingReference "test-source" "Test Data Source" "" "" ""]).

(** The provider in a state; only Generate leaves it for another. *)
Definition te_provider (now : string) (t : testEvaluator) : ProviderImpl :=
  MkProviderImpl (te_Describe t) (fun req => (te_Generate t req).1) (te_Scan now t).

(** ** Across the wire *)

(** A description crosses the wire unchanged, and an error is the provider's, wrapped. *)
Theorem Describe_over_wire impl :
  Describe (remote impl) tt =
    match Describe impl tt with
    | Ok resp => Ok resp
    | Err e => Err (Wrapf "Describe RPC failed: " e "")
    end.
Proof. cbn. unfold Client_Describe, grpcServer_Describe. by destruct (Describe impl tt) as [[]|e]. Qed.

(** So a provider is loaded for what it is: the health and the needs complyctl sees
    are those of the implementation. *)
Lemma remote_healthy impl d : Describe (remote impl) tt = Ok d <-> Describe impl tt = Ok d.
Proof. rewrite Describe_over_wire. by destruct (Describe impl tt). Qed.

(** What was generated is scanned.  After the test provider has been configured,
    a scan through the wire of any targets answers one passed
    assessment for each configuration, in order, under the identifier complyctl
    generated it with, whatever it was configured with before. *)
Theorem test_provider_scans_generated now t req scan_req :
  let '(r, t') := te_Generate t req in
  r = Ok (MkGenerateResponse true "") /\
  exists resp, Scan (remote (te_provider now t')) scan_req = Ok resp /\
    (fun a => if bool_decide (AL_PlanID a = "") then AL_RequirementID a else AL_PlanID a)
      <$> SResp_Assessments resp = MatchID <$> GReq_Configuration req /\
    Forall (fun a => Step_Result <$> AL_Steps a = [ResultPassed] /\ AL_Confidence a = ConfidenceLevelHigh)
      (SResp_Assessments resp) /\
    SResp_Errors resp = [].
Proof.
  cbn [te_Generate]. split; [done|]. cbn [remote Scan].
  eexists. split.
  { unfold Client_Scan, grpcServer_Scan. cbn [te_provider Scan te_Scan result_bind wrap_err]. reflexivity. }
  cbn [SResp_Assessments SResp_Errors Proto.Assessments Proto.Errors]. split_and!; [|by apply Forall_fmap, Forall_fmap, Forall_fmap, Forall_true|done].
  rewrite <-!list_fmap_compose. apply list_fmap_ext. intros _ cfg _. cbn. repeat case_bool_decide; congruence.
Qed.
