(* ===== verification/Processes.v ===== *)
(** * Plugin processes (pkg/provider/{initialization,plugin,client,manager}.go and
      the commands that load providers)

    Provider takes a client for the provider behind it; here are the processes.  A
    client of go-plugin (in the vendor directory) has a number; its process runs from
    a successful start until the client is killed, and a managed client is killed by
    [CleanupClients] at the latest.  What an executable does when it is started is a
    parameter ([Programs]); that a plugin may end by itself is not rendered, so what
    runs here is what nothing has ended.  TLS, the broker and loggers are not
    modelled. *)
From stdpp Require Import gmap.
From S2P Require Import Prelude GoStrings OciRef World State Complypack Sync Config Workspace Provider Plugin.
From S2P Require Import Generation Resolver Evaluator Report Scan.

(** ** What both sides agree on *)

Record HandshakeConfig := MkHandshakeConfig {
  ProtocolVersion : Z; MagicCookieKey : string; MagicCookieValue : string }.

#[export] Instance HandshakeConfig_eq_dec : EqDecision HandshakeConfig.
Proof. solve_decision. Defined.

Definition Handshake : HandshakeConfig :=
  MkHandshakeConfig 1 "COMPLYCTL_PLUGIN" "ddff478d-578e-4d9d-8253-35e8ebf548d2".

(** The names of the plugin set. *)
Definition SupportedProviders : list string := ["evaluator"].

(** A program that serves a plugin: the handshake it answers with, and the provider
    behind its server. *)
Record program := MkProgram { prog_Handshake : HandshakeConfig; prog_Impl : ProviderImpl }.
Definition Serve (impl : ProviderImpl) : program := MkProgram Handshake impl.

(** What starting an executable gives, and what go-plugin says of a handshake that
    does not match. *)
Class Programs := {
  program_at : path -> result program;
  handshake_error : path -> error;
}.

(** ** Processes *)

Record processes := MkProcesses { ps_next : nat; ps_managed : list nat; ps_running : gset nat }.
Definition no_processes : processes := MkProcesses 0 [] ∅.

Definition Kill (id : nat) (ps : processes) : processes :=
  MkProcesses (ps_next ps) (ps_managed ps) (ps_running ps ∖ {[id]}).

(** [goplugin.CleanupClients], which is all [Manager.Cleanup] does. *)
Definition Cleanup (ps : processes) : processes := fold_left (fun ps id => Kill id ps) (ps_managed ps) ps.

(** [goplugin.NewClient] of a managed client: a number, no process yet. *)
Definition gp_NewClient (ps : processes) : nat * processes :=
  (ps_next ps, MkProcesses (S (ps_next ps)) (ps_managed ps ++ [ps_next ps]) (ps_running ps)).

(** [provider.Client] *)
Record PluginClient := MkPluginClient {
  pc_executablePath : path; pc_id : nat; pc_provider : ProviderImpl }.

(** The plugins map of a manager, with clients. *)
Abbreviation clients := (gmap string (ProviderInfo * PluginClient)).

Section clients.
  Context {programs : Programs}.

(** [client.Client()]: the process is started before the handshake is checked. *)
Definition gp_Client (config : HandshakeConfig) (executablePath : path) (id : nat) (ps : processes)
    : result program * processes :=
  match program_at executablePath with
  | Err e => (Err e, ps)
  | Ok prog =>
      let ps := MkProcesses (ps_next ps) (ps_managed ps) ({[id]} ∪ ps_running ps) in
      (if bool_decide (prog_Handshake prog = config) then Ok prog else Err (handshake_error executablePath), ps)
  end.

(** [rpcClient.Dispense]: the client's own table is asked.  What it hands out is always
    the protocol's client, so the code's test of its type never fails. *)
Definition Dispense (prog : program) (name : string) : result ProviderImpl :=
  if bool_decide (name ∈ SupportedProviders) then Ok (remote (prog_Impl prog))
  else Err (Errorf ("unknown plugin type: " +:+ name)).

Definition NewClient (executablePath : path) (ps : processes) : result PluginClient * processes :=
  let '(id, ps) := gp_NewClient ps in
  match gp_Client Handshake executablePath id ps with
  | (Err e, ps) =>
      (Err (Wrapf ("failed to connect to provider " +:+ path_text executablePath +:+ ": ") e ""), Kill id ps)
  | (Ok prog, ps) =>
      match Dispense prog "evaluator" with
      | Err e => (Err (Wrapf ("failed to dispense evaluator from provider " +:+ path_text executablePath +:+ ": ") e ""),
                  Kill id ps)
      | Ok impl => (Ok (MkPluginClient executablePath id impl), ps)
      end
  end.

Definition Client_Close (c : PluginClient) (ps : processes) : processes := Kill (pc_id c) ps.

(** ** The manager *)

(** The loop of [LoadProviders], with the clients it closes. *)
Fixpoint load_clients (infos : list ProviderInfo) (m : clients) (ps : processes)
    : result unit * clients * processes :=
  match infos with
  | [] => (Ok tt, m, ps)
  | info :: rest =>
      match NewClient (ExecutablePath info) ps with
      | (Err e, ps) =>
          (Err (Wrapf ("failed to create client for provider " +:+ ProviderID info +:+ ": ") e ""), m, ps)
      | (Ok client, ps) =>
          match Describe (pc_provider client) tt with
          | Err _ => load_clients rest m (Client_Close client ps)
          | Ok d => if negb (Desc_Healthy d) then load_clients rest m (Client_Close client ps)
                    else load_clients rest (<[PI_EvaluatorID info := (info, client)]> m) ps
          end
      end
  end.

Definition manager_LoadProviders (userDir sysDir : path) (ps : processes)
    : io (result unit * clients * processes) :=
  let! r := DiscoverProviders userDir sysDir in
  io_ret (match r with
          | Err e => (Err (Wrapf "failed to discover providers: " e ""), ∅, ps)
          | Ok infos => load_clients infos ∅ ps
          end).

(** The table as the rest of the program has it. *)
Definition loaded (m : clients) : plugins := (fun x => MkLoadedProvider x.1 (pc_provider x.2)) <$> m.

(** ** The commands *)

(** [loadProviders] of scan and generate. *)
Definition load_or_clean (providerDir : path) (ps : processes) : io (result clients * processes) := fun w =>
  (let! r := manager_LoadProviders providerDir (path_join [] (ResolveSystemProviderDir (w_env w))) ps in
   io_ret (match r with
           | (Err e, _, ps) => (Err (Wrapf "provider discovery failed: " e ""), Cleanup ps)
           | (Ok _, mgr, ps) =>
               if bool_decide (length (ListProviders (loaded mgr)) = 0%nat)
               then (Err (Errorf ("no providers found in " +:+ path_text providerDir +:+
                                  " (Describe may have failed)")), Cleanup ps)
               else (Ok mgr, ps)
           end)) w.

(** Scan and generate from the loading on: what they do with the providers, or with
    the error of the loading, and the deferred cleanup. *)
Definition with_providers {A} (providerDir : path) (failed : error -> io A) (body : plugins -> io A)
    (ps : processes) : io (A * processes) :=
  let! r := load_or_clean providerDir ps in
  match r with
  | (Err e, ps) => let! a := failed e in io_ret (a, ps)
  | (Ok mgr, ps) => let! a := body (loaded mgr) in io_ret (a, Cleanup ps)
  end.

(** Doctor and providers: the cleanup is deferred before the loading. *)
Definition with_manager {A} (providerDir : path) (body : result unit * plugins -> io A)
    (ps : processes) : io (A * processes) := fun w =>
  (let! r := manager_LoadProviders providerDir (path_join [] (ResolveSystemProviderDir (w_env w))) ps in
   let '(res, mgr, ps) := r in
   let! a := body (res, loaded mgr) in
   io_ret (a, Cleanup ps)) w.
End clients.

(** ** No process is lost *)

Section facts.
  Context {programs : Programs}.

(** The launcher that the rest of the development takes as a parameter: the provider
    behind a client, or the error. *)
#[export] Instance program_launcher : Launcher := fun executablePath =>
  match (NewClient executablePath no_processes).1 with
  | Ok c => Ok (pc_provider c)
  | Err e => Err e
  end.

(** Every process is that of a managed client, and numbers are not used twice. *)
Definition tidy (ps : processes) : Prop :=
  (forall id, id ∈ ps_running ps -> id ∈ ps_managed ps) /\ (forall id, id ∈ ps_managed ps -> id < ps_next ps)%nat.

Lemma tidy_kill id ps : tidy ps -> tidy (Kill id ps).
Proof. intros [Hm Hn]. split; cbn; [set_solver|done]. Qed.

Lemma NewClient_spec p ps :
  let '(r, ps') := NewClient p ps in
  ps_next ps' = S (ps_next ps) /\ ps_managed ps' = ps_managed ps ++ [ps_next ps] /\
  match r with
  | Err e => new_client p = Err e /\ ps_running ps' ≡ ps_running ps ∖ {[ps_next ps]}
  | Ok c => new_client p = Ok (pc_provider c) /\ pc_id c = ps_next ps /\
            ps_running ps' ≡ {[ps_next ps]} ∪ ps_running ps
  end.
Proof.
  unfold new_client, program_launcher, NewClient, gp_Client. cbn.
  destruct (program_at p) as [prog|e]; [|done]. case_bool_decide; cbn; [done|].
  split_and!; [done|done|done|set_solver].
Qed.

Lemma tidy_NewClient p ps r ps' : NewClient p ps = (r, ps') -> tidy ps -> tidy ps'.
Proof.
  intros E [Hm Hn]. pose proof (NewClient_spec p ps) as H. rewrite E in H. destruct H as (Hx & Hg & Hr).
  split.
  - intros id Hid. rewrite Hg. apply elem_of_app. destruct r as [c|e]; destruct Hr as (_ & Hr); [destruct Hr as [_ Hr]|];
      apply Hr in Hid; set_solver.
  - rewrite Hx, Hg. intros id [Hid|Hid]%elem_of_app; [apply Hn in Hid; lia|]. apply list_elem_of_singleton in Hid. lia.
Qed.

(** What runs is exactly what the table names. *)
Definition running_exactly (m : clients) (ps : processes) : Prop :=
  forall id, id ∈ ps_running ps <-> exists ev x, m !! ev = Some x /\ pc_id x.2 = id.

(** A client whose process has a new number, and that is closed again. *)
Lemma close_new c ps ps' :
  tidy ps -> pc_id c = ps_next ps -> ps_running ps' ≡ {[ps_next ps]} ∪ ps_running ps ->
  ps_running (Client_Close c ps') ≡ ps_running ps.
Proof.
  intros [Hm Hn] Hc Hr. cbn. rewrite Hc, Hr. intros id. specialize (Hm id). specialize (Hn id).
  rewrite elem_of_difference, elem_of_union, elem_of_singleton. split; [naive_solver|].
  intros Hid. split; [by right|]. intros ->. specialize (Hn (Hm Hid)). lia.
Qed.

Lemma running_exactly_equiv m ps ps' :
  ps_running ps ≡ ps_running ps' -> running_exactly m ps -> running_exactly m ps'.
Proof. intros E H id. by rewrite <-E. Qed.

Lemma running_exactly_insert m ps ps' ev info c :
  m !! ev = None -> pc_id c = ps_next ps -> ps_running ps' ≡ {[ps_next ps]} ∪ ps_running ps ->
  running_exactly m ps -> running_exactly (<[ev := (info, c)]> m) ps'.
Proof.
  intros Hev Hc Hr H id. rewrite Hr, elem_of_union, elem_of_singleton, (H id). split.
  - intros [->|(ev' & x & Hx & <-)]; [exists ev, (info, c); by rewrite lookup_insert_eq|].
    exists ev', x. split; [|done]. rewrite lookup_insert_ne; [done|]. congruence.
  - intros (ev' & x & [[<- <-]|[_ Hx]]%lookup_insert_Some & <-); [by left|right; eauto].
Qed.

(** The loading with processes is the loading of the manager, and its processes are
    those of the table. *)
Lemma load_clients_spec infos m ps :
  let '(r, m', ps') := load_clients infos m ps in
  (r, loaded m') = load_loop infos (loaded m) /\ (tidy ps -> tidy ps') /\
  (tidy ps -> NoDup (PI_EvaluatorID <$> infos) -> (forall i, i ∈ infos -> m !! PI_EvaluatorID i = None) ->
   running_exactly m ps -> running_exactly m' ps').
Proof.
  revert m ps. induction infos as [|info infos IH]; intros m ps; cbn [load_clients load_loop]; [done|].
  pose proof (NewClient_spec (ExecutablePath info) ps) as Hs.
  destruct (NewClient (ExecutablePath info) ps) as [r ps1] eqn:E. destruct Hs as (Hx & Hg & Hr).
  destruct r as [c|e].
  2:{ destruct Hr as [-> Hr]. split_and!; [done|by eapply tidy_NewClient|]. intros Ht _ _ H.
      eapply running_exactly_equiv; [|exact H]. rewrite Hr. intros id. destruct Ht as [Hm Hn].
      specialize (Hm id). specialize (Hn id). rewrite elem_of_difference, elem_of_singleton. split; [|naive_solver].
      intros Hid. split; [done|]. intros ->. specialize (Hn (Hm Hid)). lia. }
  destruct Hr as (-> & Hc & Hr).
  assert (forall ps2, ps2 = Client_Close c ps1 ->
    let '(r, m', ps') := load_clients infos m ps2 in
    (r, loaded m') = load_loop infos (loaded m) /\ (tidy ps -> tidy ps') /\
    (tidy ps -> NoDup (PI_EvaluatorID info :: (PI_EvaluatorID <$> infos)) ->
     (forall i, i ∈ info :: infos -> m !! PI_EvaluatorID i = None) ->
     running_exactly m ps -> running_exactly m' ps')) as Hclosed.
  { intros ps2 ->. specialize (IH m (Client_Close c ps1)).
    destruct (load_clients infos m _) as [[r' m'] ps']. destruct IH as (He & Ht' & Hrun). split_and!; [done| |].
    - intros Ht. apply Ht', tidy_kill. by eapply tidy_NewClient.
    - intros Ht [_ Hnd]%NoDup_cons Hno H. apply Hrun; [|done| |].
      + apply tidy_kill. by eapply tidy_NewClient.
      + intros i Hi. apply Hno. by right.
      + eapply running_exactly_equiv; [|exact H]. symmetry. by apply (close_new c ps). }
  destruct (Describe (pc_provider c) tt) as [d|e]; [|by apply Hclosed].
  destruct (negb (Desc_Healthy d)); [by apply Hclosed|].
  specialize (IH (<[PI_EvaluatorID info := (info, c)]> m) ps1).
  destruct (load_clients infos _ ps1) as [[r' m'] ps']. destruct IH as (He & Ht' & Hrun). split_and!.
  - rewrite He. unfold loaded at 1. by rewrite fmap_insert.
  - intros Ht. apply Ht'. by eapply tidy_NewClient.
  - intros Ht [Hni Hnd]%NoDup_cons Hno H. apply Hrun; [by eapply tidy_NewClient|done| |].
    + intros i Hi. rewrite lookup_insert_ne; [apply Hno; by right|]. intros Heq. apply Hni. rewrite Heq.
      by apply list_elem_of_fmap_2.
    + apply running_exactly_insert with (ps := ps); [|done|done|done]. apply Hno. by left.
Qed.

(** Each healthy provider has its process and nothing else runs.  Loading
    providers with distinct evaluators in a tidy program where nothing runs, whichever
    executables cannot be started, do not answer or are unhealthy, leaves running
    exactly the processes of the providers that are registered, and registers what the
    loading of the manager does; the cleanup ends them all. *)
Theorem loaded_providers_run infos ps :
  NoDup (PI_EvaluatorID <$> infos) -> tidy ps -> ps_running ps = ∅ ->
  let '(r, m, ps') := load_clients infos ∅ ps in
  (r, loaded m) = load_loop infos ∅ /\ running_exactly m ps' /\ tidy ps'.
Proof.
  intros Hnd Ht Hr. pose proof (load_clients_spec infos ∅ ps) as H.
  destruct (load_clients infos ∅ ps) as [[r m] ps']. destruct H as (He & Ht' & Hrun).
  rewrite He. unfold loaded. rewrite fmap_empty. split_and!; [done| |by apply Ht'].
  apply Hrun; [done|done|intros; apply lookup_empty|]. intros id. rewrite Hr. split; [set_solver|].
  intros (ev & x & Hx & _). by rewrite lookup_empty in Hx.
Qed.

Lemma kill_all l ps : ps_running (fold_left (fun ps id => Kill id ps) l ps) ≡ ps_running ps ∖ list_to_set l.
Proof.
  revert ps. induction l as [|id l IH]; intros ps; cbn; [set_solver|]. rewrite IH. cbn. set_solver.
Qed.

Lemma Cleanup_ends ps : tidy ps -> ps_running (Cleanup ps) = ∅.
Proof.
  intros [Hm _]. apply leibniz_equiv. unfold Cleanup. rewrite kill_all. intros id. specialize (Hm id).
  rewrite elem_of_difference, elem_of_list_to_set. set_solver.
Qed.

Lemma manager_LoadProviders_run userDir sysDir ps w :
  tidy ps ->
  let '((r, m, ps'), w') := manager_LoadProviders userDir sysDir ps w in
  LoadProviders userDir sysDir ∅ w = ((r, loaded m), w') /\ tidy ps'.
Proof.
  intros Ht. unfold manager_LoadProviders, LoadProviders, io_bind, io_ret.
  destruct (DiscoverProviders userDir sysDir w) as [[infos|e] w1].
  - pose proof (load_clients_spec infos ∅ ps) as H. destruct (load_clients infos ∅ ps) as [[r m] ps'].
    destruct H as (He & Ht' & _). split; [|by apply Ht']. rewrite He. unfold loaded. by rewrite fmap_empty.
  - unfold loaded. by rewrite fmap_empty.
Qed.

(** C36: No plugin outlives its command.  Whatever the executables do and
    whatever calls fail, a command that loads providers the way scan and generate do,
    started when no plugin runs, ends with none running, also when the loading fails
    half-way; and apart from processes it is the command on the providers that the
    rest of this library takes from the loading. *)
Theorem no_plugin_outlives_command {A} providerDir (failed : error -> io A) (body : plugins -> io A) ps w :
  tidy ps -> ps_running ps = ∅ ->
  let '((a, ps'), w') := with_providers providerDir failed body ps w in
  ps_running ps' = ∅ /\
  (a, w') = match loadProviders providerDir w with
            | (Err e, w1) => failed e w1
            | (Ok mgr, w1) => body mgr w1
            end.
Proof.
  intros Ht Hr. unfold with_providers, load_or_clean, loadProviders, io_bind, io_ret.
  pose proof (manager_LoadProviders_run providerDir (path_join [] (ResolveSystemProviderDir (w_env w))) ps w Ht) as H.
  destruct (manager_LoadProviders _ _ ps w) as [[[r m] ps'] w1]. destruct H as [-> Ht'].
  destruct r as [[]|e].
  - case_bool_decide.
    + destruct (failed _ w1) as [a w2]. by split; [apply Cleanup_ends|].
    + destruct (body _ w1) as [a w2]. by split; [apply Cleanup_ends|].
  - destruct (failed _ w1) as [a w2]. by split; [apply Cleanup_ends|].
Qed.

(** The same of doctor and the listing of providers. *)
Lemma no_plugin_outlives_manager {A} providerDir (body : result unit * plugins -> io A) ps w :
  tidy ps ->
  let '((a, ps'), w') := with_manager providerDir body ps w in
  ps_running ps' = ∅ /\
  (a, w') = (let! r := LoadProviders providerDir (path_join [] (ResolveSystemProviderDir (w_env w))) ∅ in body r) w.
Proof.
  intros Ht. unfold with_manager, io_bind, io_ret.
  pose proof (manager_LoadProviders_run providerDir (path_join [] (ResolveSystemProviderDir (w_env w))) ps w Ht) as H.
  destruct (manager_LoadProviders _ _ ps w) as [[[r m] ps'] w1]. destruct H as [-> Ht'].
  destruct (body _ w1) as [a w2]. by split; [apply Cleanup_ends|].
Qed.

(** A program that serves a provider is that provider to complyctl. *)
Lemma served_provider p impl : program_at p = Ok (Serve impl) -> new_client p = Ok (remote impl).
Proof. intros H. unfold new_client, program_launcher, NewClient, gp_Client. cbn. by rewrite H. Qed.
End facts.
