(* ===== verification/BehavioralReport.v ===== *)
(** * The behavioural report (cmd/behavioral-report/main.go)

    The tool that runs the steps of every requirement in a fresh pair of directories
    and writes an evaluation log and a SARIF document.  A step is an effectful
    function of its context, as it runs the binary under test; the plans and the
    requirements' controls are those of src/tests/behavioral.  How a control
    evaluation runs its assessment is the vendored go-gemara's (control_evaluation.go,
    assessment_log.go), for the one assessment the tool adds; evidence and times are
    not kept.  YAML and SARIF encoding are parameters, as is loading the catalog. *)
From stdpp Require Import gmap.
From S2P Require Import Prelude GoStrings OciRef World Config Workspace Provider Evaluator.

(** ** What is run *)

Record BehavioralContext := MkBehavioralContext {
  BC_Binary : string;
  BC_TestProviderBinary : string;
  BC_HomeDir : path;
  BC_WorkDir : path;
  BC_PolicyID : string;
  BC_RegistryURL : string;
}.

Definition AssessmentStep : Type := BehavioralContext -> io (gresult * string).

Record BehavioralEvaluation := MkBehavioralEvaluation {
  BE_Name : string;
  BE_Control : string;
  BE_Result : gresult;
  BE_Message : string;
}.

(** [ControlForRequirement]: the first three of four or more segments. *)
Definition ControlForRequirement (requirementID : string) : string :=
  let parts := str_split requirementID "." in
  if (length parts <? 4)%nat then requirementID else join "." (take 3 parts).

(** [AssessmentLog.Run] after its check: the aggregate so far, the last message. *)
Fixpoint run_steps (ctx : BehavioralContext) (steps : list AssessmentStep) (result : gresult)
    (message : string) : io (gresult * string) :=
  match steps with
  | [] => io_ret (result, message)
  | step :: rest =>
      let! r := step ctx in
      let result := UpdateAggregateResult result r.1 in
      match r.1 with
      | Failed => io_ret (result, r.2)
      | NotApplicable => io_ret (NotApplicable, r.2)
      | _ => run_steps ctx rest result r.2
      end
  end.

Definition precheck_message (reqID : string) (steps : list AssessmentStep) : string :=
  "expected all AssessmentLog fields to have a value, but got: requirementId=len(" +:+
  itoa (Z.of_nat (String.length reqID)) +:+ "), description=len=(" +:+
  itoa (Z.of_nat (String.length ("Behavioral assessment of " +:+ reqID))) +:+
  "), applicability=len(1), steps=len(" +:+ itoa (Z.of_nat (length steps)) +:+ ")".

(** [AddAssessment] and [Evaluate] with the one applicability of the tool. *)
Definition evaluate (ctx : BehavioralContext) (reqID : string) (steps : list AssessmentStep)
    : io BehavioralEvaluation :=
  let eval := MkBehavioralEvaluation reqID (ControlForRequirement reqID) in
  if bool_decide (reqID = "") || (length steps =? 0)%nat
  then io_ret (eval Failed (precheck_message reqID steps))
  else
    let! r := run_steps ctx steps NotRun "" in
    let aggregate := UpdateAggregateResult NotRun r.1 in
    io_ret (eval aggregate (if bool_decide (aggregate = NotRun) then "" else r.2)).

Definition sortedKeys (m : gmap string (list AssessmentStep)) : list string :=
  sort_strings (map_to_list m).*1.

Section report.
  Context (Plans : gmap string (list AssessmentStep)) (os_TempDir : path).

(** One requirement: skipped if a directory cannot be made. *)
Definition run_requirement (mkctx : path -> path -> BehavioralContext) (reqID : string)
    : io (option BehavioralEvaluation) :=
  let steps := default [] (Plans !! reqID) in
  let! h := os_MkdirTemp os_TempDir "behavioral-home-" in
  match h with
  | Err _ => io_ret None
  | Ok home =>
      let homeDir := os_TempDir ++ [home] in
      let! k := os_MkdirTemp os_TempDir "behavioral-work-" in
      match k with
      | Err _ => io_ret None
      | Ok work =>
          let workDir := os_TempDir ++ [work] in
          let! eval := evaluate (mkctx homeDir workDir) reqID steps in
          let! _ := os_RemoveAll homeDir in
          let! _ := os_RemoveAll workDir in
          io_ret (Some eval)
      end
  end.

Fixpoint evaluations_loop (mkctx : path -> path -> BehavioralContext) (requirementIDs : list string)
    : io (list BehavioralEvaluation) :=
  match requirementIDs with
  | [] => io_ret []
  | reqID :: rest =>
      let! e := run_requirement mkctx reqID in
      let! more := evaluations_loop mkctx rest in
      io_ret (match e with Some eval => eval :: more | None => more end)
  end.

Definition runEvaluations (binary testProvider registryURL targetPolicyID : string)
    : io (list BehavioralEvaluation) :=
  evaluations_loop (fun homeDir workDir =>
    MkBehavioralContext binary testProvider homeDir workDir targetPolicyID registryURL) (sortedKeys Plans).
End report.

(** ** What is reported *)

Definition aggregateResult (evals : list BehavioralEvaluation) : gresult :=
  let result := fold_left (fun result e => UpdateAggregateResult result (BE_Result e)) evals NotRun in
  if (length evals =? 0)%nat then NotApplicable else result.

(** The counters of [printSummary]: passed, failed, other. *)
Definition count_evaluation (c : nat * nat * nat) (e : BehavioralEvaluation) : nat * nat * nat :=
  let '(passed, failed, other) := c in
  match BE_Result e with
  | Passed => (S passed, failed, other)
  | Failed => (passed, S failed, other)
  | _ => (passed, failed, S other)
  end.

Definition printSummary (evals : list BehavioralEvaluation) : string :=
  let '(passed, failed, other) := fold_left count_evaluation evals (0, 0, 0)%nat in
  let num n := itoa (Z.of_nat n) in
  String "010" "" +:+ "behavioral assessment: " +:+ num (passed + failed + other)%nat +:+ " total, " +:+
  num passed +:+ " passed, " +:+ num failed +:+ " failed, " +:+ num other +:+ " other" +:+ String "010" "".

Definition toFileURI (cwd : path) (p : string) : string :=
  if has_prefix p "file:///" || has_prefix p "https://" then p
  else "file://" +:+ path_text (abs_path cwd p).

(** The log, as far as the tool fills it, and its two encodings; the catalog is read
    from a URI. *)
Record BehavioralLog := MkBehavioralLog { BL_Evaluations : list BehavioralEvaluation; BL_Result : gresult }.

Class ReportEncoders := {
  Catalog : Type;
  load_catalog : string -> io (result Catalog);
  yaml_Marshal : BehavioralLog -> result string;
  behavioral_ToSARIF : BehavioralLog -> string -> option Catalog -> list gresult -> result string;
}.

Section tool.
  Context {enc : ReportEncoders}.
  Context (Plans : gmap string (list AssessmentStep)) (os_TempDir cwd : path).

Definition writeEvaluationLog (evalLog : BehavioralLog) (outDir : path) : io (result unit) :=
  do! data := io_lift (yaml_Marshal evalLog) orelse (fun e => Wrapf "marshal evaluation log: " e "") in
  do! _ := os_WriteFile (outDir ++ ["evaluation-log.yaml"]) data 384
    orelse (fun e => Wrapf "write evaluation log: " e "") in
  io_ret (Ok tt).

Definition writeSARIF (evalLog : BehavioralLog) (artifactURI : string) (outDir : path)
    (catalog : option Catalog) : io (result unit) :=
  do! data := io_lift (behavioral_ToSARIF evalLog artifactURI catalog [Passed])
    orelse (fun e => Wrapf "SARIF conversion: " e "") in
  do! _ := os_WriteFile (outDir ++ ["behavioral-report.sarif.json"]) data 384
    orelse (fun e => Wrapf "write SARIF: " e "") in
  io_ret (Ok tt).

(** [main] after its flags: [os.Exit(1)] is an error; the registry is running. *)
Definition report_main (binary testProvider catalogPath outDir artifactURI targetPolicyID registryURL : string)
    : io (result string) :=
  let out := abs_path cwd outDir in
  do! _ := os_Stat (abs_path cwd binary)
    orelse (fun _ => Errorf ("binary not found at " +:+ path_text (abs_path cwd binary) +:+ " — run 'make build' first")) in
  let! catalog := (if bool_decide (catalogPath = "") then io_ret None
                   else let! c := load_catalog (toFileURI cwd catalogPath) in
                        io_ret (match c with Ok c => Some c | Err _ => None end)) in
  let! evals := runEvaluations Plans os_TempDir (path_text (abs_path cwd binary))
                  (path_text (abs_path cwd testProvider)) registryURL targetPolicyID in
  let evalLog := MkBehavioralLog evals (aggregateResult evals) in
  do! _ := os_MkdirAll out orelse (fun e => Wrapf "failed to create output directory: " e "") in
  do! _ := writeEvaluationLog evalLog out orelse (fun e => Wrapf "failed to write evaluation log: " e "") in
  do! _ := writeSARIF evalLog artifactURI out catalog orelse (fun e => Wrapf "failed to write SARIF: " e "") in
  io_ret (Ok (printSummary evals)).
End tool.

(** ** The report is honest about what was run *)

Section facts.
  Context (Plans : gmap string (list AssessmentStep)) (os_TempDir : path).

Lemma evaluate_names ctx reqID steps w :
  BE_Name (evaluate ctx reqID steps w).1 = reqID.
Proof.
  unfold evaluate, io_bind, io_ret. destruct (_ || _); [done|]. by destruct (run_steps _ _ _ _ w).
Qed.

Lemma run_requirement_name mkctx reqID w e :
  (run_requirement Plans os_TempDir mkctx reqID w).1 = Some e -> BE_Name e = reqID.
Proof.
  unfold run_requirement, io_bind, io_ret. destruct (os_MkdirTemp _ _ w) as [[h|?] w1]; [|done].
  destruct (os_MkdirTemp _ _ w1) as [[k|?] w2]; [|done].
  pose proof (evaluate_names (mkctx (os_TempDir ++ [h]) (os_TempDir ++ [k])) reqID (default [] (Plans !! reqID)) w2) as H.
  destruct (evaluate _ _ _ w2) as [eval w3]. cbn in H. destruct (os_RemoveAll _ w3) as [? w4].
  destruct (os_RemoveAll _ w4) as [? w5]. cbn. by intros [= <-].
Qed.

Lemma evaluations_sublist mkctx l w :
  (BE_Name <$> (evaluations_loop Plans os_TempDir mkctx l w).1) `sublist_of` l.
Proof.
  revert w. induction l as [|reqID l IH]; intros w; cbn; [done|]. unfold io_bind, io_ret.
  pose proof (run_requirement_name mkctx reqID w) as Hn.
  destruct (run_requirement _ _ _ _ w) as [[e|] w1]; cbn in Hn; specialize (IH w1);
    destruct (evaluations_loop _ _ _ _ w1) as [more w2]; cbn in *.
  - rewrite (Hn e eq_refl). by constructor.
  - by constructor.
Qed.

Lemma count_evaluation_total evals p f o :
  let '(p', f', o') := fold_left count_evaluation evals (p, f, o) in
  (p' + f' + o' = p + f + o + length evals)%nat.
Proof.
  revert p f o. induction evals as [|e evals IH]; intros p f o; cbn [fold_left length]; [lia|].
  unfold count_evaluation at 2.
  destruct (BE_Result e); match goal with |- context [fold_left _ _ (?a, ?b, ?c)] => specialize (IH a b c) end;
    destruct (fold_left _ _ _) as [[p' f'] o']; lia.
Qed.

Lemma sortedKeys_spec : NoDup (sortedKeys Plans) /\ (forall k, k ∈ sortedKeys Plans <-> is_Some (Plans !! k)).
Proof.
  unfold sortedKeys. pose proof (sort_strings_perm (map_to_list Plans).*1) as Hp. split.
  - rewrite Hp. apply NoDup_fst_map_to_list.
  - intros k. rewrite Hp, list_elem_of_fmap. split.
    + intros ([k' v] & -> & Hv%elem_of_map_to_list). by eexists.
    + intros [v Hv]. exists (k, v). split; [done|]. by apply elem_of_map_to_list.
Qed.

(** The report speaks of what was run, once.  Whatever calls fail, each evaluation is
    of a requirement that has a plan, no requirement has two, and they are in the
    order of their names; the summary counts every evaluation once; and the result of
    the log is the worst of theirs, or not applicable if there are none. *)
Theorem report_accounts_for_evaluations binary testProvider registryURL policyID w :
  let evals := (runEvaluations Plans os_TempDir binary testProvider registryURL policyID w).1 in
  (BE_Name <$> evals) `sublist_of` sortedKeys Plans /\
  NoDup (BE_Name <$> evals) /\ (forall e, e ∈ evals -> is_Some (Plans !! BE_Name e)) /\
  (let '(passed, failed, other) := fold_left count_evaluation evals (0, 0, 0)%nat in
   passed + failed + other = length evals)%nat /\
  aggregateResult evals = (if decide (evals = []) then NotApplicable else worst (BE_Result <$> evals)).
Proof.
  cbv zeta. unfold runEvaluations.
  match goal with |- context [evaluations_loop _ _ ?m _ w] => set (mkctx := m) end.
  pose proof (evaluations_sublist mkctx (sortedKeys Plans) w) as Hs.
  destruct (evaluations_loop _ _ _ _ w) as [evals w']. cbn [fst] in *. destruct sortedKeys_spec as [Hnd Hk].
  split_and!; [done|by eapply sublist_NoDup| | |].
  - intros e He. apply Hk. eapply elem_of_sublist; [|exact Hs]. by apply list_elem_of_fmap_2.
  - pose proof (count_evaluation_total evals 0 0 0) as Hc. by destruct (fold_left _ _ _) as [[??]?].
  - unfold aggregateResult. destruct evals as [|e evals]; [done|]. rewrite decide_False by done. cbn [length Nat.eqb].
    unfold worst. generalize NotRun. generalize (e :: evals). clear. intros l. induction l as [|x l IH]; intros r; [done|].
    cbn. apply IH.
Qed.
End facts.
