(* ===== verification/Demo.v ===== *)
(** * A concrete environment

    Small concrete instances of every parameter of the development (file tree,
    codecs, OCI library, registry, verifiers, providers), at which the witnesses
    of Witnesses.v, Witnesses2.v and Witnesses3.v run the program. *)
From stdpp Require Import gmap.
From S2P Require Import Prelude GoStrings Digest OciRef World State Complypack Sync Config.
From S2P Require Import Workspace Provider Generation Resolver Evaluator Report Scan Get.
From S2P Require Import Time Diagnostics DoctorVars DoctorPacks Doctor DoctorFrame Encoding Verify Init.

(** A run that answers a pair, taken apart. *)
Lemma run_split {A B C} (x : (A * B) * C) a : x.1.1 = a -> x = ((a, x.1.2), x.2).
Proof. by destruct x as [[? ?] ?]; intros <-. Qed.

Lemma run_split1 {A B} (x : A * B) a : x.1 = a -> x = (a, x.2).
Proof. by destruct x; intros <-. Qed.

(** ** The machine *)

Definition demo_fs : node :=
  Dir {[ "cache" := Dir ∅; "data" := Dir ∅; "tmp" := Dir ∅; "ws" := Dir {[ ".complytime" := Dir ∅ ]} ]}.
Definition demo_world : world :=
  MkWorld demo_fs 0 (fun _ => None) (fun t => Z.of_nat t) (fun _ _ => "r") ∅.

Lemma demo_no_faults : no_faults demo_world.
Proof. done. Qed.

#[export] Instance demo_host : HostSyntax := plain_host.

(** ** State and packs *)

Definition demo_digest : string :=
  "sha256:0123456789abcdef0123456789abcdef0123456789abcdef0123456789abcdef".
Definition demo_entry (version evaluator : string) (t : Z) : PolicyState :=
  MkPolicyState version demo_digest evaluator t true "ci@example.org" "https://issuer.example" t "" "" 0 0.
Definition demo_state : State :=
  MkState 5 {[ "policies/cis" := demo_entry "1.0.0" "" 5 ]}
    {[ "packs/openscap" := demo_entry "v2" "openscap" 5; "packs/old" := demo_entry "v1" "openscap" 3 ]}.
Definition demo_pack : PackConfig := MkPackConfig "pack-1" "openscap" "v2" [].

#[export] Instance demo_state_codec : Codec State := {|
  marshal _ := Ok "state"; unmarshal _ := Ok demo_state |}.
#[export] Instance demo_pack_codec : Codec PackConfig := {|
  marshal _ := Ok "pack"; unmarshal _ := Ok demo_pack |}.
Definition demo_generation : GenerationState :=
  NewGenerationState "2026-01-01T00:00:00Z" "policies/cis" demo_digest ["openscap"] ∅.
#[export] Instance demo_generation_codec : Codec GenerationState := {|
  marshal _ := Ok "generation"; unmarshal _ := Ok demo_generation |}.

(** ** Registry, stores and verifiers *)

#[export] Instance demo_oras : Oras := {|
  oci_New p := os_WriteFile (p ++ [oci_layout]) "{}" 420;
  oras_Copy _ _ _ _ := io_ret (Ok (MkDescriptor demo_digest MediaTypeArtifact));
  store_Fetch _ _ := io_ret (Ok "{}");
  decode_artifactType _ := Ok MediaTypeArtifact;
  complypack_Unpack _ _ := io_ret (Ok (demo_pack, Ok "content"));
|}.

(** A registry in which every tag resolves to [demo_digest]. *)
#[export] Instance demo_network : RegistryNetwork := fun _ _ _ => Ok demo_digest.

Definition demo_source : Source :=
  MkSource (fun _ => io_ret (Ok (demo_digest, "1.0.0")))
    (fun _ _ p => do! _ := os_WriteFile (p ++ [oci_layout]) "{}" 420 orelse (fun e => e) in
                  io_ret (Ok (MkDescriptor demo_digest MediaTypeArtifact))).

Definition demo_verdict : VerificationResult :=
  MkVerificationResult true "ci@example.org" "https://issuer.example" 7.
Definition accept_all : VerifyFunc := fun _ _ => io_ret (Ok demo_verdict).
Definition reject_all : VerifyFunc := fun _ _ => io_ret (Err (Errorf "no matching signature")).

#[export] Instance demo_verifiers : Verifiers := {|
  Get.NewKeyedVerifier _ := io_ret (Ok accept_all);
  Get.NewKeylessVerifier _ _ _ := io_ret (Ok accept_all);
|}.

Definition demo_sync (vf : option VerifyFunc) : Sync :=
  MkSync ["cache"] demo_source vf "registry.example.org" false ["data"].
Definition demo_cache : ComplypackCache := MkComplypackCache ["cache"] 2.
Definition demo_complypack_sync (vf : option VerifyFunc) : ComplypackSync :=
  MkComplypackSync demo_cache demo_source vf "registry.example.org" false ["data"].

Lemma accept_reads x i : reads (accept_all x i).
Proof. done. Qed.
Lemma reject_reads x i : reads (reject_all x i).
Proof. done. Qed.

(** ** Policies *)

Definition demo_plan : AssessmentPlan := MkAssessmentPlan "plan-1" "req-1" ["openscap"].
Definition demo_policy : GemaraPolicy :=
  MkGemaraPolicy "CIS" [] ["openscap"] [demo_plan] (MkTimeline "" "" "") (MkTimeline "" "" "").
Definition demo_catalog : ControlCatalog := MkControlCatalog [MkGControl "ctl-1" ["req-1"]].

#[export] Instance demo_yaml : GemaraYAML := {|
  yaml_Policy _ := Ok demo_policy;
  yaml_ControlCatalog _ := Ok demo_catalog;
  yaml_GuidanceCatalog _ := Ok tt;
|}.
#[export] Instance demo_loader : PolicyLoader := {|
  LoadLayerByMediaType _ _ _ := io_ret (Ok "doc");
  LoadBundleFiles _ _ := io_ret (Ok ∅);
  DetectManifestShape _ _ := io_ret (Ok false);
  PolicyExists _ _ := io_ret true;
  ResolveVersion _ v := io_ret (Ok v);
|}.

(** ** Configuration *)

Definition demo_verification : VerificationConfig := MkVerificationConfig "" "" "/ws/cosign.pub" "".
Definition demo_policy_entry : PolicyEntry :=
  MkPolicyEntry "registry.example.org/policies/cis:v1" "cis" None false.
Definition demo_target : TargetConfig := MkTargetConfig "prod" ["cis"] {[ "host" := "${HOST}" ]}.
Definition demo_config : WorkspaceConfig :=
  MkWorkspaceConfig 1 [demo_policy_entry] [] [MkTargetConfig "prod" ["cis"] ∅] ∅ (Some demo_verification).
#[export] Instance demo_config_codec : Codec WorkspaceConfig := {|
  marshal _ := Ok "config";
  unmarshal _ := Ok demo_config;
|}.

(** ** Providers *)

Definition demo_assessment : AssessmentLog :=
  MkAssessmentLog "plan-1" "" [MkStep "check" ResultFailed "port open"] "" ConfidenceLevelHigh [] "close it".
Definition demo_impl : ProviderImpl :=
  MkProviderImpl (fun _ => Ok (MkDescribeResponse true "1.0" "" [] [] []))
    (fun _ => Ok (MkGenerateResponse true ""))
    (fun _ => Ok (MkScanResponse [demo_assessment] [] [])).

(** ** Doctor *)

#[export] Instance demo_launcher : Launcher := fun _ => Ok demo_impl.
#[export] Instance demo_output_codec : Codec diagnosticOutput := {|
  marshal _ := Ok "{}"; unmarshal _ := Err (Errorf "not read") |}.

(** A reader that finds no version in any store. *)
#[export] Instance demo_reader : StoreReader := {|
  store_Resolve _ _ := io_ret (Err (Errorf "not found"));
  store_Tags _ := io_ret (Ok []);
  parse_manifest _ := Ok (MkManifest "" []);
  bundle_Unpack _ _ := io_ret (Err (Errorf "not found"));
  bundle_MediaTypeManifest := "application/vnd.gemara.bundle.v1+json";
|}.

#[export] Instance demo_oras_laws : OrasLaws.
Proof.
  split; try done. intros p. eapply preserves_weaken; [apply preserves_WriteFile|].
  intros q Hq. by apply diverges_sym, diverges_app, diverges_sym.
Qed.

#[export] Instance demo_reader_laws : StoreReaderLaws.
Proof. by split. Qed.

(** A resolver that finds every policy, evaluated by openscap. *)
Definition demo_graph : DependencyGraph :=
  MkDependencyGraph "policies/cis" [] [] [MkAssessment "plan-1" "req-1" "openscap" ∅] "openscap" None [].
Definition demo_resolver : PolicyGraphResolver :=
  MkPolicyGraphResolver (fun _ v => io_ret (Ok v)) (fun _ _ => io_ret (Ok demo_graph)).

(** ** Signatures *)

(** PEM blocks as a type, a colon, the contents and a semicolon. *)
#[export] Instance demo_pem : Pem := {|
  pem_Decode s :=
    match cut s ";" with
    | Some (b, rest) => match cut b ":" with
                        | Some (ty, bytes) => Some (MkPemBlock ty bytes, rest)
                        | None => None
                        end
    | None => None
    end;
  x509_ParseCertificate s := if bool_decide (s = "") then Err (Errorf "empty certificate") else Ok tt;
|}.

#[export] Instance demo_pem_laws : PemLaws.
Proof.
  intros s b rest. cbn [pem_Decode demo_pem]. destruct (cut s ";") as [[l r]|] eqn:E; [|done].
  apply cut_Some in E as [-> _]. rewrite length_append. cbn [String.length].
  destruct (cut l ":") as [[ty bytes]|]; [|done]. intros [= _ <-]. lia.
Qed.

Definition demo_log_entry : TransparencyLogEntry :=
  MkTransparencyLogEntry 42 "log" "hashedrekord" "0.0.1" 1700000000 "set" "body".
#[export] Instance demo_rekor_codec : Codec rekorBundlePayload := {|
  marshal _ := Ok "{}"; unmarshal _ := Ok (rekor_payload demo_log_entry) |}.

Definition demo_annotations : gmap string string :=
  {[ cosignAnnotationSignature := base64_EncodeToString "signature";
     cosignAnnotationCert := "CERTIFICATE:leaf;CERTIFICATE:root;";
     cosignAnnotationBundle := "{}" ]}.
Definition demo_layer : Layer :=
  MkLayer cosignSimpleSigningMediaType (hex_EncodeToString "payload digest") (Some demo_annotations).

(** A registry that holds the signature of every artifact. *)
#[export] Instance demo_registry : ContainerRegistry := {|
  Reference := string;
  ParseReference _ s := Ok s;
  ContextName s := s;
  NewTag _ s := Ok s;
  RemoteDescriptor := string;
  remote_Get r := io_ret (Ok r);
  desc_DigestHex d := hex_EncodeToString d;
  SigImage := string;
  desc_Image d := io_ret (Ok d);
  image_Manifest _ := io_ret (Ok [MkLayer "text/plain" "00" None; demo_layer]);
|}.

#[export] Instance demo_sigstore : Sigstore := {|
  TrustedRoot := string;
  NewTrustedRootFromPath p := io_ret (Ok p);
  FetchTrustedRootWithOptions := io_ret (Ok "tuf");
  CertificateIdentity := string * string;
  NewShortCertificateIdentity issuer _ identity _ := Ok (issuer, identity);
  PublicKey := string;
  UnmarshalPEMToPublicKey s := Ok s;
  SigVerifier := string;
  LoadVerifier s := Ok s;
  SigstoreVerifier := TrustedMaterial string string;
  NewVerifier m _ := Ok m;
  SigBundle := ProtoBundle;
  NewBundle b := Ok b;
  sigstore_Verify _ _ p :=
    io_ret (match VP_Identity _ p with
            | WithCertificateIdentity id => Ok (MkSigstoreResult (Some id) None)
            | WithKey => Ok (MkSigstoreResult None None)
            end);
|}.
