(* ===== verification/Witnesses.v ===== *)
(** * The theorems at concrete inputs

    For each property with hypotheses, a run of the program in the environment
    of Demo.v at which the hypotheses hold and the property applies. *)
From stdpp Require Import gmap.
From S2P Require Import Prelude GoStrings Digest OciRef World State Complypack Sync Config.
From S2P Require Import Workspace Provider Generation Resolver Evaluator Report Scan Get Demo.

(** ** Synchronisation *)

(** A rejected signature: nothing is fetched. *)
Lemma SyncPolicy_fail_closed_witness :
  let '((r, st'), w') := SyncPolicy (demo_sync (Some reject_all)) demo_state "policies/new" "v1" demo_world in
  st' = demo_state /\ r <> Ok true /\ forall q, get q (w_fs w') = get q demo_fs.
Proof.
  apply (SyncPolicy_fail_closed (demo_sync (Some reject_all)) demo_state "policies/new" "v1" demo_world reject_all);
    [reflexivity| |intros x; apply preserves_ret|exact reject_reads].
  vm_compute. reflexivity.
Defined.

Definition fetched_run : result bool * State * world :=
  SyncPolicy (demo_sync (Some accept_all)) demo_state "policies/new" "v1" demo_world.

Lemma fetched_ok : fetched_run = ((Ok true, fetched_run.1.2), fetched_run.2).
Proof. apply run_split. vm_compute. reflexivity. Qed.

Lemma SyncPolicy_records_witness :
  fetched_run.1.1 = Ok true /\
  exists ps x w3 w4, GetPolicyState fetched_run.1.2 "policies/new" = Some ps /\ Digest ps = demo_digest /\
    accept_all "registry.example.org/policies/new:v1" false w3 = (Ok x, w4) /\ Verified ps = VR_Verified x.
Proof.
  split; [vm_compute; reflexivity|].
  destruct (SyncPolicy_records _ _ _ _ _ _ _ fetched_ok)
    as (w1 & w2 & d & rv & vr & ps & Hd & Hps & (_ & Hdg & Hv) & _ & _ & (_ & x & w3 & w4 & -> & Hvf) & _).
  exists ps, x, w3, w4. destruct Hv as [Hv _].
  split; [exact Hps|]. split; [|split; [exact Hvf|exact Hv]].
  rewrite Hdg. cbv [demo_sync sync_source demo_source Src_DefinitionVersion io_ret] in Hd. congruence.
Defined.

Lemma demo_dirs_diverge : diverges ["data"] ["cache"; "policies"; "policies"; "new"].
Proof. split; intros [k Hk]; discriminate Hk. Qed.

Lemma demo_source_marker t p w1 ds w2 id :
  Src_Copy demo_source id t p w1 = (Ok ds, w2) -> is_Some (get (p ++ [oci_layout]) (w_fs w2)).
Proof.
  cbn [Src_Copy demo_source]. unfold io_try, io_bind, io_ret.
  destruct (os_WriteFile _ _ _ w1) as [[[]|e] w3] eqn:E; [|done]. intros [= _ <-].
  apply os_WriteFile_ok in E as (pm & -> & _). by eexists.
Qed.

Lemma SyncPolicy_incremental_witness :
  exists w'', SyncPolicy (demo_sync (Some accept_all)) fetched_run.1.2 "policies/new" "v1" fetched_run.2
    = ((Ok false, fetched_run.1.2), w'').
Proof.
  destruct (SyncPolicy_incremental (demo_sync (Some accept_all)) demo_state "policies/new" "v1" demo_world
    fetched_run.1.2 fetched_run.2 demo_digest "1.0.0" fetched_ok) as (w'' & Hw & _).
  - vm_compute. reflexivity.
  - intros t p w1 ds w2. apply demo_source_marker.
  - exact demo_dirs_diverge.
  - vm_compute. reflexivity.
  - exists w''. exact Hw.
Defined.

Definition unverified_run : result bool * State * world :=
  SyncPolicy (demo_sync None) demo_state "policies/new" "v1" demo_world.

(** Fetched before verification was configured: even a verifier that rejects
    everything is not asked. *)
Lemma late_verifier_not_run_witness :
  unverified_run.1.1 = Ok true /\ forall n, exists w'',
    Nat.iter n (fun r => SyncPolicy (with_verifier (demo_sync None) reject_all) r.1.2 "policies/new" "v1" r.2)
      ((Ok false, unverified_run.1.2), unverified_run.2) = ((Ok false, unverified_run.1.2), w'') /\
    w_fs w'' = w_fs unverified_run.2 /\ no_faults w''.
Proof.
  split; [vm_compute; reflexivity|].
  apply (late_verifier_not_run (demo_sync None) demo_state "policies/new" "v1" demo_world
    unverified_run.1.2 unverified_run.2 demo_digest "1.0.0" reject_all).
  - apply run_split. vm_compute. reflexivity.
  - reflexivity.
  - discriminate.
  - vm_compute. reflexivity.
  - intros t p w1 ds w2. apply demo_source_marker.
  - exact demo_dirs_diverge.
  - intros t. vm_compute. reflexivity.
Defined.

Lemma SyncComplypack_fail_closed_witness :
  let '((r, st'), w') := SyncComplypack ["tmp"] (demo_complypack_sync (Some reject_all)) State_fresh
                           "packs/new" "v2" demo_world in
  st' = State_fresh /\ r <> Ok true /\ forall q, get q (w_fs w') = get q demo_fs.
Proof.
  apply (SyncComplypack_fail_closed ["tmp"] (demo_complypack_sync (Some reject_all)) State_fresh "packs/new" "v2"
    demo_world reject_all); [reflexivity| |intros x; apply preserves_ret|exact reject_reads].
  vm_compute. reflexivity.
Defined.

Definition pack_run : result bool * State * world :=
  SyncComplypack ["tmp"] (demo_complypack_sync (Some accept_all)) State_fresh "packs/new" "v2" demo_world.

Lemma pack_ok : pack_run = ((Ok true, pack_run.1.2), pack_run.2).
Proof. apply run_split. vm_compute. reflexivity. Qed.

Lemma not_prefix_head (x y : string) l k : x <> y -> diverges (x :: l) (y :: k).
Proof. intros Hne. split; intros H; by apply prefix_cons_inv_1 in H. Qed.

Lemma SyncComplypack_consistent_witness :
  pack_run.1.1 = Ok true /\ consistent demo_cache pack_run.1.2 "packs/new" (w_fs pack_run.2).
Proof.
  split; [vm_compute; reflexivity|].
  apply (SyncComplypack_consistent ["tmp"] (demo_complypack_sync (Some accept_all)) State_fresh "packs/new" "v2"
    demo_world pack_run.1.2 pack_run.2 pack_ok).
  - intros p ds w1 cfg content w2 [= <- <- _]. by split.
  - intros vf x i [= <-]. apply accept_reads.
  - by apply not_prefix_head.
  - intros name. by apply not_prefix_head.
Defined.

(** ** The complypack cache *)

Definition store_run : result path * world :=
  Store demo_cache (Some demo_state) demo_pack (Ok "content") demo_world.

Lemma Store_Lookup_witness :
  (Lookup demo_cache "openscap" "v2" store_run.2).1 =
    Ok (["cache"; "complypacks"; "openscap"; "v2"; "content.tar.gz"], demo_pack) /\
  exists perm, get ["cache"; "complypacks"; "openscap"; "v2"; "content.tar.gz"] (w_fs store_run.2)
               = Some (File "content" perm).
Proof.
  apply (Store_Lookup demo_cache (Some demo_state) demo_pack "content" _ demo_world store_run.2).
  - apply run_split1. vm_compute. reflexivity.
  - discriminate.
  - discriminate.
  - reflexivity.
  - vm_compute. reflexivity.
  - vm_compute. reflexivity.
Defined.

(** The content stream breaks off: what was cached before stays. *)
Definition broken_world : world :=
  MkWorld (Dir {[ "cache" := Dir {[ "complypacks" := Dir {[ "other" := File "kept" 420 ]} ]} ]}) 0
    (fun _ => None) (fun t => Z.of_nat t) (fun _ _ => "r") ∅.
Definition broken_run : result path * world :=
  Store demo_cache (Some demo_state) demo_pack (Err (Errorf "stream reset")) broken_world.

Lemma Store_error_preserves_witness :
  is_ok broken_run.1 = false /\
  get ["cache"; "complypacks"; "other"] (w_fs broken_run.2) = Some (File "kept" 420).
Proof.
  split; [vm_compute; reflexivity|].
  destruct (broken_run.1) as [p|e] eqn:E; [vm_compute in E; discriminate E|].
  transitivity (get ["cache"; "complypacks"; "other"] (w_fs broken_world)); [|reflexivity].
  apply (Store_error_preserves demo_cache (Some demo_state) demo_pack (Err (Errorf "stream reset")) e
    broken_world broken_run.2).
  - by apply run_split1.
  - discriminate.
  - discriminate.
  - intros H. apply prefix_cons_inv_2, prefix_cons_inv_2, prefix_cons_inv_1 in H. discriminate H.
  - do 2 apply diverges_cons. by apply not_prefix_head.
  - intros s. do 2 apply diverges_cons. by apply not_prefix_head.
Defined.

Lemma complypackDir_contained_witness :
  complypackDir demo_cache "openscap" "v2" = ["cache"; "complypacks"; "openscap"; "v2"] /\
  complypackDir demo_cache "opa" "v2" <> complypackDir demo_cache "openscap" "v2".
Proof.
  destruct (complypackDir_contained demo_cache "openscap" "v2" eq_refl eq_refl) as [Hd Hinj];
    [discriminate|discriminate|].
  split; [exact Hd|]. intros H.
  destruct (Hinj "opa" "v2" eq_refl eq_refl ltac:(discriminate) ltac:(discriminate) H) as [Hev _].
  discriminate Hev.
Defined.

Definition versions : gmap string node :=
  {[ "v0" := Dir ∅; "v1" := Dir ∅; "v2" := Dir ∅; ".hidden" := Dir ∅ ]}.
Definition eviction_world : world :=
  MkWorld (Dir {[ "openscap" := Dir versions ]}) 0 (fun _ => None) (fun t => Z.of_nat t) (fun _ _ => "r") ∅.


(** ** The cache state *)

Definition save_run : result unit * world := SaveState demo_state ["data"] demo_world.

Lemma LoadState_SaveState_witness : (LoadState ["data"] save_run.2).1 = Ok demo_state.
Proof.
  apply (LoadState_SaveState demo_state ["data"] demo_world save_run.2 "state").
  - split; refine (bool_decide_unpack _ _); vm_compute; exact I.
  - apply run_split1. vm_compute. reflexivity.
  - reflexivity.
  - reflexivity.
  - vm_compute. reflexivity.
Defined.

Definition load_run : result State * world := LoadState ["data"] save_run.2.

Definition updated_state : State :=
  match UpdatePolicyStateWithVerification demo_state "policies/new" "v1" demo_digest None 8 9 with
  | Ok s => s
  | Err _ => State_fresh
  end.

Lemma digests_valid_reachable_witness :
  exists ps, Policies updated_state !! "policies/new" = Some ps /\ Version ps = "v1" /\
    (Digest ps = "" \/ well_formed_digest (Digest ps)).
Proof.
  exists (mk_entry "v1" demo_digest "" 8 None).
  split; [vm_compute; reflexivity|]. split; [reflexivity|].
  apply (digests_valid_reachable ["data"] save_run.2 demo_state load_run.2 updated_state "policies/new"
    (mk_entry "v1" demo_digest "" 8 None)).
  - change (load_run = (Ok demo_state, load_run.2)). apply run_split1. vm_compute. reflexivity.
  - apply rtc_once, (step_policy _ "policies/new" "v1" demo_digest None 8 9). vm_compute. reflexivity.
  - left. vm_compute. reflexivity.
Defined.
