(* ===== verification/Witnesses2.v ===== *)
(** * The theorems at concrete inputs: configuration, commands, providers *)
From stdpp Require Import gmap.
From S2P Require Import Prelude GoStrings Digest OciRef World State Complypack Sync Config.
From S2P Require Import Workspace Provider Generation Resolver Evaluator Report Scan Get Demo.

(** ** The get command *)

Definition demo_get : get_state := MkGetState State_fresh (Some ∅).

Lemma demo_cache_sound : cache_sound ∅.
Proof. intros cfg vf H. by rewrite lookup_empty in H. Qed.

Lemma resolveVerifier_fail_closed_witness :
  exists vf m' w', resolveVerifier demo_policy_entry (Some demo_verification) (Some ∅) demo_world
    = ((Ok (Some vf), Some m'), w') /\ built demo_verification vf /\ cache_sound m'.
Proof.
  pose proof (resolveVerifier_fail_closed demo_policy_entry (Some demo_verification) ∅ demo_world
    demo_cache_sound) as H.
  assert (Hrun : resolveVerifier demo_policy_entry (Some demo_verification) (Some ∅) demo_world
    = ((Ok (Some accept_all), Some (<[demo_verification := accept_all]> ∅)), demo_world)) by reflexivity.
  cbv zeta in H. rewrite Hrun in H. destruct H as [(m' & Hm' & _ & Hs) (_ & v & Hv & Hb & _)].
  exists accept_all, m', demo_world. split; [rewrite Hrun, Hm'; reflexivity|]. split; [|exact Hs].
  cbn in Hv. injection Hv as <-. exact Hb.
Defined.

Definition get_run1 : result unit * get_state * world :=
  syncSinglePolicy ["cache"] ["data"] demo_policy_entry (Some demo_verification) demo_get demo_world.

Lemma configured_policy_verified_witness :
  get_run1.1.1 = Ok tt /\
  exists vf x w1 w2, built demo_verification vf /\
    vf "registry.example.org/policies/cis:v1" false w1 = (Ok x, w2) /\
    exists ps, GetPolicyState (gs_state get_run1.1.2) "policies/cis" = Some ps /\
      trust ps = (demo_digest, VR_Verified x, VR_SignerIdentity x, VR_Issuer x).
Proof.
  split; [vm_compute; reflexivity|].
  destruct (configured_policy_verified ["cache"] ["data"] demo_policy_entry (Some demo_verification) demo_get ∅
    demo_verification demo_world get_run1.1.2 get_run1.2) as (ref & vf & Href & Hb & H).
  - reflexivity.
  - exact demo_cache_sound.
  - reflexivity.
  - reflexivity.
  - apply run_split. vm_compute. reflexivity.
  - vm_compute in Href. injection Href as <-.
    assert (Hps : exists ps, GetPolicyState (gs_state get_run1.1.2) "policies/cis" = Some ps /\
      Digest ps = demo_digest) by (eexists; split; vm_compute; reflexivity).
    destruct Hps as (ps & Hps & Hd). destruct (H ps Hps) as [(ps0 & Hps0 & _)|(_ & x & w1 & w2 & Hvf & Ht)].
    + vm_compute in Hps0. discriminate Hps0.
    + exists vf, x, w1, w2. split; [exact Hb|]. split; [exact Hvf|]. exists ps. rewrite <-Hd. by split.
Defined.

(** A workspace whose only verification block is the entry's: rejecting every
    signature makes no difference. *)
Definition unverified_config : WorkspaceConfig :=
  MkWorkspaceConfig 1 [MkPolicyEntry "registry.example.org/policies/cis:v1" "cis" (Some demo_verification) false]
    [] [MkTargetConfig "prod" ["cis"] ∅] ∅ None.
Definition rejecting : Verifiers := {|
  NewKeyedVerifier _ := io_ret (Ok reject_all); NewKeylessVerifier _ _ _ := io_ret (Ok reject_all) |}.

Lemma entry_verification_needs_workspace_block_witness :
  IsConfigured (Some demo_verification) = true /\
  get_run (vs := rejecting) ["tmp"] (Ok tt) ["cache"] ["data"] ["ws"] unverified_config false demo_world =
  get_run (vs := demo_verifiers) ["tmp"] (Ok tt) ["cache"] ["data"] ["ws"] unverified_config false demo_world.
Proof.
  split; [reflexivity|].
  destruct (entry_verification_needs_workspace_block rejecting demo_verifiers ["tmp"] (Ok tt) ["cache"] ["data"]
    ["ws"] unverified_config demo_world) as [_ H]; [reflexivity|exact H].
Defined.

(** ** Configuration *)

(** Two targets of the same name are refused. *)
Definition clashing_config : WorkspaceConfig :=
  MkWorkspaceConfig 1 [demo_policy_entry] [] [demo_target; demo_target] ∅ None.

Lemma Validate_iff_well_formed_witness :
  well_formed [] demo_fs demo_config /\ ~ well_formed [] demo_fs clashing_config.
Proof.
  split.
  - apply (Validate_iff_well_formed [] demo_config demo_world demo_no_faults). vm_compute. reflexivity.
  - intros H. apply (Validate_iff_well_formed [] clashing_config demo_world demo_no_faults) in H.
    vm_compute in H. discriminate H.
Defined.

Definition config_world : world :=
  MkWorld (Dir {[ "complytime.yaml" := File "config" 420 ]}) 0 (fun _ => None) (fun t => Z.of_nat t)
    (fun _ _ => "r") {[ "HOST" := "db1" ]}.
Definition template_config : WorkspaceConfig :=
  MkWorkspaceConfig 1 [demo_policy_entry] [] [demo_target] ∅ (Some demo_verification).
Definition template_codec : Codec WorkspaceConfig := {|
  marshal _ := Ok "config"; unmarshal _ := Ok template_config |}.
Definition config_run : result WorkspaceConfig * world :=
  LoadFrom (cfgCodec := template_codec) [] ["complytime.yaml"] config_world.
Definition loaded_config : WorkspaceConfig :=
  match config_run.1 with Ok c => c | Err _ => demo_config end.

Lemma LoadFrom_sound_witness :
  (exists t, WC_Targets loaded_config = [t] /\ T_Variables t !! "host" = Some "db1") /\
  Forall (fun e => (ParsePolicyRef (PE_URL e)).2 = None) (WC_Policies loaded_config ++ WC_Complypacks loaded_config).
Proof.
  split; [eexists; split; vm_compute; reflexivity|].
  destruct (LoadFrom_sound (cfgCodec := template_codec) [] ["complytime.yaml"] config_world loaded_config
    config_run.2) as (data & c0 & w1 & _ & _ & H & _); [|exact H].
  apply run_split1. vm_compute. reflexivity.
Defined.

Lemma ParsePolicyRef_forms_witness :
  ParsePolicyRef "http://localhost:5000/policies/cis:v1.2" =
    (MkPolicyRef "http://localhost:5000/policies/cis:v1.2" "http://localhost:5000" "policies/cis" "v1.2" "", None).
Proof.
  destruct (ParsePolicyRef_forms "http://" "localhost:5000" "policies/cis" "v1.2" demo_digest) as [H _].
  - apply contains_spec. reflexivity.
  - reflexivity.
  - reflexivity.
  - reflexivity.
  - reflexivity.
  - reflexivity.
  - vm_compute. reflexivity.
  - vm_compute. reflexivity.
  - intros x Hx. rewrite !elem_of_cons, elem_of_nil in Hx.
    destruct Hx as [->|[->|[->|[->|[]]]]]; vm_compute; reflexivity.
  - exact H.
Defined.

Definition template : list segment := [Lit "ssh://"; Var "USER"; Lit "@"; Var "HOST"].
Lemma expandEnvRef_template_witness :
  expandEnvRef {[ "USER" := "root"; "HOST" := "db1" ]} "ssh://${USER}@${HOST}" = Ok "ssh://root@db1" /\
  is_ok (expandEnvRef {[ "USER" := "root" ]} "ssh://${USER}@${HOST}") = false.
Proof.
  assert (Forall segment_ok template) as Hok by (repeat constructor; discriminate).
  pose proof (expandEnvRef_template {[ "USER" := "root"; "HOST" := "db1" ]} template Hok) as H1.
  pose proof (expandEnvRef_template {[ "USER" := "root" ]} template Hok) as H2.
  change (render template) with "ssh://${USER}@${HOST}" in H1, H2. rewrite H1, H2.
  split; vm_compute; reflexivity.
Defined.

(** ** Generated artifacts *)

(** One state file mentions the evaluator, another file is not JSON. *)
Definition generated_world : world :=
  MkWorld (Dir {[ ".complytime" := Dir {[ "generation" :=
    Dir {[ "cis.json" := File "generation" 420; "notes.txt" := File "generation" 420 ]} ]} ]}) 0
    (fun _ => None) (fun t => Z.of_nat t) (fun _ _ => "r") ∅.

Lemma InvalidateForEvaluator_exact_witness :
  exists ws w', InvalidateForEvaluator [] "openscap" generated_world = (Ok ws, w') /\
    get [".complytime"; "generation"; "notes.txt"] (w_fs w') = Some (File "generation" 420) /\
    (forall d pm, get [".complytime"; "generation"; "cis.json"] (w_fs w') <> Some (File d pm)).
Proof.
  destruct (InvalidateForEvaluator_exact "openscap" [] generated_world
    {[ "cis.json" := File "generation" 420; "notes.txt" := File "generation" 420 ]})
    as (ws & w' & Hrun & _ & Hfiles); [done|vm_compute; reflexivity|].
  exists ws, w'. split; [exact Hrun|]. split.
  - apply (Hfiles ["notes.txt"]); [discriminate|]. split; [vm_compute; reflexivity|].
    intros (t0 & name & Ht & Hs & _). destruct t0 as [|x [|y t0]]; cbn in Ht;
      [injection Ht as <-; vm_compute in Hs; discriminate Hs|discriminate Ht|discriminate Ht].
  - intros d pm H. apply (Hfiles ["cis.json"]) in H; [|discriminate]. destruct H as [Hget Hnot].
    vm_compute in Hget. injection Hget as <- <-. apply Hnot. exists [], "cis.json".
    split; [reflexivity|]. split; vm_compute; reflexivity.
Defined.

(** ** Policies *)

Definition graph_run : result DependencyGraph * world := ResolvePolicyGraph "policies/cis" "v1" demo_world.
Definition demo_graph : DependencyGraph :=
  match graph_run.1 with
  | Ok g => g
  | Err _ => MkDependencyGraph "" [] [] [] "" None []
  end.

Lemma ResolvePolicyGraph_sound_witness :
  DG_PolicyID demo_graph = "policies/cis" /\ length (DG_Assessments demo_graph) = 1%nat /\
  Forall (fun c => Ctl_Parsed c <> None) (DG_Controls demo_graph).
Proof.
  destruct (ResolvePolicyGraph_sound "policies/cis" "v1" demo_world demo_graph graph_run.2)
    as (Hid & _ & Hc & _).
  - apply run_split1. vm_compute. reflexivity.
  - split; [exact Hid|]. split; [vm_compute; reflexivity|exact Hc].
Defined.

(** ** Providers *)

Definition demo_plugins : plugins :=
  {[ "openscap" := MkLoadedProvider (MkProviderInfo "openscap" "openscap"
       ["providers"; "complyctl-provider-openscap"]) demo_impl ]}.

Lemma RouteScan_covers_witness :
  RouteScan false demo_plugins "openscap" [MkTarget "prod" ∅] = Ok [demo_assessment] /\
  exists r, RouteScanResult false demo_plugins "openscap" [MkTarget "prod" ∅] = Ok r /\
    SR_Errors r = [].
Proof.
  assert (registered demo_plugins) as Hreg.
  { intros ev lp H. unfold demo_plugins in H. apply lookup_singleton_Some in H as [<- <-]. by split. }
  pose proof (RouteScan_covers false demo_plugins "openscap" [MkTarget "prod" ∅] Hreg) as H. cbv zeta in H.
  destruct (RouteScanResult false demo_plugins "openscap" [MkTarget "prod" ∅]) as [r|e] eqn:E;
    [|vm_compute in E; discriminate E].
  destruct (RouteScan false demo_plugins "openscap" [MkTarget "prod" ∅]) as [logs|e] eqn:E2;
    [|vm_compute in E2; discriminate E2].
  destruct H as (asked & Hasked & _ & Herr & Hlogs). cbn [bool_decide] in Hasked.
  destruct Hasked as (lp & Hlp & ->). vm_compute in Hlp. injection Hlp as <-.
  split; [rewrite Hlogs; vm_compute; reflexivity|]. exists r. split; [reflexivity|].
  rewrite Herr. vm_compute. reflexivity.
Defined.

Definition provider_world : world :=
  MkWorld (Dir {[ "user" := Dir {[ "complyctl-provider-opa" := File "elf" 493; "README" := File "text" 420 ]};
                  "sys" := Dir {[ "complyctl-provider-opa" := File "elf" 493 ]} ]}) 0
    (fun _ => None) (fun t => Z.of_nat t) (fun _ _ => "r") ∅.

(** The user's provider shadows the system's. *)
Lemma DiscoverProviders_exact_witness :
  exists l w', DiscoverProviders ["user"] ["sys"] provider_world = (Ok l, w') /\
    NoDup (PI_EvaluatorID <$> l) /\
    MkProviderInfo "opa" "opa" ["user"; "complyctl-provider-opa"] ∈ l.
Proof.
  destruct (DiscoverProviders_exact ["user"] ["sys"] provider_world) as (l & w' & Hrun & Hnd & Hin).
  - done.
  - intros d pm H. vm_compute in H. discriminate H.
  - intros d pm H. vm_compute in H. discriminate H.
  - exists l, w'. split; [exact Hrun|]. split; [exact Hnd|]. apply Hin. left.
    exists {[ "complyctl-provider-opa" := File "elf" 493; "README" := File "text" 420 ]}.
    split; [vm_compute; reflexivity|]. exists "elf", 493%Z. repeat split; vm_compute; reflexivity.
Defined.

Definition stores_world : world :=
  MkWorld (Dir {[ "cache" := Dir {[ "policies" := Dir {[
    "team" := Dir {[ "cis" := Dir {[ "oci-layout" := File "{}" 420 ]} ]} ]} ]} ]}) 0
    (fun _ => None) (fun t => Z.of_nat t) (fun _ _ => "r") ∅.

Lemma ListPolicies_exact_witness :
  exists l, (ListPolicies ["cache"] stores_world).1 = Ok l /\ ["team"; "cis"] ∈ l.
Proof.
  destruct (ListPolicies_exact ["cache"] stores_world) as (l & Hl & Hin); [done| |].
  - intros d pm H. vm_compute in H. discriminate H.
  - exists l. split; [exact Hl|]. apply Hin. exists "{}", 420%Z. vm_compute. reflexivity.
Defined.

(** ** The scan command *)

(** The policy is inferred from the target. *)
Lemma select_scan_sound_witness :
  select_scan demo_config "prod" "" = Ok (demo_policy_entry, WC_Targets demo_config, WC_Targets demo_config) /\
  exists t pid, t ∈ WC_Targets demo_config /\ T_ID t = "prod" /\ T_Policies t = [pid] /\
    EffectiveID demo_policy_entry = trim_space pid.
Proof.
  assert (Hrun : select_scan demo_config "prod" "" =
    Ok (demo_policy_entry, WC_Targets demo_config, WC_Targets demo_config)) by (vm_compute; reflexivity).
  split; [exact Hrun|].
  destruct (select_scan_sound demo_config "prod" "" _ _ _ Hrun) as (_ & _ & _ & H).
  destruct H as (t & pid & Hin & Hid & _ & He & Hone & _); [discriminate|].
  exists t, pid. split; [exact Hin|]. split; [exact Hid|]. split; [exact (Hone eq_refl)|exact He].
Defined.

(** A provider answers for a plan; the assessment gets the plan's requirement. *)
Lemma assessment_ids_resolved_witness :
  AL_RequirementID demo_assessment = "" /\
  exists p, p ∈ DG_Assessments demo_graph /\
    AL_RequirementID (resolve_assessment (extractPlanToReqMap demo_graph) demo_assessment) = A_RequirementID p.
Proof.
  split; [reflexivity|].
  destruct (assessment_ids_resolved demo_graph (map_to_list (extractPlanToReqMap demo_graph)) demo_assessment)
    as (_ & _ & H & _); [reflexivity|].
  destruct H as [(p & (Hp & _) & Hr) _].
  - exists (MkAssessment "plan-1" "req-1" "openscap" ∅). split; [|split; [reflexivity|discriminate]].
    assert (DG_Assessments demo_graph = [MkAssessment "plan-1" "req-1" "openscap" ∅]) as ->
      by (vm_compute; reflexivity). left.
  - exists p. split; [exact Hp|exact Hr].
Defined.

Definition demo_groups : gmap string EvaluatorGroup :=
  GroupByEvaluator (ExtractAssessmentConfigs demo_graph) demo_graph.
Definition scanned_targets : list TargetConfig := [MkTargetConfig "prod" ["cis"] ∅; MkTargetConfig "dev" ["cis"] ∅].
Definition scan_out : scanOutput :=
  match scanAllTargets (fun _ _ => false) demo_plugins demo_groups scanned_targets with
  | Ok o => o
  | Err _ => MkScanOutput [] [] [] ∅
  end.


#[export] Instance demo_times : TimeText := {| rfc3339 t := itoa t; file_stamp t := itoa t |}.

Definition generation_run : result (list gen_call) * world :=
  runGeneration ["cache"] ["data"] ["ws"] demo_plugins demo_groups scanned_targets {[ "workspace" := "/ws" ]}
    "policies/cis" demo_digest ["openscap"] {[ "openscap" := demo_digest ]} demo_world.


(** After a generation with content for openscap, whose artifacts are there. *)
Definition artifact_world : world :=
  MkWorld (Dir {[ ".complytime" := Dir {[ "openscap" := Dir {[ "datastream.xml" := File "xml" 420 ]} ]} ]}) 0
    (fun _ => None) (fun t => Z.of_nat t) (fun _ _ => "r") ∅.

Lemma reuse_iff_unchanged_witness :
  let packs : gmap string string := {[ "openscap" := demo_digest ]} in
  (needsRegeneration [] (Some (NewGenerationState "then" "policies/cis" demo_digest ["openscap"]
     (filterComplypackDigests packs ["openscap"]))) demo_digest packs artifact_world).1 = false.
Proof.
  apply (reuse_iff_unchanged [] "then" "policies/cis" demo_digest demo_digest ["openscap"]
    {[ "openscap" := demo_digest ]} {[ "openscap" := demo_digest ]} ["openscap"] artifact_world); [done|].
  split; [reflexivity|]. split; [reflexivity|]. split.
  - intros ev Hev. apply lookup_singleton_None. intros Heq. apply Hev. rewrite <- Heq. apply list_elem_of_here.
  - intros ev ->%list_elem_of_singleton. exists {[ "datastream.xml" := File "xml" 420 ]}.
    split; [vm_compute; reflexivity|]. apply insert_non_empty.
Defined.

(** Two policies with different evaluators: the first is regenerated by every
    scan while the second's complypack is cached. *)
Lemma foreign_complypack_regenerates_witness :
  let packs : gmap string string := {[ "openscap" := demo_digest; "opa" := demo_digest ]} in
  (needsRegeneration [] (Some (NewGenerationState "then" "policies/cis" demo_digest ["openscap"]
     (filterComplypackDigests packs ["openscap"]))) demo_digest packs artifact_world).1 = true.
Proof.
  apply (foreign_complypack_regenerates [] "then" "policies/cis" demo_digest ["openscap"]
    {[ "openscap" := demo_digest; "opa" := demo_digest ]} ["openscap"] "opa" demo_digest artifact_world).
  - vm_compute. reflexivity.
  - intros H. apply list_elem_of_singleton in H. discriminate H.
Defined.
