(* ===== verification/Witnesses3.v ===== *)
(** * The theorems at concrete inputs: doctor, signatures, init *)
From stdpp Require Import gmap.
From S2P Require Import Prelude GoStrings Digest OciRef World State Complypack Sync Config.
From S2P Require Import Workspace Provider Generation Resolver Evaluator Report Get.
From S2P Require Import Time Diagnostics DoctorVars DoctorPacks Doctor DoctorVerbose DoctorFrame.
From S2P Require Import Encoding Verify Init Demo.

(** ** Doctor *)

(** An installation: one provider, a state, a policy and its target. *)
Definition doctor_fs : node :=
  Dir {[ "cache" := Dir {[ "policies" := Dir {[ "cis" := Dir ∅ ]} ]};
         "data" := Dir {[ "state.json" := File "{}" 420;
                          "providers" := Dir {[ "complyctl-provider-openscap" := File "" 493 ]} ]};
         "ws" := Dir {[ ".complytime" := Dir {[ "complytime.yaml" := File "policies:" 384 ]} ]} ]}.
Definition doctor_world : world :=
  MkWorld doctor_fs 0 (fun _ => None) (fun t => Z.of_nat t) (fun _ _ => "r") ∅.

Definition doctor_options (cfg : option WorkspaceConfig) (resolver : PolicyGraphResolver) (verbose : bool)
    : RunOptions :=
  MkRunOptions cfg ["ws"; ".complytime"; "complytime.yaml"] ["data"; "providers"] ["cache"] ["data"]
    (Some resolver) (Some registryVersionResolver) verbose.

(** The checks of a run, by name, status and children. *)
Definition shown (r : CheckResult) : string * string * list string :=
  (CR_Name r, CR_Status r, CR_Name <$> CR_Children r).

Definition demo_run : list CheckResult * world :=
  Run ["ws"] (doctor_options (Some demo_config) demo_resolver true) doctor_world.

Example demo_run_shown : shown <$> demo_run.1 =
  [("provider/openscap", StatusPass, ["variables/openscap"]); ("policy/cis", StatusWarn, ["policy/cis/active-period"]);
   ("cache", StatusPass, []); ("config", StatusPass, []); ("verification", StatusPass, []);
   ("directory-layout", StatusPass, [])].
Proof. vm_compute. reflexivity. Qed.


(** Verbosity leaves the verdict and the counts of this run alone. *)
Lemma verbose_adds_details_only_witness :
  let opts := doctor_options (Some demo_config) demo_resolver false in
  let terse := (Run ["ws"] (set_verbose false opts) doctor_world).1 in
  let verbose := (Run ["ws"] (set_verbose true opts) doctor_world).1 in
  (forall r, r ∈ terse -> CR_Name r <> "policy") /\ summarizeResults verbose = summarizeResults terse /\
  summarizeResults terse = MkResultSummary 7 0 1 8 false.
Proof.
  intros opts terse verbose.
  assert (Hn : forall r, r ∈ terse -> CR_Name r <> "policy").
  { assert (Hall : Forall (fun r => CR_Name r <> "policy") terse).
    { assert (Hb : bool_decide (Forall (fun r => CR_Name r <> "policy") terse) = true) by (vm_compute; reflexivity).
      exact (bool_decide_eq_true_1 _ Hb). }
    rewrite Forall_forall in Hall. exact Hall. }
  split; [exact Hn|]. split; [|vm_compute; reflexivity].
  destruct (verbose_adds_details_only ["ws"] opts doctor_world) as (_ & _ & _ & H).
  apply H; [eexists; reflexivity|exact Hn].
Defined.

Lemma doctor_read_only_witness :
  let opts := doctor_options (Some demo_config) (NewResolver (loader := Loader ["cache"])) false in
  let after := w_fs (Run ["ws"] opts doctor_world).2 in
  get ["data"] after = get ["data"] (w_fs doctor_world) /\ get ["ws"] after = get ["ws"] (w_fs doctor_world) /\
  get ["cache"; "policies"; "policies"] after <> get ["cache"; "policies"; "policies"] (w_fs doctor_world).
Proof.
  assert (H : forall top, top <> "cache" ->
    get [top] (w_fs (Run ["ws"] (doctor_options (Some demo_config) (NewResolver (loader := Loader ["cache"])) false)
                doctor_world).2) = get [top] (w_fs doctor_world)).
  { intros top Hne. apply (doctor_read_only ["ws"] ["cache"]); [reflexivity|reflexivity|].
    intros cfg p ref [= <-] Hp%list_elem_of_singleton Href. subst p. vm_compute in Href. injection Href as <-.
    split; intros [k Hk]; cbn in Hk; injection Hk; congruence. }
  split; [apply H; discriminate|]. split; [apply H; discriminate|]. vm_compute. discriminate.
Defined.

(** One registry does not answer, the other does. *)
Definition dead_registry : VersionResolver :=
  MkVersionResolver
    (fun registry _ => io_ret (if bool_decide (registry = "reg1.example.org") then Err (Errorf "dial timeout")
                               else Ok "1.0.0"))
    (fun _ _ v => io_ret (Ok v)).
Definition two_registries : WorkspaceConfig :=
  MkWorkspaceConfig 1
    [MkPolicyEntry "reg1.example.org/policies/cis:v1" "a" None false;
     MkPolicyEntry "reg2.example.org/policies/cis" "b" None false;
     MkPolicyEntry "reg1.example.org/policies/cis" "c" None false] [] [] ∅ None.
Definition versions_run : (list CheckResult * list asked) * world :=
  CheckPolicyVersions (Some two_registries) ["data"] (Some dead_registry) doctor_world.

Lemma unreachable_registry_asked_once_witness :
  let q := MkAsked "reg1.example.org" "policies/cis" None (Err (Errorf "dial timeout")) in
  CR_Status <$> versions_run.1.1 = [StatusWarn; StatusPass; StatusWarn] /\
  exists t2, versions_run.1.2 = q :: t2 /\ length t2 = 1%nat /\
    forall q', q' ∈ t2 -> ask_registry q' <> "reg1.example.org".
Proof.
  intros q. split; [vm_compute; reflexivity|].
  assert (Ht : exists t2, versions_run.1.2 = q :: t2 /\ length t2 = 1%nat)
    by (eexists; split; vm_compute; reflexivity).
  destruct Ht as (t2 & Ht & Hl). exists t2. split; [exact Ht|]. split; [exact Hl|].
  apply (unreachable_registry_asked_once (Some two_registries) ["data"] (Some dead_registry) doctor_world
    versions_run.1.1 versions_run.1.2 versions_run.2 [] q t2).
  - apply run_split. reflexivity.
  - exact Ht.
  - split; [reflexivity|]. exists (Errorf "dial timeout"). split; reflexivity.
Defined.

(** The provider needs a variable of each kind; the target sets only one. *)
Definition demo_health : ProviderHealth := MkProviderHealth "openscap" ["workspace"] ["host"] ["user|token"].
Definition vars_config (vars : gmap string string) : WorkspaceConfig :=
  MkWorkspaceConfig 1 [demo_policy_entry] [] [MkTargetConfig "prod" ["cis"] vars] ∅ None.

Lemma CheckVariables_exact_witness :
  let good := vars_config {[ "host" := "h"; "token" := "t" ]} in
  let bad := vars_config {[ "host" := "h" ]} in
  let rv (_ v : string) : result string := Ok v in
  let rg (_ _ : string) : result DependencyGraph := Ok demo_graph in
  workspace_satisfies good rv rg demo_health /\ ~ workspace_satisfies bad rv rg demo_health.
Proof.
  intros good bad rv rg.
  assert (Hone : forall cfg, (exists status, (CheckVariables (Some cfg) [demo_health] (Some demo_resolver) false demo_world).1 =
      [status]) -> exists r, (CheckVariables (Some cfg) [demo_health] (Some demo_resolver) false demo_world).1 = [r] /\
        (CR_Status r = StatusPass <-> workspace_satisfies cfg rv rg demo_health)).
  { intros cfg [r Hr]. exists r. split; [exact Hr|].
    destruct (CheckVariables_exact demo_resolver cfg rv rg (fun _ _ _ => eq_refl) (fun _ _ _ => eq_refl)
      [demo_health] false demo_world) as [_ H].
    destruct (H demo_health) as (r' & Hin & _ & _ & Hp & _); [apply list_elem_of_here|left; discriminate|].
    rewrite Hr in Hin. apply list_elem_of_singleton in Hin as ->. exact Hp. }
  split.
  - destruct (Hone good) as (r & Hr & Hp); [eexists; vm_compute; reflexivity|]. apply Hp.
    vm_compute in Hr. injection Hr as <-. reflexivity.
  - destruct (Hone bad) as (r & Hr & Hp); [eexists; vm_compute; reflexivity|]. rewrite <-Hp.
    vm_compute in Hr. injection Hr as <-. discriminate.
Defined.

(** Two cached packs of three and four bytes. *)
Definition sized_world : world :=
  MkWorld (Dir {[ "cache" := Dir {[ "complypacks" := Dir {[ "openscap" := Dir {[
    "v1" := Dir {[ "content" := File "abc" 420 ]}; "v2" := Dir {[ "content" := File "abcd" 420 ]} ]} ]} ]} ]})
    0 (fun _ => None) (fun t => Z.of_nat t) (fun _ _ => "r") ∅.

Lemma walkCacheSize_exact_witness : (walkCacheSize ["cache"] sized_world).1 = Ok 7%Z.
Proof.
  destruct (walkCacheSize_exact ["cache"] sized_world) as (_ & _ & H); [vm_compute; reflexivity|].
  rewrite H; [vm_compute; reflexivity|intros t; reflexivity].
Defined.

(** Doctor's own resolver creates the store it looks for before the cache is
    checked: on an empty cache the check of the cache fails by itself, and passes
    as part of the run. *)
Definition empty_world : world :=
  MkWorld (Dir {[ "cache" := Dir ∅; "data" := Dir ∅ ]}) 0 (fun _ => None) (fun t => Z.of_nat t) (fun _ _ => "r") ∅.

Theorem doctor_masks_empty_cache :
  CR_Status (CheckCache ["cache"; "policies"] empty_world).1 = StatusFail /\
  (exists r, r ∈ (Run ["ws"] (doctor_options (Some demo_config) (NewResolver (loader := Loader ["cache"])) false)
                   empty_world).1 /\ CR_Name r = "cache" /\ CR_Status r = StatusPass).
Proof.
  split; [vm_compute; reflexivity|].
  assert (H : exists l r l', (Run ["ws"] (doctor_options (Some demo_config) (NewResolver (loader := Loader ["cache"])) false)
    empty_world).1 = l ++ r :: l' /\ CR_Name r = "cache" /\ CR_Status r = StatusPass).
  { eexists [_; _], _, _. vm_compute. split; [reflexivity|]. split; reflexivity. }
  destruct H as (l & r & l' & Heq & Hr). exists r. rewrite Heq. split; [set_solver|exact Hr].
Qed.

(** ** Signatures *)

Definition keyless : VerificationConfig := MkVerificationConfig "https://issuer.example" "ci@example.org" "" "".
Definition demo_keyless : VerifyFunc :=
  keyless_verify (RootMaterial "tuf" : SigstoreVerifier) ("https://issuer.example", "ci@example.org").


Lemma parseCertificateChain_exact_witness :
  parseCertificateChain "CERTIFICATE:leaf;OTHER:x;CERTIFICATE:root;" = Ok ["leaf"; "root"] /\
  exists blocks, pem_blocks "CERTIFICATE:leaf;OTHER:x;CERTIFICATE:root;" blocks /\
    certificates blocks = ["leaf"; "root"].
Proof.
  split; [reflexivity|].
  destruct (parseCertificateChain_exact "CERTIFICATE:leaf;OTHER:x;CERTIFICATE:root;") as (blocks & Hb & _ & H).
  exists blocks. split; [exact Hb|]. symmetry. apply (H ["leaf"; "root"]). reflexivity.
Defined.

Definition demo_bundle : ProtoBundle :=
  MkProtoBundle bundleMediaType
    (MkVerificationMaterial (X509CertificateChain ["leaf"; "root"]) [demo_log_entry]) "payload digest" "signature".

Lemma buildProtobufBundle_roundtrip_witness :
  buildProtobufBundle demo_layer (hex_EncodeToString "payload digest") = Ok demo_bundle.
Proof.
  apply (buildProtobufBundle_roundtrip demo_annotations demo_bundle cosignSimpleSigningMediaType).
  - reflexivity.
  - eexists. split; reflexivity.
  - split; [discriminate|]. exists "CERTIFICATE:leaf;CERTIFICATE:root;",
      [MkPemBlock "CERTIFICATE" "leaf"; MkPemBlock "CERTIFICATE" "root"].
    split; [reflexivity|]. split.
    + eapply pem_more; [reflexivity|]. eapply pem_more; [reflexivity|]. constructor. reflexivity.
    + split; [reflexivity|]. repeat constructor.
  - exists demo_log_entry. split; [reflexivity|]. split; [split; reflexivity|reflexivity].
Defined.

(** Two artifacts of different digests whose signature tags hold one layer. *)
Lemma demo_signature_layer r : signature_layer r false (hex_EncodeToString r) demo_layer demo_world.
Proof.
  set (tag := signature_tag (r : @Reference demo_registry) (hex_EncodeToString r)).
  exists (r : @Reference demo_registry), (r : @RemoteDescriptor demo_registry), demo_world,
    (tag : @Reference demo_registry), (tag : @RemoteDescriptor demo_registry), demo_world,
    (tag : @SigImage demo_registry), demo_world, [MkLayer "text/plain" "00" None], [], demo_world.
  split_and!; try reflexivity. repeat constructor. discriminate.
Qed.

Lemma signature_not_bound_to_artifact_witness :
  hex_EncodeToString "artifact a" <> hex_EncodeToString "artifact b" /\
  (bundleFromCosignOCI "artifact b" false demo_world).1 = (bundleFromCosignOCI "artifact a" false demo_world).1 /\
  is_ok (bundleFromCosignOCI "artifact a" false demo_world).1 = true.
Proof.
  split; [discriminate|]. split; [|vm_compute; reflexivity].
  apply (signature_not_bound_to_artifact "artifact a" "artifact b" false (hex_EncodeToString "artifact a")
    (hex_EncodeToString "artifact b") demo_layer);
    [exact (demo_signature_layer "artifact a")|exact (demo_signature_layer "artifact b")].
Defined.

(** ** Init *)

Definition init_session : string :=
  line "registry.example.org/policies/cis:v1" +:+ line "cis" +:+ line "not-a-reference" +:+
  line "registry.example.org/policies/nist" +:+ line "" +:+ line "" +:+ line "prod" +:+ line "cis".

Example init_session_read : exists rest, promptPolicies init_session =
  Some ([MkPolicyEntry "registry.example.org/policies/cis:v1" "cis" None false;
         MkPolicyEntry "registry.example.org/policies/nist" "" None false], rest) /\
  (promptTargets [MkPolicyEntry "registry.example.org/policies/cis:v1" "cis" None false] rest).1 =
    [MkTargetConfig "prod" ["cis"] ∅].
Proof. eexists. split; vm_compute; reflexivity. Qed.

Definition init_world : world :=
  MkWorld (Dir {[ "ws" := Dir ∅ ]}) 0 (fun _ => None) (fun t => Z.of_nat t) (fun _ _ => "r") ∅.


(** What init accepts need not be what the other commands accept: the reference
    here has a capital in its repository. *)
Theorem init_accepts_unusable_reference :
  promptPolicies (line "registry.example.org/policies/CIS" +:+ line "" +:+ line "") =
    Some ([MkPolicyEntry "registry.example.org/policies/CIS" "" None false], "") /\
  is_ok (validatePolicyRefs (MkWorkspaceConfig 0 [MkPolicyEntry "registry.example.org/policies/CIS" "" None false]
           [] [] ∅ None)) = false.
Proof. split; vm_compute; reflexivity. Qed.

(** Two references with the same last segment get the same derived identifier. *)
Theorem init_accepts_duplicate_ids :
  let a := MkPolicyEntry "a.example.org/policies/cis" "" None false in
  let b := MkPolicyEntry "b.example.org/policies/cis" "" None false in
  promptPolicies (line (PE_URL a) +:+ line "" +:+ line (PE_URL b) +:+ line "" +:+ line "") = Some ([a; b], "") /\
  is_ok (Validate ["ws"] (MkWorkspaceConfig 0 [a; b] [] [] ∅ None) demo_world).1 = false.
Proof. split; vm_compute; reflexivity. Qed.

(** A space after the comma of a list of targets makes the whole list be ignored. *)
Theorem init_spaced_target_list :
  promptTargets [demo_policy_entry] (line "web, db" +:+ line "" +:+ line "") =
    ([], line "b" +:+ line "" +:+ line "").
Proof. vm_compute. reflexivity. Qed.

(** ** Divergences of doctor *)

(** The graph of the policy has a timeline; the state cannot be decoded. *)
Definition timed_resolver : PolicyGraphResolver :=
  MkPolicyGraphResolver (fun _ v => io_ret (Ok v))
    (fun _ _ => io_ret (Ok (MkDependencyGraph "policies/cis" [] [] [MkAssessment "plan-1" "req-1" "openscap" ∅]
       "openscap" (Some (MkPolicyTimeline "2026-01-01" "" "" "2026-02-01" "" "")) []))).
Definition unreadable_state : Codec State := {|
  marshal _ := Ok "state"; unmarshal _ := Err (Errorf "unexpected end of JSON input") |}.

(** The count is not stable then: verbose lines are counted as children of the
    active period, which has no policy result to be attached to. *)
Theorem verbose_count_unstable :
  let run b := summarizeResults (Run (stCodec := unreadable_state) ["ws"]
                 (doctor_options (Some demo_config) timed_resolver b) doctor_world).1 in
  total (run false) = 8%Z /\ total (run true) = 9%Z.
Proof. split; vm_compute; reflexivity. Qed.

(** Policies whose identifiers share the first segment: the active period of the
    first is shown under the second. *)
Theorem active_period_misattached :
  let pol id := policy_result id StatusPass "1.0.0 (latest)" false in
  let period := active_period "team/a" None 0 false in
  attachByPolicyID [pol "team/a"; pol "team/b"] [period] = ([pol "team/a"; add_child period (pol "team/b")], []).
Proof. vm_compute. reflexivity. Qed.

(** A registry that resolves everything does not confirm a pinned digest: it is
    asked for a tag of that name. *)
Theorem pinned_digest_never_confirmed :
  is_ok (registry_resolve "registry.example.org" "policies/cis" "v1") = true /\
  is_ok (registry_resolve "registry.example.org" "policies/cis" demo_digest) = false.
Proof. split; vm_compute; reflexivity. Qed.
