(* ===== verification/Witnesses4.v ===== *)
(** * The theorems at concrete inputs: processes, log, registry of the tests, and from get
      to scan *)
From stdpp Require Import gmap.
From S2P Require Import Prelude GoStrings Digest OciRef World State Complypack Sync Config Workspace.
From S2P Require Import Provider Generation Resolver Evaluator Report Scan Plugin Processes Logging.
From S2P Require MockRegistry.
From S2P Require Import Lifecycle Sha256 Demo.

(** ** Processes *)

(** Two providers; the second's program is not a plugin of this protocol. *)
Definition two_providers_fs : node :=
  Dir {[ "data" := Dir {[ "providers" := Dir {[ "complyctl-provider-good" := File "" 493;
                                                "complyctl-provider-other" := File "" 493 ]} ]} ]}.
Definition two_providers_world : world :=
  MkWorld two_providers_fs 0 (fun _ => None) (fun t => Z.of_nat t) (fun _ _ => "r") ∅.

#[local] Instance some_programs : Programs := {
  program_at p := if bool_decide (p = ["data"; "providers"; "complyctl-provider-good"])
                  then Ok (Serve (te_provider "2026-01-01T00:00:00Z" []))
                  else Ok (MkProgram (MkHandshakeConfig 2 "OTHER" "") (te_provider "" []));
  handshake_error _ := Errorf "Unrecognized remote plugin message";
}.

(** The loading fails half-way, with one process running, and none is left. *)
Lemma no_plugin_outlives_command_witness :
  let run := with_providers ["data"; "providers"] (fun e => io_ret (error_text e)) (fun _ => io_ret "scanned")
               no_processes two_providers_world in
  ps_running run.1.2 = ∅ /\ ps_next run.1.2 = 2%nat /\
  run.1.1 = "provider discovery failed: failed to create client for provider other: " +:+
            "failed to connect to provider /data/providers/complyctl-provider-other: " +:+
            "Unrecognized remote plugin message".
Proof.
  intros run.
  pose proof (no_plugin_outlives_command ["data"; "providers"] (fun e => io_ret (error_text e)) (fun _ => io_ret "scanned")
    no_processes two_providers_world) as H.
  assert (Hn : ps_next run.1.2 = 2%nat) by (vm_compute; reflexivity).
  assert (Hm : run.1.1 = "provider discovery failed: failed to create client for provider other: " +:+
            "failed to connect to provider /data/providers/complyctl-provider-other: " +:+
            "Unrecognized remote plugin message") by (vm_compute; reflexivity).
  unfold run in *. clear run. destruct (with_providers _ _ _ _ _) as [[a ps'] w'].
  split; [|split; [exact Hn|exact Hm]]. apply H.
  - split; intros id Hid; [set_solver|]. inversion Hid.
  - reflexivity.
Defined.

(** ** The log *)

#[local] Instance plain_lines : LineFormat := fun l => ln_message l +:+ String "010" "".

Definition log_dir_entries : gmap string node := {[ "complyctl.log" := File "old" 384 ]}.
Definition log_world : world :=
  MkWorld (Dir {[ "ws" := Dir {[ ".complytime" := Dir log_dir_entries ]} ]})
    0 (fun _ => None) (fun t => Z.of_nat t) (fun _ _ => "r") ∅.

Lemma log_lines_exact_witness :
  let lines := ch_Error NewLogger "first" [] ++ ch_Debug NewLogger "hidden" [] ++ ch_Warn NewLogger "second" [] in
  let r := write_lines (file_writer []) lines (MkLogState (lw_SetWorkspace ["ws"] new_lazyLogWriter) "") log_world in
  exists perm, get ["ws"; ".complytime"; "complyctl.log"] (w_fs r.2) =
    Some (File ("first" +:+ String "010" "" +:+ "second" +:+ String "010" "") perm).
Proof.
  intros lines r. pose proof (log_lines_exact [] ["ws"] lines "" log_world) as H. cbv zeta in H.
  destruct H as (_ & _ & _ & _ & H).
  destruct (H ltac:(intros t; reflexivity) ltac:(discriminate) log_dir_entries
    ltac:(vm_compute; reflexivity) ltac:(vm_compute; reflexivity)) as (perm & Hg & _).
  exists perm. exact Hg.
Defined.

(** ** The registry of the tests *)

Definition two_layers : list MockRegistry.layerDef :=
  [MockRegistry.MkLayerDef MockRegistry.gemaraCatalogType "catalog"; MockRegistry.MkLayerDef MockRegistry.gemaraPolicyType "policy"].

#[local] Instance manifest_text : Codec MockRegistry.ociManifest := {
  marshal m := Ok (join "," (MockRegistry.OD_Digest <$> MockRegistry.OM_Layers m));
  unmarshal _ := Err (Errorf "not read");
}.
#[local] Instance document_text : Codec MockRegistry.document := {
  marshal _ := Ok "document"; unmarshal _ := Err (Errorf "not read") }.

(** The policy is pulled by its tag: the text of its manifest, and its second layer. *)
Lemma pushed_artifact_pulled_witness :
  let s := MockRegistry.addArtifact MockRegistry.newContentStore "policies/cis" ["latest"] two_layers in
  let manifest := MockRegistry.policy_manifest two_layers in
  MockRegistry.carries (digest_text (MockRegistry.marshalled manifest)) (MockRegistry.marshalled manifest)
    (MockRegistry.handleOCI s (MockRegistry.get "/v2/policies/cis/manifests/latest") MockRegistry.no_response) /\
  MockRegistry.carries (digest_text "policy") "policy"
    (MockRegistry.handleOCI s (MockRegistry.get ("/v2/policies/cis/blobs/" +:+ digest_text "policy"))
       MockRegistry.no_response).
Proof.
  intros s manifest.
  destruct (MockRegistry.pushed_artifact_pulled MockRegistry.newContentStore "policies/cis" ["latest"] two_layers)
    as (Hm & Hl & _).
  - split; [discriminate|]. split; vm_compute; reflexivity.
  - assert (Hd : NoDup (digest_text <$> ["{}"; "catalog"; "policy"])) by (apply (bool_decide_unpack _); vm_compute; exact I).
    intros a b Ha Hb. change (a ∈ ["{}"; "catalog"; "policy"]) in Ha. change (b ∈ ["{}"; "catalog"; "policy"]) in Hb.
    apply list_elem_of_lookup in Ha as [i Hi]. apply list_elem_of_lookup in Hb as [j Hj]. intros He.
    assert (i = j) as ->.
    { apply (proj1 (NoDup_alt _) Hd i j (digest_text a)); rewrite list_lookup_fmap; [by rewrite Hi|].
      rewrite Hj. cbn. f_equal. symmetry. exact He. }
    congruence.
  - split.
    + apply (Hm "latest"). split; [discriminate|reflexivity].
    + inversion Hl as [|d l ds ls _ Hrest]. subst. inversion Hrest as [|d' l' ds' ls' (_ & _ & Hp) _]. subst. exact Hp.
Defined.

(** ** From get to scan

    A store whose tags are files: the copy makes the marker and the tag. *)

Definition tag_file (p : path) (t : string) : path := p ++ ["tag-" +:+ t].

(** The copy writes both files and looks whether they are there. *)
#[local] Instance tag_oras : Oras := {|
  oci_New _ := io_ret (Ok tt);
  oras_Copy _ _ t p :=
    let! _ := os_WriteFile (p ++ [oci_layout]) "{}" 420 in
    let! _ := os_WriteFile (tag_file p t) "" 420 in
    do! _ := os_Stat (p ++ [oci_layout]) orelse (fun e => e) in
    do! _ := os_Stat (tag_file p t) orelse (fun e => e) in
    io_ret (Ok (MkDescriptor demo_digest ""));
  store_Fetch _ _ := io_ret (Ok "{}");
  decode_artifactType _ := Ok MediaTypeArtifact;
  complypack_Unpack _ _ := io_ret (Ok (demo_pack, Ok "content"));
|}.

#[local] Instance tag_reader : StoreReader := {|
  store_Resolve p t := let! r := os_Stat (tag_file p t) in
                       io_ret (match r with Ok _ => Ok (MkDescriptor demo_digest "") | Err e => Err e end);
  store_Tags _ := io_ret (Ok ["v1"]);
  parse_manifest _ := Err (Errorf "not read");
  bundle_Unpack _ _ := io_ret (Err (Errorf "not read"));
  bundle_MediaTypeManifest := "";
|}.

#[local, refine] Instance tag_laws : TagLaws := {|
  holds_tag p t n := is_Some (get (tag_file p t) n);
|}.
Proof.
  - done.
  - done.
  - intros p t w Hf. cbn. unfold io_bind, os_Stat, os_call. rewrite (Hf (w_tick w)) by lia.
    destruct (get _ _) as [x|]; cbn; split; [done|done|done|by intros [? ?]].
  - intros p t n n' Hq. unfold tag_file. rewrite Hq; [done|]. by exists ["tag-" +:+ t].
Defined.

Definition tag_source : Source :=
  MkSource (fun _ => io_ret (Ok (demo_digest, "v1")))
    (fun _ t p => do! _ := os_WriteFile (p ++ [oci_layout]) "{}" 420 orelse (fun e => e) in
                  do! _ := os_WriteFile (tag_file p t) "" 420 orelse (fun e => e) in
                  io_ret (Ok (MkDescriptor demo_digest ""))).

Lemma tag_source_copies id t p w1 ds w2 :
  Src_Copy tag_source id t p w1 = (Ok ds, w2) ->
  is_Some (get (p ++ [oci_layout]) (w_fs w2)) /\ holds_tag p t (w_fs w2).
Proof.
  cbn [Src_Copy tag_source holds_tag tag_laws]. unfold io_try, io_bind, io_ret, tag_file.
  destruct (os_WriteFile (p ++ [oci_layout]) _ _ w1) as [[[]|e] w3] eqn:E1; [|done].
  pose proof (preserves_WriteFile p ("tag-" +:+ t) "" 420 w3 (p ++ [oci_layout])) as Hk.
  destruct (os_WriteFile (p ++ ["tag-" +:+ t]) _ _ w3) as [[[]|e] w4] eqn:E2; [|done]. intros [= _ <-].
  apply os_WriteFile_ok in E1 as (pm1 & Hg1 & _), E2 as (pm2 & Hg2 & _). split; [|by eexists].
  cbn [snd] in Hk. rewrite Hk, Hg1; [by eexists|]. by apply diverges_snoc.
Qed.

Definition tag_sync : Sync := MkSync ["cache"] tag_source None "registry.example.org" false ["data"].
Definition tagged_run : result bool * State * world := SyncPolicy tag_sync demo_state "policies/new" "v1" demo_world.

Lemma tagged_ok : tagged_run = ((Ok true, tagged_run.1.2), tagged_run.2).
Proof. apply run_split. vm_compute. reflexivity. Qed.

Lemma tag_dirs_diverge : diverges ["data"] ["cache"; "policies"; "policies"; "new"].
Proof. split; intros [k Hk]; discriminate Hk. Qed.

Lemma fetched_version_resolves_witness :
  exists ps, GetPolicyState tagged_run.1.2 "policies/new" = Some ps /\ Version ps = "v1" /\
    (Loader_ResolveVersion ["cache"] "policies/new" (Version ps) tagged_run.2).1 = Ok (Version ps).
Proof.
  destruct (fetched_version_resolves tag_sync demo_state "policies/new" "v1" demo_digest "v1" demo_world _ _ tagged_ok)
    as (ps & Hps & Hv & Hr).
  - vm_compute. reflexivity.
  - intros t p w1 ds w2. apply tag_source_copies.
  - exact tag_dirs_diverge.
  - intros t. vm_compute. reflexivity.
  - discriminate.
  - exists ps. split; [exact Hps|]. split; [apply Hv; discriminate|exact Hr].
Defined.

Definition retagged_ref : PolicyRef :=
  MkPolicyRef "registry.example.org/policies/new:v2" "registry.example.org" "policies/new" "v2" "".

(** The same content under the tag v2 is up to date for get, and not there for scan. *)
Lemma retagged_version_stuck_witness :
  exists w'',
    Nat.iter 3 (fun r => SyncPolicy tag_sync r.1.2 "policies/new" "v2" r.2) ((Ok false, tagged_run.1.2), tagged_run.2) =
    ((Ok false, tagged_run.1.2), w'') /\ w_fs w'' = w_fs tagged_run.2 /\
    forall yaml : GemaraYAML, exists cached,
      (resolveVersionAndGraph (loader := Loader ["cache"]) retagged_ref w'').1 = Err (not_cached "policies/new" "v2" cached).
Proof.
  apply (retagged_version_stuck tag_sync demo_state "policies/new" "v1" demo_digest "v1" demo_world _ _ retagged_ref "v1"
    tagged_ok).
  - vm_compute. reflexivity.
  - intros t p w1 ds w2 E. apply (tag_source_copies _ _ _ _ _ _ E).
  - exact tag_dirs_diverge.
  - intros t. vm_compute. reflexivity.
  - reflexivity.
  - discriminate.
  - discriminate.
  - vm_compute. reflexivity.
  - intros [x Hx]. vm_compute in Hx. discriminate Hx.
Defined.
