(* ===== verification/Witnesses5.v ===== *)
(** * Progress, and a lost complypack, at a concrete machine

    A workspace with one policy that the registry serves, and a policy and a complypack
    whose references never parse, on a machine where every third call fails until tick 40.  Then a cache in which the
    recorded version of a complypack is missing and an older one is there, and a
    complypack that is fetched on a machine where nothing fails. *)
From stdpp Require Import gmap pretty.
From S2P Require Import Prelude GoStrings Digest OciRef World Settled State Complypack Sync Config.
From S2P Require Import Workspace Provider Generation Resolver Get Evaluator Report Scan Lifecycle.
From S2P Require Import Progress ProgressPacks PackProgress Liveness Fallback Scannable Demo Witnesses4.

(** ** A codec of states that is a bijection onto its image *)

#[local] Instance PolicyState_eq_dec : EqDecision PolicyState.
Proof. solve_decision. Defined.
#[local] Instance State_eq_dec : EqDecision State.
Proof. solve_decision. Defined.

#[local] Instance PolicyState_countable : Countable PolicyState.
Proof.
  refine (inj_countable'
    (fun p => ((Version p, Digest p, EvaluatorID p, LastUpdated p),
               (Verified p, SignerIdentity p, Issuer p, VerifiedAt p),
               (PolicyTitle p, PolicyEvaluator p, ControlCount p, AssessmentCount p)))
    (fun '((a, b, c, d), (e, f, g, h), (i, j, k, l)) => MkPolicyState a b c d e f g h i j k l) _).
  by intros [].
Defined.

#[local] Instance State_countable : Countable State.
Proof.
  refine (inj_countable' (fun s => (LastSync s, Policies s, Complypacks s))
                         (fun '(a, b, c) => MkState a b c) _).
  by intros [].
Defined.

Fixpoint bits (p : positive) : string :=
  match p with
  | xH => ""
  | xO p => String "0" (bits p)
  | xI p => String "1" (bits p)
  end.
Fixpoint read_bits (s : string) : positive :=
  match s with
  | EmptyString => xH
  | String c s => if Ascii.eqb c "0" then xO (read_bits s) else xI (read_bits s)
  end.

Lemma read_bits_bits p : read_bits (bits p) = p.
Proof. induction p; cbn; congruence. Qed.

#[local] Instance bit_codec : Codec State := {|
  marshal st := Ok (bits (encode st));
  unmarshal data := match decode (read_bits data) with Some st => Ok st | None => Err (Errorf "bad state") end;
|}.

(** ** The parties *)

#[local] Existing Instances tag_oras tag_reader tag_laws.

Definition hopeless_entry : PolicyEntry := MkPolicyEntry "" "broken" None false.
Definition flaky_policies : list PolicyEntry := [hopeless_entry; demo_policy_entry].
Definition flaky_config : WorkspaceConfig :=
  MkWorkspaceConfig 1 flaky_policies [hopeless_entry] [] ∅ (Some demo_verification).

(** Every third call fails before tick 40; the suffix drawn is the tick. *)
Definition flaky_world : world :=
  MkWorld demo_fs 0
    (fun t => if (t <? 40)%nat && (t mod 3 =? 0)%nat then Some (Sentinel (ErrIO 5)) else None)
    (fun t => Z.of_nat t) (fun t _ => pretty t) ∅.

Definition flaky_ref : PolicyRef := (ParsePolicyRef (PE_URL demo_policy_entry)).1.

Definition flaky_places : list path :=
  policy_stores ["cache"] flaky_policies ++ pack_regions ["cache"] ["tmp"] ["ws"].

Lemma flaky_stores : policy_stores ["cache"] flaky_policies = [["cache"; "policies"; "policies"; "cis"]].
Proof. vm_compute. reflexivity. Qed.

Lemma flaky_places_eq : flaky_places =
  [["cache"; "policies"; "policies"; "cis"]; ["cache"; "complypacks"]; ["tmp"]; ["ws"; ".complytime"]].
Proof. vm_compute. reflexivity. Qed.

(** Two of these places diverge when neither is a prefix of the other, which is
    decidable. *)
Ltac apart := split; apply (bool_decide_unpack _); vm_compute; exact I.

#[local] Instance flaky_layout : Layout ["data"] flaky_places.
Proof.
  rewrite flaky_places_eq. split.
  - intros st. exists (bits (encode st)). split; [done|]. cbn. by rewrite read_bits_bits, decode_encode.
  - intros p q Hp Hq. rewrite !list_elem_of_In in Hp, Hq. cbn in Hp, Hq.
    destruct Hp as [<-|[<-|[<-|[<-|[]]]]], Hq as [<-|[<-|[<-|[<-|[]]]]]; (by right) || (left; apart).
  - intros p Hp. rewrite list_elem_of_In in Hp. cbn in Hp. destruct Hp as [<-|[<-|[<-|[<-|[]]]]]; apart.
Defined.

#[local] Instance flaky_workspace : Places ["cache"] ["data"] ["tmp"] ["ws"] flaky_policies.
Proof.
  split; [exact flaky_layout|]. rewrite flaky_stores. intros p q Hp ->%list_elem_of_singleton.
  rewrite list_elem_of_In in Hp. cbn in Hp. destruct Hp as [<-|[<-|[<-|[]]]]; apart.
Defined.

Lemma Stat_tree p w r w' : os_Stat p w = (r, w') -> w_fs w' = w_fs w.
Proof. apply reads_tree, preserves_Stat. Qed.

Lemma store_op_Stat p q : store_op p (os_Stat q).
Proof. apply store_op_reads. split; [apply preserves_Stat|apply onward_call]. Qed.

Lemma Stat_stays (J : path -> node -> Prop) p q : stays (fun p w => J p (w_fs w)) p (os_Stat q).
Proof.
  split; [apply store_op_Stat|]. intros w. destruct (os_Stat q w) as [r w'] eqn:E. cbn. by rewrite (Stat_tree _ _ _ _ E).
Qed.

Lemma tag_reader_stays (J : path -> node -> Prop) : ReaderStays (fun p w => J p (w_fs w)).
Proof.
  split; intros; try apply stays_ret. cbn. apply stays_bind; [apply Stat_stays|]. intros. apply stays_ret.
Qed.

#[local] Instance flaky_reader_stays : ReaderStays marker.
Proof. apply (tag_reader_stays (fun p n => is_Some (get (p ++ [oci_layout]) n))). Defined.

(** Writing a file takes nothing away. *)
Lemma WriteFile_keeps d x y data perm w :
  is_Some (get (d ++ [y]) (w_fs w)) -> is_Some (get (d ++ [y]) (w_fs (os_WriteFile (d ++ [x]) data perm w).2)).
Proof.
  intros Hy. destruct (touches_WriteFile d x data perm w) as [_ Hf].
  destruct (decide (y = x)) as [->|Hne]; [|rewrite Hf; [done|set_solver]].
  destruct (os_WriteFile (d ++ [x]) data perm w) as [[[]|e] w'] eqn:E; cbn.
  - apply os_WriteFile_ok in E as (pm & -> & _). by eexists.
  - by rewrite (os_call_Err _ _ _ _ E).
Qed.

(** Once nothing fails, something of that name is there afterwards. *)
Lemma WriteFile_leaves d x data perm w :
  settled w -> is_dir (get d (w_fs w)) = true -> let w' := (os_WriteFile (d ++ [x]) data perm w).2 in
  settled w' /\ is_dir (get d (w_fs w')) = true /\ is_Some (get (d ++ [x]) (w_fs w')).
Proof.
  intros Hc Hd. destruct (os_WriteFile (d ++ [x]) data perm w) as [r w'] eqn:E. cbn.
  assert (is_Some (get (d ++ [x]) (w_fs w'))) as Hx.
  { destruct r as [[]|e]; [apply os_WriteFile_ok in E as (pm & -> & _); by eexists|].
    rewrite (os_call_Err _ _ _ _ E). revert E. unfold os_WriteFile, os_call.
    rewrite (Hc (w_tick w)), split_last_snoc, get_snoc by lia.
    destruct (get d (w_fs w)) as [[|m]|] eqn:Ed; [done| |done]. destruct (m !! x) as [n|] eqn:Ex; [by eexists|].
    destruct (alter_at_run (write_entry x data perm) d (w_fs w) m (<[x := File data perm]> m) Ed)
      as (n' & -> & _); [by unfold write_entry; rewrite Ex|done]. }
  split_and!; [by eapply (settled_onward _ _ _ _ (onward_call _) E)| |done].
  destruct Hx as [n Hn]. by apply get_file_dir in Hn as (m & -> & _).
Qed.

Lemma Stat_there p w x :
  settled w -> get p (w_fs w) = Some x -> os_Stat p w = (Ok x, tick (set_fs (w_fs w) w)).
Proof. intros Hc Hx. apply os_call_settled; [done|]. by rewrite Hx. Qed.

(** The copy leaves both files. *)
Lemma copy_written h r t p w :
  settled w -> is_dir (get p (w_fs w)) = true -> exists ds w', oras_Copy h r t p w = (Ok ds, w') /\ marker p w'.
Proof.
  intros Hc Hd. cbn [oras_Copy tag_oras]. unfold io_try, io_bind, tag_file.
  destruct (WriteFile_leaves p oci_layout "{}" 420 w Hc Hd) as (Hc1 & Hd1 & Hm).
  destruct (os_WriteFile (p ++ [oci_layout]) _ _ w) as [r1 w1]. cbn [snd] in *.
  pose proof (WriteFile_keeps p ("tag-" +:+ t) oci_layout "" 420 w1 Hm) as Hm2.
  destruct (WriteFile_leaves p ("tag-" +:+ t) "" 420 w1 Hc1 Hd1) as (Hc2 & _ & Ht).
  destruct (os_WriteFile (p ++ ["tag-" +:+ t]) _ _ w1) as [r2 w2]. cbn [snd] in *.
  destruct Hm2 as [x Hx], Ht as [y Hy].
  rewrite (Stat_there _ _ _ Hc2 Hx). set (w3 := tick (set_fs _ w2)).
  assert (settled w3) as Hc3 by (intros i Hi; apply Hc2; cbn in Hi; lia).
  rewrite (Stat_there _ w3 y Hc3 Hy). eexists _, _. split; [done|]. unfold marker. cbn. by rewrite Hx.
Qed.

(** It takes no tag, and leaves its own when it succeeds. *)
#[local] Instance tag_stays : TagsStay.
Proof.
  split.
  - intros p t n [x Hx]. cbn in Hx. by apply get_file_dir in Hx as (m & -> & _).
  - intros t. apply (tag_reader_stays (fun p n => holds_tag p t n)).
  - intros h r t' p t w Ht. cbn [oras_Copy tag_oras holds_tag tag_laws] in *. unfold io_try, io_bind, tag_file in *.
    apply (WriteFile_keeps p oci_layout _ "{}" 420) in Ht. destruct (os_WriteFile (p ++ [oci_layout]) _ _ w) as [r1 w1].
    cbn [snd] in Ht. apply (WriteFile_keeps p ("tag-" +:+ t') _ "" 420) in Ht. destruct (os_WriteFile (p ++ ["tag-" +:+ t']) _ _ w1) as [r2 w2].
    cbn [snd] in Ht. destruct (os_Stat _ w2) as [[x|e] w3] eqn:E3; rewrite <- (Stat_tree _ _ _ _ E3) in Ht; [|done].
    destruct (os_Stat _ w3) as [[y|e] w4] eqn:E4; by rewrite <- (Stat_tree _ _ _ _ E4) in Ht.
  - intros h r t p w ds w'. cbn [oras_Copy tag_oras holds_tag tag_laws]. unfold io_try, io_bind.
    destruct (os_WriteFile (p ++ [oci_layout]) _ _ w) as [r1 w1], (os_WriteFile (tag_file p t) _ _ w1) as [r2 w2].
    destruct (os_Stat _ w2) as [[x|e] w3]; [|done]. destruct (os_Stat _ w3) as [[y|e] w4] eqn:E4; [|done].
    intros [= _ <-]. rewrite (Stat_tree _ _ _ _ E4). revert E4. unfold os_Stat, os_call, not_exist.
    destruct (w_fault w3 _); [done|]. destruct (get (tag_file p t) (w_fs w3)); [by eexists|done].
Qed.

#[local] Instance flaky_parties_stay : PartiesStay.
Proof.
  split.
  - intros h r t p. cbn. unfold tag_file. pose proof (store_op_Stat p). go_store.
  - intros p d. split; [apply preserves_ret|apply onward_ret].
  - intros p d. split; [apply preserves_ret|apply onward_ret].
  - intros p d w cfg content w' E. cbn in E. unfold io_ret in E. injection E as <- _ _. by left.
  - intros cfg. unfold buildVerifierFromConfig. destruct (negb _); (split; [apply preserves_ret|apply onward_ret]).
  - intros cfg vf x i (w & w' & Hb). unfold buildVerifierFromConfig in Hb.
    destruct (negb _) in Hb; cbn in Hb; unfold io_ret in Hb; simplify_eq; (split; [apply accept_reads|apply onward_ret]).
Defined.

(** A machine with these files on which the suffix drawn is the tick. *)
Lemma demo_ready w :
  w_fs w = demo_fs -> w_rand w = (fun t _ => pretty t) -> ready ["data"] flaky_places (fun _ => 0) w.
Proof.
  assert (forall p, p ∈ ["data"] :: flaky_places -> room p demo_fs) as Hroom.
  { rewrite flaky_places_eq. intros p Hp q d pm Hq E. rewrite list_elem_of_In in Hp. cbn in Hp.
    destruct Hp as [<-|[<-|[<-|[<-|[<-|[]]]]]]; destruct Hq as [k Hk];
      repeat (destruct q as [|? q]; [discriminate E|first [discriminate Hk|injection Hk as <- Hk; try discriminate E]]). }
  intros Hfs Hrand. split; rewrite ?Hfs, ?Hrand.
  - apply Hroom. left.
  - intros p Hp. apply Hroom. by right.
  - exact I.
  - intros t _. by rewrite Hfs.
  - split; [intros _; apply temp_tries_pos|]. intros t t' k Hlt Heq. apply (inj pretty) in Heq. lia.
Qed.

Lemma flaky_ready : ready ["data"] flaky_places (fun _ => 0) flaky_world.
Proof. by apply demo_ready. Qed.

Lemma flaky_built vf : built demo_verification vf -> vf = accept_all.
Proof. intros (w & w' & Hb). unfold buildVerifierFromConfig in Hb. cbn in Hb. unfold io_ret in Hb. destruct (negb _); congruence. Qed.

Lemma flaky_servable :
  servable ["cache"] (Some demo_verification) demo_policy_entry flaky_ref demo_digest "v1".
Proof.
  split.
  - vm_compute. reflexivity.
  - discriminate.
  - vm_compute. reflexivity.
  - vm_compute. reflexivity.
  - intros w p _ Hd. by exists w.
  - intros w p Hw Hd. unfold CopyPolicy, io_try, io_bind at 1.
    assert (exists repo, NewRemoteRepository (NewClient (PR_Registry flaky_ref)) (PR_Repository flaky_ref) = Ok repo)
      as [repo ->] by (eexists; vm_compute; reflexivity).
    by apply copy_written.
  - intros cfg _ [= <-]. change (SplitHostScheme (PR_Registry flaky_ref)) with ("registry.example.org", false).
    destruct (classifyVersion _) as [tag dg]. split; [discriminate|]. split.
    + intros w _. eexists _, _. reflexivity.
    + intros vf ->%flaky_built. split; [apply accept_reads|apply onward_ret|]. intros w _. by eexists _, _.
Qed.

Lemma flaky_own_store : own_store ["cache"] flaky_policies demo_policy_entry.
Proof. intros e [->|[->|[]%elem_of_nil]%elem_of_cons]%elem_of_cons; [discriminate|done]. Qed.

Definition flaky_runs (n : nat) : world :=
  Nat.iter n (fun w => (get_run (loader := Loader ["cache"]) ["tmp"] (Ok tt) ["cache"] ["data"] ["ws"]
                          flaky_config false w).2) flaky_world.



(** ** A lost version *)

Definition lost_fs : node :=
  Dir {[ "cache" := Dir {[ "complypacks" := Dir {[ "openscap" := Dir {[ "v1" :=
    Dir {[ complypackContentFile := File "old" 384; complypackConfigFile := File "pack" 384 ]} ]} ]} ]} ]}.
Definition lost_world : world := MkWorld lost_fs 0 (fun _ => None) (fun t => Z.of_nat t) (fun _ _ => "r") ∅.
Definition lost_entry : PolicyState := demo_entry "v2" "openscap" 5.
Definition lost_state : State := MkState 5 ∅ {[ "packs/openscap" := lost_entry ]}.

Lemma lost_here : lost demo_cache lost_state lost_entry lost_fs.
Proof.
  split.
  - split; [discriminate|vm_compute; reflexivity].
  - vm_compute. reflexivity.
  - vm_compute. reflexivity.
  - eexists _, "v1". split; [vm_compute; reflexivity|]. split; [|by eexists].
    rewrite list_elem_of_In. vm_compute. by left.
  - intros m x Hm Hx _. vm_compute in Hm. injection Hm as <-. rewrite list_elem_of_In in Hx. vm_compute in Hx.
    destruct Hx as [<-|[]]. eexists _, _, _. split; [vm_compute; reflexivity|reflexivity].
Qed.

Lemma lost_version_not_refetched_witness :
  exists w',
    Nat.iter 3 (fun x => SyncComplypack ["tmp"] (demo_complypack_sync None) x.1.2 "packs/openscap" "v2" x.2)
      ((Ok false, lost_state), lost_world) = ((Ok false, lost_state), w') /\ w_fs w' = lost_fs /\
    exists p cfg, (LookupByEvaluatorID demo_cache (Some lost_state) "openscap" w').1 = Ok (Some (p, cfg)) /\
      p <> complypackDir demo_cache "openscap" "v2" ++ [complypackContentFile].
Proof.
  apply (lost_version_not_refetched ["tmp"] (demo_complypack_sync None) lost_state "packs/openscap" "v2" demo_digest "1.0.0"
           lost_entry lost_world).
  - discriminate.
  - by right.
  - vm_compute. reflexivity.
  - vm_compute. reflexivity.
  - reflexivity.
  - exact lost_here.
  - done.
Defined.

(** ** A complypack is fetched *)

Definition quiet_source : Source :=
  MkSource (fun _ => io_ret (Ok (demo_digest, "v2"))) (fun _ _ _ => io_ret (Ok (MkDescriptor demo_digest MediaTypeArtifact))).
Definition quiet_sync : ComplypackSync :=
  MkComplypackSync demo_cache quiet_source (Some accept_all) "registry.example.org" false ["data"].
Definition quiet_world : world :=
  MkWorld demo_fs 0 (fun _ => None) (fun t => Z.of_nat t) (fun t _ => pretty t) ∅.

Lemma quiet_behaved : pack_behaved ["data"] ["tmp"] flaky_places quiet_sync.
Proof.
  assert (forall A (a : A), reads (io_ret a) /\ onward (io_ret a)) as Hret.
  { split; [apply preserves_ret|apply onward_ret]. }
  rewrite flaky_places_eq. split.
  - done.
  - rewrite list_elem_of_In. cbn. auto.
  - rewrite list_elem_of_In. cbn. auto.
  - intros x. apply Hret.
  - intros vf x i [= <-]. apply Hret.
  - intros p. apply store_op_ret.
  - intros x t p. apply store_op_ret.
  - intros p ds. apply Hret.
  - intros p ds w cfg content w' [= <- _ _]. by left.
Qed.

Lemma quiet_served : pack_served quiet_sync "packs/openscap" "v2" demo_digest "v2" demo_pack "content" "pack".
Proof.
  split; try done.
  - by right.
  - cbn. split; [apply preserves_ret|apply onward_ret|]. intros w _. by eexists _, _.
  - intros vf [= <-]. cbn. split; [apply accept_reads|apply onward_ret|]. intros w _. by eexists _, _.
  - intros p w _ _. by eexists _, w, w, w.
Qed.

